(* ===== verification/_CoqProject ===== *)
-Q . S2P
Prelude.v
Spsc.v
Future.v
Track.v
Slab.v
Task.v
Executor.v
ExecutorDemo.v
ExecutorFacts.v
ExecutorLive.v
ExecutorType.v
Await.v
Timer.v
Sleep.v
UringAlloc.v
UringReactor.v
SubmitThread.v
UringIo.v
RingWait.v
UcxWorker.v
UcxWait.v
CollBase.v
AmRouter.v
Spmd.v
Ring.v
RecDouble.v
Bruck.v
Bcast.v
AmNet.v
AmColl.v
Pool.v
PipeRing.v
PoolNet.v
PipeNet.v
Adaptive.v
Collective.v
Disjoint.v
Bootstrap.v
Mpi.v
MpiFutures.v
MpiWait.v
Service.v
ServiceRun.v
TimerService.v
RingService.v
MpiService.v
UcxService.v
Concurrent.v
Window.v
ReadBench.v
Exchange.v
RemoteIo.v
BlockIo.v
CollDemo.v
UnitTests.v
