(* ===== verification/Prelude.v ===== *)
(** * Pluvio: a verification development of the pluvio asynchronous runtime

    Pluvio is a single-threaded asynchronous runtime for HPC I/O, written in Rust.  A
    [Runtime] polls tasks from two queues and, between them, the reactors that were
    registered with it: timers, io_uring, UCX workers, MPI requests.  A reactor wakes the
    tasks whose operation completed by sending their ids to a queue.  On top of the
    UCX and MPI reactors there is a library of collective operations over ranks.

    The development is a shallow embedding.  A Rust function is a function on the state
    it reads and writes; a panic is [Panic] of the monad [outcome] of this file; machine
    integers are [Z] with the wrap-around written out ([wrap64] and the like); what the
    code shares through an [Rc] or a raw pointer lives in a store and is named by its
    address.  [std::future::Future] is the class [Future.Future]: polling a future changes
    the world and says ready or pending.  Crates that are not part of the repository are
    classes with their documented behaviour as laws, and each class has an instance, so
    that every theorem is also applied at a concrete input: [Slab.Slab],
    [UringReactor.Ring], [SubmitThread.SharedQueue], [UringIo.SocketOs], [Mpi.MpiLib], [Bootstrap.TcpOs] (a record
    without laws), and the future of [async_ucx] around which [UcxWorker] brackets its
    operations.

    ** The runtime: [src/pluvio_runtime]

    - [Spsc] ([executor/spsc.rs]): the channel, a ring buffer that is bounded or grows;
      its methods, its halves with their clones and drops, and the drop of the whole.
      [spsc_refines_fifo]: it implements a queue.  [disconnection],
      [inner_drop_releases_queue]: who sees the channel closed, and what becomes of the
      elements left.  The executor uses it through the class [FifoChan].
    - [Future] ([task/waker.rs], [select.rs]): wakers, the interface of futures, [select].
    - [Track] ([track.rs]): per-task ids.  [track_ids_distinct]: they are unique among
      live tasks, to any nesting of the wrappers, until a run has made enough polls to wrap
      the 64-bit counter ([track_fresh] bounds the ids one poll may create).
    - [Slab]: the interface of the crate [slab].
    - [Task] ([task/mod.rs], [task/stat.rs], [executor/stat.rs]): the state shared by a
      task and its join handle, and statistics.  [join_delivers_once].
    - [Executor] ([executor/mod.rs]): [Runtime] and all its scheduling methods over a
      [World] that holds the runtime, the shared states, the track ids and an environment
      of any type.  User code is a parameter: a poll of a user future is an [Act], the
      sequence of runtime operations it performs, at the end of which it returns or panics.
      [ExecutorDemo] makes it run.
      [ExecutorFacts]: the invariant [WF] and [executor_ops_safe], that no operation
      panics while the queues have room.  [ExecutorLive]: how [run_queue] ends
      ([run_queue_terminates], [deadlock_is_reported], [run_queue_exit_reason]) and how a
      result reaches its handle ([completion_reaches_handle]).  [ExecutorType]: the
      downcast of a result never fails ([join_handles_well_typed], an invariant in the
      manner of a store typing).
    - [Await]: the interface between the runtime and a future with its reactor.  The class
      [Served] is what a reactor promises (it reports [Running] in bounded time, and a
      bounded number of its polls wakes the future); [block_on_returns] is what the runtime
      promises in return.  Every reactor keeps it: [Sleep], [RingWait], [UcxWait] and
      [MpiWait] below.
    - [Service]: the same for several tasks and several reactors that share a thread.  The
      class [Serves] is what a set of reactors promises to any number of operations in
      flight; the sum of two services keeps the promise when both do.  [ServiceRun] is the
      runtime's side: tasks run async functions ([Async]) that await one operation after
      another, and [run_queue] ends with all of them returned.  [TimerService],
      [RingService], [MpiService] and [UcxService] discharge the promise, and [Concurrent]
      puts the four reactors together: [run_queue_completes_all].

    ** Reactors

    - [Timer] ([src/pluvio_timer/src/lib.rs]): the whole crate.  [timer_fires_once],
      [wake_expired_spec] (polling equals the naive scan), [delay_spec] (how a delay resolves).
      [Sleep]: [block_on_sleeps], that a thread that blocks on a delay returns, never
      early, with the timer gone.
    - [UringAlloc], [UringReactor], [UringIo] ([src/pluvio_uring]): the pool of fixed
      buffers ([buffers_conserved], [waiters_fifo]); the reactor over an abstract ring
      ([uring_poll_delivers], [awaiting_clients_safe]); files and datagram sockets
      ([file_op_completes], [fixed_buffer_not_lost], [sockaddr_roundtrip],
      [bind_owns_fd]).  [RingWait]: [block_on_file_op], that a thread that blocks on a
      file operation returns, in both polling modes, if the runtime is patient enough;
      [impatient_block_on_panics] shows a run that is not.
      [SubmitThread]: the thread that enters the kernel for the reactor, as a second process
      beside it, with what each sees of the other's writes; [submissions_reach_kernel].
    - [UcxWorker] ([src/pluvio_ucx]): the states of the workers and the counter the
      reactor's status rests on.  [ucx_counter_exact], [pending_op_keeps_running],
      [ucx_counter_drift].  [UcxWait]: [block_on_ucx_op], that a thread that blocks
      on an operation of a worker returns.

    ** Collectives: [src/pluvio_collective]

    - [CollBase] ([op.rs], [error.rs], [ucx_backend/tag.rs], headers of [am_router.rs]):
      reduction operators, tags, headers.
    - [AmRouter] ([ucx_backend/am_router.rs]): matching active messages to receives.
      [message_meets_receive].
    - [Spmd]: programs of one rank as a tree of sends and receives ([Prog]), the network,
      and the lemma that makes the collectives tractable: steps of different ranks
      commute, so what one schedule ends with every schedule ends with ([Completes]:
      every run has the same length and result, and none gets stuck).
    - [Ring], [RecDouble], [Bruck], [Bcast] (the files of the same names, and
      [scatter.rs]): one theorem each, that every interleaving of any number of ranks ends
      with the specified buffers at every rank, error returns included.
    - [AmNet]: ranks that receive through [AmRouter]s, over a network that reorders, with
      wake-ups and sleeping ranks; [router_refines_network] carries a theorem about [Spmd]
      over to it, and [AmColl] does so for broadcast, scatter and allgather.
    - [Pool]: a rank that drives several futures over one buffer ([FuturesUnordered]).
      [PipeRing] ([pipelined_ring.rs]) uses it: [pipelined_ring_correct], equality with
      the plain ring on every interleaving of ranks and chains.  [PoolNet] is to [Pool]
      what [AmNet] is to [Spmd]: chains that wait in the rank's router, each polled only
      when it was woken; [PipeNet] carries the pipelined ring over
      ([pipelined_ring_over_routers]).
    - [Adaptive] ([adaptive.rs], [communicator.rs]) and [Collective] (the traits of
      [communicator.rs] and [lib.rs] as classes): the choice of the algorithm, and the
      contract the traits' documentation states.  [adaptive_allreduce_agrees];
      [collective_outcomes_exact]: how every call of both UCX communicators ends, and that
      the contract, read literally, is kept only by groups of one rank.
    - [Bootstrap] ([bootstrap.rs]): how ranks exchange addresses over TCP.
      [bootstrap_connects], [bootstrap_root_total].
    - [Mpi] ([mpi_backend/]): the reactor over pending requests, the futures and the
      communicator.  [mpi_poll_exact], [mpi_future_completes].  [MpiFutures]: the four
      futures as the code declares them, which refine the one of [Mpi].  [MpiWait]:
      [block_on_mpi], that a thread that blocks on an MPI collective returns.

    ** Programs: [src/examples], [src/pluvio_collective/examples]

    - [Window]: the shape of the networked benchmarks, a client that keeps a window of
      requests in flight and a server that takes them one by one or spawns tasks, over a
      network that reorders.  [window_runs]: how every run ends; [window_zero_hangs].
    - [ReadBench] ([mpi_example]): arguments, configuration, headers, the work of client and
      server, the statistics.  [read_benchmark_correct]: every interleaving ends with
      each request answered by the right bytes; [summary_total]: when the summaries panic.
      [Exchange]: how the two exchange the addresses of their workers over byte streams
      ([exchange_completes], [partial_receive_hangs]) and what [main] reports.
    - [RemoteIo] ([remoteio_example], [ucx_example]): [remote_writes_arrive];
      [failed_write_hangs] and [ucx_server_waits] show runs that hang.
    - [BlockIo] ([uring_example]): the pump of block operations, [every_block_once].
    - [CollDemo] ([coll_ucx_example], [coll_ucx_pipelined], [coll_adaptive]):
      [demos_as_expected]; [three_ranks_fail], a number of ranks the last one panics with.

    ** Tests

    - [UnitTests]: the unit tests of the repository as programs over the model, with the
      theorems that they pass; [stat_tests_pass] says when one of them does not.
    - [Disjoint] ([ucx_backend/util.rs]): a helper that only its own test calls.

    ** Loops and fuel

    Loops over a structure are structural.  The event loops ([run_queue], [block_on]) and
    the spinning receives of [Spsc] take fuel and answer [OutOfFuel] or [None] when it runs
    out, which no theorem takes for a return.  Enough is: for [run_queue_terminates] one pass
    for each unit of the work bound [n], for [deadlock_is_reported] the configured number
    of stuck passes and one more, for [block_on_returns] more than
    [(N + 1) * (looks + 1) * (patience + 1)], where [N] bounds the reactor's polls, [looks]
    the times it reports [Stopped] in a row and [patience] the passes between two looks at
    it, and for [run_queue_completes_all] the passes that [ServiceRun.enough] computes from the
    operations of each function, their costs and what was left in flight.  The runs of
    [Window] and [BlockIo] are relations: their theorems bound the length of every run and
    say what holds when no step is left.  The Bruck rounds take as
    fuel the number of ranks (the distance doubles), the drain loop of the pipelined ring
    the number of chains, the loop of the MPI reactor the number of requests; each is
    proved to be enough by the component's theorem, which states the result.

    ** Assumptions

    - The environment of the executor (user futures, reactors) is any function; theorems
      that need more say so ([act_sends_le], [coop], [reactors_ok]).
    - [Spmd] and [Pool] deliver every message and a send does not wait for its receiver.
      [AmNet] and [PoolNet] drop the order of delivery; there a rank may receive a message before it
      has asked for it.  [Pool] lets chains move while the main future still pushes, so
      its runs include those of [FuturesUnordered].
    - Every allreduce leaves the same buffer at all ranks whatever the operator; that it is
      the reduction of all buffers in rank order is stated of an associative and
      commutative one, which machine integers have and floats do not.
    - Instants are natural nanoseconds and do not overflow; clocks are monotone.
    - [block_on_returns] asks for at least [(looks + 1) * (patience + 1)] stuck passes
      (PLUVIO_MAX_STUCK_ITERATIONS): the caching of a status uses them up between two looks.
    - The submission thread and the reactor share a queue that keeps its counters in order
      ([SharedQueue]); the flag and the park token are seen at their latest value, the tail
      of the queue only as far as it was acquired with one of them.  The size of the ring is
      the kernel's choice; what a call cannot take because of it waits for the next signal.
    - The streams of an endpoint keep the order of their bytes; [exchange_completes] asks that
      a receive fills its buffer.
    - The kernel completes an entry within a number of the reactor's polls ([Kernel]), the
      MPI library an accepted call within a number of tests ([Prompt]), and [async_ucx] an
      operation within a number of rounds of progress ([Library]); for several operations
      in flight these are [KernelSpec], [Patience] and [LibrarySpec].
    - [Concurrent] asks for at least as many stuck passes as one round of all reactors takes
      and the tasks together ([T] and [round]), and that one worker of the UCX reactor has a
      listener or a stream that was waited for: without it overlapping operations may
      starve each other ([overlapping_ops_stop_reactor]).
    - In the benchmarks a file reads back what was written within its length ([Files]), a
      read or write transfers all it was asked for, and [recv_data_single] fills a buffer
      of the length of the message.  The floats of the collective demonstrations are small
      integers, which addition gets right.

    ** Not modelled

    - Log lines, [tracing] spans, [Debug] output, the statistics flag of [pluvio_ucx] and
      the floats of [used_buffers]: nothing in the program reads them.
    - [parse_v4] of [pluvio_uring], which wraps a parser of the standard library; raw
      pointers into buffers.
    - Calls of [pluvio_ucx] that only forward to [async_ucx]; the activation of a worker
      around each collective's sends is proved of [UcxWorker] and not repeated in [Spmd].
    - What MPI does to the buffers of a request.
    - [set_affinity], a system call, and calls of [run] or [block_on] from inside a task.
    - Of the example programs: printing and timing, the set-up of reactors and
      connections; of [coll_mpi_example] the calls are modelled ([MpiFutures]), and not what
      the MPI library computes.
    - Crate roots; the tests over several processes, whose properties are theorems here for
      every number of ranks, and the tests of [file.rs] and [socket.rs], which need the
      kernel. *)

From stdpp Require Export base numbers list gmap strings.
From Stdlib Require Export ZArith Lia.
From Stdlib Require Import Ascii.

(** ** Outcomes: a Rust computation returns a value or panics *)

Inductive outcome (A : Type) : Type :=
| Ok (a : A)
| Panic (msg : string).
Arguments Ok {A} a.
Arguments Panic {A} msg.

#[export] Instance outcome_ret : MRet outcome := fun A a => Ok a.
#[export] Instance outcome_bind : MBind outcome := fun A B f m =>
  match m with Ok a => f a | Panic s => Panic s end.
#[export] Instance outcome_fmap : FMap outcome := fun A B f m =>
  match m with Ok a => Ok (f a) | Panic s => Panic s end.

Definition is_Ok {A} (m : outcome A) : Prop := exists a, m = Ok a.

(** [Option::expect] and [Option::unwrap]. *)
Definition expect {A} (msg : string) (o : option A) : outcome A :=
  match o with Some a => Ok a | None => Panic msg end.

Lemma bind_Ok {A B} (f : A -> outcome B) (m : outcome A) (b : B) :
  m ≫= f = Ok b <-> exists a, m = Ok a /\ f a = Ok b.
Proof.
  destruct m as [a|s]; cbn; split.
  - eauto.
  - by intros (? & [= ->] & ?).
  - done.
  - by intros (? & ? & ?).
Qed.

Lemma expect_Ok {A} msg (o : option A) a : expect msg o = Ok a <-> o = Some a.
Proof. destruct o; cbn; split; congruence. Qed.

(** ** Polling: [std::task::Poll] *)

Inductive Poll (A : Type) : Type :=
| Ready (a : A)
| Pending.
Arguments Ready {A} a.
Arguments Pending {A}.

#[export] Instance Poll_fmap : FMap Poll := fun A B f p =>
  match p with Ready a => Ready (f a) | Pending => Pending end.

Definition is_ready {A} (p : Poll A) : bool :=
  match p with Ready _ => true | Pending => false end.

(** [Result<A, E>] of the standard library. *)
Inductive result (A E : Type) : Type :=
| ROk (a : A)
| RErr (e : E).
Arguments ROk {A E} a.
Arguments RErr {A E} e.

(** ** Machine integers *)

Definition usize_max : Z := 2 ^ 64 - 1.
Definition isize_max : Z := 2 ^ 63 - 1.
Definition u64_max : Z := 2 ^ 64 - 1.
Definition wrap64 (z : Z) : Z := z `mod` 2 ^ 64.
Definition wrap32 (z : Z) : Z := z `mod` 2 ^ 32.
Definition wrap16 (z : Z) : Z := z `mod` 2 ^ 16.
Definition wrap8 (z : Z) : Z := z `mod` 2 ^ 8.

Definition in_u64 (z : Z) : Prop := (0 <= z < 2 ^ 64)%Z.
Definition in_u32 (z : Z) : Prop := (0 <= z < 2 ^ 32)%Z.
Definition in_u16 (z : Z) : Prop := (0 <= z < 2 ^ 16)%Z.
Definition in_u8 (z : Z) : Prop := (0 <= z < 2 ^ 8)%Z.

(** [usize::saturating_mul] and [usize::saturating_sub] on indices kept as [nat]. *)
Definition usize_saturating_mul (a b : nat) : nat :=
  Z.to_nat (Z.min (Z.of_nat a * Z.of_nat b) usize_max).
Definition usize_saturating_sub (a b : nat) : nat := a - b.

Lemma usize_saturating_mul_exact a b :
  (Z.of_nat a * Z.of_nat b <= usize_max)%Z -> usize_saturating_mul a b = a * b.
Proof. unfold usize_saturating_mul. lia. Qed.

Lemma usize_saturating_mul_le a b :
  (Z.of_nat (usize_saturating_mul a b) <= Z.of_nat a * Z.of_nat b)%Z.
Proof. unfold usize_saturating_mul. lia. Qed.

Lemma wrap64_small z : in_u64 z -> wrap64 z = z.
Proof. intros H. apply Z.mod_small, H. Qed.

Lemma wrap64_range z : in_u64 (wrap64 z).
Proof. apply Z.mod_pos_bound. lia. Qed.

(** [OnceCell::set]: the first value stays. *)
Definition once_set {A} (cell : option A) (a : A) : option A :=
  match cell with Some _ => cell | None => Some a end.

(** ** Decimal numbers: [str::parse] for an unsigned type, an optional plus sign and
    digits whose value is at most [max] *)

Definition digit_of (c : ascii) : option Z :=
  let d := Z.of_N (N_of_ascii c) in
  if (48 <=? d)%Z && (d <=? 57)%Z then Some (d - 48)%Z else None.
Fixpoint parse_digits (max acc : Z) (s : string) : option Z :=
  match s with
  | EmptyString => Some acc
  | String c s =>
      d ← digit_of c;
      let acc := (acc * 10 + d)%Z in
      if (acc <=? max)%Z then parse_digits max acc s else None
  end.
Definition parse_uint (max : Z) (s : string) : option Z :=
  match s with
  | EmptyString | String "+" EmptyString => None
  | String "+" s => parse_digits max 0 s
  | s => parse_digits max 0 s
  end.

Lemma parse_digits_range max acc s z : (0 <= acc <= max)%Z -> parse_digits max acc s = Some z -> (0 <= z <= max)%Z.
Proof.
  revert acc. induction s as [|c s IH]; intros acc Ha; cbn [parse_digits]; [by intros [= <-]|].
  destruct (digit_of c) as [d|] eqn:Hd; [|done]. cbn [mbind option_bind].
  destruct (Z.leb_spec (acc * 10 + d) max); [|done]. apply IH.
  unfold digit_of in Hd. destruct (_ && _) eqn:Hb; [|done]. injection Hd as <-. lia.
Qed.

Lemma parse_uint_range max s z : (0 <= max)%Z -> parse_uint max s = Some z -> (0 <= z <= max)%Z.
Proof.
  intros Hm. unfold parse_uint. repeat case_match; try done; intros Hp; (eapply parse_digits_range; [|exact Hp]; lia).
Qed.

(** ** Little-endian bytes, as [to_le_bytes] and [from_le_bytes] *)

Fixpoint le_bytes (n : nat) (z : Z) : list Z :=
  match n with
  | O => []
  | S n => (z `mod` 256)%Z :: le_bytes n (z / 256)%Z
  end.

Fixpoint of_le_bytes (bs : list Z) : Z :=
  match bs with
  | [] => 0
  | b :: bs => (b + 256 * of_le_bytes bs)%Z
  end.

Lemma le_bytes_length n z : length (le_bytes n z) = n.
Proof. revert z; induction n as [|n IH]; intros z; simpl; auto. Qed.

Lemma of_le_bytes_le_bytes n z :
  of_le_bytes (le_bytes n z) = (z `mod` 256 ^ Z.of_nat n)%Z.
Proof.
  revert z; induction n as [|n IH]; intros z.
  - simpl. by rewrite Z.mod_1_r.
  - cbn [le_bytes of_le_bytes]. rewrite IH, Nat2Z.inj_succ, Z.pow_succ_r by lia.
    rewrite Z.rem_mul_r by lia. lia.
Qed.

Definition byte_ok (b : Z) : Prop := (0 <= b < 256)%Z.

Lemma le_bytes_ok n z : Forall byte_ok (le_bytes n z).
Proof.
  revert z; induction n as [|n IH]; intros z; constructor; auto.
  apply Z.mod_pos_bound. lia.
Qed.

Lemma le_bytes_of_le_bytes bs :
  Forall byte_ok bs -> le_bytes (length bs) (of_le_bytes bs) = bs.
Proof.
  induction 1 as [|b bs Hb _ IH]; [done|]. unfold byte_ok in Hb.
  cbn [length le_bytes of_le_bytes]. f_equal.
  - rewrite (Z.mul_comm 256), Z.mod_add by lia. by apply Z.mod_small.
  - rewrite (Z.mul_comm 256), Z.div_add by lia.
    rewrite Z.div_small by lia. by rewrite Z.add_0_l.
Qed.

(** ** Slices: [&buf[off..off + len]] and [copy_from_slice] into it *)

Section slices.
Context {A : Type}.
Implicit Types (l xs : list A) (off len : nat).

Definition slice off len l : list A := take len (drop off l).
Definition splice off xs l : list A :=
  take off l ++ xs ++ drop (off + length xs) l.

Lemma slice_length off len l :
  off + len <= length l -> length (slice off len l) = len.
Proof. intros. unfold slice. rewrite length_take, length_drop. lia. Qed.

Lemma splice_length off xs l :
  off + length xs <= length l -> length (splice off xs l) = length l.
Proof.
  intros. unfold splice. rewrite !length_app, length_take, length_drop. lia.
Qed.

Lemma slice_lookup off len l i :
  i < len -> slice off len l !! i = l !! (off + i).
Proof. intros. unfold slice. by rewrite lookup_take_lt, lookup_drop by lia. Qed.

Lemma splice_lookup off xs l i :
  off + length xs <= length l ->
  splice off xs l !! i =
    (if decide (off <= i < off + length xs) then xs !! (i - off) else l !! i).
Proof.
  intros Hlen. unfold splice. case_decide as Hi.
  - rewrite lookup_app_r by (rewrite length_take; lia).
    rewrite length_take, Nat.min_l by lia.
    by rewrite lookup_app_l by lia.
  - destruct (decide (i < off)) as [Hlt|Hge].
    + rewrite lookup_app_l by (rewrite length_take; lia).
      by rewrite lookup_take_lt.
    + rewrite lookup_app_r by (rewrite length_take; lia).
      rewrite length_take, Nat.min_l by lia.
      rewrite lookup_app_r by lia. rewrite lookup_drop. f_equal. lia.
Qed.

Lemma slice_splice_eq off xs l :
  off + length xs <= length l -> slice off (length xs) (splice off xs l) = xs.
Proof.
  intros. apply list_eq. intros i.
  destruct (decide (i < length xs)) as [Hi|Hi].
  - rewrite slice_lookup, splice_lookup by lia.
    rewrite decide_True by lia. f_equal. lia.
  - rewrite !lookup_ge_None_2; [done|lia|].
    rewrite slice_length; [lia|]. rewrite splice_length; lia.
Qed.

Lemma slice_splice_ne off1 len off2 xs l :
  off2 + length xs <= length l ->
  off1 + len <= off2 \/ off2 + length xs <= off1 ->
  slice off1 len (splice off2 xs l) = slice off1 len l.
Proof.
  intros Hlen Hdisj. apply list_eq. intros i.
  destruct (decide (i < len)) as [Hi|Hi].
  - rewrite !slice_lookup, splice_lookup by lia.
    by rewrite decide_False by lia.
  - rewrite !lookup_ge_None_2; [done| |]; unfold slice; rewrite length_take; lia.
Qed.

Lemma slice_slice off len off' len' l :
  off' + len' <= len -> slice off' len' (slice off len l) = slice (off + off') len' l.
Proof.
  intros Hl. apply list_eq. intros i. destruct (decide (i < len')).
  - rewrite !slice_lookup by lia. f_equal. lia.
  - unfold slice. rewrite !lookup_ge_None_2; [done| |]; rewrite length_take; lia.
Qed.

Lemma slice_splice_in o len off xs l :
  off <= o -> o + len <= off + length xs -> off + length xs <= length l ->
  slice o len (splice off xs l) = slice (o - off) len xs.
Proof.
  intros Ho Hx Hl. apply list_eq. intros i. destruct (decide (i < len)).
  - rewrite !slice_lookup, splice_lookup by lia. rewrite decide_True by lia. f_equal. lia.
  - unfold slice. rewrite !lookup_ge_None_2; [done| |]; rewrite length_take; lia.
Qed.

Lemma slice_whole off len l : off + len <= length l -> splice off (slice off len l) l = l.
Proof.
  intros Hl. apply list_eq. intros i. rewrite splice_lookup by (rewrite slice_length; lia).
  rewrite slice_length by lia. case_decide; [|done]. rewrite slice_lookup by lia. f_equal. lia.
Qed.

(** A list cut into [n] chunks of [m]. *)
Lemma concat_slices n m l :
  length l = n * m -> concat (map (fun c => slice (c * m) m l) (seq 0 n)) = l.
Proof.
  revert l. induction n as [|n IH]; intros l Hl; [by destruct l|].
  cbn [seq map concat]. rewrite <- seq_shift, map_map.
  transitivity (take m l ++ drop m l); [|apply take_drop]. f_equal. rewrite <- (IH (drop m l)) by (rewrite length_drop; lia).
  f_equal. apply map_ext. intros c. unfold slice. by rewrite drop_drop.
Qed.
(** Two lists of [n] pieces of length [m] are equal when their pieces are. *)
Lemma slices_eq n m l l' :
  length l = n * m -> length l' = n * m ->
  (forall c, c < n -> slice (c * m) m l = slice (c * m) m l') -> l = l'.
Proof.
  intros Hl Hl' Hc. rewrite <- (concat_slices n m l), <- (concat_slices n m l') by done. f_equal.
  apply map_ext_in. intros c Hin%in_seq. apply Hc. lia.
Qed.

Lemma concat_pieces_length n m (f : nat -> list A) :
  (forall c, c < n -> length (f c) = m) -> length (concat (map f (seq 0 n))) = n * m.
Proof.
  induction n as [|n IH]; intros Hf; [done|]. rewrite seq_S, map_app, concat_app, length_app. cbn.
  rewrite IH, app_nil_r, Hf by auto with lia. lia.
Qed.

Lemma slice_concat n m (f : nat -> list A) c :
  (forall c, c < n -> length (f c) = m) -> c < n -> slice (c * m) m (concat (map f (seq 0 n))) = f c.
Proof.
  intros Hf Hc. induction n as [|n IH]; [lia|]. rewrite seq_S, map_app, concat_app. cbn [map concat Nat.add].
  rewrite app_nil_r. assert (Hl := concat_pieces_length n m f ltac:(auto)). unfold slice in *.
  destruct (decide (c = n)) as [->|].
  - rewrite drop_app_length' by done. rewrite take_ge; [done|]. by rewrite Hf.
  - rewrite drop_app_le, take_app_le by (rewrite ?length_drop; nia). apply IH; [auto|lia].
Qed.
End slices.

(** ** Indices on a ring *)

Lemma mod_wrap n a : n <= a -> a < n + n -> a mod n = a - n.
Proof.
  intros H1 H2. replace a with ((a - n) + 1 * n) at 1 by lia. rewrite Nat.Div0.mod_add.
  apply Nat.mod_small. lia.
Qed.

Lemma mod_wrap2 n a : n + n <= a -> a < n + n + n -> a mod n = a - n - n.
Proof.
  intros H1 H2. replace a with ((a - n - n) + 2 * n) at 1 by lia. rewrite Nat.Div0.mod_add.
  apply Nat.mod_small. lia.
Qed.

(** Replaces [a mod n], innermost first, by [a], [a - n] or [a - n - n], for
    [a < 3 n]. *)
Ltac mod_case a n :=
  lazymatch a with
  | context [_ mod _] => fail
  | _ =>
      let E := fresh in let E' := fresh in
      destruct (decide (a < n)) as [E|E];
        [rewrite (Nat.mod_small a n E) in *
        |destruct (decide (a < n + n)) as [E'|E'];
           [rewrite (mod_wrap n a) in * by lia|rewrite (mod_wrap2 n a) in * by lia]];
        try (exfalso; lia)
  end.
Ltac mod_cases :=
  repeat match goal with
  | |- context [?a mod ?n] => mod_case a n
  | _ : context [?a mod ?n] |- _ => mod_case a n
  end; try lia.

(** ** Reflexive transitive closure, for the step relations *)

Inductive steps {S : Type} (R : S -> S -> Prop) : S -> S -> Prop :=
| steps_refl s : steps R s s
| steps_step s1 s2 s3 : R s1 s2 -> steps R s2 s3 -> steps R s1 s3.

Lemma steps_trans {S} (R : S -> S -> Prop) s1 s2 s3 :
  steps R s1 s2 -> steps R s2 s3 -> steps R s1 s3.
Proof. induction 1; eauto using steps. Qed.

Lemma steps_inv {S} (R : S -> S -> Prop) (I : S -> Prop) s1 s2 :
  (forall a b, I a -> R a b -> I b) -> steps R s1 s2 -> I s1 -> I s2.
Proof. intros HI. induction 1; eauto. Qed.

(** ** Finite maps and lists: inserting, and the sum of a weight over a map *)

Section map_sum.
Context {K : Type} `{Countable K}.

Lemma insert_cases {B} (m : gmap K B) i j x y : <[i := x]> m !! j = Some y -> (j = i /\ y = x) \/ (j <> i /\ m !! j = Some y).
Proof. intros [ [-> ->]|[? ?] ]%lookup_insert_Some; [by left|by right]. Qed.

Definition map_sum {B} (g : B -> nat) (m : gmap K B) : nat := map_fold (fun _ x acc => g x + acc) 0 m.

Lemma map_sum_insert {B} (g : B -> nat) m i x : m !! i = None -> map_sum g (<[i := x]> m) = g x + map_sum g m.
Proof. intros Hi. unfold map_sum. rewrite map_fold_insert_L; [done|intros; lia|done]. Qed.

Lemma map_sum_delete {B} (g : B -> nat) m i x : m !! i = Some x -> map_sum g m = g x + map_sum g (delete i m).
Proof. intros Hi. rewrite <- (insert_delete_id m i x Hi) at 1. by rewrite map_sum_insert by apply lookup_delete_eq. Qed.

Lemma map_sum_update {B} (g : B -> nat) m i x y : m !! i = Some x -> map_sum g (<[i := y]> m) + g x = g y + map_sum g m.
Proof.
  intros Hi. rewrite <- insert_delete_eq, map_sum_insert by apply lookup_delete_eq. rewrite (map_sum_delete g m i x Hi). lia.
Qed.

Lemma map_sum_mono {B} (g : B -> nat) (h : K -> B -> B) m :
  (forall i x, m !! i = Some x -> g (h i x) <= g x) ->
  map_sum g (map_imap (fun i x => Some (h i x)) m) <= map_sum g m.
Proof.
  induction m as [|i x m Hi IH] using map_ind; intros Hle; [done|].
  rewrite map_imap_insert. cbn. rewrite map_sum_insert, map_sum_insert;
    [|done|by rewrite map_lookup_imap, Hi].
  specialize (Hle i x ltac:(by rewrite lookup_insert_eq)) as Hx.
  assert (map_sum g (map_imap (fun i x => Some (h i x)) m) <= map_sum g m); [|lia].
  apply IH. intros j y Hj. apply Hle. rewrite lookup_insert_ne; congruence.
Qed.

Lemma map_size_delete_S {B} (m : gmap K B) i x : m !! i = Some x -> size m = S (size (delete i m)).
Proof.
  intros Hi. rewrite <- (insert_delete_id m i x Hi) at 1. apply map_size_insert_None, lookup_delete_eq.
Qed.

Lemma map_size_omap {B D} (f : B -> option D) (m : gmap K B) : size (omap f m) <= size m.
Proof.
  rewrite <- !size_dom. apply subseteq_size. intros k (y & Hy)%elem_of_dom. apply elem_of_dom.
  apply lookup_omap_Some in Hy as (x & _ & Hx). by exists x.
Qed.

(** Distinct keys of a map are no more than its size. *)
Lemma NoDup_map_size {B} (l : list K) (m : gmap K B) : NoDup l -> (forall k, k ∈ l -> is_Some (m !! k)) -> length l <= size m.
Proof.
  intros Hn Hs. rewrite <- size_dom, <- (size_list_to_set (C := gset K) l) by done.
  apply subseteq_size. intros k Hin%elem_of_list_to_set. by apply elem_of_dom, Hs.
Qed.
End map_sum.

Lemma filter_all {B} (P : B -> Prop) `{!forall x, Decision (P x)} (l : list B) : Forall P l -> filter P l = l.
Proof. induction 1 as [|x l Hx _ IH]; [done|]. cbn [filter list_filter]. rewrite decide_True by done. f_equal. exact IH. Qed.

(** ** Automation *)

Create HintDb pluvio.
Create Rewrite HintDb pluvio_rw.
#[export] Hint Resolve wrap64_range le_bytes_length le_bytes_ok : pluvio.
#[export] Hint Rewrite @slice_length @splice_length le_bytes_length : pluvio_rw.

(** Splits a computation known to return [Ok] into the steps it is made of. *)
Ltac inv_Ok :=
  repeat match goal with
  | H : Ok _ = Ok _ |- _ => injection H as H; subst
  | H : Panic _ = Ok _ |- _ => discriminate H
  | H : mret _ = Ok _ |- _ => unfold mret, outcome_ret in H
  | H : _ ≫= _ = Ok _ |- _ =>
      let a := fresh "a" in let H1 := fresh "H" in
      apply bind_Ok in H as (a & H1 & H)
  | H : expect _ _ = Ok _ |- _ => apply expect_Ok in H
  end.

(** Case analysis on every [if] and [match] of the goal. *)
Ltac case_all := repeat (case_match; simplify_eq/=); try done.
