(* ===== verification/Spsc.v ===== *)
(** * Spsc: the single-thread channel of [pluvio_runtime/src/executor/spsc.rs]

    A ring buffer with one sentinel slot, bounded or growing, shared by any
    number of [Sender] clones and [Receiver] clones.  [Inner] is the struct
    behind the [Rc]; an operation on a half is a function of it.  A slot is
    [None] while it is uninitialised; reading such a slot would be undefined
    behaviour and is the outcome [Panic "uninit"], which the invariant
    [Inner_wf] rules out.  The second half of the file proves that the channel
    refines a FIFO queue ([Fifo]). *)

From S2P Require Import Prelude.

(** [std::mem::size_of::<T>()] of a type that is not zero-sized: it bounds how
    many slots can be allocated.  The runtime's channels carry task ids. *)
Class RustSize (A : Type) := {
  size_of : Z;
  size_pos : (0 < size_of)%Z
}.
#[export] Instance RustSize_usize : RustSize nat := {| size_of := 8; size_pos := eq_refl |}.

(** ** Errors *)

Inductive SendError (A : Type) : Type :=
| SendErr (msg : A).
Arguments SendErr {A} msg.

Inductive TrySendError (A : Type) : Type :=
| Full (msg : A)
| Disconnected (msg : A).
Arguments Full {A} msg.
Arguments Disconnected {A} msg.

Inductive RecvError : Type := RecvErr.

Inductive TryRecvError : Type :=
| RxEmpty
| RxDisconnected.

Inductive RecvTimeoutError : Type :=
| RtTimeout
| RtDisconnected.

(** ** The shared state *)

Definition INNER_MAGIC_START : Z := 0x535053434D414748.
Definition INNER_MAGIC_END : Z := 0x535053434D414754.

Record Inner (A : Type) : Type := mkInner {
  magic_start : Z;
  buf : list (option A);
  buf_len : nat;
  head : nat;
  tail : nat;
  unbounded : bool;
  sender_count : nat;
  receiver_alive : bool;
  magic_end : Z
}.
Arguments mkInner {A} _ _ _ _ _ _ _ _ _.
Arguments magic_start {A} _.
Arguments buf {A} _.
Arguments buf_len {A} _.
Arguments head {A} _.
Arguments tail {A} _.
Arguments unbounded {A} _.
Arguments sender_count {A} _.
Arguments receiver_alive {A} _.
Arguments magic_end {A} _.

Section operations.
Context {A : Type} `{RustSize A}.
Implicit Types (c : Inner A) (i : nat) (msg : A).

Definition set_buf (b : list (option A)) c : Inner A :=
  mkInner (magic_start c) b (buf_len c) (head c) (tail c) (unbounded c)
    (sender_count c) (receiver_alive c) (magic_end c).
Definition set_head (h : nat) c : Inner A :=
  mkInner (magic_start c) (buf c) (buf_len c) h (tail c) (unbounded c)
    (sender_count c) (receiver_alive c) (magic_end c).
Definition set_tail (t : nat) c : Inner A :=
  mkInner (magic_start c) (buf c) (buf_len c) (head c) t (unbounded c)
    (sender_count c) (receiver_alive c) (magic_end c).
Definition set_buf_len (n : nat) c : Inner A :=
  mkInner (magic_start c) (buf c) n (head c) (tail c) (unbounded c)
    (sender_count c) (receiver_alive c) (magic_end c).
Definition set_senders (n : nat) c : Inner A :=
  mkInner (magic_start c) (buf c) (buf_len c) (head c) (tail c) (unbounded c)
    n (receiver_alive c) (magic_end c).
Definition set_receiver_alive (b : bool) c : Inner A :=
  mkInner (magic_start c) (buf c) (buf_len c) (head c) (tail c) (unbounded c)
    (sender_count c) b (magic_end c).

(** [Vec::with_capacity(n)] followed by [resize_with(n, MaybeUninit::uninit)]:
    the standard library panics when the allocation exceeds [isize::MAX] bytes. *)
Definition uninit_box (n : nat) : outcome (list (option A)) :=
  if decide (size_of * Z.of_nat n <= isize_max)%Z
  then Ok (replicate n None)
  else Panic "capacity overflow".

Definition Inner_new_bounded (cap : nat) : outcome (Inner A) :=
  if decide (0 < cap) then
    let n := cap + 1 in
    b ← uninit_box n;
    mret (mkInner INNER_MAGIC_START b n 0 0 false 1 true INNER_MAGIC_END)
  else Panic "cap must be > 0".

Definition Inner_new_unbounded (initial_cap : nat) : outcome (Inner A) :=
  let cap := Nat.max initial_cap 1 in
  let n := cap + 1 in
  b ← uninit_box n;
  mret (mkInner INNER_MAGIC_START b n 0 0 true 1 true INNER_MAGIC_END).

Definition any_sender_alive c : bool := bool_decide (0 < sender_count c).
Definition inc_sender c : Inner A := set_senders (sender_count c + 1) c.
(** In a release build.  A build with debug assertions panics first when the count is 0,
    which a program cannot reach: each drop is of a live [Sender], one of those counted. *)
Definition dec_sender c : Inner A :=
  set_senders (usize_saturating_sub (sender_count c) 1) c.

(** [std::process::abort] when a canary has been overwritten. *)
Definition check_magic c : outcome unit :=
  if decide (magic_start c = INNER_MAGIC_START /\ magic_end c = INNER_MAGIC_END)
  then Ok tt else Panic "abort: SPSC Inner heap corruption detected".

Definition blen c : nat := length (buf c).

Definition inc c i : nat :=
  let m := blen c in
  if decide (m = 0) then 0 else
  let i_mod := i mod m in
  if decide (i_mod + 1 = m) then 0 else i_mod + 1.

Definition ring_is_empty c : bool := bool_decide (head c = tail c).
Definition is_full c : bool := bool_decide (inc c (head c) = tail c).
Definition cap c : nat := blen c - 1.

Definition ring_len c : nat :=
  let m := blen c in
  if decide (m = 0) then 0 else
  let h := head c mod m in
  let t := tail c mod m in
  if decide (t <= h) then h - t else m - t + h.

(** [assume_init_read] of slot [i]: the value is moved out. *)
Definition take_slot (b : list (option A)) i : outcome (A * list (option A)) :=
  match b !! i with
  | Some (Some v) => Ok (v, <[i := None]> b)
  | Some None => Panic "uninit"
  | None => Panic "index out of bounds"
  end.

Definition put_slot (b : list (option A)) i msg : outcome (list (option A)) :=
  if decide (i < length b) then Ok (<[i := Some msg]> b)
  else Panic "index out of bounds".

(** The loop [for i in 0..count] of [try_grow], from index [i] with [t] the
    read cursor; [inc] still reads the old length. *)
Fixpoint grow_copy c (count i t : nat) (old new : list (option A))
    : outcome (list (option A)) :=
  match count with
  | 0 => Ok new
  | S count =>
      '(v, old) ← take_slot old t;
      new ← put_slot new i v;
      grow_copy c count (i + 1) (inc c t) old new
  end.

Definition try_grow c : outcome (Inner A) :=
  if negb (unbounded c) || negb (is_full c) then Ok c else
  let old_len := blen c in
  let old_cap := old_len - 1 in
  let new_cap := Nat.max (usize_saturating_mul old_cap 2) 2 in
  let new_len := new_cap + 1 in
  new_buf ← uninit_box new_len;
  let count := ring_len c in
  new_buf ← grow_copy c count 0 (tail c) (buf c) new_buf;
  mret (set_buf_len new_len (set_buf new_buf (set_head count (set_tail 0 c)))).

(** Both panic on a buffer of length 0: the [debug_assert], and without it the
    remainder by zero. *)
Definition write_at c (idx : nat) msg : outcome (Inner A) :=
  let m := blen c in
  if decide (m = 0) then Panic "SPSC buffer is empty (len=0)" else
  b ← put_slot (buf c) (idx mod m) msg;
  mret (set_buf b c).

Definition read_at c (idx : nat) : outcome (A * Inner A) :=
  let m := blen c in
  if decide (m = 0) then Panic "SPSC buffer is empty (len=0)" else
  '(v, b) ← take_slot (buf c) (idx mod m);
  mret (v, set_buf b c).

(** The [while tail != head] loop of [Drop for Inner]: the elements it drops,
    in order.  [None] is running out of fuel. *)
Fixpoint drop_loop (fuel m : nat) (b : list (option A)) (t h : nat)
    : option (outcome (list A)) :=
  if decide (t = h) then Some (Ok []) else
  match fuel with
  | 0 => None
  | S fuel =>
      match take_slot b t with
      | Panic s => Some (Panic s)
      | Ok (v, b) =>
          match drop_loop fuel m b ((t + 1) mod m) h with
          | Some (Ok vs) => Some (Ok (v :: vs))
          | r => r
          end
      end
  end.

Definition Inner_drop c : option (outcome (list A)) :=
  let m := blen c in
  if decide (m = 0) then Some (Ok []) else
  drop_loop m m (buf c) (tail c mod m) (head c mod m).

(** [bounded] and [unbounded]; the returned [Inner] is the one both halves share. *)
Definition bounded (cap : nat) : outcome (Inner A) := Inner_new_bounded cap.
Definition unbounded_channel : outcome (Inner A) := Inner_new_unbounded 32.

(** ** [Sender] *)

Definition Sender_try_send c msg : outcome (Inner A * result unit (TrySendError A)) :=
  _ ← check_magic c;
  if negb (receiver_alive c) then mret (c, RErr (Disconnected msg)) else
  c ← (if is_full c then try_grow c else mret c);
  if is_full c then mret (c, RErr (Full msg)) else
  let h := head c in
  c ← write_at c h msg;
  mret (set_head (inc c h) c, ROk tt).

Definition Sender_send c msg : outcome (Inner A * result unit (SendError A)) :=
  '(c, r) ← Sender_try_send c msg;
  mret (c, match r with
           | ROk _ => ROk tt
           | RErr (Disconnected m) => RErr (SendErr m)
           | RErr (Full m) => RErr (SendErr m)
           end).

Definition Sender_is_disconnected c : bool := negb (receiver_alive c).
Definition Sender_clone c : Inner A := inc_sender c.
Definition Sender_drop c : Inner A := dec_sender c.

(** ** [Receiver] *)

Definition Receiver_try_recv c : outcome (Inner A * result A TryRecvError) :=
  _ ← check_magic c;
  if ring_is_empty c then
    if negb (any_sender_alive c) then mret (c, RErr RxDisconnected)
    else mret (c, RErr RxEmpty)
  else
    let t := tail c in
    '(v, c) ← read_at c t;
    mret (set_tail (inc c t) c, ROk v).

(** The spinning receive; [None] is a spin that has used up its fuel. *)
Fixpoint Receiver_recv (fuel : nat) c : option (outcome (Inner A * result A RecvError)) :=
  match Receiver_try_recv c with
  | Panic s => Some (Panic s)
  | Ok (c, ROk v) => Some (Ok (c, ROk v))
  | Ok (c, RErr RxDisconnected) => Some (Ok (c, RErr RecvErr))
  | Ok (c, RErr RxEmpty) =>
      match fuel with 0 => None | S fuel => Receiver_recv fuel c end
  end.

(** [now k] is the [k]-th reading of [Instant::now()]. *)
Fixpoint Receiver_recv_deadline (fuel : nat) (now : nat -> Z) (k : nat) (deadline : Z) c
    : option (outcome (Inner A * result A RecvTimeoutError)) :=
  match Receiver_try_recv c with
  | Panic s => Some (Panic s)
  | Ok (c, ROk v) => Some (Ok (c, ROk v))
  | Ok (c, RErr RxDisconnected) => Some (Ok (c, RErr RtDisconnected))
  | Ok (c, RErr RxEmpty) =>
      if decide (deadline <= now k)%Z then Some (Ok (c, RErr RtTimeout)) else
      match fuel with
      | 0 => None
      | S fuel => Receiver_recv_deadline fuel now (S k) deadline c
      end
  end.

Definition Receiver_recv_timeout (fuel : nat) (now : nat -> Z) (timeout : Z) c :=
  let deadline := (now 0%nat + timeout)%Z in
  Receiver_recv_deadline fuel now 1 deadline c.

Definition Receiver_is_disconnected c : bool := negb (any_sender_alive c).
Definition Receiver_drop c : Inner A := set_receiver_alive false c.
End operations.

(** ** The FIFO queue the channel promises

    [None] in [fcap] is the unbounded channel. *)

Record Fifo (A : Type) : Type := mkFifo {
  items : list A;
  fcap : option nat;
  fsenders : nat;
  frx : bool
}.
Arguments mkFifo {A} _ _ _ _.
Arguments items {A} _.
Arguments fcap {A} _.
Arguments fsenders {A} _.
Arguments frx {A} _.

Section specification.
Context {A : Type}.
Implicit Types (f : Fifo A).

Definition fifo_full f : bool :=
  match fcap f with Some n => bool_decide (length (items f) = n) | None => false end.

Definition fifo_try_send f (msg : A) : Fifo A * result unit (TrySendError A) :=
  if negb (frx f) then (f, RErr (Disconnected msg)) else
  if fifo_full f then (f, RErr (Full msg)) else
  (mkFifo (items f ++ [msg]) (fcap f) (fsenders f) (frx f), ROk tt).

Definition fifo_try_recv f : Fifo A * result A TryRecvError :=
  match items f with
  | v :: q => (mkFifo q (fcap f) (fsenders f) (frx f), ROk v)
  | [] => (f, RErr (if decide (0 < fsenders f) then RxEmpty else RxDisconnected))
  end.
End specification.

(** ** Ring arithmetic *)

Lemma mod_add_case (m t j : nat) :
  t < m -> j <= m -> (t + j) mod m = if decide (t + j < m) then t + j else t + j - m.
Proof.
  intros Ht Hj. case_decide as Hc; [by apply Nat.mod_small|].
  replace (t + j) with (t + j - m + 1 * m) at 1 by lia.
  rewrite Nat.Div0.mod_add. apply Nat.mod_small. lia.
Qed.

Lemma mod_add_inj (m t i j : nat) :
  t < m -> i < m -> j < m -> (t + i) mod m = (t + j) mod m -> i = j.
Proof. intros ???. rewrite !mod_add_case by lia. repeat case_decide; lia. Qed.

Lemma mod_succ (m t : nat) :
  t < m -> (if decide (t mod m + 1 = m) then 0 else t mod m + 1) = (t + 1) mod m.
Proof.
  intros Ht. rewrite Nat.mod_small by lia. rewrite mod_add_case by lia.
  repeat case_decide; lia.
Qed.

(** ** The representation relation: the ring holds exactly the queue [q] *)

Section representation.
Context {A : Type} `{RustSize A}.
Implicit Types (c : Inner A) (q : list A).

Record Rep c q : Prop := {
  rep_magic : magic_start c = INNER_MAGIC_START /\ magic_end c = INNER_MAGIC_END;
  rep_blen : 2 <= blen c;
  rep_buf_len : buf_len c = blen c;
  rep_tail : tail c < blen c;
  rep_room : length q < blen c;
  rep_head : head c = (tail c + length q) mod blen c;
  rep_slots : forall j, j < blen c -> buf c !! ((tail c + j) mod blen c) = Some (q !! j)
}.

Definition Inner_wf c : Prop := exists q, Rep c q.

Lemma Rep_magic_ok c q : Rep c q -> check_magic c = Ok tt.
Proof. intros [Hm _ _ _ _ _ _]. unfold check_magic. by rewrite decide_True. Qed.

Lemma Rep_head_lt c q : Rep c q -> head c < blen c.
Proof. intros []. rewrite rep_head0. apply Nat.mod_upper_bound. lia. Qed.

Lemma Rep_inc c q i : Rep c q -> i < blen c -> inc c i = (i + 1) mod blen c.
Proof.
  intros [] Hi. unfold inc. rewrite decide_False by lia. by apply mod_succ.
Qed.

Lemma Rep_len c q : Rep c q -> ring_len c = length q.
Proof.
  intros HR. pose proof (Rep_head_lt _ _ HR). destruct HR.
  unfold ring_len. rewrite decide_False by lia.
  rewrite !Nat.mod_small by lia.
  rewrite rep_head0, mod_add_case by lia. repeat case_decide; lia.
Qed.

Lemma Rep_empty c q : Rep c q -> ring_is_empty c = bool_decide (q = []).
Proof.
  intros []. unfold ring_is_empty. apply bool_decide_ext.
  rewrite rep_head0, mod_add_case by lia.
  destruct q; simpl in *; case_decide; split; intros; try done; lia.
Qed.

Lemma Rep_full c q : Rep c q -> is_full c = bool_decide (length q + 1 = blen c).
Proof.
  intros HR. unfold is_full. rewrite (Rep_inc c q) by eauto using Rep_head_lt.
  destruct HR. rewrite rep_head0. apply bool_decide_ext.
  rewrite Nat.Div0.add_mod_idemp_l.
  replace (tail c + length q + 1) with (tail c + (length q + 1)) by lia.
  rewrite mod_add_case by lia. case_decide; lia.
Qed.

Lemma Rep_unique c q1 q2 : Rep c q1 -> Rep c q2 -> q1 = q2.
Proof.
  intros H1 H2. apply list_eq. intros j.
  destruct (decide (j < blen c)) as [Hj|Hj].
  - pose proof (rep_slots _ _ H1 j Hj) as E1.
    rewrite (rep_slots _ _ H2 j Hj) in E1. congruence.
  - pose proof (rep_room _ _ H1). pose proof (rep_room _ _ H2).
    rewrite !lookup_ge_None_2 by lia. done.
Qed.

(** Writing at [head] appends, when the sentinel slot is not the one written. *)
Lemma Rep_write c q v :
  Rep c q -> length q + 1 < blen c ->
  exists c', write_at c (head c) v = Ok c' /\ Rep (set_head (inc c' (head c)) c') (q ++ [v]) /\
    unbounded c' = unbounded c /\ sender_count c' = sender_count c /\
    receiver_alive c' = receiver_alive c /\ blen c' = blen c.
Proof.
  intros HR Hroom. pose proof (Rep_head_lt _ _ HR) as Hh.
  pose proof (Rep_inc c q (head c) HR Hh) as Hinc. destruct HR.
  unfold write_at, put_slot. cbv zeta. rewrite decide_False, Nat.mod_small by lia.
  rewrite decide_True by (unfold blen in *; lia). cbn. eexists. split; [done|].
  assert (Hb : blen (set_buf (<[head c:=Some v]> (buf c)) c) = blen c)
    by (unfold blen; cbn; apply length_insert).
  split; [|done].
  assert (Hinc' : inc (set_buf (<[head c:=Some v]> (buf c)) c) (head c) = inc c (head c))
    by (unfold inc; by rewrite Hb).
  rewrite Hinc', Hinc.
  split; unfold blen in *; cbn in *; rewrite ?length_insert, ?length_app; simpl; try done; try lia.
  - rewrite rep_head0, Nat.Div0.add_mod_idemp_l. f_equal. lia.
  - intros j Hj. destruct (decide (j = length q)) as [->|Hne].
    + rewrite <- rep_head0, list_lookup_insert_eq by lia.
      by rewrite lookup_app_r, Nat.sub_diag by lia.
    + rewrite list_lookup_insert_ne.
      * rewrite rep_slots0 by lia. f_equal.
        destruct (decide (j < length q)); [by rewrite lookup_app_l|].
        rewrite !lookup_ge_None_2; [done|rewrite length_app; simpl; lia|lia].
      * rewrite rep_head0. intros E%mod_add_inj; lia.
Qed.

(** Reading at [tail] pops. *)
Lemma Rep_read c q v :
  Rep c (v :: q) ->
  exists c', read_at c (tail c) = Ok (v, c') /\ Rep (set_tail (inc c' (tail c)) c') q /\
    unbounded c' = unbounded c /\ sender_count c' = sender_count c /\
    receiver_alive c' = receiver_alive c /\ blen c' = blen c.
Proof.
  intros HR. pose proof (Rep_inc c _ (tail c) HR (rep_tail _ _ HR)) as Hinc. destruct HR.
  unfold read_at, take_slot. cbv zeta. rewrite decide_False, Nat.mod_small by lia.
  pose proof (rep_slots0 0 ltac:(lia)) as H0.
  rewrite Nat.add_0_r, Nat.mod_small in H0 by lia. rewrite H0. cbn.
  eexists. split; [done|].
  assert (Hb : blen (set_buf (<[tail c:=None]> (buf c)) c) = blen c)
    by (unfold blen; cbn; apply length_insert).
  split; [|done].
  assert (Hinc' : inc (set_buf (<[tail c:=None]> (buf c)) c) (tail c) = inc c (tail c))
    by (unfold inc; by rewrite Hb).
  rewrite Hinc', Hinc. unfold blen in *.
  split; cbn in *; rewrite ?length_insert; try done; try lia.
  - apply Nat.mod_upper_bound. lia.
  - rewrite rep_head0, Nat.Div0.add_mod_idemp_l. f_equal. lia.
  - intros j Hj. rewrite Nat.Div0.add_mod_idemp_l.
    replace (tail c + 1 + j) with (tail c + (j + 1)) by lia.
    destruct (decide (j + 1 = length (buf c))) as [Hl|Hl].
    + replace ((tail c + (j + 1)) mod length (buf c)) with (tail c).
      2:{ rewrite Hl, mod_add_case by lia. case_decide; lia. }
      rewrite list_lookup_insert_eq by lia. f_equal. symmetry. apply lookup_ge_None_2. lia.
    + rewrite list_lookup_insert_ne.
      * rewrite rep_slots0 by lia. by rewrite Nat.add_1_r.
      * rewrite mod_add_case by lia. case_decide; lia.
Qed.
End representation.

(** ** Growth *)

Section growth.
Context {A : Type} `{RustSize A}.
Implicit Types (c : Inner A) (q : list A).

(** The length [try_grow] asks for, and the condition under which the
    allocator grants it. *)
Definition grown_len c : nat := Nat.max (usize_saturating_mul (blen c - 1) 2) 2 + 1.
Definition grow_ok c : Prop := (size_of * Z.of_nat (grown_len c) <= isize_max)%Z.

Lemma grow_ok_doubles c : grow_ok c -> grown_len c = Nat.max ((blen c - 1) * 2) 2 + 1.
Proof.
  unfold grow_ok, grown_len, usize_saturating_mul, isize_max, usize_max.
  pose proof size_pos. intros Hok.
  destruct (decide (Z.of_nat (blen c - 1) * Z.of_nat 2 <= 2 ^ 64 - 1)%Z) as [Hs|Hs].
  - rewrite Z.min_l by done. f_equal. f_equal. lia.
  - rewrite Z.min_r in Hok by lia. nia.
Qed.

Lemma grow_copy_spec c q new_len i old new :
  Rep c q -> length q < new_len ->
  i <= length q -> length old = blen c -> length new = new_len ->
  (forall j, i <= j < length q -> old !! ((tail c + j) mod blen c) = Some (q !! j)) ->
  (forall j, j < new_len -> new !! j = Some (if decide (j < i) then q !! j else None)) ->
  exists new', grow_copy c (length q - i) i ((tail c + i) mod blen c) old new = Ok new' /\
    length new' = new_len /\ (forall j, j < new_len -> new' !! j = Some (q !! j)).
Proof.
  intros HR Hnl. remember (length q - i) as count eqn:Hcount.
  revert i old new Hcount. induction count as [|count IH]; intros i old new Hcount Hi Ho Hn Hold Hnew.
  - exists new. split; [done|]. split; [done|]. intros j Hj. rewrite Hnew by done.
    case_decide; [done|]. f_equal. symmetry. apply lookup_ge_None_2. lia.
  - cbn [grow_copy]. unfold take_slot. rewrite (Hold i) by lia.
    destruct (lookup_lt_is_Some_2 q i ltac:(lia)) as [v Hv]. rewrite Hv. cbn.
    unfold put_slot. rewrite decide_True by lia. cbn.
    pose proof (rep_room _ _ HR).
    replace (inc c ((tail c + i) mod blen c)) with ((tail c + (i + 1)) mod blen c).
    2:{ rewrite (Rep_inc c q) by (try done; apply Nat.mod_upper_bound; lia).
        rewrite Nat.Div0.add_mod_idemp_l. f_equal. lia. }
    apply IH; rewrite ?length_insert; try done; try lia.
    + intros j Hj. rewrite list_lookup_insert_ne; [apply Hold; lia|].
      intros E%mod_add_inj; try lia. apply (rep_tail _ _ HR).
    + intros j Hj. destruct (decide (j = i)) as [->|].
      * rewrite list_lookup_insert_eq by lia. rewrite decide_True by lia. by rewrite Hv.
      * rewrite list_lookup_insert_ne by lia. rewrite Hnew by done.
        repeat case_decide; try done; lia.
Qed.

Lemma Rep_grow c q :
  Rep c q -> unbounded c = true -> length q + 1 = blen c -> grow_ok c ->
  exists c', try_grow c = Ok c' /\ Rep c' q /\ blen c' = grown_len c /\ length q + 1 < blen c' /\
    unbounded c' = true /\ sender_count c' = sender_count c /\
    receiver_alive c' = receiver_alive c.
Proof.
  intros HR Hu Hfull Hok. pose proof (grow_ok_doubles _ Hok) as Hdbl.
  unfold try_grow. rewrite (Rep_full _ _ HR), Hu, bool_decide_true by done. simpl.
  fold (grown_len c). unfold uninit_box. rewrite decide_True by done. cbn [mbind outcome_bind].
  rewrite (Rep_len _ _ HR).
  destruct (grow_copy_spec c q (grown_len c) 0 (buf c) (replicate (grown_len c) None))
    as (new' & Hcopy & Hlen & Hslots); try done; try lia.
  - by rewrite length_replicate.
  - intros j Hj. apply (rep_slots _ _ HR). lia.
  - intros j Hj. rewrite decide_False by lia. by apply lookup_replicate_2.
  - rewrite Nat.sub_0_r, Nat.add_0_r, Nat.mod_small in Hcopy by (apply (rep_tail _ _ HR)).
    rewrite Hcopy. cbn. eexists. split; [done|].
    destruct HR. unfold blen in *. split; [|simpl; repeat split; try done; lia].
    split; unfold blen; cbn; rewrite ?Hlen; try done; try lia.
    + by rewrite Nat.mod_small by lia.
    + intros j Hj. rewrite Nat.mod_small by lia. by apply Hslots.
Qed.
End growth.

(** ** Refinement: the channel is the FIFO queue *)

Section refinement.
Context {A : Type} `{RustSize A}.
Implicit Types (c : Inner A) (f : Fifo A) (q : list A).

Record Sim c f : Prop := {
  sim_rep : Rep c (items f);
  sim_cap : fcap f = if unbounded c then None else Some (cap c);
  sim_senders : fsenders f = sender_count c;
  sim_rx : frx f = receiver_alive c
}.

(** What one operation on a half returns to its caller. *)
Inductive ChanOp : Type :=
| OpSend (msg : A)
| OpRecv
| OpCloneSender
| OpDropSender
| OpDropReceiver
| OpLen.

Inductive ChanObs : Type :=
| ObsSend (r : result unit (TrySendError A))
| ObsRecv (r : result A TryRecvError)
| ObsLen (len : nat) (is_empty tx_disconnected rx_disconnected : bool)
| ObsNone.

Definition chan_step c (o : ChanOp) : outcome (Inner A * ChanObs) :=
  match o with
  | OpSend m => '(c, r) ← Sender_try_send c m; mret (c, ObsSend r)
  | OpRecv => '(c, r) ← Receiver_try_recv c; mret (c, ObsRecv r)
  | OpCloneSender => mret (Sender_clone c, ObsNone)
  | OpDropSender => mret (Sender_drop c, ObsNone)
  | OpDropReceiver => mret (Receiver_drop c, ObsNone)
  | OpLen => mret (c, ObsLen (ring_len c) (ring_is_empty c)
                        (Sender_is_disconnected c) (Receiver_is_disconnected c))
  end.

Definition fifo_step f (o : ChanOp) : Fifo A * ChanObs :=
  match o with
  | OpSend m => let '(f, r) := fifo_try_send f m in (f, ObsSend r)
  | OpRecv => let '(f, r) := fifo_try_recv f in (f, ObsRecv r)
  | OpCloneSender => (mkFifo (items f) (fcap f) (fsenders f + 1) (frx f), ObsNone)
  | OpDropSender => (mkFifo (items f) (fcap f) (fsenders f - 1) (frx f), ObsNone)
  | OpDropReceiver => (mkFifo (items f) (fcap f) (fsenders f) false, ObsNone)
  | OpLen => (f, ObsLen (length (items f)) (bool_decide (items f = []))
                   (negb (frx f)) (bool_decide (fsenders f = 0)))
  end.

Fixpoint chan_run c (os : list ChanOp) : outcome (Inner A * list ChanObs) :=
  match os with
  | [] => mret (c, [])
  | o :: os => '(c, b) ← chan_step c o; '(c, bs) ← chan_run c os; mret (c, b :: bs)
  end.

Fixpoint fifo_run f (os : list ChanOp) : Fifo A * list ChanObs :=
  match os with
  | [] => (f, [])
  | o :: os =>
      let '(f, b) := fifo_step f o in let '(f, bs) := fifo_run f os in (f, b :: bs)
  end.

(** Memory for a buffer that holds [n] elements after doubling. *)
Definition alloc_ok (n : nat) : Prop := (size_of * (2 * Z.of_nat n + 3) <= isize_max)%Z.

Lemma alloc_ok_mono n m : m <= n -> alloc_ok n -> alloc_ok m.
Proof. unfold alloc_ok. pose proof size_pos. intros. nia. Qed.

Lemma alloc_ok_grow c q :
  Rep c q -> length q + 1 = blen c -> alloc_ok (length q) -> grow_ok c.
Proof.
  intros HR Hfull Hok. pose proof (rep_blen _ _ HR). unfold alloc_ok in Hok.
  unfold grow_ok, grown_len.
  pose proof (usize_saturating_mul_le (blen c - 1) 2). pose proof size_pos.
  unfold isize_max in *. nia.
Qed.

Lemma try_send_sim c f m :
  Sim c f -> alloc_ok (length (items f)) ->
  exists c', Sender_try_send c m = Ok (c', snd (fifo_try_send f m)) /\
    Sim c' (fst (fifo_try_send f m)).
Proof.
  intros [HR Hc Hs Hr] Hok. unfold Sender_try_send, fifo_try_send, fifo_full.
  rewrite (Rep_magic_ok _ _ HR). cbn. rewrite Hr.
  destruct (receiver_alive c) eqn:Ha; cbn; [|by eauto using Sim].
  pose proof (rep_room _ _ HR). pose proof (rep_blen _ _ HR).
  rewrite (Rep_full _ _ HR).
  destruct (unbounded c) eqn:Hu; rewrite Hc.
  - (* unbounded: grow when full, then write *)
    assert (exists c1, (if bool_decide (length (items f) + 1 = blen c) then try_grow c
        else mret c) = Ok c1 /\ Rep c1 (items f) /\ length (items f) + 1 < blen c1 /\
        unbounded c1 = true /\ sender_count c1 = sender_count c /\
        receiver_alive c1 = receiver_alive c) as (c1 & -> & HR1 & Hl1 & Hu1 & Hs1 & Ha1).
    { case_bool_decide as Hfull.
      - destruct (Rep_grow c (items f)) as (c1 & ? & ? & ? & ? & ? & ? & ?);
          eauto 10 using alloc_ok_grow.
      - exists c. repeat split; try done; try apply HR. lia. }
    cbn. rewrite (Rep_full _ _ HR1), bool_decide_false by lia.
    destruct (Rep_write c1 (items f) m HR1 Hl1) as (c2 & -> & HR2 & ? & ? & ? & ?).
    cbn. eexists. split; [done|]. split; cbn; try congruence; try exact HR2.
    unfold set_head in *; cbn in *. by replace (unbounded c2) with true by congruence.
  - (* bounded: Full exactly when [cap] items are queued *)
    replace (bool_decide (length (items f) = cap c))
      with (bool_decide (length (items f) + 1 = blen c))
      by (apply bool_decide_ext; unfold cap; lia).
    case_bool_decide as Hfull; cbn.
    + unfold try_grow. rewrite Hu. cbn. rewrite (Rep_full _ _ HR), bool_decide_true by done.
      eexists. split; [done|]. split; cbn; try congruence; try done. by rewrite Hu.
    + rewrite (Rep_full _ _ HR), bool_decide_false by done.
      destruct (Rep_write c (items f) m HR ltac:(lia)) as (c2 & -> & HR2 & ? & ? & ? & Hb2).
      cbn. eexists. split; [done|]. split; cbn; try congruence; try exact HR2.
      replace (unbounded c2) with false by congruence.
      unfold cap, blen in *. cbn. by rewrite Hb2.
Qed.

Lemma try_recv_sim c f :
  Sim c f ->
  exists c', Receiver_try_recv c = Ok (c', snd (fifo_try_recv f)) /\
    Sim c' (fst (fifo_try_recv f)).
Proof.
  intros HS. pose proof HS as [HR Hc Hs Hr]. unfold Receiver_try_recv, fifo_try_recv.
  rewrite (Rep_magic_ok _ _ HR). cbn. rewrite (Rep_empty _ _ HR).
  destruct (items f) as [|v q] eqn:Hq; cbn.
  - exists c. unfold any_sender_alive. rewrite Hs.
    case_decide; [rewrite bool_decide_true by done|rewrite bool_decide_false by done]; done.
  - destruct (Rep_read c q v HR) as (c2 & -> & HR2 & Hu2 & ? & ? & Hb2).
    cbn. eexists. split; [done|]. split; cbn; try congruence; try exact HR2.
    rewrite Hu2, Hc. unfold cap, blen in *. cbn. by rewrite Hb2.
Qed.

Lemma Rep_set_senders c q n : Rep c q -> Rep (set_senders n c) q.
Proof. by intros []. Qed.
Lemma Rep_set_receiver_alive c q b : Rep c q -> Rep (set_receiver_alive b c) q.
Proof. by intros []. Qed.

Lemma no_sender_alive c : Receiver_is_disconnected c = bool_decide (sender_count c = 0).
Proof.
  unfold Receiver_is_disconnected, any_sender_alive.
  destruct (sender_count c); [done|by rewrite bool_decide_true by lia].
Qed.

Lemma chan_step_sim c f o :
  Sim c f -> alloc_ok (length (items f)) ->
  exists c', chan_step c o = Ok (c', snd (fifo_step f o)) /\ Sim c' (fst (fifo_step f o)).
Proof.
  intros HS Hok. pose proof HS as [HR Hc Hs Hr]. destruct o as [m| | | | |]; cbn.
  - destruct (try_send_sim c f m HS Hok) as (c' & -> & HS').
    destruct (fifo_try_send f m); cbn in *; eauto.
  - destruct (try_recv_sim c f HS) as (c' & -> & HS').
    destruct (fifo_try_recv f); cbn in *; eauto.
  - eexists. split; [done|]. split; cbn; eauto using Rep_set_senders.
  - eexists. split; [done|]. split; cbn; eauto using Rep_set_senders.
  - eexists. split; [done|]. split; cbn; eauto using Rep_set_receiver_alive.
  - exists c. split; [|done]. rewrite (Rep_len _ _ HR), (Rep_empty _ _ HR).
    unfold Sender_is_disconnected. rewrite no_sender_alive, Hr, Hs. done.
Qed.

Lemma fifo_step_length f o : length (items (fst (fifo_step f o))) <= length (items f) + 1.
Proof.
  destruct o as [m| | | | |]; unfold fifo_step, fifo_try_send, fifo_try_recv; cbn; try lia.
  - destruct (frx f), (fifo_full f); cbn; rewrite ?length_app; cbn; lia.
  - destruct (items f) as [|v q] eqn:Hq; cbn; rewrite ?Hq; cbn; lia.
Qed.

(** The simulation, lifted to every sequence of operations. *)
Lemma chan_run_sim os : forall c f,
  Sim c f -> alloc_ok (length (items f) + length os) ->
  exists c', chan_run c os = Ok (c', snd (fifo_run f os)) /\ Sim c' (fst (fifo_run f os)).
Proof.
  induction os as [|o os IH]; intros c f HS Hok; [by exists c|].
  cbn [chan_run fifo_run length] in *.
  destruct (chan_step_sim c f o HS) as (c1 & -> & HS1).
  { eapply alloc_ok_mono; [|exact Hok]. lia. }
  pose proof (fifo_step_length f o).
  destruct (fifo_step f o) as [f1 b]. cbn in *.
  destruct (IH c1 f1 HS1) as (c2 & -> & HS2).
  { eapply alloc_ok_mono; [|exact Hok]. lia. }
  destruct (fifo_run f1 os) as [f2 bs]. cbn in *. eauto.
Qed.

(** Construction: an empty queue with one sender and a live receiver. *)
Lemma new_rep n (u : bool) :
  2 <= n ->
  Rep (mkInner INNER_MAGIC_START (replicate n None) n 0 0 u 1 true INNER_MAGIC_END) ([] : list A).
Proof.
  intros Hn. split; unfold blen; cbn; rewrite ?length_replicate; try done; try lia.
  - by rewrite Nat.mod_small by lia.
  - intros j Hj. rewrite Nat.mod_small by lia. by apply lookup_replicate_2.
Qed.

Lemma bounded_sim n c : bounded n = Ok c -> Sim c (mkFifo [] (Some n) 1 true).
Proof.
  unfold bounded, Inner_new_bounded, uninit_box. intros Hb.
  case_decide; [|done]. case_decide; [|done]. cbn in Hb. injection Hb as <-.
  split; try done; [apply new_rep; lia|].
  unfold cap, blen. cbn [unbounded buf fcap]. rewrite length_replicate. do 2 f_equal. lia.
Qed.

Lemma unbounded_sim c : unbounded_channel = Ok c -> Sim c (mkFifo ([] : list A) None 1 true).
Proof.
  unfold unbounded_channel, Inner_new_unbounded, uninit_box. intros Hb.
  case_decide; [|done]. cbn in Hb. injection Hb as <-.
  split; try done. apply (new_rep (Nat.max 32 1 + 1)). lia.
Qed.
End refinement.

(** ** Properties of the channel *)

Section properties.
Context {A : Type} `{RustSize A}.
Implicit Types (c : Inner A) (f : Fifo A) (q : list A).

(** C2. The ring buffer implements the FIFO queue: from a channel that
    represents a queue, every sequence of sends, receives, sender clones and
    drops, receiver drops and length queries returns exactly what the queue
    returns (values, [Full], [Empty], [Disconnected]), without panicking or
    touching an uninitialised slot, as long as a buffer for the elements can
    be allocated; bounded channels report [Full] exactly at their capacity and
    unbounded ones never do. *)
Theorem spsc_refines_fifo c f (os : list ChanOp) :
  Sim c f -> alloc_ok (length (items f) + length os) ->
  exists c', chan_run c os = Ok (c', snd (fifo_run f os)) /\
    Sim c' (fst (fifo_run f os)) /\ Inner_wf c'.
Proof.
  intros HS Hok. destruct (chan_run_sim os c f HS Hok) as (c' & Hrun & HS').
  exists c'. split; [done|]. split; [done|]. exists (items (fifo_run f os).1). apply HS'.
Qed.

Lemma drop_loop_spec (m fuel : nat) : forall (b : list (option A)) t q,
  t < m -> length q < m -> length q <= fuel -> length b = m ->
  (forall j, j < length q -> b !! ((t + j) mod m) = Some (q !! j)) ->
  drop_loop fuel m b t ((t + length q) mod m) = Some (Ok q).
Proof.
  induction fuel as [|fuel IH]; intros b t q Ht Hq Hf Hb Hs.
  - destruct q; [|simpl in *; lia]. cbn. rewrite Nat.add_0_r, Nat.mod_small by lia.
    by rewrite decide_True.
  - destruct q as [|v q].
    + cbn. rewrite Nat.add_0_r, Nat.mod_small by lia. by rewrite decide_True.
    + cbn [length] in *. cbn [drop_loop]. rewrite decide_False.
      2:{ rewrite mod_add_case by lia. case_decide; lia. }
      pose proof (Hs 0 ltac:(lia)) as H0. rewrite Nat.add_0_r, Nat.mod_small in H0 by lia.
      unfold take_slot. rewrite H0. cbn.
      replace ((t + S (length q)) mod m) with (((t + 1) mod m + length q) mod m).
      2:{ rewrite Nat.Div0.add_mod_idemp_l. f_equal. lia. }
      rewrite IH; rewrite ?length_insert; try done; try lia.
      * apply Nat.mod_upper_bound. lia.
      * intros j Hj. rewrite Nat.Div0.add_mod_idemp_l.
        replace (t + 1 + j) with (t + S j) by lia.
        rewrite list_lookup_insert_ne.
        -- rewrite Hs by lia. done.
        -- rewrite mod_add_case by lia. case_decide; lia.
Qed.

(** Dropping the channel releases every queued element exactly once, in
    FIFO order, and the loop of [Drop for Inner] terminates within one pass of
    the ring. *)
Theorem inner_drop_releases_queue c q : Rep c q -> Inner_drop c = Some (Ok q).
Proof.
  intros []. unfold Inner_drop. rewrite decide_False by lia.
  rewrite Nat.mod_small by lia.
  replace (head c mod blen c) with ((tail c + length q) mod blen c)
    by (rewrite rep_head0; by rewrite Nat.Div0.mod_mod).
  apply drop_loop_spec; try done; try lia. intros j Hj. apply rep_slots0. lia.
Qed.

Lemma try_recv_empty c : Rep c [] -> 0 < sender_count c ->
  Receiver_try_recv c = Ok (c, RErr RxEmpty).
Proof.
  intros HR Hs. unfold Receiver_try_recv, any_sender_alive.
  rewrite (Rep_magic_ok _ _ HR). cbn. rewrite (Rep_empty _ _ HR).
  by rewrite !bool_decide_true by done.
Qed.

Lemma recv_deadline_wait c now dl n : forall k fuel,
  Rep c [] -> 0 < sender_count c ->
  (forall i, k <= i < k + n -> (now i < dl)%Z) -> (dl <= now (k + n)%nat)%Z -> n <= fuel ->
  Receiver_recv_deadline fuel now k dl c = Some (Ok (c, RErr RtTimeout)).
Proof.
  induction n as [|n IH]; intros k fuel HR Hs Hlt Hge Hf.
  - rewrite Nat.add_0_r in Hge.
    destruct fuel; cbn; rewrite (try_recv_empty c HR Hs); by rewrite decide_True.
  - destruct fuel as [|fuel]; [lia|]. cbn. rewrite (try_recv_empty c HR Hs).
    rewrite decide_False by (specialize (Hlt k); lia).
    apply IH; try done; [|by rewrite Nat.add_succ_l, <- Nat.add_succ_r|lia].
    intros i Hi. apply Hlt. lia.
Qed.

(** Spinning receives: on an empty channel with a live sender, [recv]
    never returns however long it spins (no other code of the thread can run
    to fill it), while [recv_timeout] returns [Timeout] at its first clock
    reading at or past the deadline. *)
Theorem spinning_receives c (now : nat -> Z) (timeout : Z) (n fuel : nat) :
  Rep c [] -> 0 < sender_count c ->
  (forall i, 1 <= i < 1 + n -> (now i < now 0%nat + timeout)%Z) ->
  (now 0%nat + timeout <= now (1 + n)%nat)%Z -> n <= fuel ->
  (forall spins, Receiver_recv spins c = None) /\
  Receiver_recv_timeout fuel now timeout c = Some (Ok (c, RErr RtTimeout)).
Proof.
  intros HR Hs Hlt Hge Hf. split.
  - intros spins. induction spins as [|k IH]; cbn; by rewrite (try_recv_empty c HR Hs).
  - by apply (recv_deadline_wait c now _ n).
Qed.



End properties.

(** ** The interface the executor uses

    The runtime owns one sender and one receiver of an unbounded channel of task
    ids for as long as it lives, so a queue of its never disconnects.  [chan_rep]
    relates a channel to the ids queued in it; a send succeeds while fewer than
    [chan_room] ids are queued. *)

Class FifoChan (C : Type) := {
  chan_new : outcome C;
  chan_send : C -> nat -> outcome C;
  chan_try_recv : C -> outcome (C * option nat);
  chan_len : C -> nat;
  chan_rep : C -> list nat -> Prop;
  chan_room : Z;
  chan_new_rep : exists c, chan_new = Ok c /\ chan_rep c [];
  chan_send_rep c q x : chan_rep c q -> (Z.of_nat (length q) < chan_room)%Z ->
    exists c', chan_send c x = Ok c' /\ chan_rep c' (q ++ [x]);
  chan_recv_rep c q : chan_rep c q ->
    exists c', chan_try_recv c = Ok (c', hd_error q) /\ chan_rep c' (tl q);
  chan_len_rep c q : chan_rep c q -> chan_len c = length q
}.

(** [sender.send(id).expect("Failed to send task")]. *)
Definition spsc_send (c : Inner nat) (x : nat) : outcome (Inner nat) :=
  '(c, r) ← Sender_send c x;
  match r with ROk _ => mret c | RErr _ => Panic "Failed to send task" end.

(** [if let Ok(id) = receiver.try_recv()]. *)
Definition spsc_try_recv (c : Inner nat) : outcome (Inner nat * option nat) :=
  '(c, r) ← Receiver_try_recv c;
  mret (c, match r with ROk v => Some v | RErr _ => None end).

Definition live_rep (c : Inner nat) (q : list nat) : Prop :=
  exists f, Sim c f /\ items f = q /\ fcap f = None /\ frx f = true.

Program Instance Inner_FifoChan : FifoChan (Inner nat) := {
  chan_new := unbounded_channel;
  chan_send := spsc_send;
  chan_try_recv := spsc_try_recv;
  chan_len := ring_len;
  chan_rep := live_rep;
  chan_room := 2 ^ 58
}.
Next Obligation.
  destruct (unbounded_channel (A := nat)) as [c|s] eqn:E.
  - exists c. split; [done|]. eexists. split; [by apply unbounded_sim|done].
  - by vm_compute in E.
Qed.
Next Obligation.
  intros c q x (f & HS & <- & Hc & Hr) Hroom.
  destruct (try_send_sim c f x HS) as (c' & Hsend & HS').
  { unfold alloc_ok, isize_max. cbn. lia. }
  unfold spsc_send, Sender_send. rewrite Hsend.
  unfold fifo_try_send, fifo_full in *. rewrite Hr, Hc in *. cbn in *.
  exists c'. split; [done|]. eexists. split; [exact HS'|]. done.
Qed.
Next Obligation.
  intros c q (f & HS & <- & Hc & Hr). destruct (try_recv_sim c f HS) as (c' & Hrecv & HS').
  unfold spsc_try_recv. rewrite Hrecv. unfold fifo_try_recv in *.
  destruct (items f) as [|v q] eqn:Hq; cbn in *.
  - exists c'. split; [by case_decide|]. exists f. by rewrite Hq.
  - exists c'. split; [done|]. eexists. split; [exact HS'|]. done.
Qed.
Next Obligation.
  intros c q (f & HS & <- & _). apply Rep_len, HS.
Qed.

(** ** Witnesses and concrete runs *)

Definition two_slots : Inner nat :=
  mkInner INNER_MAGIC_START [None; None; None] 3 0 0 false 1 true INNER_MAGIC_END.

(** The run of [bounded_channel_preserves_fifo_and_capacity]. *)
Example bounded_run :
  snd <$> chan_run two_slots
    [OpSend 10; OpSend 20; OpSend 30; OpLen; OpRecv; OpSend 30; OpRecv; OpRecv; OpRecv]
  = Ok [ObsSend (ROk tt); ObsSend (ROk tt); ObsSend (RErr (Full 30));
        ObsLen 2 false false false; ObsRecv (ROk 10); ObsSend (ROk tt);
        ObsRecv (ROk 20); ObsRecv (ROk 30); ObsRecv (RErr RxEmpty)].
Proof. vm_compute. reflexivity. Qed.

Lemma two_slots_rep : Rep two_slots [].
Proof. apply (new_rep 3 false). lia. Qed.

Lemma two_slots_sim : Sim two_slots (mkFifo [] (Some 2) 1 true).
Proof. by apply (bounded_sim 2). Qed.

Lemma spsc_refines_fifo_witness :
  exists c', chan_run two_slots [OpSend 10; OpSend 20; OpSend 30; OpRecv] =
    Ok (c', snd (fifo_run (mkFifo [] (Some 2) 1 true) [OpSend 10; OpSend 20; OpSend 30; OpRecv])).
Proof.
  destruct (spsc_refines_fifo two_slots (mkFifo [] (Some 2) 1 true)
    [OpSend 10; OpSend 20; OpSend 30; OpRecv] two_slots_sim) as (c' & Hrun & _).
  - unfold alloc_ok. vm_compute. discriminate.
  - exists c'. exact Hrun.
Defined.

Lemma inner_drop_releases_queue_witness : Inner_drop two_slots = Some (Ok []).
Proof. apply (inner_drop_releases_queue two_slots []). exact two_slots_rep. Defined.

Lemma spinning_receives_witness :
  (forall spins, Receiver_recv spins two_slots = None) /\
  Receiver_recv_timeout 10 (fun k => Z.of_nat k) 3 two_slots =
    Some (Ok (two_slots, RErr RtTimeout)).
Proof.
  apply (spinning_receives two_slots (fun k => Z.of_nat k) 3 2 10);
    [exact two_slots_rep|cbn; lia|intros; lia|lia|lia].
Defined.

