(* ===== verification/Future.v ===== *)
(** * Future: wakers, the Future trait and [select]

    Models [pluvio_runtime/src/task/waker.rs] (a waker is a task id together with
    the sender of the queue the task is rescheduled on) and
    [pluvio_runtime/src/select.rs].  The trait [std::future::Future] is the class
    [Future S F A]: polling a future of type [F] in a world [S] may change both,
    and dropping it has an effect on the world too (a dropped [Delay] cancels its
    timer). *)

From S2P Require Import Prelude.

(** ** Wakers *)

(** Which of the runtime's two channels a [Sender<usize>] clone belongs to. *)
Inductive QueueKind : Type := TaskQueue | PollingQueue.

#[export] Instance QueueKind_eq_dec : EqDecision QueueKind.
Proof. solve_decision. Defined.

(** [PluvioWaker]. *)
Record Waker : Type := mkWaker {
  task_id : nat;
  task_sender : QueueKind
}.

#[export] Instance Waker_eq_dec : EqDecision Waker.
Proof. solve_decision. Defined.

(** [new_waker]; cloning ([clone_raw]) copies the id and the sender. *)
Definition new_waker (sender : QueueKind) (id : nat) : Waker := mkWaker id sender.
Definition clone_raw (k : Waker) : Waker := mkWaker (task_id k) (task_sender k).

(** ** The Future trait *)

Class Future (S F A : Type) := {
  fpoll : Waker -> F -> S -> outcome (S * F * Poll A);
  fdrop : F -> S -> S
}.

Definition drop_opt {S F A} `{Future S F A} (o : option F) (s : S) : S :=
  match o with Some f => fdrop f s | None => s end.

(** ** [select] *)

Inductive Either (A B : Type) : Type :=
| Left (a : A)
| Right (b : B).
Arguments Left {A B} a.
Arguments Right {A B} b.

Record Select2 (F1 F2 : Type) : Type := mkSelect2 {
  future1 : option F1;
  future2 : option F2
}.
Arguments mkSelect2 {F1 F2} _ _.
Arguments future1 {F1 F2} _.
Arguments future2 {F1 F2} _.

Section select.
Context {S F1 F2 A B : Type} `{Future S F1 A} `{Future S F2 B}.
Implicit Types (x : Select2 F1 F2) (k : Waker) (s : S).

Definition Select2_new (f1 : F1) (f2 : F2) : Select2 F1 F2 := mkSelect2 (Some f1) (Some f2).
Definition select (f1 : F1) (f2 : F2) : Select2 F1 F2 := Select2_new f1 f2.

(** The two [if let] blocks of [poll]: [future1] first; a completed or losing
    future is dropped by assigning [None] over it. *)
Definition Select2_poll (k : Waker) x s : outcome (S * Select2 F1 F2 * Poll (Either A B)) :=
  '(s, o1, p1) ← (match future1 x with
                  | Some f1 => '(s, f1, p) ← fpoll k f1 s; mret (s, Some f1, p)
                  | None => mret (s, None, Pending)
                  end);
  match p1 with
  | Ready a =>
      let s := drop_opt (A := A) o1 s in
      let s := drop_opt (A := B) (future2 x) s in
      mret (s, mkSelect2 None None, Ready (Left a))
  | Pending =>
      '(s, o2, p2) ← (match future2 x with
                      | Some f2 => '(s, f2, p) ← fpoll k f2 s; mret (s, Some f2, p)
                      | None => mret (s, None, Pending)
                      end);
      match p2 with
      | Ready b =>
          let s := drop_opt (A := A) o1 s in
          let s := drop_opt (A := B) o2 s in
          mret (s, mkSelect2 None None, Ready (Right b))
      | Pending => mret (s, mkSelect2 o1 o2, Pending)
      end
  end.

Definition Select2_drop x s : S :=
  drop_opt (A := B) (future2 x) (drop_opt (A := A) (future1 x) s).

#[export] Instance Select2_Future : Future S (Select2 F1 F2) (Either A B) := {
  fpoll := Select2_poll;
  fdrop := Select2_drop
}.

(** [select] is biased to its first future and cancels the loser: when both
    are pending nothing is dropped and both were polled once, in order; when the
    first is ready the second is dropped without being polled; when only the
    second is ready the first is dropped after its poll; and once resolved, every
    further poll is [Pending] and has no effect. *)
Theorem select2_poll_spec (k : Waker) (f1 : F1) (f2 : F2) s s1 f1' p1 :
  fpoll k f1 s = Ok (s1, f1', p1) ->
  match p1 with
  | Ready a =>
      Select2_poll k (select f1 f2) s =
        Ok (fdrop (A := B) f2 (fdrop (A := A) f1' s1), mkSelect2 None None, Ready (Left a))
  | Pending =>
      forall s2 f2' p2, fpoll k f2 s1 = Ok (s2, f2', p2) ->
      Select2_poll k (select f1 f2) s =
        match p2 with
        | Ready b => Ok (fdrop (A := B) f2' (fdrop (A := A) f1' s2), mkSelect2 None None, Ready (Right b))
        | Pending => Ok (s2, mkSelect2 (Some f1') (Some f2'), Pending)
        end
  end /\
  forall s', Select2_poll k (mkSelect2 None None) s' = Ok (s', mkSelect2 None None, Pending).
Proof.
  intros H1. split; [|done]. unfold Select2_poll. cbn. rewrite H1. cbn.
  destruct p1 as [a|]; cbn; [done|]. intros s2 f2' p2 H2. rewrite H2. cbn.
  by destruct p2.
Qed.
End select.

(** A future that is ready after [n] polls, counting polls and drops in the world. *)
Definition count_poll (k : Waker) (n : nat) (s : nat * nat) : outcome ((nat * nat) * nat * Poll nat) :=
  match n with
  | 0 => Ok ((s.1 + 1, s.2), 0, Ready 42)
  | Datatypes.S n => Ok ((s.1 + 1, s.2), n, Pending)
  end.
Definition count_future : Future (nat * nat) nat nat :=
  {| fpoll := count_poll; fdrop := fun _ s => (s.1, s.2 + 1) |}.

Lemma select2_poll_spec_witness :
  @Select2_poll _ _ _ _ _ count_future count_future (mkWaker 0 TaskQueue) (select 1 0) (0, 0)
    = Ok ((2, 2), mkSelect2 None None, Ready (Right 42)).
Proof.
  exact (proj1 (@select2_poll_spec _ _ _ _ _ count_future count_future (mkWaker 0 TaskQueue)
    1 0 (0, 0) (1, 0) 0 Pending eq_refl) (2, 0) 0 (Ready 42) eq_refl).
Defined.
