(* ===== verification/Track.v ===== *)
(** * Track: per-task track ids ([pluvio_runtime/src/track.rs])

    The thread-local allocator and the current track id are [TrackTls]; a world
    that contains them is an instance of [HasTrack].  [TrackedFuture] and
    [MaybeTracked] are futures over any inner future.  [TrackInv] says that ids
    in use are pairwise distinct and never the reserved id 0, and the class
    [TrackSafe] is what a future promises about it: the wrappers keep the promise
    of the future they wrap, to any nesting depth. *)

From S2P Require Import Prelude Future.
Local Open Scope Z_scope.

(** ** The allocator *)

Record TrackTls : Type := mkTrack {
  available_ids : list Z;
  next_id : Z;
  current_id : Z
}.

Definition TrackIdAllocator_new : TrackTls := mkTrack [] 1 0.

Definition TrackIdAllocator_acquire (t : TrackTls) : TrackTls * Z :=
  match available_ids t with
  | id :: rest => (mkTrack rest (next_id t) (current_id t), id)
  | [] => (mkTrack [] (wrap64 (next_id t + 1)) (current_id t), next_id t)
  end.

Definition TrackIdAllocator_release (id : Z) (t : TrackTls) : TrackTls :=
  if negb (id =? 0)
  then mkTrack (available_ids t ++ [id]) (next_id t) (current_id t)
  else t.

(** ** The thread-local accessors *)

Class HasTrack (S : Type) := {
  get_track : S -> TrackTls;
  put_track : TrackTls -> S -> S;
  get_put_track s t : get_track (put_track t s) = t
}.

#[export] Instance TrackTls_HasTrack : HasTrack TrackTls :=
  {| get_track := fun t => t; put_track := fun t _ => t; get_put_track := fun _ _ => eq_refl |}.

Section tls.
Context {S : Type} `{HasTrack S}.

Definition acquire_track_id (s : S) : S * Z :=
  let (t, id) := TrackIdAllocator_acquire (get_track s) in (put_track t s, id).
Definition release_track_id (id : Z) (s : S) : S :=
  put_track (TrackIdAllocator_release id (get_track s)) s.
Definition set_current_track_id (id : Z) (s : S) : S :=
  let t := get_track s in put_track (mkTrack (available_ids t) (next_id t) id) s.
Definition get_current_track_id (s : S) : Z := current_id (get_track s).
End tls.

(** ** The wrappers *)

Record TrackedFuture (F : Type) : Type := mkTracked {
  inner : F;
  track_id : option Z
}.
Arguments mkTracked {F} _ _.
Arguments inner {F} _.
Arguments track_id {F} _.

Inductive MaybeTracked (F : Type) : Type :=
| Tracked (tf : TrackedFuture F)
| Untracked (f : F).
Arguments Tracked {F} tf.
Arguments Untracked {F} f.

Definition tracked {F} (future : F) : TrackedFuture F := mkTracked future None.

Definition maybe_tracked {F} (future : F) (enable_tracking : bool) : MaybeTracked F :=
  if enable_tracking then Tracked (mkTracked future None) else Untracked future.

Section wrappers.
Context {S F A : Type} `{HasTrack S} `{Future S F A}.

Definition TrackedFuture_poll (k : Waker) (this : TrackedFuture F) (s : S) :
    outcome (S * TrackedFuture F * Poll A) :=
  let '(s, tid) := match track_id this with
                   | None => acquire_track_id s
                   | Some id => (s, id)
                   end in
  let previous_track_id := get_current_track_id s in
  let s := set_current_track_id tid s in
  '(s, f, result) ← fpoll k (inner this) s;
  let s := set_current_track_id previous_track_id s in
  if is_ready result
  then mret (release_track_id tid s, mkTracked f None, result)
  else mret (s, mkTracked f (Some tid), result).

(** Dropping the wrapper drops the inner future; there is no [Drop] impl. *)
#[export] Instance TrackedFuture_Future : Future S (TrackedFuture F) A := {
  fpoll := TrackedFuture_poll;
  fdrop := fun this s => fdrop (inner this) s
}.

Definition MaybeTracked_poll (k : Waker) (this : MaybeTracked F) (s : S) :
    outcome (S * MaybeTracked F * Poll A) :=
  match this with
  | Tracked tf => '(s, tf, r) ← TrackedFuture_poll k tf s; mret (s, Tracked tf, r)
  | Untracked f => '(s, f, r) ← fpoll k f s; mret (s, Untracked f, r)
  end.

#[export] Instance MaybeTracked_Future : Future S (MaybeTracked F) A := {
  fpoll := MaybeTracked_poll;
  fdrop := fun this s =>
    match this with Tracked tf => fdrop (inner tf) s | Untracked f => fdrop f s end
}.
End wrappers.

(** ** The invariant

    [TrackInv n t held]: [n - 1] ids were created so far and, unless the 64-bit
    counter has wrapped, the ids held by live futures and the ids in the pool
    are pairwise distinct and lie in [1 .. n - 1]. *)
Definition TrackInv (n : Z) (t : TrackTls) (held : list Z) : Prop :=
  1 <= n /\ next_id t = wrap64 n /\
  (n <= 2 ^ 64 -> NoDup (held ++ available_ids t) /\
                  Forall (fun id => 1 <= id < n) (held ++ available_ids t)).

Lemma track_inv_perm n t held held' :
  held ≡ₚ held' -> TrackInv n t held -> TrackInv n t held'.
Proof.
  intros HP (H1 & H2 & H3). split; [done|]. split; [done|].
  intros Hn. by rewrite <- HP; apply H3.
Qed.

Lemma track_inv_init : TrackInv 1 TrackIdAllocator_new [].
Proof. split; [lia|]. split; [done|]. intros _. split; constructor. Qed.

Lemma track_acquire_inv n t held t' id :
  TrackInv n t held -> TrackIdAllocator_acquire t = (t', id) ->
  exists n', n <= n' <= n + 1 /\ TrackInv n' t' (id :: held) /\ current_id t' = current_id t.
Proof.
  destruct t as [av nx cur]. intros (H1 & H2 & H3). unfold TrackIdAllocator_acquire. cbn in *.
  destruct av as [|a av]; intros [= <- <-].
  - exists (n + 1). split; [lia|]. split; [|done]. split; [lia|]. cbn. split.
    + rewrite H2. unfold wrap64. by rewrite Zplus_mod_idemp_l.
    + intros Hn. destruct H3 as [Hnd Hall]; [lia|]. rewrite app_nil_r in *.
      assert (Hnx : nx = n) by (rewrite H2; apply Z.mod_small; lia).
      split.
      * constructor; [|done]. intros Hin. rewrite list_elem_of_In in Hin.
        rewrite List.Forall_forall in Hall. specialize (Hall _ Hin). lia.
      * constructor; [lia|]. eapply Forall_impl; [exact Hall|]. cbn. lia.
  - exists n. split; [lia|]. split; [|done]. split; [done|]. split; [done|]. cbn.
    intros Hn. by rewrite Permutation_middle; apply H3.
Qed.

Lemma track_release_inv n t held id :
  TrackInv n t (id :: held) -> TrackInv n (TrackIdAllocator_release id t) held.
Proof.
  destruct t as [av nx cur]. intros (H1 & H2 & H3). unfold TrackIdAllocator_release.
  destruct (Z.eqb_spec id 0) as [->|Hid]; cbn in *.
  - split; [done|]. split; [done|]. intros Hn. destruct (H3 Hn) as [Hnd Hall].
    inversion Hall; lia.
  - split; [done|]. split; [done|]. cbn. intros Hn.
    rewrite app_assoc, (Permutation_app_comm _ [id]). by apply H3.
Qed.

Lemma track_release_current id t : current_id (TrackIdAllocator_release id t) = current_id t.
Proof. unfold TrackIdAllocator_release. by case_match. Qed.

Lemma track_inv_current n t held c :
  TrackInv n t held -> TrackInv n (mkTrack (available_ids t) (next_id t) c) held.
Proof. done. Qed.

(** ** What a future promises

    [track_ids f] are the ids held inside [f]; polling [f] keeps the invariant,
    whatever other futures hold, creates at most [track_fresh] ids, and restores the
    current id. *)
Class TrackSafe (S F A : Type) `{HasTrack S} `{Future S F A} := {
  track_ids : F -> list Z;
  track_fresh : Z;
  track_fresh_nonneg : 0 <= track_fresh;
  poll_track_safe k f s s' f' p n held :
    TrackInv n (get_track s) (track_ids f ++ held) ->
    fpoll k f s = Ok (s', f', p) ->
    (exists n', n <= n' <= n + track_fresh /\ TrackInv n' (get_track s') (track_ids f' ++ held)) /\
    current_id (get_track s') = current_id (get_track s)
}.

Section safety.
Context {S F A : Type} `{HasTrack S} `{Future S F A}.
Context {HT : TrackSafe S F A}.

Definition tracked_ids (f : TrackedFuture F) : list Z :=
  option_list (track_id f) ++ track_ids (inner f).
Definition maybe_tracked_ids (f : MaybeTracked F) : list Z :=
  match f with Tracked tf => tracked_ids tf | Untracked f => track_ids f end.

(** The first half of the poll: the future owns an id, which is then current. *)
Lemma tracked_enter (this : TrackedFuture F) (s : S) n held :
  TrackInv n (get_track s) (tracked_ids this ++ held) ->
  exists s1 id n1,
    match track_id this with None => acquire_track_id s | Some id => (s, id) end = (s1, id) /\
    n <= n1 <= n + 1 /\ TrackInv n1 (get_track s1) (track_ids (inner this) ++ id :: held) /\
    current_id (get_track s1) = current_id (get_track s) /\
    (forall i, track_id this = Some i -> id = i).
Proof.
  intros HI. destruct this as [f [id|]]; cbn in *.
  - exists s, id, n. split; [done|]. split; [lia|]. split; [|split; [done|congruence]].
    eapply track_inv_perm, HI. cbn. by rewrite Permutation_middle.
  - unfold acquire_track_id.
    destruct (TrackIdAllocator_acquire (get_track s)) as [t id] eqn:Ha.
    destruct (track_acquire_inv _ _ _ _ _ HI Ha) as (n1 & Hn & HI1 & Hc).
    exists (put_track t s), id, n1. split; [done|]. rewrite get_put_track.
    split; [done|]. split; [|done]. eapply track_inv_perm, HI1. by rewrite <- Permutation_middle.
Qed.

(** Polling a tracked future keeps every id in use distinct; the inner future
    runs with its own id current; the caller's current id is restored; the id is
    kept while pending and handed back when ready. *)
Lemma tracked_poll_inv k (this this' : TrackedFuture F) s s' p n held :
  TrackInv n (get_track s) (tracked_ids this ++ held) ->
  TrackedFuture_poll k this s = Ok (s', this', p) ->
  (exists n', n <= n' <= n + (1 + track_fresh) /\ TrackInv n' (get_track s') (tracked_ids this' ++ held)) /\
  current_id (get_track s') = current_id (get_track s) /\
  (exists id s1 s2 f',
     fpoll k (inner this) s1 = Ok (s2, f', p) /\ current_id (get_track s1) = id /\
     (forall i, track_id this = Some i -> id = i) /\
     inner this' = f' /\
     track_id this' = (if is_ready p then None else Some id) /\
     available_ids (get_track s') =
       (if is_ready p && negb (id =? 0) then available_ids (get_track s2) ++ [id]
        else available_ids (get_track s2))).
Proof.
  intros HI Hp. destruct (tracked_enter _ _ _ _ HI) as (s1 & id & n1 & E & Hn & HI1 & Hc & Hid).
  unfold TrackedFuture_poll in Hp. rewrite E in Hp. inv_Ok.
  destruct a as [[s2 f'] r]. rename H1 into Hpoll.
  assert (HI1' : TrackInv n1 (get_track (set_current_track_id id s1)) (track_ids (inner this) ++ id :: held))
    by (unfold set_current_track_id; rewrite get_put_track; exact HI1).
  destruct (poll_track_safe _ _ _ _ _ _ _ _ HI1' Hpoll) as [(n2 & Hn2 & HI2) Hc2].
  assert (HI2' : TrackInv n2 (get_track s2) (id :: track_ids f' ++ held)) by
    (eapply track_inv_perm, HI2; by rewrite <- Permutation_middle).
  assert (Hret : forall s3, get_track s3 = mkTrack (available_ids (get_track s2)) (next_id (get_track s2)) (get_current_track_id s1) ->
            current_id (get_track s3) = current_id (get_track s)) by (intros s3 ->; exact Hc).
  assert (Hs1c : current_id (get_track (set_current_track_id id s1)) = id)
    by (unfold set_current_track_id; by rewrite get_put_track).
  destruct (is_ready r) eqn:Hr; inv_Ok; cbn [inner track_id]; rewrite Hr.
  - unfold release_track_id, set_current_track_id. rewrite !get_put_track. split.
    + exists n2. split; [lia|]. apply track_release_inv. exact HI2'.
    + split; [rewrite track_release_current; exact Hc|].
      exists id, (set_current_track_id id s1), s2, f'. do 5 (split; [done|]).
      unfold TrackIdAllocator_release. by destruct (id =? 0).
  - unfold set_current_track_id. rewrite !get_put_track. split.
    + exists n2. split; [lia|]. exact HI2'.
    + split; [exact Hc|]. exists id, (set_current_track_id id s1), s2, f'. done.
Qed.

#[export] Instance TrackedFuture_TrackSafe : TrackSafe S (TrackedFuture F) A.
Proof.
  refine {| track_ids := tracked_ids; track_fresh := 1 + track_fresh |}; [pose proof track_fresh_nonneg; lia|].
  intros k f s s' f' p n held HI Hp.
  destruct (tracked_poll_inv _ _ _ _ _ _ _ _ HI Hp) as (? & ? & _). done.
Defined.

#[export] Instance MaybeTracked_TrackSafe : TrackSafe S (MaybeTracked F) A.
Proof.
  refine {| track_ids := maybe_tracked_ids; track_fresh := 1 + track_fresh |}; [pose proof track_fresh_nonneg; lia|].
  intros k [tf|f] s s' f' p n held HI Hp; cbn in Hp.
  - apply bind_Ok in Hp as ([[s1 tf'] r] & Hp & [= <- <- <-]).
    destruct (tracked_poll_inv _ _ _ _ _ _ _ _ HI Hp) as (? & ? & _). done.
  - apply bind_Ok in Hp as ([[s1 f1] r] & Hp & [= <- <- <-]).
    destruct (poll_track_safe _ _ _ _ _ _ _ _ HI Hp) as [(n' & Hn & HI') Hc]. split; [|done].
    exists n'. split; [lia|done].
Defined.
End safety.

(** ** A pool of tracked tasks

    The executor's tasks: a new one is wrapped when it is spawned, any of them
    may be polled next, and one that is ready leaves the pool.  A step has the number of
    its polls. *)
Section pool.
Context {S F A : Type} `{HasTrack S} `{Future S F A}.
Context {HT : TrackSafe S F A}.

Inductive track_step : nat -> list (MaybeTracked F) * S -> list (MaybeTracked F) * S -> Prop :=
| track_spawn fs s f b :
    track_ids f = [] -> track_step 0 (fs, s) (fs ++ [maybe_tracked f b], s)
| track_poll_pending k fs gs f f' s s' :
    MaybeTracked_poll k f s = Ok (s', f', Pending) ->
    track_step 1 (fs ++ f :: gs, s) (fs ++ f' :: gs, s')
| track_poll_ready k fs gs f f' s s' a :
    MaybeTracked_poll k f s = Ok (s', f', Ready a) -> maybe_tracked_ids f' = [] ->
    track_step 1 (fs ++ f :: gs, s) (fs ++ gs, s').

(** The runs, with the number of polls. *)
Inductive track_run : nat -> list (MaybeTracked F) * S -> list (MaybeTracked F) * S -> Prop :=
| track_run_refl st : track_run 0 st st
| track_run_step m n st st1 st' : track_step m st st1 -> track_run n st1 st' -> track_run (m + n) st st'.

Definition pool_ids (fs : list (MaybeTracked F)) : list Z := fs ≫= maybe_tracked_ids.

(** The executor's current id, and at most [N - 1] ids created. *)
Definition PoolInv (c N : Z) (st : list (MaybeTracked F) * S) : Prop :=
  current_id (get_track st.2) = c /\ exists n, n <= N /\ TrackInv n (get_track st.2) (pool_ids st.1).

Lemma pool_ids_middle fs f gs :
  pool_ids (fs ++ f :: gs) ≡ₚ maybe_tracked_ids f ++ pool_ids (fs ++ gs).
Proof. unfold pool_ids. rewrite !bind_app, bind_cons. apply Permutation_app_swap_app. Qed.

Lemma pool_poll_inv c N k fs gs f f' s s' p :
  PoolInv c N (fs ++ f :: gs, s) -> MaybeTracked_poll k f s = Ok (s', f', p) ->
  PoolInv c (N + (1 + track_fresh)) (fs ++ f' :: gs, s').
Proof.
  intros [Hc (n & Hn & HI)] Hp. cbn in *.
  apply (track_inv_perm _ _ _ _ (pool_ids_middle fs f gs)) in HI.
  destruct (poll_track_safe (TrackSafe := MaybeTracked_TrackSafe) _ _ _ _ _ _ _ _ HI Hp)
    as [(n' & Hn' & HI') Hc']. cbn in Hn'.
  split; cbn; [congruence|]. exists n'. split; [lia|].
  by apply (track_inv_perm _ _ _ _ (symmetry (pool_ids_middle fs f' gs))).
Qed.

Lemma track_step_inv c N m st st' : PoolInv c N st -> track_step m st st' ->
  PoolInv c (N + Z.of_nat m * (1 + track_fresh)) st'.
Proof.
  intros HP Hs. destruct Hs as [fs s f b Hf|k fs gs f f' s s' Hp|k fs gs f f' s s' a Hp Hf].
  - destruct HP as [Hc (n & Hn & HI)]. split; [done|]. exists n. split; [lia|]. cbn in *.
    unfold pool_ids. rewrite bind_app. cbn.
    destruct b; cbn; unfold tracked_ids; cbn; by rewrite Hf, !app_nil_r.
  - rewrite Z.mul_1_l. by eapply pool_poll_inv.
  - rewrite Z.mul_1_l. eapply (pool_poll_inv _ _ _ _ _ _ _ _ _ _ HP) in Hp. destruct Hp as [Hc (n & Hn & HI)].
    split; [done|]. exists n. split; [done|]. cbn in *.
    eapply track_inv_perm, HI. by rewrite pool_ids_middle, Hf.
Qed.

Lemma track_run_inv c N polls st st' : PoolInv c N st -> track_run polls st st' ->
  PoolInv c (N + Z.of_nat polls * (1 + track_fresh)) st'.
Proof.
  intros HP Hr. revert N HP. induction Hr as [st|m n st st1 st' Hs _ IH]; intros N HP; [by rewrite Z.add_0_r|].
  rewrite Nat2Z.inj_add, Z.mul_add_distr_r, Z.add_assoc. by eapply IH, track_step_inv.
Qed.

(** C13. However the tasks of a pool are spawned, polled and completed, the current id
    between polls is always the one the executor itself had; and as long as the polls made
    cannot have created [2 ^ 64] ids, the track ids held by live tasks and those in the
    allocator's free pool are pairwise distinct, so no id is held twice or both held and
    free, and never the main track's id 0: they are among the first ids, one for each poll
    of a wrapper.  A poll creates one id for its own wrapper and at most [track_fresh] for
    wrappers nested inside the future. *)
Theorem track_ids_distinct (s : S) polls fs s' :
  get_track s = TrackIdAllocator_new ->
  track_run polls ([], s) (fs, s') ->
  current_id (get_track s') = 0 /\
  (Z.of_nat polls * (1 + track_fresh) < 2 ^ 64 ->
   NoDup (pool_ids fs ++ available_ids (get_track s')) /\
   Forall (fun id => 1 <= id <= Z.of_nat polls * (1 + track_fresh)) (pool_ids fs ++ available_ids (get_track s'))).
Proof.
  intros Hs Hrun.
  assert (HP : PoolInv 0 1 ([], s)) by (split; cbn; rewrite Hs; [done|]; exists 1; split; [lia|exact track_inv_init]).
  destruct (track_run_inv _ _ _ _ _ HP Hrun) as [Hc (n & Hn & _ & _ & HI)]. split; [done|]. intros Hlt.
  destruct HI as [Hnd Hall]; [lia|]. split; [done|]. eapply Forall_impl; [exact Hall|]. cbn. lia.
Qed.

(** Cancellation leaks: dropping a tracked future that is still pending
    returns nothing to the pool, so its id is never handed out again. *)
Theorem tracked_drop_leaks k (f : F) (s s' : S) (this : TrackedFuture F) n held :
  (forall g t, get_track (fdrop (A := A) g t) = get_track t) ->
  n + (1 + track_fresh) <= 2 ^ 64 ->
  TrackInv n (get_track s) (track_ids f ++ held) ->
  TrackedFuture_poll k (tracked f) s = Ok (s', this, Pending) ->
  exists id, track_id this = Some id /\
    let t := get_track (fdrop (A := A) this s') in t = get_track s' /\ id ∉ available_ids t.
Proof.
  intros Hd Hn HI Hp.
  destruct (tracked_poll_inv _ (tracked f) _ _ _ _ _ _ HI Hp)
    as ((n' & Hn' & HI') & _ & (id & s1 & s2 & f' & _ & _ & _ & _ & Hid & _)).
  exists id. split; [exact Hid|]. cbn. rewrite Hd. split; [done|].
  intros Hin. destruct HI' as (_ & _ & Hnd). destruct Hnd as [Hnd' _]; [lia|].
  apply NoDup_app in Hnd' as (_ & Hdisj & _). apply (Hdisj id); [|done].
  apply elem_of_app. left. unfold tracked_ids. rewrite Hid. cbn. left.
Qed.
End pool.

(** ** Concrete runs *)

(** A leaf future that is ready after [n] polls and returns the current id. *)
Definition leaf_poll (k : Waker) (n : nat) (t : TrackTls) : outcome (TrackTls * nat * Poll Z) :=
  match n with
  | O => Ok (t, O, Ready (current_id t))
  | Datatypes.S n => Ok (t, n, Pending)
  end.
#[export] Instance leaf_future : Future TrackTls nat Z :=
  {| fpoll := leaf_poll; fdrop := fun _ t => t |}.
#[export] Instance leaf_safe : TrackSafe TrackTls nat Z.
Proof.
  refine {| track_ids := fun _ => []; track_fresh := 0 |}; [done|].
  intros k [|f] s s' f' p n held HI [= <- <- <-]; (split; [exists n; split; [lia|done]|done]).
Defined.

Lemma track_ids_distinct_witness : exists fs t,
  track_run (F := nat) (A := Z) 2 ([], TrackIdAllocator_new) (fs, t) /\
  pool_ids fs = [1; 2] /\ current_id (get_track t) = 0 /\ NoDup (pool_ids fs ++ available_ids t).
Proof.
  exists [Tracked (mkTracked 0%nat (Some 1)); Tracked (mkTracked 0%nat (Some 2))], (mkTrack [] 3 0).
  assert (Hs : track_run (F := nat) (A := Z) 2 ([], TrackIdAllocator_new)
    ([Tracked (mkTracked 0%nat (Some 1)); Tracked (mkTracked 0%nat (Some 2))], mkTrack [] 3 0)).
  { eapply (track_run_step 0 2). { apply (track_spawn (HT := leaf_safe) [] _ 1%nat true). reflexivity. }
    eapply (track_run_step 0 2). { apply (track_spawn (HT := leaf_safe) _ _ 1%nat true). reflexivity. }
    eapply (track_run_step 1 1). { apply (track_poll_pending (mkWaker 0 TaskQueue) []). vm_compute. reflexivity. }
    eapply (track_run_step 1 0).
    { apply (track_poll_pending (mkWaker 0 TaskQueue) [Tracked (mkTracked 0%nat (Some 1))]).
      vm_compute. reflexivity. }
    apply track_run_refl. }
  split; [exact Hs|]. split; [done|].
  destruct (track_ids_distinct (HT := leaf_safe) TrackIdAllocator_new 2 _ _ eq_refl Hs) as [Hc Hd].
  split; [exact Hc|]. apply (Hd ltac:(cbn; lia)).
Defined.

Lemma tracked_drop_leaks_witness : exists this t,
  TrackedFuture_poll (mkWaker 0 TaskQueue) (tracked 1%nat) TrackIdAllocator_new = Ok (t, this, Pending) /\
  exists id, track_id this = Some id.
Proof.
  exists (mkTracked 0%nat (Some 1)), (mkTrack [] 2 0). split; [vm_compute; reflexivity|].
  destruct (tracked_drop_leaks (mkWaker 0 TaskQueue) 1%nat TrackIdAllocator_new (mkTrack [] 2 0)
    (mkTracked 0%nat (Some 1)) 1 []) as (id & Hid & _).
  - reflexivity.
  - cbn. lia.
  - exact track_inv_init.
  - vm_compute. reflexivity.
  - exists id. exact Hid.
Defined.

(** A completed task's id is reused by the next one. *)
Example track_id_reused :
  ('(t, f, p) ← TrackedFuture_poll (mkWaker 0 TaskQueue) (tracked 0%nat) TrackIdAllocator_new;
   '(t, g, q) ← TrackedFuture_poll (mkWaker 0 TaskQueue) (tracked 0%nat) t;
   mret (p, q, t)) = Ok (Ready 1, Ready 1, mkTrack [1] 2 0).
Proof. vm_compute. reflexivity. Qed.
