(* ===== verification/Slab.v ===== *)
(** * Slab: the interface of the slab allocator the executor stores tasks in

    The crate [slab] is not part of the repository: what the executor relies on
    is the class [Slab], stated on the finite map [slab_view] from keys to
    values.  [insert] returns a vacant key, which may be one that was removed
    before; [remove] panics on a vacant key. *)

From S2P Require Import Prelude.

Class Slab (T SL : Type) := {
  slab_new : SL;
  slab_insert : T -> SL -> SL * nat;
  slab_get : nat -> SL -> option T;
  slab_put : nat -> T -> SL -> SL;
  slab_remove : nat -> SL -> outcome SL;
  slab_len : SL -> nat;
  slab_iter : SL -> list (nat * T);
  slab_view : SL -> gmap nat T;
  slab_new_view : slab_view slab_new = ∅;
  slab_insert_view x s : slab_view s !! (slab_insert x s).2 = None /\
    slab_view (slab_insert x s).1 = <[(slab_insert x s).2 := x]> (slab_view s);
  slab_get_view k s : slab_get k s = slab_view s !! k;
  slab_put_view k x s : is_Some (slab_view s !! k) ->
    slab_view (slab_put k x s) = <[k := x]> (slab_view s);
  slab_remove_view k s : is_Some (slab_view s !! k) ->
    exists s', slab_remove k s = Ok s' /\ slab_view s' = delete k (slab_view s);
  slab_remove_panic k s : slab_view s !! k = None -> exists m, slab_remove k s = Panic m;
  slab_len_view s : slab_len s = size (slab_view s);
  slab_iter_view s : slab_iter s ≡ₚ map_to_list (slab_view s)
}.

(** A concrete slab: a finite map that hands out the smallest vacant key. *)
Section map_slab.
Context {T : Type}.
Implicit Types (s : gmap nat T).

Definition vacant_from (s : gmap nat T) (ks : list nat) (dflt : nat) : nat :=
  default dflt (head (filter (fun k => s !! k = None) ks)).
Definition vacant (s : gmap nat T) : nat :=
  vacant_from s (seq 0 (size s)) (fresh (dom s)).

Lemma vacant_spec s : s !! vacant s = None.
Proof.
  unfold vacant, vacant_from. destruct (filter _ _) as [|k ks] eqn:Hf; cbn.
  - apply not_elem_of_dom, is_fresh.
  - assert (Hin : k ∈ filter (fun k => s !! k = None) (seq 0 (size s))) by (rewrite Hf; left).
    by apply list_elem_of_filter in Hin as [? _].
Qed.

#[local] Obligation Tactic := idtac.
#[export] Program Instance map_slab : Slab T (gmap nat T) := {
  slab_new := ∅;
  slab_insert x s := (<[vacant s := x]> s, vacant s);
  slab_get k s := s !! k;
  slab_put k x s := <[k := x]> s;
  slab_remove k s := match s !! k with Some _ => Ok (delete k s) | None => Panic "invalid key" end;
  slab_len := size;
  slab_iter := map_to_list;
  slab_view s := s
}.
Next Obligation. done. Qed.
Next Obligation. intros x s. split; [apply vacant_spec|done]. Qed.
Next Obligation. done. Qed.
Next Obligation. done. Qed.
Next Obligation. intros k s [x Hx]. cbn. rewrite Hx. eauto. Qed.
Next Obligation. intros k s Hk. cbn. rewrite Hk. eauto. Qed.
Next Obligation. done. Qed.
Next Obligation. done. Qed.
End map_slab.
