(* ===== verification/Task.v ===== *)
(** * Task: tasks, join handles and statistics

    Models [pluvio_runtime/src/task/mod.rs], [task/stat.rs] and
    [executor/stat.rs].  The state a task shares with its [JoinHandle] lives in a
    store indexed by addresses ([Heap]), because the handle, the task and its
    wrapper future alias it through an [Rc].  A result is a [Box<dyn Any>]: a
    value with the identity of its type. *)

From S2P Require Import Prelude Future.
Local Open Scope Z_scope.

(** ** Task statistics *)

(** Instants are nanoseconds of the monotonic clock; [u64] additions wrap as in
    a release build. *)
Record TaskStat : Type := mkTaskStat {
  task_name : option string;
  execute_time_ns : Z;
  start_time_ns : option Z;
  end_time_ns : option Z;
  running : bool
}.

Definition TaskStat_new (name : option string) : TaskStat := mkTaskStat name 0 None None true.

Definition add_execute_time (time_ns : Z) (st : TaskStat) : TaskStat :=
  mkTaskStat (task_name st) (wrap64 (execute_time_ns st + time_ns))
    (start_time_ns st) (end_time_ns st) (running st).

Definition get_execute_time (st : TaskStat) : Z := execute_time_ns st.

(** [Instant::duration_since] saturates at zero. *)
Definition get_elapsed_real_time (st : TaskStat) : option Z :=
  match start_time_ns st, end_time_ns st with
  | Some start, Some stop => Some (Z.max 0 (stop - start))
  | _, _ => None
  end.

Definition stat_start (now : Z) (st : TaskStat) : TaskStat :=
  mkTaskStat (task_name st) (execute_time_ns st) (once_set (start_time_ns st) now)
    (end_time_ns st) (running st).
Definition stat_end (now : Z) (st : TaskStat) : TaskStat :=
  mkTaskStat (task_name st) (execute_time_ns st) (start_time_ns st)
    (once_set (end_time_ns st) now) (running st).
Definition stat_stop (st : TaskStat) : TaskStat :=
  mkTaskStat (task_name st) (execute_time_ns st) (start_time_ns st) (end_time_ns st) false.

(** ** Results and shared state *)

(** [Box<dyn Any>]: [any_type] is the [TypeId]. *)
Record AnyBox (V : Type) : Type := mkAny {
  any_type : nat;
  any_val : V
}.
Arguments mkAny {V} _ _.
Arguments any_type {V} _.
Arguments any_val {V} _.

Record SharedState (V : Type) : Type := mkShared {
  waker : option Waker;
  sresult : option (result (AnyBox V) string)
}.
Arguments mkShared {V} _ _.
Arguments waker {V} _.
Arguments sresult {V} _.

Definition SharedState_new {V} : SharedState V := mkShared None None.

(** The store of shared states: an address never allocated reads as a new one. *)
Abbreviation Heap V := (gmap nat (SharedState V)).
Definition heap_get {V} (h : Heap V) (a : nat) : SharedState V := default SharedState_new (h !! a).
Definition heap_set {V} (a : nat) (s : SharedState V) (h : Heap V) : Heap V := <[a := s]> h.

(** [JoinHandle<T>]: the address of the shared state and the type [T]. *)
Record JoinHandle : Type := mkJoin {
  shared_state : nat;
  type_data : nat
}.

(** ** Joining *)

Section join.
Context {V : Type}.
Implicit Types (h : Heap V) (k : Waker).

(** [data.downcast::<T>()]. *)
Definition downcast (ty : nat) (r : result (AnyBox V) string) : result V string :=
  match r with
  | ROk data => if Nat.eqb (any_type data) ty then ROk (any_val data)
                else RErr "Failed to downcast"%string
  | RErr err => RErr err
  end.

Definition JoinHandle_poll k (jh : JoinHandle) h : Heap V * Poll (result V string) :=
  let a := shared_state jh in
  let shared := heap_get h a in
  match sresult shared with
  | Some r => (heap_set a (mkShared (waker shared) None) h, Ready (downcast (type_data jh) r))
  | None => (heap_set a (mkShared (Some (clone_raw k)) None) h, Pending)
  end.

(** The end of [wrapped_future]: store the boxed result, then take the waker,
    which the caller wakes. *)
Definition complete_shared (a : nat) (res : AnyBox V) h : Heap V * option Waker :=
  let h := heap_set a (mkShared (waker (heap_get h a)) (Some (ROk res))) h in
  let w := waker (heap_get h a) in
  (heap_set a (mkShared None (sresult (heap_get h a))) h, w).

Lemma heap_get_set a a' s h :
  heap_get (heap_set a s h) a' = if decide (a = a') then s else heap_get h a'.
Proof.
  unfold heap_get, heap_set. case_decide; subst.
  - by rewrite lookup_insert_eq.
  - by rewrite lookup_insert_ne.
Qed.

Lemma complete_shared_spec a res h :
  exists h', complete_shared a res h = (h', waker (heap_get h a)) /\
    forall a', heap_get h' a' =
      if decide (a = a') then mkShared None (Some (ROk res)) else heap_get h a'.
Proof.
  eexists. split.
  - unfold complete_shared. cbn zeta. rewrite !heap_get_set, !decide_True by done. done.
  - intros a'. rewrite !heap_get_set. case_decide; by subst.
Qed.

(** C12. A join handle delivers its task's result exactly once: while the task
    runs a poll is pending and leaves the latest waker, which completing the task
    hands over to be woken; the first poll after completion is ready with the
    value, whatever other handles were polled or completed in between; later
    polls are pending again. *)
Theorem join_delivers_once (jh : JoinHandle) k1 k2 h (v : V) :
  sresult (heap_get h (shared_state jh)) = None ->
  exists h1 h2 h3 h4,
    JoinHandle_poll k1 jh h = (h1, Pending) /\
    complete_shared (shared_state jh) (mkAny (type_data jh) v) h1 = (h2, Some k1) /\
    JoinHandle_poll k2 jh h2 = (h3, Ready (ROk v)) /\
    JoinHandle_poll k2 jh h3 = (h4, Pending) /\
    forall a, a <> shared_state jh ->
      heap_get h1 a = heap_get h a /\ heap_get h2 a = heap_get h a /\ heap_get h4 a = heap_get h a.
Proof.
  destruct jh as [a ty]. cbn. intros Hn.
  set (h1 := heap_set a (mkShared (Some (clone_raw k1)) None) h).
  destruct (complete_shared_spec a (mkAny ty v) h1) as (h2 & Hc & Hg).
  set (h3 := heap_set a (mkShared None None) h2).
  exists h1, h2, h3, (heap_set a (mkShared (Some (clone_raw k2)) None) h3).
  assert (Hg2 : heap_get h2 a = mkShared None (Some (ROk (mkAny ty v))))
    by by rewrite Hg, decide_True.
  split. { unfold JoinHandle_poll. cbn. by rewrite Hn. }
  split. { rewrite Hc. unfold h1. rewrite heap_get_set, decide_True by done. by destruct k1. }
  split. { unfold JoinHandle_poll. cbn. rewrite Hg2. cbn. by rewrite Nat.eqb_refl. }
  split. { unfold JoinHandle_poll, h3. cbn. rewrite heap_get_set, decide_True by done. done. }
  intros a' Ha. unfold h3. rewrite !heap_get_set, Hg. unfold h1. rewrite heap_get_set.
  by rewrite !(decide_False (P := a = a')) by done.
Qed.
End join.

(** ** Tasks *)

(** A task: its future of type [TF] (which holds the completed flag the compiler
    gives every async block), the queue its wakers send to, the address of its
    shared state and its statistics. *)
Record Task (TF : Type) : Type := mkTask {
  future : TF;
  tsender : QueueKind;
  tshared : nat;
  task_stat : option TaskStat
}.
Arguments mkTask {TF} _ _ _ _.
Arguments future {TF} _.
Arguments tsender {TF} _.
Arguments tshared {TF} _.
Arguments task_stat {TF} _.

Definition Task_new {TF} (fut : TF) (task_sender : QueueKind) (shared : nat)
    (task_name : option string) : Task TF :=
  mkTask fut task_sender shared (Some (TaskStat_new task_name)).

(** ** Runtime statistics *)

Record RuntimeStat : Type := mkRuntimeStat {
  finished_task_stats : list TaskStat;
  pool_and_completion_time : Z
}.

Definition RuntimeStat_new : RuntimeStat := mkRuntimeStat [] 0.

Definition ascii_lower (c : Ascii.ascii) : Ascii.ascii :=
  let n := Ascii.nat_of_ascii c in
  if Nat.leb 65 n && Nat.leb n 90 then Ascii.ascii_of_nat (n + 32) else c.
Definition string_lower (s : string) : string :=
  String.string_of_list_ascii (map ascii_lower (String.list_ascii_of_string s)).
(** [eq_ignore_ascii_case]. *)
Definition eq_ignore_ascii_case (s t : string) : bool :=
  bool_decide (string_lower s = string_lower t).

(** The initialiser of the process-wide [RETAIN] cell. *)
Definition retain_init (getenv : string -> option string) : bool :=
  match getenv "PLUVIO_RETAIN_TASK_STATS"%string with
  | Some v => bool_decide (v = "1"%string) || eq_ignore_ascii_case v "true"
  | None => false
  end.

(** [add_task_stat]: [slot] is [slab.get_mut(id)]; returns the [RETAIN] cell, the
    statistics and the slot after [task_stat.take()]. *)
Definition add_task_stat {TF} (getenv : string -> option string)
    (slot : option (option (Task TF))) (retain : option bool) (rs : RuntimeStat) :
    outcome (option bool * RuntimeStat * option (option (Task TF))) :=
  match slot with
  | Some (Some t) =>
      st ← expect "called `Option::unwrap()` on a `None` value" (task_stat t);
      let slot := Some (Some (mkTask (future t) (tsender t) (tshared t) None)) in
      let st := stat_stop st in
      let r := match retain with Some r => r | None => retain_init getenv end in
      mret (Some r,
            (if r then mkRuntimeStat (finished_task_stats rs ++ [st]) (pool_and_completion_time rs)
             else rs),
            slot)
  | _ => mret (retain, rs, slot)
  end.

Definition add_pool_and_completion_time (time : Z) (rs : RuntimeStat) : RuntimeStat :=
  mkRuntimeStat (finished_task_stats rs) (wrap64 (pool_and_completion_time rs + time)).

(** ** Witness *)

Lemma join_delivers_once_witness : exists h1 h2 h3 h4 : Heap nat,
  JoinHandle_poll (mkWaker 3 TaskQueue) (mkJoin 0 7) ∅ = (h1, Pending) /\
  complete_shared 0 (mkAny 7 42%nat) h1 = (h2, Some (mkWaker 3 TaskQueue)) /\
  JoinHandle_poll (mkWaker 4 PollingQueue) (mkJoin 0 7) h2 = (h3, Ready (ROk 42%nat)) /\
  JoinHandle_poll (mkWaker 4 PollingQueue) (mkJoin 0 7) h3 = (h4, Pending).
Proof.
  destruct (join_delivers_once (mkJoin 0 7) (mkWaker 3 TaskQueue) (mkWaker 4 PollingQueue) ∅ 42%nat)
    as (h1 & h2 & h3 & h4 & H1 & H2 & H3 & H4 & _); [reflexivity|].
  exists h1, h2, h3, h4. exact (conj H1 (conj H2 (conj H3 H4))).
Defined.

Example retain_flag_run :
  (retain_init (fun _ => Some "TrUe"%string), retain_init (fun _ => Some "yes"%string),
   retain_init (fun _ => None)) = (true, false, false).
Proof. vm_compute. reflexivity. Qed.
