(* ===== verification/Executor.v ===== *)
(** * Executor: the single-threaded runtime ([pluvio_runtime/src/executor/mod.rs])

    [Runtime] is the struct of the same name and [World] everything one thread of
    the program consists of: the runtime, the shared states of its tasks, the
    track ids, and an environment [E] that stands for the reactors' and the user
    code's own state.  User code is not part of the runtime: one poll of a user
    future is an [Act], the sequence of runtime operations it performs before it
    returns.  Every method of [Runtime] is a function on [World]; the event loop
    takes fuel, and [OutOfFuel] tells a run that was cut short from one that
    returned. *)

From S2P Require Import Prelude Spsc Future Track Slab Task.
Local Open Scope Z_scope.

(** ** Configuration *)

Record SchedulingConfig : Type := mkConfig {
  task_batch_size : nat;
  reactor_poll_interval : Z;
  status_cache_iterations : Z;
  enable_perfetto_tracks : bool
}.

Definition SchedulingConfig_default : SchedulingConfig := mkConfig 16 8 100 false.

(** ** Reactors *)

Inductive ReactorStatus : Type := Running | Stopped.

#[export] Instance ReactorStatus_eq_dec : EqDecision ReactorStatus.
Proof. solve_decision. Defined.

(** [Rc<dyn Reactor>]: polling changes the environment and wakes wakers. *)
Record DynReactor (E : Type) : Type := mkDyn {
  dyn_poll : E -> outcome (E * list Waker);
  dyn_status : E -> E * ReactorStatus
}.
Arguments mkDyn {E} _ _.
Arguments dyn_poll {E} _ _.
Arguments dyn_status {E} _ _.

Record ReactorWrapper (E : Type) : Type := mkWrapper {
  reactor : DynReactor E;
  poll_counter : Z;
  enable : bool;
  cached_status : ReactorStatus;
  cache_valid_until_iteration : Z
}.
Arguments mkWrapper {E} _ _ _ _ _.
Arguments reactor {E} _.
Arguments poll_counter {E} _.
Arguments enable {E} _.
Arguments cached_status {E} _.
Arguments cache_valid_until_iteration {E} _.

(** ** User code *)

(** What one poll of a user future does: read and change the environment, wake
    a waker, spawn (on a queue, with an optional name), poll a join handle with
    the waker it was given, request a shutdown; then it returns, or panics, which nothing
    in the runtime catches. *)
Inductive Act (V F E : Type) : Type :=
| ARet (f : F) (p : Poll V)
| AEnv (upd : E -> E) (next : E -> Act V F E)
| AWake (w : Waker) (next : Act V F E)
| ASpawn (q : QueueKind) (name : option string) (f : F) (next : JoinHandle -> Act V F E)
| AJoin (jh : JoinHandle) (next : Poll (result V string) -> Act V F E)
| AShutdown (next : Act V F E)
| APanic (msg : string).
Arguments ARet {V F E} f p.
Arguments AEnv {V F E} upd next.
Arguments AWake {V F E} w next.
Arguments ASpawn {V F E} q name f next.
Arguments AJoin {V F E} jh next.
Arguments AShutdown {V F E} next.
Arguments APanic {V F E} msg.

(** The user's program and the operating system: how futures are polled and
    dropped, the type of their output, the environment variables, the monotonic
    clock, and the iteration order of a [HashMap]. *)
Class Program (V F E : Type) := {
  upoll : Waker -> F -> Act V F E;
  udrop : F -> E -> E;
  out_type : F -> nat;
  unit_type : nat;
  unit_val : V;
  getenv : string -> option string;
  clock : E -> E * Z;
  hash_order : forall X : Type, list (string * X) -> list (string * X);
  hash_order_perm X (l : list (string * X)) : hash_order X l ≡ₚ l
}.

(** ** The world *)

(** What a task's boxed future is: the async block of [create_task_and_handle]
    around a spawned future of output type [ty], or around the one that
    [block_on] builds to fill [holder].  [fbody] is [None] once it has completed. *)
Inductive TaskBody (F : Type) : Type :=
| BodySpawned (ty : nat) (mt : MaybeTracked F)
| BodyBlockOn (f : F) (holder : nat).
Arguments BodySpawned {F} ty mt.
Arguments BodyBlockOn {F} f holder.

Record TaskFuture (F : Type) : Type := mkTaskFuture {
  fbody : option (TaskBody F);
  fshared : nat
}.
Arguments mkTaskFuture {F} _ _.
Arguments fbody {F} _.
Arguments fshared {F} _.

(** What the runtime does to the thread it runs on. *)
Inductive OsEvent : Type :=
| YieldNow
| SleepMicros (us : Z)
| SleepMillis (ms : Z).

Record Runtime (E C SL : Type) : Type := mkRuntime {
  reactors : list (string * ReactorWrapper E);
  task_chan : C;
  polling_chan : C;
  task_pool : SL;
  stat : RuntimeStat;
  shutdown_requested : bool;
  scheduling_config : SchedulingConfig;
  iteration_count : Z;
  polling_task_buffer : list nat;
  task_buffer : list nat;
  idle_iter_count : Z;
  reactor_only_count : Z
}.
Arguments reactors {E C SL} _.
Arguments task_chan {E C SL} _.
Arguments polling_chan {E C SL} _.
Arguments task_pool {E C SL} _.
Arguments stat {E C SL} _.
Arguments shutdown_requested {E C SL} _.
Arguments scheduling_config {E C SL} _.
Arguments iteration_count {E C SL} _.
Arguments polling_task_buffer {E C SL} _.
Arguments task_buffer {E C SL} _.
Arguments idle_iter_count {E C SL} _.
Arguments reactor_only_count {E C SL} _.
Arguments mkRuntime {E C SL} _ _ _ _ _ _ _ _ _ _ _ _.

(** [next_addr] is the next address of the heap and of [block_on]'s result
    holders; [retain] is the process-wide [RETAIN] cell; [RUNTIME] says whether
    the thread-local of that name holds this runtime; [os] lists, latest first,
    the times the thread was given up. *)
Record World (V E C SL : Type) : Type := mkWorld {
  rt : Runtime E C SL;
  heap : Heap V;
  next_addr : nat;
  holders : gmap nat V;
  tls : TrackTls;
  env : E;
  retain : option bool;
  RUNTIME : option unit;
  os : list OsEvent
}.
Arguments rt {V E C SL} _.
Arguments heap {V E C SL} _.
Arguments next_addr {V E C SL} _.
Arguments holders {V E C SL} _.
Arguments tls {V E C SL} _.
Arguments env {V E C SL} _.
Arguments retain {V E C SL} _.
Arguments RUNTIME {V E C SL} _.
Arguments os {V E C SL} _.
Arguments mkWorld {V E C SL} _ _ _ _ _ _ _ _ _.

(** Field updates. *)
Section setters.
Context {V E C SL : Type}.

Definition set_reactors x (r : Runtime E C SL) : Runtime E C SL :=
    mkRuntime x (task_chan r) (polling_chan r) (task_pool r) (stat r) (shutdown_requested r)
    (scheduling_config r) (iteration_count r) (polling_task_buffer r) (task_buffer r)
    (idle_iter_count r) (reactor_only_count r).
Definition set_task_chan x (r : Runtime E C SL) : Runtime E C SL :=
    mkRuntime (reactors r) x (polling_chan r) (task_pool r) (stat r) (shutdown_requested r)
    (scheduling_config r) (iteration_count r) (polling_task_buffer r) (task_buffer r)
    (idle_iter_count r) (reactor_only_count r).
Definition set_polling_chan x (r : Runtime E C SL) : Runtime E C SL :=
    mkRuntime (reactors r) (task_chan r) x (task_pool r) (stat r) (shutdown_requested r)
    (scheduling_config r) (iteration_count r) (polling_task_buffer r) (task_buffer r)
    (idle_iter_count r) (reactor_only_count r).
Definition set_task_pool x (r : Runtime E C SL) : Runtime E C SL :=
    mkRuntime (reactors r) (task_chan r) (polling_chan r) x (stat r) (shutdown_requested r)
    (scheduling_config r) (iteration_count r) (polling_task_buffer r) (task_buffer r)
    (idle_iter_count r) (reactor_only_count r).
Definition set_stat x (r : Runtime E C SL) : Runtime E C SL :=
    mkRuntime (reactors r) (task_chan r) (polling_chan r) (task_pool r) x (shutdown_requested r)
    (scheduling_config r) (iteration_count r) (polling_task_buffer r) (task_buffer r)
    (idle_iter_count r) (reactor_only_count r).
Definition set_shutdown_requested x (r : Runtime E C SL) : Runtime E C SL :=
    mkRuntime (reactors r) (task_chan r) (polling_chan r) (task_pool r) (stat r) x
    (scheduling_config r) (iteration_count r) (polling_task_buffer r) (task_buffer r)
    (idle_iter_count r) (reactor_only_count r).
Definition set_scheduling_config x (r : Runtime E C SL) : Runtime E C SL :=
    mkRuntime (reactors r) (task_chan r) (polling_chan r) (task_pool r) (stat r)
    (shutdown_requested r) x (iteration_count r) (polling_task_buffer r) (task_buffer r)
    (idle_iter_count r) (reactor_only_count r).
Definition set_iteration_count x (r : Runtime E C SL) : Runtime E C SL :=
    mkRuntime (reactors r) (task_chan r) (polling_chan r) (task_pool r) (stat r)
    (shutdown_requested r) (scheduling_config r) x (polling_task_buffer r) (task_buffer r)
    (idle_iter_count r) (reactor_only_count r).
Definition set_polling_task_buffer x (r : Runtime E C SL) : Runtime E C SL :=
    mkRuntime (reactors r) (task_chan r) (polling_chan r) (task_pool r) (stat r)
    (shutdown_requested r) (scheduling_config r) (iteration_count r) x (task_buffer r)
    (idle_iter_count r) (reactor_only_count r).
Definition set_task_buffer x (r : Runtime E C SL) : Runtime E C SL :=
    mkRuntime (reactors r) (task_chan r) (polling_chan r) (task_pool r) (stat r)
    (shutdown_requested r) (scheduling_config r) (iteration_count r) (polling_task_buffer r) x
    (idle_iter_count r) (reactor_only_count r).
Definition set_idle_iter_count x (r : Runtime E C SL) : Runtime E C SL :=
    mkRuntime (reactors r) (task_chan r) (polling_chan r) (task_pool r) (stat r)
    (shutdown_requested r) (scheduling_config r) (iteration_count r) (polling_task_buffer r)
    (task_buffer r) x (reactor_only_count r).
Definition set_reactor_only_count x (r : Runtime E C SL) : Runtime E C SL :=
    mkRuntime (reactors r) (task_chan r) (polling_chan r) (task_pool r) (stat r)
    (shutdown_requested r) (scheduling_config r) (iteration_count r) (polling_task_buffer r)
    (task_buffer r) (idle_iter_count r) x.
Definition set_rt x (w : World V E C SL) : World V E C SL :=
  mkWorld x (heap w) (next_addr w) (holders w) (tls w) (env w) (retain w) (RUNTIME w) (os w).
Definition set_heap x (w : World V E C SL) : World V E C SL :=
  mkWorld (rt w) x (next_addr w) (holders w) (tls w) (env w) (retain w) (RUNTIME w) (os w).
Definition set_next_addr x (w : World V E C SL) : World V E C SL :=
  mkWorld (rt w) (heap w) x (holders w) (tls w) (env w) (retain w) (RUNTIME w) (os w).
Definition set_holders x (w : World V E C SL) : World V E C SL :=
  mkWorld (rt w) (heap w) (next_addr w) x (tls w) (env w) (retain w) (RUNTIME w) (os w).
Definition set_tls x (w : World V E C SL) : World V E C SL :=
  mkWorld (rt w) (heap w) (next_addr w) (holders w) x (env w) (retain w) (RUNTIME w) (os w).
Definition set_env x (w : World V E C SL) : World V E C SL :=
  mkWorld (rt w) (heap w) (next_addr w) (holders w) (tls w) x (retain w) (RUNTIME w) (os w).
Definition set_retain x (w : World V E C SL) : World V E C SL :=
  mkWorld (rt w) (heap w) (next_addr w) (holders w) (tls w) (env w) x (RUNTIME w) (os w).
Definition set_RUNTIME x (w : World V E C SL) : World V E C SL :=
  mkWorld (rt w) (heap w) (next_addr w) (holders w) (tls w) (env w) (retain w) x (os w).
Definition set_os x (w : World V E C SL) : World V E C SL :=
  mkWorld (rt w) (heap w) (next_addr w) (holders w) (tls w) (env w) (retain w) (RUNTIME w) x.

(** Updates of a runtime field of the world. *)
Definition on_rt (f : Runtime E C SL -> Runtime E C SL) (w : World V E C SL) : World V E C SL :=
  set_rt (f (rt w)) w.
End setters.

(** ** Environment variables *)

Definition parse_u64 : string -> option Z := parse_uint u64_max.

Section executor.
Context {V F E C SL : Type} `{Program V F E} `{FifoChan C}.
Context `{Slab (option (Task (TaskFuture F))) SL}.
Abbreviation World := (World V E C SL).
Abbreviation Act := (Act V F E).
Abbreviation Task := (Task (TaskFuture F)).
Implicit Types (w : World) (k : Waker) (id : nat).

Definition env_u64 (name : string) (dflt : Z) : Z :=
  match getenv name with
  | Some s => match parse_u64 s with Some z => z | None => dflt end
  | None => dflt
  end.

#[export] Instance World_HasTrack : HasTrack World :=
  {| get_track := tls; put_track := set_tls; get_put_track := fun _ _ => eq_refl |}.

(** ** Construction *)

(** [Runtime::with_config] and [Runtime::new]; the capacities are hints. *)
Definition with_config (config : SchedulingConfig) : outcome (Runtime E C SL) :=
  c1 ← chan_new;
  c2 ← chan_new;
  mret (mkRuntime [] c1 c2 slab_new RuntimeStat_new false config 0 [] [] 0 0).
Definition Runtime_new : outcome (Runtime E C SL) := with_config SchedulingConfig_default.

Definition request_shutdown w : World := on_rt (set_shutdown_requested true) w.
Definition is_shutdown_requested w : bool := shutdown_requested (rt w).

(** ** Waking and sending *)

Definition send_to (q : QueueKind) id w : outcome World :=
  match q with
  | TaskQueue => c ← chan_send (task_chan (rt w)) id; mret (on_rt (set_task_chan c) w)
  | PollingQueue => c ← chan_send (polling_chan (rt w)) id; mret (on_rt (set_polling_chan c) w)
  end.

(** [wake_raw] and [wake_by_ref_raw]. *)
Definition wake_by_ref k w : outcome World := send_to (task_sender k) (task_id k) w.

Fixpoint wake_all (ks : list Waker) w : outcome World :=
  match ks with
  | [] => mret w
  | k :: ks => w ← wake_by_ref k w; wake_all ks w
  end.

(** ** Spawning *)

(** [Task::create_task_and_handle]: allocates the shared state, wraps the future. *)
Definition create_task_and_handle (b : TaskBody F) (ty : nat) (sender : QueueKind)
    (name : option string) w : World * option Task * JoinHandle :=
  let shared := next_addr w in
  let w := set_next_addr (S shared) (set_heap (heap_set shared SharedState_new (heap w)) w) in
  (w, Some (Task_new (mkTaskFuture (Some b) shared) sender shared name), mkJoin shared ty).

Definition pool_insert (t : option Task) w : World * nat :=
  let (p, id) := slab_insert t (task_pool (rt w)) in (on_rt (set_task_pool p) w, id).

Definition spawn_with_runtime (f : F) w : outcome (World * JoinHandle) :=
  let wrapped := maybe_tracked f (enable_perfetto_tracks (scheduling_config (rt w))) in
  let '(w, task, handle) :=
    create_task_and_handle (BodySpawned (out_type f) wrapped) (out_type f) TaskQueue None w in
  let '(w, task_id) := pool_insert task w in
  w ← send_to TaskQueue task_id w;
  mret (w, handle).

Definition spawn_polling_with_runtime (f : F) w : outcome (World * JoinHandle) :=
  let wrapped := maybe_tracked f (enable_perfetto_tracks (scheduling_config (rt w))) in
  let '(w, task, handle) :=
    create_task_and_handle (BodySpawned (out_type f) wrapped) (out_type f) PollingQueue None w in
  let '(w, task_id) := pool_insert task w in
  w ← send_to PollingQueue task_id w;
  mret (w, handle).

Definition spawn_with_name_and_runtime (f : F) (name : string) w : outcome (World * JoinHandle) :=
  let wrapped := maybe_tracked f (enable_perfetto_tracks (scheduling_config (rt w))) in
  let '(w, task, handle) :=
    create_task_and_handle (BodySpawned (out_type f) wrapped) (out_type f) TaskQueue (Some name) w in
  let '(w, task_id) := pool_insert task w in
  w ← send_to TaskQueue task_id w;
  mret (w, handle).

Definition spawn_polling_with_name_and_runtime (f : F) (name : string) w :
    outcome (World * JoinHandle) :=
  let wrapped := maybe_tracked f (enable_perfetto_tracks (scheduling_config (rt w))) in
  let '(w, task, handle) :=
    create_task_and_handle (BodySpawned (out_type f) wrapped) (out_type f) PollingQueue (Some name) w in
  let '(w, task_id) := pool_insert task w in
  w ← send_to PollingQueue task_id w;
  mret (w, handle).

(** The four of them, by queue and optional name. *)
Definition spawn_any (q : QueueKind) (name : option string) (f : F) w : outcome (World * JoinHandle) :=
  match q, name with
  | TaskQueue, None => spawn_with_runtime f w
  | PollingQueue, None => spawn_polling_with_runtime f w
  | TaskQueue, Some n => spawn_with_name_and_runtime f n w
  | PollingQueue, Some n => spawn_polling_with_name_and_runtime f n w
  end.

(** ** Running user code *)

Fixpoint run_act k (a : Act) w : outcome (World * F * Poll V) :=
  match a with
  | ARet f p => mret (w, f, p)
  | AEnv upd next => run_act k (next (env w)) (set_env (upd (env w)) w)
  | AWake k' next => w ← wake_by_ref k' w; run_act k next w
  | ASpawn q name f next => '(w, jh) ← spawn_any q name f w; run_act k (next jh) w
  | AJoin jh next =>
      let (h, p) := JoinHandle_poll k jh (heap w) in
      run_act k (next p) (set_heap h w)
  | AShutdown next => run_act k next (request_shutdown w)
  | APanic msg => Panic msg
  end.

#[export] Instance user_future : Future World F V := {
  fpoll := fun k f w => run_act k (upoll k f) w;
  fdrop := fun f w => set_env (udrop f (env w)) w
}.

(** ** Polling a task *)

(** The tail of [wrapped_future]. *)
Definition wrapped_finish (a : nat) (res : AnyBox V) w : outcome World :=
  let '(h, wk) := complete_shared a res (heap w) in
  let w := set_heap h w in
  match wk with Some k => wake_by_ref k w | None => mret w end.

(** Polling the boxed future: the inner future is dropped when it is ready,
    before the result is stored. *)
Definition wrapped_poll k (tf : TaskFuture F) w : outcome (World * TaskFuture F * Poll unit) :=
  match fbody tf with
  | None => Panic "`async fn` resumed after completion"
  | Some (BodySpawned ty mt) =>
      '(w, mt, p) ← MaybeTracked_poll k mt w;
      match p with
      | Pending => mret (w, mkTaskFuture (Some (BodySpawned ty mt)) (fshared tf), Pending)
      | Ready v =>
          let w := fdrop mt w in
          w ← wrapped_finish (fshared tf) (mkAny ty v) w;
          mret (w, mkTaskFuture None (fshared tf), Ready tt)
      end
  | Some (BodyBlockOn f holder) =>
      '(w, f, p) ← fpoll k f w;
      match p with
      | Pending => mret (w, mkTaskFuture (Some (BodyBlockOn f holder)) (fshared tf), Pending)
      | Ready v =>
          let w := fdrop f w in
          let w := set_holders (<[holder := v]> (holders w)) w in
          w ← wrapped_finish (fshared tf) (mkAny unit_type unit_val) w;
          mret (w, mkTaskFuture None (fshared tf), Ready tt)
      end
  end.

Definition read_clock w : World * Z :=
  let (e, t) := clock (env w) in (set_env e w, t).

(** [Task::poll_task]; the future is never borrowed elsewhere, so
    [try_borrow_mut] succeeds. *)
Definition Task_poll_task (t : Task) id w : outcome (World * Task * Poll unit) :=
  let '(w, now) := read_clock w in
  let st := stat_start now <$> task_stat t in
  let k := new_waker (tsender t) id in
  '(w, tf, ret) ← wrapped_poll k (future t) w;
  let '(w, later) := read_clock w in
  st ← expect "called `Option::unwrap()` on a `None` value" st;
  let st := add_execute_time (wrap64 (Z.max 0 (later - now))) st in
  let st := if is_ready ret then stat_end now st else st in
  mret (w, mkTask tf (tsender t) (tshared t) (Some st), ret).

(** [Runtime::poll_task]: the task is taken out of its slot while it runs. *)
Definition poll_task id w : outcome (World * option (Poll unit)) :=
  match slab_get id (task_pool (rt w)) with
  | None => mret (w, None)
  | Some None => mret (w, None)
  | Some (Some task) =>
      let w := on_rt (set_task_pool (slab_put id None (task_pool (rt w)))) w in
      '(w, task, ret) ← Task_poll_task task id w;
      let w := match slab_get id (task_pool (rt w)) with
               | Some _ => on_rt (set_task_pool (slab_put id (Some task) (task_pool (rt w)))) w
               | None => w
               end in
      mret (w, Some ret)
  end.

(** The block [if let Some(Poll::Ready(_)) = self.poll_task(id) { .. }]: a
    finished task's statistics are recorded and its slot freed. *)
Definition retire id w : outcome World :=
  '(ret, st, slot) ← add_task_stat getenv (slab_get id (task_pool (rt w))) (retain w) (stat (rt w));
  let p := match slot with
           | Some t => slab_put id t (task_pool (rt w))
           | None => task_pool (rt w)
           end in
  p ← slab_remove id p;
  mret (set_retain ret (on_rt (fun r => set_task_pool p (set_stat st r)) w)).

Definition poll_and_retire id w : outcome (World * bool) :=
  '(w, r) ← poll_task id w;
  match r with
  | Some (Ready _) => w ← retire id w; mret (w, true)
  | _ => mret (w, false)
  end.

(** [for &task_id in buffer.iter()]: whether some task completed. *)
Fixpoint poll_buffer (ids : list nat) w : outcome (World * bool) :=
  match ids with
  | [] => mret (w, false)
  | id :: ids =>
      '(w, b) ← poll_and_retire id w;
      '(w, bs) ← poll_buffer ids w;
      mret (w, b || bs)
  end.

(** ** The queues *)

(** At most [n] receives: [while let Ok(id) = try_recv()] with [n] the number of
    queued ids, which nothing else changes; or the batch loop. *)
Fixpoint recv_upto (n : nat) (c : C) : outcome (C * list nat) :=
  match n with
  | O => mret (c, [])
  | S n =>
      '(c, o) ← chan_try_recv c;
      match o with
      | Some id => '(c, ids) ← recv_upto n c; mret (c, id :: ids)
      | None => mret (c, [])
      end
  end.

Definition drain_polling w : outcome World :=
  '(c, ids) ← recv_upto (S (chan_len (polling_chan (rt w)))) (polling_chan (rt w));
  mret (on_rt (fun r => set_polling_task_buffer ids (set_polling_chan c r)) w).

Definition take_batch w : outcome World :=
  '(c, ids) ← recv_upto (task_batch_size (scheduling_config (rt w))) (task_chan (rt w));
  mret (on_rt (fun r => set_task_buffer ids (set_task_chan c r)) w).

(** ** The reactors *)

(** [HashMap::insert]. *)
Definition hash_insert {X} (id : string) (x : X) (l : list (string * X)) : list (string * X) :=
  hash_order X ((id, x) :: filter (fun e => e.1 <> id) l).

Definition register_reactor (id : string) (r : DynReactor E) w : World :=
  on_rt (fun s => set_reactors (hash_insert id (mkWrapper r 0 true Stopped 0) (reactors s)) s) w.

Definition get_cached_reactor_status (x : ReactorWrapper E) (current_iteration : Z) w :
    World * ReactorWrapper E * ReactorStatus :=
  if current_iteration <? cache_valid_until_iteration x then (w, x, cached_status x)
  else
    let (e, status) := dyn_status (reactor x) (env w) in
    (set_env e w,
     mkWrapper (reactor x) (poll_counter x) (enable x) status
       (wrap64 (current_iteration + status_cache_iterations (scheduling_config (rt w)))),
     status).

(** [reactor.poll(); poll_counter += 1]. *)
Definition poll_reactor (x : ReactorWrapper E) w : outcome (World * ReactorWrapper E) :=
  '(e, ks) ← dyn_poll (reactor x) (env w);
  w ← wake_all ks (set_env e w);
  mret (w, mkWrapper (reactor x) (wrap64 (poll_counter x + 1)) (enable x) (cached_status x)
             (cache_valid_until_iteration x)).

Fixpoint poll_reactors_loop (iteration : Z) (l : list (string * ReactorWrapper E)) w :
    outcome (World * list (string * ReactorWrapper E) * bool) :=
  match l with
  | [] => mret (w, [], false)
  | (id, x) :: l =>
      if negb (enable x) then
        '(w, l, b) ← poll_reactors_loop iteration l w; mret (w, (id, x) :: l, b)
      else
        let '(w, x, status) := get_cached_reactor_status x iteration w in
        '(w, x, polled) ← (match status with
                           | Running => '(w, x) ← poll_reactor x w; mret (w, x, true)
                           | Stopped => mret (w, x, false)
                           end);
        '(w, l, b) ← poll_reactors_loop iteration l w;
        mret (w, (id, x) :: l, polled || b)
  end.

Definition poll_reactors (iteration : Z) w : outcome (World * bool) :=
  '(w, l, b) ← poll_reactors_loop iteration (reactors (rt w)) w;
  mret (on_rt (set_reactors l) w, b).

(** [iteration % interval == 0]. *)
Definition on_interval (iteration : Z) (interval : Z) : outcome bool :=
  if interval =? 0 then Panic "attempt to calculate the remainder with a divisor of zero"
  else mret (iteration `mod` interval =? 0).

(** ** The event loop *)

Definition next_iteration w : World * Z :=
  let iteration := iteration_count (rt w) in
  (on_rt (set_iteration_count (wrap64 (iteration + 1))) w, iteration).

(** [&&] and [||] as the code has them: the remainder is computed last. *)
Definition should_poll (safety_override : bool) (iteration : Z) w : outcome bool :=
  if safety_override then mret false
  else if negb (Nat.eqb (length (polling_task_buffer (rt w))) 0) then mret true
  else if iteration <=? 1 then mret true
  else on_interval iteration (reactor_poll_interval (scheduling_config (rt w))).

Definition check_safety_bound w : World * bool :=
  let safety_bound := env_u64 "PLUVIO_MAX_REACTOR_ONLY" 1000000 in
  let safety_override := safety_bound <=? reactor_only_count (rt w) in
  ((if safety_override then on_rt (set_reactor_only_count 0) w else w), safety_override).

Definition update_reactor_only (completed polled : bool) w : World :=
  if negb completed && polled
  then on_rt (set_reactor_only_count (wrap64 (reactor_only_count (rt w) + 1))) w
  else if completed then on_rt (set_reactor_only_count 0) w
  else w.

Definition idle_park_enabled : bool :=
  match getenv "PLUVIO_IDLE_PARK" with
  | Some v => negb (bool_decide (v = "0"%string))
  | None => false
  end.

Definition yield_thread (e : OsEvent) w : World := set_os (e :: os w) w.

Definition idle_park (completed : bool) w : World :=
  if idle_park_enabled && negb completed then
    let idle_iter := wrap64 (idle_iter_count (rt w) + 1) in
    let w := on_rt (set_idle_iter_count idle_iter) w in
    let yield_after := env_u64 "PLUVIO_IDLE_YIELD_AFTER" 10000 in
    let sleep_after := env_u64 "PLUVIO_IDLE_SLEEP_AFTER" 100000 in
    if yield_after <=? idle_iter then
      if idle_iter <? sleep_after then yield_thread YieldNow w else yield_thread (SleepMicros 10) w
    else w
  else on_rt (set_idle_iter_count 0) w.

(** The stuck check: [stuck_counter], [sleep_duration] and whether to break. *)
Definition stuck_check (max_stuck : Z) (made_progress : bool) (stuck sleep : Z) w :
    World * Z * Z * bool :=
  if made_progress then (w, 0, 1, false)
  else
    let stuck := wrap64 (stuck + 1) in
    if max_stuck <? stuck then (w, stuck, sleep, true)
    else if stuck `mod` 10000 =? 0 then
      let sleep := if sleep <? 1024 then 2 * sleep else sleep in
      (yield_thread (SleepMillis sleep) w, stuck, sleep, false)
    else (w, stuck, sleep, false).

(** One pass of the body of [run_queue]'s loop, up to the stuck check: whether it
    made progress. *)
Definition run_queue_pass w : outcome (World * bool) :=
  let '(w, iteration) := next_iteration w in
  w ← drain_polling w;
  let '(w, safety_override) := check_safety_bound w in
  poll_now ← should_poll safety_override iteration w;
  '(w, progress1) ← (if poll_now : bool then poll_reactors iteration w else mret (w, false));
  '(w, progress2) ← poll_buffer (polling_task_buffer (rt w)) w;
  w ← take_batch w;
  '(w, completed) ← poll_buffer (task_buffer (rt w)) w;
  let w := update_reactor_only completed poll_now w in
  mret (idle_park completed w, progress1 || progress2 || completed).

Definition run_queue_iter (max_stuck stuck sleep : Z) w : outcome (World * Z * Z * bool) :=
  '(w, made_progress) ← run_queue_pass w;
  mret (stuck_check max_stuck made_progress stuck sleep w).

Inductive Exit : Type :=
| PoolEmpty
| ShutDown
| StuckOut
| OutOfFuel.

Definition max_stuck_iterations : Z := env_u64 "PLUVIO_MAX_STUCK_ITERATIONS" 1000000.

Fixpoint run_queue_loop (fuel : nat) (max_stuck stuck sleep : Z) w : outcome (World * Exit) :=
  if Nat.eqb (slab_len (task_pool (rt w))) 0 then mret (w, PoolEmpty)
  else if shutdown_requested (rt w) then mret (w, ShutDown)
  else match fuel with
  | O => mret (w, OutOfFuel)
  | S fuel =>
      '(w, stuck, sleep, brk) ← run_queue_iter max_stuck stuck sleep w;
      if brk : bool then mret (w, StuckOut) else run_queue_loop fuel max_stuck stuck sleep w
  end.

Definition run_queue (fuel : nat) w : outcome (World * Exit) :=
  run_queue_loop fuel max_stuck_iterations 0 1 w.

Definition run_with_name_and_runtime (fuel : nat) (name : string) (f : F) w :
    outcome (World * Exit) :=
  '(w, _) ← spawn_with_name_and_runtime f name w;
  run_queue fuel w.
Definition run_with_runtime (fuel : nat) (f : F) w : outcome (World * Exit) :=
  run_with_name_and_runtime fuel "unnamed_run" f w.

(** ** Blocking on one future *)

Definition block_on_iter w : outcome (World * bool) :=
  let '(w, iteration) := next_iteration w in
  w ← drain_polling w;
  poll_now ← should_poll false iteration w;
  '(w, progress1) ← (if poll_now : bool then poll_reactors iteration w else mret (w, false));
  '(w, progress2) ← poll_buffer (polling_task_buffer (rt w)) w;
  w ← take_batch w;
  '(w, progress3) ← poll_buffer (task_buffer (rt w)) w;
  mret (w, progress1 || progress2 || progress3).

(** The loop waits until the slot [target] is vacant; [false] is out of fuel. *)
Fixpoint block_on_loop (fuel : nat) (max_stuck : Z) (target : nat) (stuck : Z) w :
    outcome (World * bool) :=
  match slab_get target (task_pool (rt w)) with
  | None => mret (w, true)
  | Some _ =>
      match fuel with
      | O => mret (w, false)
      | S fuel =>
          '(w, made_progress) ← block_on_iter w;
          if made_progress : bool then block_on_loop fuel max_stuck target 0 w
          else
            let stuck := wrap64 (stuck + 1) in
            if max_stuck <? stuck then Panic "block_on deadlock detected"
            else block_on_loop fuel max_stuck target stuck (yield_thread YieldNow w)
      end
  end.

(** [None] is out of fuel. *)
Definition block_on_with_name_and_runtime (fuel : nat) (name : string) (f : F) w :
    outcome (World * option V) :=
  let holder := next_addr w in
  let w := set_next_addr (S holder) w in
  let '(w, task, _) :=
    create_task_and_handle (BodyBlockOn f holder) unit_type TaskQueue (Some name) w in
  let '(w, target) := pool_insert task w in
  w ← send_to TaskQueue target w;
  '(w, finished) ← block_on_loop fuel max_stuck_iterations target 0 w;
  if finished : bool then
    v ← expect "Task completed but result was not set" (holders w !! holder);
    mret (set_holders (delete holder (holders w)) w, Some v)
  else mret (w, None).
Definition block_on_with_runtime (fuel : nat) (f : F) w : outcome (World * option V) :=
  block_on_with_name_and_runtime fuel "unnamed_block_on" f w.

(** ** Incremental progress *)

Fixpoint progress_reactors (l : list (string * ReactorWrapper E)) w :
    outcome (World * list (string * ReactorWrapper E)) :=
  match l with
  | [] => mret (w, [])
  | (id, x) :: l =>
      '(w, x) ← (if enable x then
                   let (e, status) := dyn_status (reactor x) (env w) in
                   match status with
                   | Running => poll_reactor x (set_env e w)
                   | Stopped => mret (set_env e w, x)
                   end
                 else mret (w, x));
      '(w, l) ← progress_reactors l w;
      mret (w, (id, x) :: l)
  end.

(** [while processed < max_tasks_per_call]. *)
Fixpoint progress_tasks (n : nat) w : outcome World :=
  match n with
  | O => mret w
  | S n =>
      '(c, o) ← chan_try_recv (task_chan (rt w));
      let w := on_rt (set_task_chan c) w in
      match o with
      | Some id => '(w, _) ← poll_and_retire id w; progress_tasks n w
      | None => mret w
      end
  end.

Definition max_tasks_per_call : nat := 100.

Definition progress w : outcome World :=
  '(w, l) ← progress_reactors (reactors (rt w)) w;
  let w := on_rt (set_reactors l) w in
  w ← drain_polling w;
  '(w, _) ← poll_buffer (polling_task_buffer (rt w)) w;
  progress_tasks max_tasks_per_call w.

(** ** Statistics *)

(** [str::contains]. *)
Definition str_contains (hay needle : string) : bool :=
  match String.index 0 needle hay with Some _ => true | None => false end.

Definition name_or_empty (st : TaskStat) : string := default EmptyString (task_name st).

Definition running_stats w : list TaskStat :=
  omap (fun e => match e.2 with Some t => task_stat t | None => None end)
    (slab_iter (task_pool (rt w))).

Definition get_stats_by_name (name : string) w : list TaskStat :=
  filter (fun st => str_contains (name_or_empty st) name = true) (running_stats w) ++
  filter (fun st => task_name st = Some name) (finished_task_stats (stat (rt w))).

Definition get_total_time (name : string) w : Z :=
  foldl (fun acc st => wrap64 (acc + execute_time_ns st)) 0
    (filter (fun st => str_contains (name_or_empty st) name = true)
       (finished_task_stats (stat (rt w)))).

Definition get_reactor_polling_time w : Z := pool_and_completion_time (stat (rt w)).

Definition elapsed_key (st : TaskStat) : Z :=
  match get_elapsed_real_time st with Some d => wrap64 d | None => 0 end.

(** [max_by_key] keeps the last of the maximal elements. *)
Definition max_by_key {X} (key : X -> Z) (l : list X) : option X :=
  foldl (fun acc x => match acc with
                      | None => Some x
                      | Some y => if key y <=? key x then Some x else Some y
                      end) None l.

Definition get_longest_running_task w : option TaskStat :=
  max_by_key elapsed_key
    (filter (fun st => running st = false) (finished_task_stats (stat (rt w)))).

(** ** The thread-local runtime *)

Definition set_runtime w : World := set_RUNTIME (Some tt) w.
Definition get_runtime w : option unit := RUNTIME w.
Definition clear_runtime w : World := set_RUNTIME None w.

Definition no_runtime : string :=
  "No runtime set in thread-local storage. Call set_runtime first.".

Definition spawn (f : F) w : outcome (World * JoinHandle) :=
  _ ← expect no_runtime (get_runtime w); spawn_with_runtime f w.
Definition spawn_polling (f : F) w : outcome (World * JoinHandle) :=
  _ ← expect no_runtime (get_runtime w); spawn_polling_with_runtime f w.
Definition spawn_with_name (f : F) (name : string) w : outcome (World * JoinHandle) :=
  _ ← expect no_runtime (get_runtime w); spawn_with_name_and_runtime f name w.
Definition spawn_polling_with_name (f : F) (name : string) w : outcome (World * JoinHandle) :=
  _ ← expect no_runtime (get_runtime w); spawn_polling_with_name_and_runtime f name w.
Definition run (fuel : nat) (f : F) w : outcome (World * Exit) :=
  _ ← expect no_runtime (get_runtime w); run_with_runtime fuel f w.
Definition run_with_name (fuel : nat) (name : string) (f : F) w : outcome (World * Exit) :=
  _ ← expect no_runtime (get_runtime w); run_with_name_and_runtime fuel name f w.
End executor.
