(* ===== verification/ExecutorDemo.v ===== *)
(** * ExecutorDemo: small programs run on the executor

    A language of user futures (yield, sleep forever, spawn and join) that makes
    [Executor] executable: the witnesses of the executor's theorems evaluate the
    runtime on it, with the ring buffer of [Spsc] as its queues and the finite map
    of [Slab] as its pool. *)

From S2P Require Import Prelude Spsc Future Track Slab Task Executor.

Inductive Demo : Type :=
| Yield (n v : nat)
| Never
| JoinOf (jh : JoinHandle)
| SpawnJoin (q : QueueKind) (f : Demo).

Definition demo_join (jh : JoinHandle) : Act nat Demo Z :=
  AJoin jh (fun r => match r with
                     | Ready (ROk v) => ARet (JoinOf jh) (Ready v)
                     | Ready (RErr _) => ARet (JoinOf jh) (Ready 0)
                     | Pending => ARet (JoinOf jh) Pending
                     end).

Definition demo_poll (k : Waker) (f : Demo) : Act nat Demo Z :=
  match f with
  | Yield O v => ARet f (Ready v)
  | Yield (S n) v => AWake k (ARet (Yield n v) Pending)
  | Never => ARet Never Pending
  | JoinOf jh => demo_join jh
  | SpawnJoin q g => ASpawn q None g demo_join
  end.

(** The clock advances by one nanosecond per reading. *)
#[export] Program Instance Demo_Program : Program nat Demo Z := {
  upoll := demo_poll;
  udrop _ e := e;
  out_type _ := 1;
  unit_type := 0;
  unit_val := 0;
  getenv s := if bool_decide (s = "PLUVIO_MAX_STUCK_ITERATIONS"%string) then Some "20"%string else None;
  clock e := ((e + 1)%Z, e);
  hash_order _ l := l
}.
Next Obligation. done. Qed.

Definition DemoWorld : Type :=
  World nat Z (Inner nat) (gmap nat (option (Task (TaskFuture Demo)))).

Definition demo_world : outcome DemoWorld :=
  r ← Runtime_new;
  mret (mkWorld r ∅ 0 ∅ TrackIdAllocator_new 0%Z None None []).

(** Spawn a list of futures, then run the queue. *)
Fixpoint demo_spawn (fs : list (QueueKind * Demo)) (w : DemoWorld) : outcome DemoWorld :=
  match fs with
  | [] => mret w
  | (q, f) :: fs => '(w, _) ← spawn_any q None f w; demo_spawn fs w
  end.

Definition demo_run (fuel : nat) (fs : list (QueueKind * Demo)) : outcome (Exit * list nat * Z) :=
  w ← demo_world;
  w ← demo_spawn fs w;
  '(w, ex) ← run_queue fuel w;
  mret (ex, (slab_iter (task_pool (rt w))).*1, iteration_count (rt w)).

Example demo_cooperative :
  demo_run 10 [(TaskQueue, Yield 3 7); (PollingQueue, Yield 1 8); (TaskQueue, SpawnJoin TaskQueue (Yield 2 9))]
  = Ok (PoolEmpty, [], 5%Z).
Proof. vm_compute. reflexivity. Qed.

(** A task nobody wakes: the loop gives up after 21 passes without progress. *)
Example demo_stuck : demo_run 30 [(TaskQueue, Never)] = Ok (StuckOut, [0], 21%Z).
Proof. vm_compute. reflexivity. Qed.

Example demo_block_on :
  (w ← demo_world;
   w ← demo_spawn [(TaskQueue, Never); (TaskQueue, Yield 5 1)] w;
   '(w, v) ← block_on_with_runtime 10 (SpawnJoin PollingQueue (Yield 2 9)) w;
   mret (v, (slab_iter (task_pool (rt w))).*1)) = Ok (Some 9, [1; 0]).
Proof. vm_compute. reflexivity. Qed.

(** [block_on] in a runtime where nothing can progress panics. *)
Example demo_block_on_deadlock :
  ('(_, v) ← (w ← demo_world; block_on_with_runtime 30 Never w); mret v)
  = Panic "block_on deadlock detected".
Proof. vm_compute. reflexivity. Qed.
