(* ===== verification/ExecutorFacts.v ===== *)
(** * ExecutorFacts: the invariant of the runtime's world

    [WF n w]: both queues are well-formed channels holding at most [n] ids
    together, every slot of the task pool holds a task that has not completed, no
    two tasks share a result cell and no live task's cell is filled.  Every
    operation that runs user code preserves it and cannot panic while the queues
    have room, for every user program that sends boundedly many wake-ups per poll
    ([act_sends_le]). *)

From S2P Require Import Prelude Spsc Future Track Slab Task Executor ExecutorDemo.
Local Open Scope nat_scope.

Section facts.
Context {V F E C SL : Type} `{Program V F E} `{FifoChan C}.
Context `{Slab (option (Task (TaskFuture F))) SL}.
Abbreviation World := (World V E C SL).
Abbreviation Act := (Act V F E).
Abbreviation Task := (Task (TaskFuture F)).
Implicit Types (w : World) (k : Waker) (id : nat) (t : Task) (a : Act).

Definition view w : gmap nat (option Task) := slab_view (task_pool (rt w)).
Definition live_at w id t : Prop := view w !! id = Some (Some t).

(** ** Frames *)

(** What polling tasks and reactors leaves alone. *)
Record frame w w' : Prop := {
  fr_reactors : reactors (rt w') = reactors (rt w);
  fr_config : scheduling_config (rt w') = scheduling_config (rt w);
  fr_iter : iteration_count (rt w') = iteration_count (rt w);
  fr_pbuf : polling_task_buffer (rt w') = polling_task_buffer (rt w);
  fr_tbuf : task_buffer (rt w') = task_buffer (rt w);
  fr_idle : idle_iter_count (rt w') = idle_iter_count (rt w);
  fr_ronly : reactor_only_count (rt w') = reactor_only_count (rt w);
  fr_os : os w' = os w;
  fr_runtime : RUNTIME w' = RUNTIME w;
  fr_next : next_addr w <= next_addr w'
}.

#[export] Instance frame_preorder : PreOrder frame.
Proof.
  split; [by split|]. intros w1 w2 w3 [] []. split; try congruence. lia.
Qed.

(** ** Queues *)

Definition queues w (p q : list nat) : Prop :=
  chan_rep (polling_chan (rt w)) p /\ chan_rep (task_chan (rt w)) q.

Definition enqueue (kind : QueueKind) id (pq : list nat * list nat) : list nat * list nat :=
  match kind with
  | TaskQueue => (pq.1, pq.2 ++ [id])
  | PollingQueue => (pq.1 ++ [id], pq.2)
  end.

Definition room (n : nat) : Prop := (Z.of_nat n <= chan_room)%Z.

(** Sending succeeds and appends to the queue; nothing else changes. *)
Lemma send_to_ok kind id w p q :
  queues w p q -> room (S (length p + length q)) ->
  exists w', send_to kind id w = Ok w' /\
    queues w' (enqueue kind id (p, q)).1 (enqueue kind id (p, q)).2 /\
    (exists c1 c2, w' = on_rt (fun r => set_task_chan c1 (set_polling_chan c2 r)) w).
Proof.
  intros [Hp Hq] Hroom. unfold room in Hroom. destruct kind; cbn.
  - destruct (chan_send_rep _ _ id Hq) as (c & Hs & Hc); [lia|].
    exists (on_rt (set_task_chan c) w). rewrite Hs. split; [done|]. split; [done|].
    exists c, (polling_chan (rt w)). destruct w as [[]]. done.
  - destruct (chan_send_rep _ _ id Hp) as (c & Hs & Hc); [lia|].
    exists (on_rt (set_polling_chan c) w). rewrite Hs. split; [done|]. split; [done|].
    exists (task_chan (rt w)), c. destruct w as [[]]. done.
Qed.

(** ** The pool *)

Record task_ok w t : Prop := {
  tk_stat : is_Some (task_stat t);
  tk_body : is_Some (fbody (future t));
  tk_shared : fshared (future t) = tshared t;
  tk_addr : tshared t < next_addr w;
  tk_result : sresult (heap_get (heap w) (tshared t)) = None
}.

(** [ex] is the task that is running, whose slot is empty. *)
Record PoolOk (ex : option nat) w : Prop := {
  po_slot id : is_Some (view w !! id) -> ex <> Some id -> exists t, live_at w id t;
  po_ex id : ex = Some id -> view w !! id = Some None;
  po_task id t : live_at w id t -> task_ok w t;
  po_inj i j t u : live_at w i t -> live_at w j u -> tshared t = tshared u -> i = j
}.

(** [addr] is allocated, empty, and no live task completes into it. *)
Definition addr_free (addr : nat) w : Prop :=
  addr < next_addr w /\ sresult (heap_get (heap w) addr) = None /\
  forall id t, live_at w id t -> tshared t <> addr.

(** The results that are [None] stay [None], as user code can only take them. *)
Definition heap_le w w' : Prop :=
  next_addr w <= next_addr w' /\
  forall addr, addr < next_addr w ->
    sresult (heap_get (heap w) addr) = None -> sresult (heap_get (heap w') addr) = None.

Lemma pool_ok_results ex w w' :
  PoolOk ex w -> task_pool (rt w') = task_pool (rt w) -> next_addr w <= next_addr w' ->
  (forall id t, live_at w id t -> sresult (heap_get (heap w') (tshared t)) = None) ->
  PoolOk ex w'.
Proof.
  intros [H1' H2' H3' H4'] Hp Hn Hh. unfold live_at, view in *.
  split; unfold live_at, view in *; rewrite Hp; auto.
  intros id t Ht. destruct (H3' id t Ht). split; eauto. lia.
Qed.

Lemma pool_ok_same ex w w' :
  PoolOk ex w -> task_pool (rt w') = task_pool (rt w) -> heap_le w w' -> PoolOk ex w'.
Proof.
  intros HP Hp [Hn Hh]. eapply pool_ok_results; [done..|].
  intros id t Ht. destruct (po_task _ _ HP id t Ht). auto.
Qed.

Lemma addr_free_same addr w w' :
  addr_free addr w -> task_pool (rt w') = task_pool (rt w) -> heap_le w w' -> addr_free addr w'.
Proof.
  intros (Ha & Hr & Hl) Hp [Hn Hh]. split; [lia|]. split; [auto|].
  unfold live_at, view in *. by rewrite Hp.
Qed.

Lemma heap_le_refl w : heap_le w w.
Proof. by split. Qed.

(** ** Spawning *)

(** A spawned task is inserted under a vacant id with a fresh result cell. *)
Definition new_task (b : TaskBody F) kind name w : Task :=
  Task_new (mkTaskFuture (Some b) (next_addr w)) kind (next_addr w) name.

Record spawned (t : Task) id w w' : Prop := {
  sp_view : view w' = <[id := Some t]> (view w);
  sp_vacant : view w !! id = None;
  sp_heap : heap w' = heap_set (next_addr w) SharedState_new (heap w);
  sp_next : next_addr w' = S (next_addr w);
  sp_frame : frame w w';
  sp_shutdown : shutdown_requested (rt w') = shutdown_requested (rt w)
}.

(** The body of a spawn, shared by [spawn_any] and [block_on]. *)
Definition insert_and_send (b : TaskBody F) ty kind name w : outcome (World * nat * JoinHandle) :=
  let '(w, task, handle) := create_task_and_handle b ty kind name w in
  let '(w, id) := pool_insert task w in
  w ← send_to kind id w; mret (w, id, handle).

Lemma spawn_any_unfold kind name (f : F) w :
  spawn_any kind name f w =
    ('(w, _, jh) ← insert_and_send
        (BodySpawned (out_type f) (maybe_tracked f (enable_perfetto_tracks (scheduling_config (rt w)))))
        (out_type f) kind name w;
     mret (w, jh)).
Proof.
  destruct kind, name;
    cbv [spawn_any spawn_with_runtime spawn_polling_with_runtime spawn_with_name_and_runtime
      spawn_polling_with_name_and_runtime insert_and_send create_task_and_handle];
    destruct (pool_insert _ _) as [w1 id];
    match goal with |- context [send_to ?a ?b ?c] => by destruct (send_to a b c) end.
Qed.

Lemma insert_and_send_ok b ty kind name w p q :
  queues w p q -> room (S (length p + length q)) ->
  exists w' id, insert_and_send b ty kind name w = Ok (w', id, mkJoin (next_addr w) ty) /\
    spawned (new_task b kind name w) id w w' /\
    queues w' (enqueue kind id (p, q)).1 (enqueue kind id (p, q)).2.
Proof.
  intros Hq Hroom. unfold insert_and_send, pool_insert. cbn.
  set (t := Task_new _ _ _ _).
  destruct (slab_insert_view (Some t) (task_pool (rt w))) as [Hv Hins].
  destruct (slab_insert (Some t) (task_pool (rt w))) as [pl id]. cbn in *.
  match goal with |- context [send_to kind id ?w1] =>
    destruct (send_to_ok kind id w1 p q) as (w' & -> & Hq' & c1 & c2 & ->); [exact Hq|done|] end.
  eexists _, id. split; [done|]. split; [|exact Hq'].
  split; try done. split; try done. cbn. lia.
Qed.

Lemma insert_and_send_env (b : TaskBody F) ty kind nm w w' id jh :
  insert_and_send b ty kind nm w = Ok (w', id, jh) -> env w' = env w.
Proof.
  unfold insert_and_send, create_task_and_handle, pool_insert. destruct (slab_insert _ _) as [p i]. intros Hs.
  unfold send_to in Hs. destruct kind; inv_Ok; done.
Qed.

Lemma spawned_heap_le t id w w' : spawned t id w w' -> heap_le w w'.
Proof.
  intros [_ _ Hh Hn _ _]. split; [lia|]. intros addr Ha Hr.
  rewrite Hh, heap_get_set. rewrite decide_False by lia. done.
Qed.

Lemma live_insert w w' id t i u :
  view w' = <[id := Some t]> (view w) -> live_at w' i u -> (i = id /\ u = t) \/ (i <> id /\ live_at w i u).
Proof.
  unfold live_at. intros -> Hl. destruct (decide (i = id)) as [->|Hne].
  - rewrite lookup_insert_eq in Hl. left. by simplify_eq.
  - rewrite lookup_insert_ne in Hl by done. by right.
Qed.

Lemma spawned_pool_ok ex b kind name id w w' :
  PoolOk ex w -> spawned (new_task b kind name w) id w w' -> PoolOk ex w'.
Proof.
  intros [P1 P2 P3 P4] Hs. pose proof (spawned_heap_le _ _ _ _ Hs) as [Hn Hh].
  destruct Hs as [Hv Hvac Hheap Hnext _ _].
  assert (Hold : forall i u, live_at w i u -> tshared u < next_addr w)
    by (intros i u Hu; apply (P3 i u Hu)).
  split.
  - intros i [s Hi] Hex. destruct (decide (i = id)) as [->|Hne].
    + exists (new_task b kind name w). unfold live_at. by rewrite Hv, lookup_insert_eq.
    + rewrite Hv, lookup_insert_ne in Hi by done.
      destruct (P1 i ltac:(eauto) Hex) as [u Hu]. exists u. unfold live_at.
      by rewrite Hv, lookup_insert_ne.
  - intros i ->. rewrite Hv. specialize (P2 i eq_refl).
    rewrite lookup_insert_ne; [done|]. intros ->. congruence.
  - intros i u Hu. destruct (live_insert _ _ _ _ _ _ Hv Hu) as [[-> ->]|[Hne Hl]].
    + split; cbn; eauto; [lia|]. rewrite Hheap, heap_get_set. by rewrite decide_True.
    + destruct (P3 i u Hl). split; auto. lia.
  - intros i j u v Hu Hw Heq.
    destruct (live_insert _ _ _ _ _ _ Hv Hu) as [[-> ->]|[Hne Hl]],
      (live_insert _ _ _ _ _ _ Hv Hw) as [[-> ->]|[Hne' Hl']]; cbn in *; eauto.
    + specialize (Hold _ _ Hl'). lia.
    + specialize (Hold _ _ Hl). lia.
Qed.

Lemma spawned_addr_free addr b kind name id w w' :
  addr_free addr w -> spawned (new_task b kind name w) id w w' -> addr_free addr w'.
Proof.
  intros (Ha & Hr & Hl) Hs. pose proof (spawned_heap_le _ _ _ _ Hs) as [Hn Hh].
  destruct Hs as [Hv _ _ Hnext _ _].
  split; [lia|]. split; [auto|]. intros i u Hu.
  destruct (live_insert _ _ _ _ _ _ Hv Hu) as [[-> ->]|[_ Hl']]; [cbn; lia|eauto].
Qed.

(** ** Running user code *)

(** Every path through one poll sends at most [b] ids (wake-ups and spawns) and none panics. *)
Fixpoint act_sends_le (b : nat) a : Prop :=
  match a with
  | ARet _ _ => True
  | AEnv _ next => forall e, act_sends_le b (next e)
  | AWake _ next => match b with O => False | S b => act_sends_le b next end
  | ASpawn _ _ _ next => match b with O => False | S b => forall jh, act_sends_le b (next jh) end
  | AJoin _ next => forall r, act_sends_le b (next r)
  | AShutdown next => act_sends_le b next
  | APanic _ => False
  end.

(** What at most [b] sends of user code do to the world. *)
Record effect (b : nat) w w' : Prop := {
  ef_frame : frame w w';
  ef_queues p q : queues w p q ->
    exists dp dq, queues w' (p ++ dp) (q ++ dq) /\ length dp + length dq <= b;
  ef_pool ex : PoolOk ex w -> PoolOk ex w';
  ef_free addr : addr_free addr w -> addr_free addr w';
  ef_view : view w ⊆ view w';
  ef_holders : holders w' = holders w
}.

Lemma effect_refl w : effect 0 w w.
Proof.
  split; try done. intros p q Hq. exists [], []. by rewrite !app_nil_r.
Qed.

Lemma effect_trans b1 b2 w1 w2 w3 : effect b1 w1 w2 -> effect b2 w2 w3 -> effect (b1 + b2) w1 w3.
Proof.
  intros [F1 Q1 P1 A1 V1 H1'] [F2 Q2 P2 A2 V2 H2']. split.
  - by transitivity w2.
  - intros p q Hq. destruct (Q1 _ _ Hq) as (dp & dq & Hq1 & Hl1).
    destruct (Q2 _ _ Hq1) as (ep & eq & Hq2 & Hl2). exists (dp ++ ep), (dq ++ eq).
    rewrite !app_assoc, !length_app. split; [done|lia].
  - auto.
  - auto.
  - by transitivity (view w2).
  - congruence.
Qed.

Lemma effect_weaken b b' w w' : b <= b' -> effect b w w' -> effect b' w w'.
Proof.
  intros Hb [F1 Q1 P1 A1 V1 H1']. split; auto. intros p q Hq.
  destruct (Q1 _ _ Hq) as (dp & dq & Hq1 & Hl1). exists dp, dq. split; [done|lia].
Qed.

(** Steps that change neither the pool nor the queues. *)
Lemma effect_same w w' :
  frame w w' -> task_pool (rt w') = task_pool (rt w) -> task_chan (rt w') = task_chan (rt w) ->
  polling_chan (rt w') = polling_chan (rt w) -> holders w' = holders w -> heap_le w w' ->
  effect 0 w w'.
Proof.
  intros Hf Hp Ht Hc Hh Hle. split; try done.
  - intros p q [Hq1 Hq2]. exists [], []. rewrite !app_nil_r. unfold queues.
    rewrite Ht, Hc. done.
  - intros ex Hpo. by eapply pool_ok_same.
  - intros addr Ha. by eapply addr_free_same.
  - unfold view. by rewrite Hp.
Qed.

Lemma enqueue_app kind id p q : exists dp dq,
  enqueue kind id (p, q) = (p ++ dp, q ++ dq) /\ length dp + length dq = 1.
Proof.
  destruct kind; [exists [], [id]|exists [id], []]; rewrite app_nil_r; done.
Qed.

Lemma queues_inj w p q p' q' : queues w p q -> queues w p' q' -> length p' = length p /\ length q' = length q.
Proof.
  intros [H1' H2'] [H3' H4']. by rewrite <- !(chan_len_rep _ _ H1'), <- !(chan_len_rep _ _ H2'),
    <- !(chan_len_rep _ _ H3'), <- !(chan_len_rep _ _ H4').
Qed.

Lemma effect_send kind id w p q :
  queues w p q -> room (S (length p + length q)) ->
  exists w', send_to kind id w = Ok w' /\ effect 1 w w' /\
    queues w' (enqueue kind id (p, q)).1 (enqueue kind id (p, q)).2.
Proof.
  intros Hq Hroom.
  destruct (send_to_ok kind id w p q Hq Hroom) as (w' & Hs & Hq' & c1 & c2 & ->).
  eexists. split; [exact Hs|]. split; [|exact Hq']. split; try done.
  - intros p0 q0 Hq0. destruct (queues_inj _ _ _ _ _ Hq Hq0) as [Hlp Hlq].
    destruct (send_to_ok kind id w p0 q0 Hq0) as (w' & Hs0 & Hq0' & _); [by rewrite Hlp, Hlq|].
    rewrite Hs in Hs0. simplify_eq. destruct (enqueue_app kind id p0 q0) as (dp & dq & He & Hl).
    exists dp, dq. rewrite He in Hq0'. split; [done|lia].
  - intros ex Hp. eapply pool_ok_same; [exact Hp|done|]. by split.
Qed.

Lemma spawn_any_ok kind name (f : F) w p q :
  queues w p q -> room (S (length p + length q)) ->
  exists w' jh, spawn_any kind name f w = Ok (w', jh) /\ effect 1 w w' /\
    exists id, spawned (new_task (BodySpawned (out_type f)
        (maybe_tracked f (enable_perfetto_tracks (scheduling_config (rt w))))) kind name w) id w w' /\
      jh = mkJoin (next_addr w) (out_type f) /\
      queues w' (enqueue kind id (p, q)).1 (enqueue kind id (p, q)).2.
Proof.
  intros Hq Hroom. rewrite spawn_any_unfold. set (b := BodySpawned _ _).
  destruct (insert_and_send_ok b (out_type f) kind name w p q Hq Hroom) as (w' & id & Hs & Hsp & Hq').
  rewrite Hs. eexists _, _. split; [done|]. split; [|by exists id].
  pose proof Hsp as [Hv Hvac Hh Hn Hf _]. split.
  - done.
  - intros p0 q0 Hq0. destruct (queues_inj _ _ _ _ _ Hq Hq0) as [Hlp Hlq].
    destruct (insert_and_send_ok b (out_type f) kind name w p0 q0 Hq0) as (w2 & id2 & Hs2 & _ & Hq2);
      [by rewrite Hlp, Hlq|].
    rewrite Hs in Hs2. simplify_eq. destruct (enqueue_app kind id2 p0 q0) as (dp & dq & He & Hl).
    exists dp, dq. rewrite He in Hq2. split; [done|lia].
  - intros ex Hp. by eapply spawned_pool_ok.
  - intros addr Ha. by eapply spawned_addr_free.
  - rewrite Hv. by apply insert_subseteq.
  - unfold insert_and_send, pool_insert in Hs. cbn in Hs.
    destruct (slab_insert _ _) as [pl i]. inv_Ok.
    unfold send_to in *. destruct kind; inv_Ok; done.
Qed.

Lemma join_poll_heap k jh w :
  let (h, r) := JoinHandle_poll k jh (heap w) in effect 0 w (set_heap h w).
Proof.
  unfold JoinHandle_poll. destruct (sresult _) eqn:Hr;
    (apply effect_same; [by split|done|done|done|done|]; split; [done|]; cbn;
     intros addr Ha Hn; rewrite heap_get_set; by case_decide).
Qed.

(** One poll of user code cannot panic while the queues have room. *)
Lemma run_act_ok k b a w p q :
  act_sends_le b a -> queues w p q -> room (length p + length q + b) ->
  exists w' f r, run_act k a w = Ok (w', f, r) /\ effect b w w'.
Proof.
  revert b w p q. induction a as [f r|upd next IH|k' next IH|qk name f next IH|jh next IH|next IH|msg];
    intros b w p q Hb Hq Hroom; cbn [run_act act_sends_le] in *.
  - exists w, f, r. split; [done|]. apply effect_weaken with 0; [lia|apply effect_refl].
  - destruct (IH (env w) b (set_env (upd (env w)) w) p q) as (w' & f & r & Hr & He); [done..|].
    exists w', f, r. split; [exact Hr|]. apply (effect_trans 0 b) with (2 := He).
    apply effect_same; (done || by split).
  - destruct b as [|b]; [done|].
    destruct (effect_send (task_sender k') (task_id k') w p q Hq) as (w1 & Hs & He1 & Hq1).
    { unfold room in *. lia. }
    unfold wake_by_ref. rewrite Hs. cbn.
    destruct (enqueue_app (task_sender k') (task_id k') p q) as (dp & dq & Heq & Hl).
    rewrite Heq in Hq1. cbn in Hq1.
    destruct (IH b w1 _ _ Hb Hq1) as (w' & f & r & Hr & He).
    { unfold room in *. rewrite !length_app. lia. }
    exists w', f, r. split; [exact Hr|]. exact (effect_trans 1 b _ _ _ He1 He).
  - destruct b as [|b]; [done|].
    destruct (spawn_any_ok qk name f w p q Hq) as (w1 & jh & Hs & He1 & id & _ & _ & Hq1).
    { unfold room in *. lia. }
    rewrite Hs. cbn. destruct (enqueue_app qk id p q) as (dp & dq & Heq & Hl).
    rewrite Heq in Hq1. cbn in Hq1.
    destruct (IH jh b w1 _ _ (Hb jh) Hq1) as (w' & f' & r & Hr & He).
    { unfold room in *. rewrite !length_app. lia. }
    exists w', f', r. split; [exact Hr|]. exact (effect_trans 1 b _ _ _ He1 He).
  - pose proof (join_poll_heap k jh w) as Hj. destruct (JoinHandle_poll k jh (heap w)) as [h r].
    destruct (IH r b (set_heap h w) p q (Hb r) Hq Hroom) as (w' & f' & r' & Hr & He).
    exists w', f', r'. split; [exact Hr|]. exact (effect_trans 0 b _ _ _ Hj He).
  - destruct (IH b (request_shutdown w) p q Hb Hq Hroom) as (w' & f' & r & Hr & He).
    exists w', f', r. split; [exact Hr|]. apply (effect_trans 0 b) with (2 := He).
    apply effect_same; (done || by split).
  - done.
Qed.

(** ** Polling a task *)

Definition mt_inner (mt : MaybeTracked F) : F :=
  match mt with Tracked tf => inner tf | Untracked f => f end.
Definition body_inner (b : TaskBody F) : F :=
  match b with BodySpawned _ mt => mt_inner mt | BodyBlockOn f _ => f end.
(** The boxed result of a body whose future returned [v]. *)
Definition body_any (b : TaskBody F) (v : V) : AnyBox V :=
  match b with BodySpawned ty _ => mkAny ty v | BodyBlockOn _ _ => mkAny unit_type unit_val end.
(** The body after its future has become [f]. *)
Definition body_like (b b' : TaskBody F) : Prop :=
  match b, b' with
  | BodySpawned ty _, BodySpawned ty' _ => ty' = ty
  | BodyBlockOn _ h, BodyBlockOn _ h' => h' = h
  | _, _ => False
  end.
Definition fut_sends_le (b : nat) (f : F) : Prop := forall k, act_sends_le b (upoll k f).

Lemma effect_tls x w : effect 0 w (set_tls x w).
Proof. by apply effect_same. Qed.
Lemma effect_env e w : effect 0 w (set_env e w).
Proof. by apply effect_same. Qed.

(** Tracking changes nothing but the thread-local track ids. *)
Lemma maybe_tracked_run k mt w :
  exists x, forall w1 f r, run_act k (upoll k (mt_inner mt)) (set_tls x w) = Ok (w1, f, r) ->
  exists y mt', MaybeTracked_poll k mt w = Ok (set_tls y w1, mt', r) /\ mt_inner mt' = f.
Proof.
  destruct mt as [[f o]|f]; cbn.
  - unfold TrackedFuture_poll. cbn.
    destruct (match o with None => acquire_track_id w | Some id => (w, id) end) as [wa tid] eqn:Ho.
    assert (exists x, set_current_track_id tid wa = set_tls x w) as [x Hx].
    { destruct o; [simplify_eq; by eexists|]. unfold acquire_track_id in Ho. cbn in Ho.
      destruct (TrackIdAllocator_acquire (tls w)) as [ta ia]. simplify_eq. by eexists. }
    exists x. intros w1 f' r Hrun. cbn in Hx. rewrite Hx, Hrun. cbn.
    destruct (is_ready r); eexists _, (Tracked _); (split; [reflexivity|done]).
  - exists (tls w). intros w1 f' r Hrun.
    replace (set_tls (tls w) w) with w in Hrun by by destruct w.
    rewrite Hrun. exists (tls w1), (Untracked f'). split; [by destruct w1|done].
Qed.

(** Completing: the result is stored and the joiner, if any, is woken. *)
Record completed (addr : nat) (res : AnyBox V) w w' : Prop := {
  cp_frame : frame w w';
  cp_view : view w' = view w;
  cp_heap addr' : heap_get (heap w') addr' =
    if decide (addr = addr') then mkShared None (Some (ROk res)) else heap_get (heap w) addr';
  cp_next : next_addr w' = next_addr w;
  cp_queues p q : queues w p q ->
    match waker (heap_get (heap w) addr) with
    | None => queues w' p q
    | Some k => queues w' (enqueue (task_sender k) (task_id k) (p, q)).1
                          (enqueue (task_sender k) (task_id k) (p, q)).2
    end;
  cp_pool ex : PoolOk ex w -> addr_free addr w -> PoolOk ex w';
  cp_free addr' : addr' <> addr -> addr_free addr' w -> addr_free addr' w';
  cp_shutdown : shutdown_requested (rt w') = shutdown_requested (rt w);
  cp_holders : holders w' = holders w
}.

Lemma wrapped_finish_ok addr res w p q :
  queues w p q -> room (S (length p + length q)) ->
  exists w', wrapped_finish addr res w = Ok w' /\ completed addr res w w'.
Proof.
  intros Hq Hroom. unfold wrapped_finish.
  destruct (complete_shared_spec addr res (heap w)) as (h & Hc & Hh). rewrite Hc.
  assert (Hgen : forall c1 c2,
    let w' := on_rt (fun r => set_task_chan c1 (set_polling_chan c2 r)) (set_heap h w) in
    (forall p q, queues w p q ->
      match waker (heap_get (heap w) addr) with
      | None => queues w' p q
      | Some k => queues w' (enqueue (task_sender k) (task_id k) (p, q)).1
                            (enqueue (task_sender k) (task_id k) (p, q)).2
      end) -> completed addr res w w').
  { intros c1 c2 w' Hqs. split; try done.
    - intros ex HP (Ha & _ & Hl). eapply pool_ok_results; [exact HP|done..|].
      intros id t Ht. cbn. rewrite Hh, decide_False by (intros ->; by eapply Hl).
      apply (po_task _ _ HP id t Ht).
    - intros addr' Hne (Ha & Hr & Hl). split; [done|]. split; [|done]. cbn.
      by rewrite Hh, decide_False. }
  destruct (waker (heap_get (heap w) addr)) as [k|] eqn:Hw.
  - unfold wake_by_ref.
    destruct (send_to_ok (task_sender k) (task_id k) (set_heap h w) p q Hq Hroom)
      as (w' & Hs & Hq' & c1 & c2 & ->).
    eexists. split; [exact Hs|]. apply Hgen. intros p0 q0 Hq0.
    destruct (queues_inj _ _ _ _ _ Hq Hq0) as [Hlp Hlq].
    destruct (send_to_ok (task_sender k) (task_id k) (set_heap h w) p0 q0 Hq0)
      as (w2 & Hs2 & Hq2 & _); [by rewrite Hlp, Hlq|].
    rewrite Hs in Hs2. by simplify_eq.
  - eexists. split; [done|]. specialize (Hgen (task_chan (rt w)) (polling_chan (rt w))).
    replace (on_rt _ (set_heap h w)) with (set_heap h w) in Hgen by by destruct w as [[]].
    apply Hgen. done.
Qed.

(** Steps of the runtime's own bookkeeping: no send, no shutdown request. *)
Definition quiet w w' : Prop :=
  effect 0 w w' /\ shutdown_requested (rt w') = shutdown_requested (rt w) /\ view w' = view w /\
  heap w' = heap w.

Lemma quiet_trans w1 w2 w3 : quiet w1 w2 -> quiet w2 w3 -> quiet w1 w3.
Proof.
  intros (E1 & S1 & V1 & T1) (E2 & S2 & V2 & T2). split; [exact (effect_trans 0 0 _ _ _ E1 E2)|].
  split; [congruence|]. split; congruence.
Qed.
Lemma quiet_tls x w : quiet w (set_tls x w).
Proof. split; [apply effect_tls|done]. Qed.
Lemma quiet_env e w : quiet w (set_env e w).
Proof. split; [apply effect_env|done]. Qed.
Lemma quiet_queues w w' p q : quiet w w' -> queues w p q -> queues w' p q.
Proof.
  intros [He _] Hq. destruct (ef_queues _ _ _ He _ _ Hq) as ([|] & [|] & Hq' & Hl); cbn in Hl; try lia.
  by rewrite !app_nil_r in Hq'.
Qed.

Definition body_holders (bd : TaskBody F) (v : V) (hs : gmap nat V) : gmap nat V :=
  match bd with BodySpawned _ _ => hs | BodyBlockOn _ h => <[h := v]> hs end.

(** One poll of a task body: user code runs, then either the body is kept, or its
    result is stored in [addr]. *)
Definition ran (b : nat) k (bd : TaskBody F) (addr : nat) w w' (r : Poll unit)
    (ob : option (TaskBody F)) : Prop :=
  exists w0 w1 f' ru, quiet w w0 /\
    run_act k (upoll k (body_inner bd)) w0 = Ok (w1, f', ru) /\ effect b w0 w1 /\
    match ru with
    | Pending => r = Pending /\ quiet w1 w' /\
        exists bd', ob = Some bd' /\ body_inner bd' = f' /\ body_like bd bd'
    | Ready v => r = Ready tt /\ ob = None /\ exists w2 w3, quiet w1 w2 /\
        completed addr (body_any bd v) (set_holders (body_holders bd v (holders w2)) w2) w3 /\
        quiet w3 w'
    end.

(** Polling the wrapped future has the effect of the user's. *)
Lemma maybe_tracked_poll_ok b k mt w p q :
  fut_sends_le b (mt_inner mt) -> queues w p q -> room (length p + length q + b) ->
  exists w' mt' r, MaybeTracked_poll k mt w = Ok (w', mt', r) /\ effect b w w'.
Proof.
  intros Hb Hq Hroom. destruct (maybe_tracked_run k mt w) as (x & Hrun).
  destruct (run_act_ok k b (upoll k (mt_inner mt)) (set_tls x w) p q (Hb k)) as (w1 & f' & r & Hr & He); [done..|].
  destruct (Hrun _ _ _ Hr) as (y & mt' & Hp & _). exists (set_tls y w1), mt', r. split; [exact Hp|].
  assert (H01 := effect_trans 0 b _ _ _ (effect_tls x w) He). rewrite <- (Nat.add_0_r b).
  exact (effect_trans b 0 _ _ _ H01 (effect_tls y w1)).
Qed.

(** The wrapper finishes after any poll that left room. *)
Lemma finish_after res b addr w w1 w2 p q : queues w p q -> room (length p + length q + S b) ->
  effect b w w1 -> quiet w1 w2 -> forall hs, exists w3,
  wrapped_finish addr res (set_holders hs w2) = Ok w3 /\ completed addr res (set_holders hs w2) w3.
Proof.
  intros Hq Hroom He Hqt hs. destruct (ef_queues _ _ _ He _ _ Hq) as (dp & dq & Hq1 & Hl).
  apply (wrapped_finish_ok _ _ _ (p ++ dp) (q ++ dq)).
  - apply (quiet_queues _ _ _ _ Hqt Hq1).
  - unfold room in *. rewrite !length_app. lia.
Qed.

Lemma wrapped_poll_ok b k tf bd w p q :
  fbody tf = Some bd -> fut_sends_le b (body_inner bd) ->
  queues w p q -> room (length p + length q + S b) ->
  exists w' ob r, wrapped_poll k tf w = Ok (w', mkTaskFuture ob (fshared tf), r) /\
    ran b k bd (fshared tf) w w' r ob.
Proof.
  intros Hbd Hb Hq Hroom. unfold wrapped_poll. rewrite Hbd.
  assert (Hfin := fun res w1 w2 => finish_after res b (fshared tf) w w1 w2 p q Hq Hroom).
  destruct bd as [ty mt|f holder]; cbn [body_inner] in Hb.
  - destruct (maybe_tracked_run k mt w) as (x & Hrun).
    destruct (run_act_ok k b (upoll k (mt_inner mt)) (set_tls x w) p q (Hb k)) as (w1 & f' & ru & Hr & He);
      [done|unfold room in *; lia|].
    destruct (Hrun _ _ _ Hr) as (y & mt' & Hp & Hin). rewrite Hp.
    cbn [mbind outcome_bind]. destruct ru as [v|]; cbv beta iota zeta.
    + set (w2 := fdrop mt' (set_tls y w1)).
      assert (Hq2 : quiet w1 w2).
      { unfold w2. destruct mt'; cbn; (eapply quiet_trans; [apply quiet_tls|apply quiet_env]). }
      destruct (Hfin (mkAny ty v) w1 w2) with (hs := holders w2) as (w3 & Hf & Hc); [|done|].
      { apply (effect_trans 0 b _ _ _ (effect_tls x w) He). }
      replace (set_holders (holders w2) w2) with w2 in Hf by by destruct w2.
      rewrite Hf. cbn. eexists _, _, _. split; [done|].
      exists (set_tls x w), w1, f', (Ready v). split; [apply quiet_tls|]. split; [done|].
      split; [done|]. split; [done|]. split; [done|]. exists w2, w3. split; [done|].
      split; [done|]. split; [apply effect_refl|done].
    + eexists _, _, _. split; [done|]. exists (set_tls x w), w1, f', Pending.
      split; [apply quiet_tls|]. do 2 (split; [done|]). split; [done|].
      split; [apply quiet_tls|]. by eexists.
  - destruct (run_act_ok k b (upoll k f) w p q (Hb k)) as (w1 & f' & ru & Hr & He);
      [done|unfold room in *; lia|].
    cbn [fpoll user_future]. rewrite Hr. cbn [mbind outcome_bind]. assert (Hq0 : quiet w w) by (split; [apply effect_refl|done]).
    destruct ru as [v|]; cbv beta iota zeta.
    + set (w2 := fdrop f' w1).
      assert (Hq2 : quiet w1 w2) by apply quiet_env.
      destruct (Hfin (mkAny unit_type unit_val) w1 w2) with (hs := <[holder := v]> (holders w2))
        as (w3 & Hf & Hc); [done..|].
      rewrite Hf. cbn. eexists _, _, _. split; [done|].
      exists w, w1, f', (Ready v). split; [done|]. split; [done|]. split; [done|].
      split; [done|]. split; [done|]. exists w2, w3. split; [done|].
      split; [done|]. split; [apply effect_refl|done].
    + eexists _, _, _. split; [done|]. exists w, w1, f', Pending.
      split; [done|]. do 2 (split; [done|]). split; [done|].
      split; [split; [apply effect_refl|done]|]. by eexists.
Qed.

Lemma quiet_clock w : quiet w (read_clock w).1.
Proof. unfold read_clock. destruct (clock (env w)). apply quiet_env. Qed.

Lemma ran_quiet_l b k bd addr w0 w w' r ob :
  quiet w0 w -> ran b k bd addr w w' r ob -> ran b k bd addr w0 w' r ob.
Proof.
  intros Hq (wa & wb & f' & ru & Hqa & Hrest). exists wa, wb, f', ru. split; [|done].
  by eapply quiet_trans.
Qed.

Lemma ran_quiet_r b k bd addr w w' w2 r ob :
  ran b k bd addr w w' r ob -> quiet w' w2 -> ran b k bd addr w w2 r ob.
Proof.
  intros (wa & wb & f' & ru & Hqa & Hrun & He & Hm) Hq. exists wa, wb, f', ru. do 3 (split; [done|]).
  destruct ru as [v|].
  - destruct Hm as (? & ? & wc & wd & ? & ? & ?). split; [done|]. split; [done|].
    exists wc, wd. split; [done|]. split; [done|]. by eapply quiet_trans.
  - destruct Hm as (? & ? & ?). split; [done|]. split; [by eapply quiet_trans|done].
Qed.

Lemma Task_poll_task_ok b t bd id w p q :
  fbody (future t) = Some bd -> is_Some (task_stat t) -> fut_sends_le b (body_inner bd) ->
  queues w p q -> room (length p + length q + S b) ->
  exists w' ob st r,
    Task_poll_task t id w = Ok (w', mkTask (mkTaskFuture ob (fshared (future t))) (tsender t) (tshared t) (Some st), r) /\
    ran b (new_waker (tsender t) id) bd (fshared (future t)) w w' r ob.
Proof.
  intros Hbd [st0 Hst] Hb Hq Hroom. unfold Task_poll_task. pose proof (quiet_clock w) as Hqc.
  destruct (read_clock w) as [w1 now]. cbn in Hqc.
  destruct (wrapped_poll_ok b (new_waker (tsender t) id) (future t) bd w1 p q)
    as (w2 & ob & r & Hp & Hran); [done..|by eapply quiet_queues|done|].
  rewrite Hp. cbn [mbind outcome_bind]. pose proof (quiet_clock w2) as Hqc2.
  destruct (read_clock w2) as [w3 later]. cbn in Hqc2. rewrite Hst. cbn.
  eexists _, _, _, _. split; [done|].
  eapply ran_quiet_r; [|exact Hqc2]. by eapply ran_quiet_l.
Qed.

(** A poll that completes a spawned task, taken apart: the future is polled in the world the
    poll begins with, and what it returns is stored and its joiner woken. *)
Lemma Task_poll_ready b t ty mt id w w' t' p q :
  fbody (future t) = Some (BodySpawned ty mt) -> fut_sends_le b (mt_inner mt) ->
  queues w p q -> room (length p + length q + S b) ->
  Task_poll_task t id w = Ok (w', t', Ready tt) ->
  exists w1 mt' v w2 w3 p1 q1,
    MaybeTracked_poll (new_waker (tsender t) id) mt (read_clock w).1 = Ok (w1, mt', Ready v) /\ queues w1 p1 q1 /\
    quiet w1 w2 /\ completed (fshared (future t)) (mkAny ty v) w2 w3 /\ quiet w3 w'.
Proof.
  intros Hbd Hb Hq Hroom. unfold Task_poll_task. pose proof (quiet_clock w) as Hqc.
  destruct (read_clock w) as [w0 now]. cbn [fst] in *. pose proof (quiet_queues _ _ _ _ Hqc Hq) as Hq0.
  unfold wrapped_poll. rewrite Hbd.
  destruct (maybe_tracked_poll_ok b (new_waker (tsender t) id) mt w0 p q) as (w1 & mt' & r & Hp & He);
    [done..|unfold room in *; lia|]. rewrite Hp. cbn [mbind outcome_bind]. destruct r as [v|].
  2:{ cbv beta iota zeta. cbn [mret outcome_ret mbind outcome_bind]. destruct (read_clock w1) as [w3 later].
      destruct (stat_start now <$> task_stat t); [|done]. cbn. done. }
  assert (Hq2 : quiet w1 (fdrop mt' w1)) by (destruct mt'; apply quiet_env).
  destruct (finish_after (mkAny ty v) b (fshared (future t)) w0 w1 (fdrop mt' w1) p q Hq0 Hroom He Hq2 (holders (fdrop mt' w1)))
    as (w3 & Hf & Hc). replace (set_holders _ _) with (fdrop mt' w1) in Hf, Hc by by destruct mt'.
  cbv zeta. rewrite Hf. cbn [mbind outcome_bind mret outcome_ret]. pose proof (quiet_clock w3) as Hq3.
  destruct (read_clock w3) as [w4 later]. cbn [fst] in Hq3. destruct (stat_start now <$> task_stat t); [|done].
  cbn. intros [= <- _]. destruct (ef_queues _ _ _ He p q Hq0) as (dp & dq & Hq1 & _).
  by exists w1, mt', v, (fdrop mt' w1), w3, (p ++ dp), (q ++ dq).
Qed.

(** What [ran] means for the invariant. *)
Lemma ran_inv b k bd addr w w' r ob id :
  ran b k bd addr w w' r ob -> PoolOk (Some id) w -> addr_free addr w ->
  frame w w' /\ PoolOk (Some id) w' /\ view w ⊆ view w' /\
  (forall p q, queues w p q -> exists dp dq, queues w' (p ++ dp) (q ++ dq) /\ length dp + length dq <= S b) /\
  (is_ready r = false -> addr_free addr w' /\ is_Some ob).
Proof.
  intros (w0 & w1 & f' & ru & [E0 _] & _ & E1 & Hm) HP Ha.
  pose proof (effect_trans _ _ _ _ _ E0 E1) as E01. cbn in E01.
  pose proof (ef_pool _ _ _ E01 _ HP) as HP1. pose proof (ef_free _ _ _ E01 _ Ha) as Ha1.
  destruct ru as [v|].
  - destruct Hm as (-> & -> & w2 & w3 & [E2 _] & Hc & [E3 _]).
    pose proof (ef_pool _ _ _ E2 _ HP1) as HP2. pose proof (ef_free _ _ _ E2 _ Ha1) as Ha2.
    set (w2' := set_holders _ w2) in Hc.
    assert (HP2' : PoolOk (Some id) w2') by (eapply pool_ok_same; [exact HP2|done|by split]).
    pose proof (cp_pool _ _ _ _ Hc _ HP2' Ha2) as HP3. split.
    { transitivity w1; [apply E01|]. transitivity w2; [apply E2|].
      transitivity w3; [|apply E3]. transitivity w2'; [by split|apply Hc]. }
    split; [by apply (ef_pool _ _ _ E3)|]. split.
    { etransitivity; [apply E01|]. etransitivity; [apply E2|].
      etransitivity; [|apply E3]. by rewrite (cp_view _ _ _ _ Hc). }
    split; [|done]. intros p q Hq.
    destruct (ef_queues _ _ _ (effect_trans _ _ _ _ _ E01 E2) _ _ Hq) as (dp & dq & Hq2 & Hl).
    pose proof (cp_queues _ _ _ _ Hc _ _ Hq2) as Hq3.
    assert (exists ep eq, queues w3 ((p ++ dp) ++ ep) ((q ++ dq) ++ eq) /\ length ep + length eq <= 1)
      as (ep & eq & Hq4 & Hl4).
    { destruct (waker _) as [k'|].
      - destruct (enqueue_app (task_sender k') (task_id k') (p ++ dp) (q ++ dq)) as (ep & eq & He & Hl').
        rewrite He in Hq3. exists ep, eq. split; [done|lia].
      - exists [], []. rewrite !app_nil_r. split; [done|cbn; lia]. }
    destruct (ef_queues _ _ _ E3 _ _ Hq4) as (fp & fq & Hq5 & Hl5).
    exists (dp ++ ep ++ fp), (dq ++ eq ++ fq). rewrite !app_assoc in *. rewrite !length_app in *.
    split; [done|lia].
  - destruct Hm as (-> & [E2 _] & bd' & -> & _). pose proof (effect_trans _ _ _ _ _ E01 E2) as E02.
    split; [apply E02|]. split; [by apply (ef_pool _ _ _ E02)|]. split; [apply E02|].
    split; [|intros _; split; [by apply (ef_free _ _ _ E02)|done]].
    intros p q Hq. destruct (ef_queues _ _ _ E02 _ _ Hq) as (dp & dq & Hq2 & Hl).
    exists dp, dq. split; [done|lia].
Qed.

Definition take_slot id w : World :=
  on_rt (set_task_pool (slab_put id None (task_pool (rt w)))) w.
Definition fill_slot id t w : World :=
  on_rt (set_task_pool (slab_put id (Some t) (task_pool (rt w)))) w.

Lemma take_slot_view id w : is_Some (view w !! id) -> view (take_slot id w) = <[id := None]> (view w).
Proof. intros Hs. unfold view, take_slot. cbn. by apply slab_put_view. Qed.
Lemma fill_slot_view id t w :
  is_Some (view w !! id) -> view (fill_slot id t w) = <[id := Some t]> (view w).
Proof. intros Hs. unfold view, fill_slot. cbn. by apply slab_put_view. Qed.

Lemma take_slot_ok id t w :
  PoolOk None w -> live_at w id t -> PoolOk (Some id) (take_slot id w) /\
    addr_free (tshared t) (take_slot id w).
Proof.
  intros [P1 P2 P3 P4] Ht.
  assert (Hv : view (take_slot id w) = <[id := None]> (view w)) by (apply take_slot_view; by eexists).
  assert (Hl : forall i u, live_at (take_slot id w) i u -> i <> id /\ live_at w i u).
  { unfold live_at. intros i u. rewrite Hv. destruct (decide (i = id)) as [->|Hne].
    - by rewrite lookup_insert_eq.
    - by rewrite lookup_insert_ne. }
  destruct (P3 _ _ Ht) as [_ _ _ Haddr Hres]. split; [split|].
  - intros i. rewrite Hv. intros [s Hs] Hne. destruct (P1 i) as [u Hu]; [|done|].
    + rewrite lookup_insert_ne in Hs by congruence. by eexists.
    + exists u. unfold live_at. by rewrite Hv, lookup_insert_ne by congruence.
  - intros i [= ->]. by rewrite Hv, lookup_insert_eq.
  - intros i u Hu. destruct (Hl _ _ Hu) as [_ Hu']. destruct (P3 _ _ Hu'). by split.
  - intros i j u u' Hu Hu'. apply P4; by apply Hl.
  - split; [done|]. split; [done|]. intros i u Hu Heq. destruct (Hl _ _ Hu) as [Hne Hu'].
    apply Hne. by eapply P4.
Qed.

Lemma fill_slot_ok id t w :
  PoolOk (Some id) w -> task_ok w t -> addr_free (tshared t) w -> PoolOk None (fill_slot id t w).
Proof.
  intros [P1 P2 P3 P4] Ht (Ha & Hr & Hf).
  assert (Hv : view (fill_slot id t w) = <[id := Some t]> (view w))
    by (apply fill_slot_view; rewrite P2 by done; by eexists).
  split.
  - intros i Hi _. rewrite Hv in Hi. unfold live_at. rewrite Hv.
    destruct (decide (i = id)) as [->|Hne].
    + exists t. by rewrite lookup_insert_eq.
    + rewrite lookup_insert_ne in * by done. apply P1; congruence || done.
  - done.
  - intros i u Hu. destruct (live_insert _ _ _ _ _ _ Hv Hu) as [[-> ->]|[_ Hl]].
    + by destruct Ht; split.
    + by destruct (P3 _ _ Hl); split.
  - intros i j u u' Hu Hu' Heq.
    destruct (live_insert _ _ _ _ _ _ Hv Hu) as [[-> ->]|[_ Hl]],
      (live_insert _ _ _ _ _ _ Hv Hu') as [[-> ->]|[_ Hl']]; eauto.
    + by destruct (Hf _ _ Hl').
    + by destruct (Hf _ _ Hl).
Qed.

(** Freeing the slot of a finished task. *)
Record retired id w w' : Prop := {
  rd_frame : frame w w';
  rd_view : view w' = delete id (view w);
  rd_heap : heap w' = heap w;
  rd_next : next_addr w' = next_addr w;
  rd_holders : holders w' = holders w;
  rd_shutdown : shutdown_requested (rt w') = shutdown_requested (rt w);
  rd_queues p q : queues w p q -> queues w' p q
}.

Lemma retire_ok id t w :
  is_Some (view w !! id) -> is_Some (task_stat t) ->
  exists w', retire id (fill_slot id t w) = Ok w' /\ retired id w w'.
Proof.
  intros Hi [st Hst]. pose proof (fill_slot_view id t w Hi) as Hv. unfold view in Hv.
  unfold retire. rewrite slab_get_view, Hv, lookup_insert_eq. cbn [add_task_stat]. rewrite Hst.
  cbn [expect mbind outcome_bind mret outcome_ret].
  match goal with |- context [slab_put id (Some ?u) ?p] =>
    pose proof (slab_put_view id (Some u) p) as Hv2; set (p2 := slab_put id (Some u) p) in * end.
  rewrite Hv, lookup_insert_eq, insert_insert_eq in Hv2. specialize (Hv2 ltac:(by eexists)).
  destruct (slab_remove_view id p2) as (p3 & Hr & Hv3); [rewrite Hv2, lookup_insert_eq; by eexists|].
  rewrite Hr. cbn. eexists. split; [done|]. split; try done.
  unfold view. cbn. by rewrite Hv3, Hv2, delete_insert_eq.
Qed.

Lemma retired_pool_ok id w w' : PoolOk (Some id) w -> retired id w w' -> PoolOk None w'.
Proof.
  intros [P1 P2 P3 P4] [Hf Hv Hh Hn _ _ _].
  assert (Hl : forall i u, live_at w' i u -> i <> id /\ live_at w i u).
  { unfold live_at. intros i u. rewrite Hv. intros Hi. by apply lookup_delete_Some in Hi as [? ?]. }
  split.
  - intros i [s Hi] _. rewrite Hv in Hi. apply lookup_delete_Some in Hi as [Hne Hi].
    destruct (P1 i) as [u Hu]; [by eexists|congruence|]. exists u. unfold live_at.
    by rewrite Hv, lookup_delete_ne.
  - done.
  - intros i u Hu. destruct (P3 i u); [by apply Hl|]. split; try done; [by rewrite Hn|by rewrite Hh].
  - intros i j u u' Hu Hu'. apply P4; by apply Hl.
Qed.

(** ** One entry of a buffer *)

(** Polling the id [id] of a live task: [wm] is the world when its poll returned,
    before the slot is filled again or freed. *)
Record polled (b : nat) id t bd w wm w' (r : Poll unit) (ob : option (TaskBody F)) (st : TaskStat) : Prop := {
  pl_poll : Task_poll_task t id (take_slot id w) =
    Ok (wm, mkTask (mkTaskFuture ob (tshared t)) (tsender t) (tshared t) (Some st), r);
  pl_ran : ran b (new_waker (tsender t) id) bd (tshared t) (take_slot id w) wm r ob;
  pl_ready : is_ready r = true -> retired id wm w';
  pl_pending : is_ready r = false ->
    w' = fill_slot id (mkTask (mkTaskFuture ob (tshared t)) (tsender t) (tshared t) (Some st)) wm
}.

Lemma poll_and_retire_spec b id t bd w p q :
  PoolOk None w -> live_at w id t -> fbody (future t) = Some bd ->
  fut_sends_le b (body_inner bd) -> queues w p q -> room (length p + length q + S b) ->
  exists wm w' r ob st, poll_and_retire id w = Ok (w', is_ready r) /\ polled b id t bd w wm w' r ob st.
Proof.
  intros HP Ht Hbd Hb Hq Hroom. destruct (po_task _ _ HP _ _ Ht) as [Hst _ Hsh _ _].
  destruct (take_slot_ok id t w HP Ht) as [HP1 Hfree].
  unfold poll_and_retire, poll_task. rewrite slab_get_view. fold (view w).
  unfold live_at in Ht. rewrite Ht. fold (take_slot id w).
  destruct (Task_poll_task_ok b t bd id (take_slot id w) p q)
    as (wm & ob & st & r & Hp & Hran); [done..|].
  rewrite Hsh in Hran, Hp. cbv zeta. rewrite Hp. cbn [mbind outcome_bind].
  destruct (ran_inv _ _ _ _ _ _ _ _ id Hran HP1 Hfree) as (_ & HP2 & _ & _ & _).
  pose proof (po_ex _ _ HP2 id eq_refl) as Hs. unfold view in Hs at 1.
  rewrite slab_get_view, Hs.
  destruct r as [[]|]; cbn [mbind outcome_bind mret outcome_ret].
  - destruct (retire_ok id (mkTask (mkTaskFuture ob (tshared t)) (tsender t) (tshared t) (Some st)) wm)
      as (w' & Hr & Hrd); [unfold view; rewrite Hs; by eexists|by eexists|].
    unfold fill_slot in Hr. rewrite Hr. exists wm, w', (Ready tt), ob, st. by split.
  - exists wm, (fill_slot id (mkTask (mkTaskFuture ob (tshared t)) (tsender t) (tshared t) (Some st)) wm),
      Pending, ob, st. by split.
Qed.

Lemma poll_and_retire_vacant id w : view w !! id = None -> poll_and_retire id w = Ok (w, false).
Proof.
  intros Hv. unfold poll_and_retire, poll_task. rewrite slab_get_view.
  unfold view in Hv. by rewrite Hv.
Qed.

Lemma polled_inv b id t bd w wm w' r ob st :
  PoolOk None w -> live_at w id t -> polled b id t bd w wm w' r ob st ->
  PoolOk None w' /\ frame w w' /\
  (forall p q, queues w p q -> exists dp dq, queues w' (p ++ dp) (q ++ dq) /\ length dp + length dq <= S b).
Proof.
  intros HP Ht [_ Hran Hready Hpend]. destruct (take_slot_ok id t w HP Ht) as [HP1 Hfree].
  destruct (ran_inv _ _ _ _ _ _ _ _ id Hran HP1 Hfree) as (Hf & HP2 & _ & Hq & Hfr).
  assert (Hf0 : frame w wm) by (transitivity (take_slot id w); [by split|done]).
  destruct (is_ready r) eqn:Hr.
  - specialize (Hready eq_refl). split; [by eapply retired_pool_ok|].
    split; [transitivity wm; [done|apply Hready]|].
    intros p q Hpq. destruct (Hq p q Hpq) as (dp & dq & Hq' & Hl). exists dp, dq.
    split; [by apply Hready|done].
  - destruct (Hfr eq_refl) as [Hfree' [bd' ->]]. rewrite (Hpend eq_refl).
    split; [|split; [transitivity wm; [done|by split]|done]].
    apply fill_slot_ok; [done| |done].
    destruct Hfree' as (Ha & Hres & _). split; cbn; [by eexists|by eexists|done|done|done].
Qed.

(** ** The invariant of the world *)

Definition WF (n : nat) w : Prop :=
  PoolOk None w /\ exists p q, queues w p q /\ length p + length q <= n.

Lemma WF_weaken n m w : n <= m -> WF n w -> WF m w.
Proof. intros Hn [HP (p & q & Hq & Hl)]. split; [done|]. exists p, q. split; [done|lia]. Qed.

(** ** Receiving *)

Lemma recv_upto_spec n c q : chan_rep c q ->
  exists c', recv_upto n c = Ok (c', take n q) /\ chan_rep c' (drop n q).
Proof.
  revert c q. induction n as [|n IH]; intros c q Hc; cbn [recv_upto]; [by exists c|].
  destruct (chan_recv_rep c q Hc) as (c1 & Hr & Hc1). rewrite Hr. cbn.
  destruct q as [|x q]; cbn in *.
  - by exists c1.
  - destruct (IH c1 q Hc1) as (c2 & Hr2 & Hc2). rewrite Hr2. by exists c2.
Qed.

(** The whole polling queue moves into the buffer. *)
Lemma drain_polling_spec w p q : queues w p q ->
  exists c, drain_polling w = Ok (on_rt (fun r => set_polling_task_buffer p (set_polling_chan c r)) w) /\
    chan_rep c [].
Proof.
  intros [Hp Hq]. unfold drain_polling.
  destruct (recv_upto_spec (S (chan_len (polling_chan (rt w)))) _ _ Hp) as (c & Hr & Hc).
  rewrite (chan_len_rep _ _ Hp) in *. rewrite Hr. cbn.
  rewrite take_ge, drop_ge in * by lia. by exists c.
Qed.

(** The oldest [task_batch_size] ids of the task queue move into the buffer. *)
Lemma take_batch_spec w p q : queues w p q ->
  let n := task_batch_size (scheduling_config (rt w)) in
  exists c, take_batch w = Ok (on_rt (fun r => set_task_buffer (take n q) (set_task_chan c r)) w) /\
    chan_rep c (drop n q).
Proof.
  intros [Hp Hq] n. unfold take_batch.
  destruct (recv_upto_spec n _ _ Hq) as (c & Hr & Hc). fold n. rewrite Hr. by exists c.
Qed.

(** ** Reactors *)

Lemma wake_all_ok ks w p q :
  queues w p q -> room (length p + length q + length ks) ->
  exists w', wake_all ks w = Ok w' /\ effect (length ks) w w'.
Proof.
  revert w p q. induction ks as [|k ks IH]; intros w p q Hq Hroom; cbn [wake_all length] in *.
  - exists w. split; [done|apply effect_refl].
  - destruct (effect_send (task_sender k) (task_id k) w p q Hq) as (w1 & Hs & He & Hq1).
    { unfold room in *. lia. }
    unfold wake_by_ref. rewrite Hs. cbn [mbind outcome_bind].
    destruct (enqueue_app (task_sender k) (task_id k) p q) as (dp & dq & Heq & Hl).
    rewrite Heq in Hq1. destruct (IH w1 _ _ Hq1) as (w2 & Hw & He2).
    { unfold room in *. cbn. rewrite !length_app. lia. }
    exists w2. split; [done|]. exact (effect_trans 1 _ _ _ _ He He2).
Qed.

Lemma effect_wf b n w w' : effect b w w' -> WF n w -> WF (n + b) w'.
Proof.
  intros He [HP (p & q & Hq & Hl)]. split; [by apply He|].
  destruct (ef_queues _ _ _ He _ _ Hq) as (dp & dq & Hq' & Hl'). exists (p ++ dp), (q ++ dq).
  rewrite !length_app. split; [done|lia].
Qed.

(** A reactor whose polls do not panic and wake at most [R] wakers. *)
Definition reactor_wakes_le (R : nat) (d : DynReactor E) : Prop :=
  forall e, exists e' ks, dyn_poll d e = Ok (e', ks) /\ length ks <= R.

Definition reactors_ok (R : nat) (l : list (string * ReactorWrapper E)) : Prop :=
  Forall (fun e => reactor_wakes_le R (reactor e.2)) l.

(** The parts of a registered reactor that polling does not change. *)
Definition reactor_static (e : string * ReactorWrapper E) : string * DynReactor E * bool :=
  (e.1, reactor e.2, enable e.2).

Lemma poll_reactor_wf R n x w :
  reactor_wakes_le R (reactor x) -> WF n w -> room (n + R) ->
  exists w' x', poll_reactor x w = Ok (w', x') /\ WF (n + R) w' /\ frame w w' /\
    reactor x' = reactor x /\ enable x' = enable x.
Proof.
  intros HR HW Hroom. unfold poll_reactor. destruct (HR (env w)) as (e & ks & Hp & Hl).
  rewrite Hp. cbn [mbind outcome_bind]. pose proof (effect_env e w) as He0.
  pose proof (effect_wf _ _ _ _ He0 HW) as HW0. rewrite Nat.add_0_r in HW0.
  destruct HW0 as [HP0 (p & q & Hq & Hlq)].
  destruct (wake_all_ok ks (set_env e w) p q Hq) as (w1 & Hw & He); [unfold room in *; lia|].
  rewrite Hw. cbn. eexists _, _. split; [done|].
  pose proof (effect_trans _ _ _ _ _ He0 He) as He1. split; [|by split; [apply He1|]].
  eapply WF_weaken, (effect_wf _ _ _ _ He1 HW). cbn. lia.
Qed.

Lemma cached_status_wf n x it w :
  WF n w ->
  let '(w', x', s) := get_cached_reactor_status x it w in
  WF n w' /\ frame w w' /\ reactor x' = reactor x /\ enable x' = enable x.
Proof.
  intros HW. unfold get_cached_reactor_status. destruct (_ <? _)%Z; [done|].
  destruct (dyn_status _ _) as [e s]. split; [|done].
  pose proof (effect_wf _ _ _ _ (effect_env e w) HW) as HW'. by rewrite Nat.add_0_r in HW'.
Qed.

Lemma poll_reactors_loop_wf R it l n w :
  reactors_ok R l -> WF n w -> room (n + length l * R) ->
  exists w' l' b, poll_reactors_loop it l w = Ok (w', l', b) /\ WF (n + length l * R) w' /\
    frame w w' /\ map reactor_static l' = map reactor_static l.
Proof.
  intros HR. revert n w. induction HR as [|[id x] l Hx HR IH]; intros n w HW Hroom;
    cbn [poll_reactors_loop length] in *.
  - exists w, [], false. rewrite Nat.add_0_r. done.
  - destruct (negb (enable x)) eqn:Hen.
    + destruct (IH n w HW) as (w' & l' & b & Hp & HW' & Hf & Hm); [unfold room in *; lia|].
      rewrite Hp. cbn. eexists _, _, _. split; [done|].
      split; [eapply WF_weaken, HW'; lia|]. split; [done|]. cbn. by f_equal.
    + pose proof (cached_status_wf n x it w HW) as Hc.
      destruct (get_cached_reactor_status x it w) as [[w1 x1] s].
      destruct Hc as (HW1 & Hf1 & Hr1 & He1).
      assert (exists w2 x2 polled, (match s with
          | Running => '(w, x) ← poll_reactor x1 w1; mret (w, x, true)
          | Stopped => mret (w1, x1, false) end) = Ok (w2, x2, polled) /\ WF (n + R) w2 /\
          frame w1 w2 /\ reactor x2 = reactor x /\ enable x2 = enable x)
        as (w2 & x2 & polled & Hp & HW2 & Hf2 & Hr2 & He2).
      { destruct s.
        - destruct (poll_reactor_wf R n x1 w1) as (w2 & x2 & Hp & HW2 & Hf2 & Hr2 & He2);
            [by rewrite Hr1|done|unfold room in *; lia|].
          rewrite Hp. cbn. eexists _, _, _. split; [done|]. split; [done|]. split; [done|].
          split; congruence.
        - eexists _, _, _. split; [done|]. split; [eapply WF_weaken, HW1; lia|]. done. }
      rewrite Hp. cbn [mbind outcome_bind].
      destruct (IH (n + R) w2 HW2) as (w3 & l' & b & Hp3 & HW3 & Hf3 & Hm); [unfold room in *; lia|].
      rewrite Hp3. cbn. eexists _, _, _. split; [done|].
      split; [eapply WF_weaken, HW3; lia|].
      split; [transitivity w1; [done|]; by transitivity w2|].
      cbn [map]. f_equal; [|done]. unfold reactor_static. cbn. by rewrite Hr2, He2.
Qed.

(** A bound on the sends of any poll of user code. *)
Section bounded.
Context (B : nat) (HB : forall f : F, fut_sends_le B f).

Lemma poll_and_retire_wf id n w :
  WF n w -> room (n + S B) ->
  exists w' b, poll_and_retire id w = Ok (w', b) /\ WF (n + S B) w' /\ frame w w'.
Proof.
  intros [HP (p & q & Hq & Hl)] Hroom.
  destruct (view w !! id) as [s|] eqn:Hv.
  - destruct (po_slot _ _ HP id) as [t Ht]; [by eexists|done|].
    destruct (po_task _ _ HP _ _ Ht) as [_ [bd Hbd] _ _ _].
    destruct (poll_and_retire_spec B id t bd w p q) as (wm & w' & r & ob & st & Hp & Hpol);
      [done..|unfold room in *; lia|].
    destruct (polled_inv _ _ _ _ _ _ _ _ _ _ HP Ht Hpol) as (HP' & Hf & Hqs).
    exists w', (is_ready r). split; [done|]. split; [|done]. split; [done|].
    destruct (Hqs _ _ Hq) as (dp & dq & Hq' & Hl'). exists (p ++ dp), (q ++ dq).
    rewrite !length_app. split; [done|lia].
  - exists w, false. split; [by apply poll_and_retire_vacant|].
    split; [|done]. split; [done|]. exists p, q. split; [done|lia].
Qed.

Lemma poll_buffer_wf ids n w :
  WF n w -> room (n + length ids * S B) ->
  exists w' b, poll_buffer ids w = Ok (w', b) /\ WF (n + length ids * S B) w' /\ frame w w'.
Proof.
  revert n w. induction ids as [|id ids IH]; intros n w HW Hroom; cbn [poll_buffer length] in *.
  - exists w, false. split; [done|]. split; [|done]. eapply WF_weaken, HW. lia.
  - destruct (poll_and_retire_wf id n w HW) as (w1 & b1 & Hp & HW1 & Hf1); [unfold room in *; lia|].
    rewrite Hp. cbn [mbind outcome_bind].
    destruct (IH (n + S B) w1 HW1) as (w2 & b2 & Hp2 & HW2 & Hf2); [unfold room in *; lia|].
    rewrite Hp2. cbn. eexists _, _. split; [done|]. split; [|by transitivity w1].
    eapply WF_weaken, HW2. lia.
Qed.

(** ** Passes of the event loop *)

Context (R : nat).

Record Setup w : Prop := {
  su_reactors : reactors_ok R (reactors (rt w));
  su_interval : reactor_poll_interval (scheduling_config (rt w)) <> 0%Z
}.

Lemma setup_frame w w' : frame w w' -> Setup w -> Setup w'.
Proof.
  intros Hf [Hr Hi]. split.
  - by rewrite (fr_reactors _ _ Hf).
  - by rewrite (fr_config _ _ Hf).
Qed.

Lemma WF_same n w w' :
  task_pool (rt w') = task_pool (rt w) -> task_chan (rt w') = task_chan (rt w) ->
  polling_chan (rt w') = polling_chan (rt w) -> heap w' = heap w -> next_addr w' = next_addr w ->
  WF n w -> WF n w'.
Proof.
  intros Hp Ht Hc Hh Hn [HP (p & q & Hq & Hl)]. split.
  - eapply pool_ok_same; [exact HP|done|]. split; [lia|]. by rewrite Hh.
  - exists p, q. unfold queues. by rewrite Ht, Hc.
Qed.

Lemma drain_wf n w : WF n w ->
  exists w', drain_polling w = Ok w' /\ WF n w' /\ length (polling_task_buffer (rt w')) <= n /\
    reactors (rt w') = reactors (rt w) /\ scheduling_config (rt w') = scheduling_config (rt w) /\
    iteration_count (rt w') = iteration_count (rt w).
Proof.
  intros [HP (p & q & Hq & Hl)]. destruct (drain_polling_spec w p q Hq) as (c & Hd & Hc).
  eexists. split; [exact Hd|]. split; [|split; [cbn; lia|done]]. split.
  - eapply pool_ok_same; [exact HP|done|by split].
  - exists [], q. split; [|cbn; lia]. split; [done|apply Hq].
Qed.

Lemma batch_wf n w : WF n w ->
  exists w', take_batch w = Ok w' /\ WF n w' /\
    length (task_buffer (rt w')) <= task_batch_size (scheduling_config (rt w)) /\
    reactors (rt w') = reactors (rt w) /\ scheduling_config (rt w') = scheduling_config (rt w) /\
    iteration_count (rt w') = iteration_count (rt w).
Proof.
  intros [HP (p & q & Hq & Hl)]. destruct (take_batch_spec w p q Hq) as (c & Hd & Hc).
  eexists. split; [exact Hd|]. split; [|split; [cbn; rewrite length_take; lia|done]]. split.
  - eapply pool_ok_same; [exact HP|done|by split].
  - exists p, (drop (task_batch_size (scheduling_config (rt w))) q).
    split; [|rewrite length_drop; lia]. split; [apply Hq|done].
Qed.

Lemma should_poll_ok s it w :
  reactor_poll_interval (scheduling_config (rt w)) <> 0%Z -> exists b, should_poll s it w = Ok b.
Proof.
  intros Hi. unfold should_poll, on_interval. repeat case_match; try by eexists.
  match goal with Hz : (_ =? 0)%Z = true |- _ => by apply Z.eqb_eq in Hz end.
Qed.

Lemma poll_reactors_wf it n w :
  Setup w -> WF n w -> room (n + length (reactors (rt w)) * R) ->
  exists w' b, poll_reactors it w = Ok (w', b) /\ WF (n + length (reactors (rt w)) * R) w' /\
    map reactor_static (reactors (rt w')) = map reactor_static (reactors (rt w)) /\
    scheduling_config (rt w') = scheduling_config (rt w) /\
    iteration_count (rt w') = iteration_count (rt w) /\
    polling_task_buffer (rt w') = polling_task_buffer (rt w).
Proof.
  intros [HR _] HW Hroom. unfold poll_reactors.
  destruct (poll_reactors_loop_wf R it _ n w HR HW Hroom) as (w' & l & b & Hp & HW' & Hf & Hm).
  rewrite Hp. cbn. eexists _, _. split; [done|]. split; [by eapply WF_same, HW'|].
  split; [done|]. split; [apply Hf|]. split; apply Hf.
Qed.

(** The passes common to the three loops: the polling buffer, then a batch. *)
Definition poll_both w : outcome (World * bool * bool) :=
  '(w, b1) ← poll_buffer (polling_task_buffer (rt w)) w;
  w ← take_batch w;
  '(w, b2) ← poll_buffer (task_buffer (rt w)) w;
  mret (w, b1, b2).

Lemma poll_both_wf n m w :
  WF n w -> length (polling_task_buffer (rt w)) <= m ->
  let N := n + (m + task_batch_size (scheduling_config (rt w))) * S B in
  room N ->
  exists w' b1 b2, poll_both w = Ok (w', b1, b2) /\ WF N w' /\
    reactors (rt w') = reactors (rt w) /\ scheduling_config (rt w') = scheduling_config (rt w) /\
    iteration_count (rt w') = iteration_count (rt w).
Proof.
  intros HW Hm N Hroom. unfold poll_both, N in *.
  destruct (poll_buffer_wf (polling_task_buffer (rt w)) n w HW) as (w1 & b1 & Hp1 & HW1 & Hf1).
  { unfold room in *. nia. }
  rewrite Hp1. cbn [mbind outcome_bind].
  destruct (batch_wf _ _ HW1) as (w2 & Hb & HW2 & Hl2 & Hr2 & Hc2 & Hi2). rewrite Hb.
  cbn [mbind outcome_bind]. rewrite (fr_config _ _ Hf1) in Hl2.
  destruct (poll_buffer_wf (task_buffer (rt w2)) _ w2 HW2) as (w3 & b2 & Hp3 & HW3 & Hf3).
  { unfold room in *. nia. }
  rewrite Hp3. cbn. eexists _, _, _. split; [done|]. split; [eapply WF_weaken, HW3; nia|].
  rewrite (fr_reactors _ _ Hf3), Hr2, (fr_reactors _ _ Hf1).
  rewrite (fr_config _ _ Hf3), Hc2, (fr_config _ _ Hf1).
  by rewrite (fr_iter _ _ Hf3), Hi2, (fr_iter _ _ Hf1).
Qed.

(** How much one pass may add to the queues. *)
Definition pass_bound (n : nat) w : nat :=
  n + length (reactors (rt w)) * R +
  (n + task_batch_size (scheduling_config (rt w))) * S B.

(** The first half of a pass: receive the polling queue, poll the reactors. *)
Lemma pass_start_wf n w (s : bool) (upd : World -> World) :
  WF n w -> Setup w -> room (n + length (reactors (rt w)) * R) ->
  (forall w, task_pool (rt (upd w)) = task_pool (rt w) /\ task_chan (rt (upd w)) = task_chan (rt w) /\
     polling_chan (rt (upd w)) = polling_chan (rt w) /\ heap (upd w) = heap w /\
     next_addr (upd w) = next_addr w /\ reactors (rt (upd w)) = reactors (rt w) /\
     scheduling_config (rt (upd w)) = scheduling_config (rt w) /\
     iteration_count (rt (upd w)) = iteration_count (rt w) /\
     polling_task_buffer (rt (upd w)) = polling_task_buffer (rt w)) ->
  exists w1 w2 pn b, drain_polling (next_iteration w).1 = Ok w1 /\
    should_poll s (iteration_count (rt w)) (upd w1) = Ok pn /\
    (if pn : bool then poll_reactors (iteration_count (rt w)) (upd w1) else mret (upd w1, false)) = Ok (w2, b) /\
    WF (n + length (reactors (rt w)) * R) w2 /\
    length (polling_task_buffer (rt w2)) <= n /\
    map reactor_static (reactors (rt w2)) = map reactor_static (reactors (rt w)) /\
    scheduling_config (rt w2) = scheduling_config (rt w) /\
    iteration_count (rt w2) = wrap64 (iteration_count (rt w) + 1).
Proof.
  intros HW HS Hroom Hupd. set (w0 := (next_iteration w).1).
  assert (HW0 : WF n w0) by by eapply WF_same, HW.
  destruct (drain_wf n w0 HW0) as (w1 & Hd & HW1 & Hl1 & Hr1 & Hc1 & Hi1).
  destruct (Hupd w1) as (U1 & U2 & U3 & U4 & U5 & U6 & U7 & U8 & U9).
  assert (HW1' : WF n (upd w1)) by by eapply WF_same, HW1.
  assert (HS1 : Setup (upd w1)) by (destruct HS; split; rewrite ?U6, ?Hr1, ?U7, ?Hc1; done).
  destruct (should_poll_ok s (iteration_count (rt w)) (upd w1)) as [pn Hpn]; [apply HS1|].
  exists w1. destruct pn.
  - destruct (poll_reactors_wf (iteration_count (rt w)) n (upd w1) HS1 HW1')
      as (w2 & b & Hp & HW2 & Hm & Hc2 & Hi2 & Hb2); [by rewrite U6, Hr1|].
    exists w2, true, b. do 3 (split; [done|]). rewrite U6, Hr1 in HW2. split; [done|].
    rewrite Hb2, U9, Hm, U6, Hr1, Hc2, U7, Hc1, Hi2, U8, Hi1. done.
  - exists (upd w1), false, false. do 3 (split; [done|]). split; [eapply WF_weaken, HW1'; lia|].
    rewrite U9, U6, Hr1, U7, Hc1, U8, Hi1. done.
Qed.

Lemma run_queue_pass_wf n w :
  WF n w -> Setup w -> room (pass_bound n w) ->
  exists w' b, run_queue_pass w = Ok (w', b) /\
    WF (pass_bound n w) w' /\
    map reactor_static (reactors (rt w')) = map reactor_static (reactors (rt w)) /\
    scheduling_config (rt w') = scheduling_config (rt w) /\
    iteration_count (rt w') = wrap64 (iteration_count (rt w) + 1).
Proof.
  intros HW HS Hroom. unfold run_queue_pass, pass_bound in *.
  set (upd := fun w : World => (check_safety_bound w).1).
  assert (Hov : exists s, forall w0, reactor_only_count (rt w0) = reactor_only_count (rt w) ->
     check_safety_bound w0 = (upd w0, s)).
  { eexists. intros w0 Hw0. unfold upd, check_safety_bound. by rewrite Hw0. }
  destruct Hov as [s Hov].
  destruct (pass_start_wf n w s upd HW HS) as (w1 & w2 & pn & b & Hd & Hs & Hp & HW2 & Hl2 & Hr2 & Hc2 & Hi2).
  { unfold room in *. lia. }
  { intros w0. unfold upd, check_safety_bound. by case_match. }
  destruct (next_iteration w) as [w0 it] eqn:Hni. cbn [fst] in Hd.
  assert (it = iteration_count (rt w)) as -> by by inversion Hni.
  assert (Hro : reactor_only_count (rt w1) = reactor_only_count (rt w)).
  { unfold drain_polling in Hd. inv_Ok. destruct a as [c ids]. inv_Ok. by inversion Hni. }
  rewrite Hd. cbn [mbind outcome_bind]. rewrite (Hov w1 Hro). cbv beta iota zeta.
  rewrite Hs. cbn [mbind outcome_bind]. rewrite Hp. cbn [mbind outcome_bind].
  destruct (poll_both_wf _ n w2 HW2 Hl2) as (w3 & b1 & b2 & Hb & HW3 & Hr3 & Hc3 & Hi3).
  { by rewrite Hc2. }
  unfold poll_both in Hb. apply bind_Ok in Hb as ([wa b1'] & Hb1 & Hb).
  apply bind_Ok in Hb as (wb & Htb & Hb). apply bind_Ok in Hb as ([wc b2'] & Hb2 & Hb).
  inv_Ok. rewrite Hb1. cbn [mbind outcome_bind]. rewrite Htb. cbn [mbind outcome_bind].
  rewrite Hb2. cbn [mbind outcome_bind]. rewrite Hc2 in HW3.
  set (w4 := idle_park _ _).
  assert (Hw4 : WF (n + length (reactors (rt w)) * R +
    (n + task_batch_size (scheduling_config (rt w))) * S B) w4 /\
    reactors (rt w4) = reactors (rt w3) /\ scheduling_config (rt w4) = scheduling_config (rt w3) /\
    iteration_count (rt w4) = iteration_count (rt w3)).
  { unfold w4, idle_park, update_reactor_only, yield_thread.
    repeat case_match; (split; [by eapply WF_same, HW3|done]). }
  destruct Hw4 as (HW4 & Hr4 & Hc4 & Hi4). rewrite <- Hr3, <- Hr4 in Hr2.
  rewrite Hc2 in Hc3. rewrite Hc3 in Hc4. rewrite Hi2 in Hi3. rewrite Hi3 in Hi4.
  eexists _, _. split; [done|]. done.
Qed.

Lemma run_queue_iter_wf n max stuck sleep w :
  WF n w -> Setup w -> room (pass_bound n w) ->
  exists w' st sl brk, run_queue_iter max stuck sleep w = Ok (w', st, sl, brk) /\
    WF (pass_bound n w) w' /\
    map reactor_static (reactors (rt w')) = map reactor_static (reactors (rt w)) /\
    scheduling_config (rt w') = scheduling_config (rt w) /\
    iteration_count (rt w') = wrap64 (iteration_count (rt w) + 1).
Proof.
  intros HW HS Hroom. unfold run_queue_iter.
  destruct (run_queue_pass_wf n w HW HS Hroom) as (w' & b & Hp & HW' & Hrest). rewrite Hp.
  cbn [mbind outcome_bind]. unfold stuck_check, yield_thread, mret, outcome_ret.
  repeat case_match; (eexists _, _, _, _; split; [done|]); (split; [by eapply WF_same, HW'|done]).
Qed.

Lemma block_on_iter_wf n w :
  WF n w -> Setup w -> room (pass_bound n w) ->
  exists w' b, block_on_iter w = Ok (w', b) /\ WF (pass_bound n w) w' /\
    map reactor_static (reactors (rt w')) = map reactor_static (reactors (rt w)) /\
    scheduling_config (rt w') = scheduling_config (rt w) /\
    iteration_count (rt w') = wrap64 (iteration_count (rt w) + 1).
Proof.
  intros HW HS Hroom. unfold block_on_iter, pass_bound in *.
  destruct (pass_start_wf n w false (fun w => w) HW HS)
    as (w1 & w2 & pn & b & Hd & Hs & Hp & HW2 & Hl2 & Hr2 & Hc2 & Hi2); [unfold room in *; lia|done|].
  destruct (next_iteration w) as [w0 it] eqn:Hni. cbn [fst] in Hd.
  assert (it = iteration_count (rt w)) as -> by by inversion Hni.
  rewrite Hd. cbn [mbind outcome_bind]. rewrite Hs. cbn [mbind outcome_bind].
  rewrite Hp. cbn [mbind outcome_bind].
  destruct (poll_both_wf _ n w2 HW2 Hl2) as (w3 & b1 & b2 & Hb & HW3 & Hr3 & Hc3 & Hi3).
  { by rewrite Hc2. }
  unfold poll_both in Hb. apply bind_Ok in Hb as ([wa b1'] & Hb1 & Hb).
  apply bind_Ok in Hb as (wb & Htb & Hb). apply bind_Ok in Hb as ([wc b2'] & Hb2 & Hb).
  inv_Ok. rewrite Hb1. cbn [mbind outcome_bind]. rewrite Htb. cbn [mbind outcome_bind].
  rewrite Hb2. cbn [mbind outcome_bind]. rewrite Hc2 in HW3.
  eexists _, _. split; [done|]. rewrite Hr3, Hc3, Hi3. done.
Qed.

Lemma progress_reactors_wf l n w :
  reactors_ok R l -> WF n w -> room (n + length l * R) ->
  exists w' l', progress_reactors l w = Ok (w', l') /\ WF (n + length l * R) w' /\
    frame w w' /\ map reactor_static l' = map reactor_static l.
Proof.
  intros HR. revert n w. induction HR as [|[id x] l Hx HR IH]; intros n w HW Hroom;
    cbn [progress_reactors length] in *.
  - exists w, []. rewrite Nat.add_0_r. done.
  - assert (exists w2 x2, (if enable x then
         let (e, status) := dyn_status (reactor x) (env w) in
         match status with Running => poll_reactor x (set_env e w) | Stopped => mret (set_env e w, x) end
         else mret (w, x)) = Ok (w2, x2) /\ WF (n + R) w2 /\ frame w w2 /\
         reactor x2 = reactor x /\ enable x2 = enable x) as (w2 & x2 & Hp & HW2 & Hf2 & Hr2 & He2).
    { destruct (enable x) eqn:Hen.
      - destruct (dyn_status (reactor x) (env w)) as [e s].
        assert (HW1 : WF n (set_env e w)) by by eapply WF_same, HW.
        destruct s.
        + destruct (poll_reactor_wf R n x (set_env e w)) as (w2 & x2 & Hp & HW2 & Hf2 & Hr2 & He2);
            [done|done|unfold room in *; lia|].
          eexists _, _. split; [exact Hp|]. split; [done|].
          split; [transitivity (set_env e w); [by split|done]|]. split; congruence.
        + eexists _, _. split; [done|]. split; [eapply WF_weaken, HW1; lia|]. by split.
      - eexists _, _. split; [done|]. split; [eapply WF_weaken, HW; lia|]. done. }
    rewrite Hp. cbn [mbind outcome_bind].
    destruct (IH (n + R) w2 HW2) as (w3 & l' & Hp3 & HW3 & Hf3 & Hm); [unfold room in *; lia|].
    rewrite Hp3. cbn [mbind outcome_bind mret outcome_ret]. eexists _, _. split; [done|].
    split; [eapply WF_weaken, HW3; lia|]. split; [by transitivity w2|].
    cbn [map]. f_equal; [|done]. unfold reactor_static. cbn. by rewrite Hr2, He2.
Qed.

Lemma progress_tasks_wf m n w :
  WF n w -> room (n + m * S B) ->
  exists w', progress_tasks m w = Ok w' /\ WF (n + m * S B) w'.
Proof.
  revert n w. induction m as [|m IH]; intros n w HW Hroom; cbn [progress_tasks] in *.
  - exists w. split; [done|]. eapply WF_weaken, HW. lia.
  - destruct HW as [HP (p & q & [Hp Hq] & Hl)].
    destruct (chan_recv_rep _ _ Hq) as (c & Hr & Hc). rewrite Hr. cbn [mbind outcome_bind].
    set (w1 := on_rt (set_task_chan c) w).
    assert (HW1 : WF n w1).
    { split; [eapply pool_ok_same; [exact HP|done|by split]|]. exists p, (tl q).
      split; [done|]. destruct q; cbn in *; lia. }
    destruct (hd_error q) as [id|].
    + destruct (poll_and_retire_wf id n w1 HW1) as (w2 & b & Hp2 & HW2 & _); [unfold room in *; lia|].
      rewrite Hp2. cbn [mbind outcome_bind].
      destruct (IH (n + S B) w2 HW2) as (w3 & Hp3 & HW3); [unfold room in *; lia|].
      exists w3. split; [done|]. eapply WF_weaken, HW3. lia.
    + exists w1. split; [done|]. eapply WF_weaken, HW1. lia.
Qed.

Definition progress_bound (n : nat) w : nat :=
  let m := n + length (reactors (rt w)) * R in m + (m + max_tasks_per_call) * S B.

Lemma progress_wf n w :
  WF n w -> Setup w -> room (progress_bound n w) ->
  exists w', progress w = Ok w' /\ WF (progress_bound n w) w'.
Proof.
  intros HW [HR _] Hroom. unfold progress_bound, progress in *.
  set (m := n + length (reactors (rt w)) * R) in *.
  destruct (progress_reactors_wf _ n w HR HW) as (w1 & l & Hp1 & HW1 & Hf1 & _);
    [fold m; unfold room in *; lia|].
  rewrite Hp1. cbn [mbind outcome_bind].
  destruct (drain_wf m (on_rt (set_reactors l) w1)) as (w2 & Hd & HW2 & Hl2 & _);
    [by eapply WF_same, HW1|].
  rewrite Hd. cbn [mbind outcome_bind].
  destruct (poll_buffer_wf (polling_task_buffer (rt w2)) m w2 HW2) as (w3 & b & Hp3 & HW3 & _);
    [unfold room in *; nia|].
  rewrite Hp3. cbn [mbind outcome_bind].
  destruct (progress_tasks_wf max_tasks_per_call _ w3 HW3) as (w4 & Hp4 & HW4);
    [unfold room in *; nia|].
  exists w4. split; [done|]. eapply WF_weaken, HW4. nia.
Qed.

Lemma spawn_any_wf kind name (f : F) n w :
  WF n w -> room (S n) ->
  exists w', spawn_any kind name f w = Ok (w', mkJoin (next_addr w) (out_type f)) /\ WF (S n) w' /\
    exists id, view w !! id = None /\
      view w' = <[id := Some (new_task (BodySpawned (out_type f)
        (maybe_tracked f (enable_perfetto_tracks (scheduling_config (rt w))))) kind name w)]> (view w).
Proof.
  intros HW Hroom. pose proof HW as [HP (p & q & Hq & Hl)].
  destruct (spawn_any_ok kind name f w p q Hq) as (w' & jh & Hs & He & id & Hsp & -> & _);
    [unfold room in *; lia|].
  exists w'. split; [done|]. split.
  - eapply WF_weaken, (effect_wf _ _ _ _ He HW). lia.
  - exists id. destruct Hsp as [Hv Hn _ _ _ _]. done.
Qed.

(** C1. The runtime's operations are safe.  For every user program whose polls
    do not panic and send at most [B] wake-ups and spawns, and reactors that wake at most
    [R] wakers per poll, from a well-formed world whose queues have room: spawning,
    one pass of [run_queue]'s loop, one pass of [block_on]'s loop and [progress]
    never panic (no task polled after completion, no statistics taken twice, no
    vacant slot freed, no send that fails) and leave a well-formed world, where
    every slot holds a task that has not completed, result cells are not shared
    between tasks and no live task's cell is filled. *)
Theorem executor_ops_safe n w :
  WF n w -> Setup w ->
  (forall kind name f, room (S n) ->
     exists w' jh, spawn_any kind name f w = Ok (w', jh) /\ WF (S n) w' /\ shared_state jh = next_addr w) /\
  (forall max stuck sleep, room (pass_bound n w) ->
     exists w' st sl brk, run_queue_iter max stuck sleep w = Ok (w', st, sl, brk) /\
       WF (pass_bound n w) w' /\ Setup w') /\
  (room (pass_bound n w) ->
     exists w' b, block_on_iter w = Ok (w', b) /\ WF (pass_bound n w) w' /\ Setup w') /\
  (room (progress_bound n w) -> exists w', progress w = Ok w' /\ WF (progress_bound n w) w').
Proof.
  intros HW HS.
  assert (Hset : forall w', map reactor_static (reactors (rt w')) = map reactor_static (reactors (rt w)) ->
    scheduling_config (rt w') = scheduling_config (rt w) -> Setup w').
  { intros w' Hm Hc. destruct HS as [HR Hi]. split; [|by rewrite Hc].
    unfold reactors_ok, reactor_static in *. clear -Hm HR. revert HR Hm.
    generalize (reactors (rt w)) as l, (reactors (rt w')) as l'.
    intros l l'. revert l'. induction l as [|[i x] l IH]; intros [|[i' x'] l'] HR [=]; [constructor|].
    inversion HR; subst. constructor; cbn in *; [|by apply IH].
    match goal with He : reactor x' = _ |- _ => by rewrite He end. }
  split; [|split; [|split]].
  - intros kind name f Hroom. destruct (spawn_any_wf kind name f n w HW Hroom) as (w' & Hs & HW' & _).
    by eexists _, _.
  - intros max stuck sleep Hroom.
    destruct (run_queue_iter_wf n max stuck sleep w HW HS Hroom)
      as (w' & st & sl & brk & Hr & HW' & Hm & Hc & _).
    exists w', st, sl, brk. auto.
  - intros Hroom. destruct (block_on_iter_wf n w HW HS Hroom) as (w' & b & Hr & HW' & Hm & Hc & _).
    exists w', b. auto.
  - by apply progress_wf.
Qed.
End bounded.
End facts.

(** ** Concrete worlds *)

Lemma demo_fut_sends (f : Demo) : fut_sends_le 1 f.
Proof. intros k. destruct f as [[|n] v| |jh|q g]; cbn; try done; intros; repeat case_match; done. Qed.

Definition empty_demo : DemoWorld :=
  match demo_world with
  | Ok w => w
  | Panic _ => mkWorld (mkRuntime [] two_slots two_slots ∅ RuntimeStat_new false
      SchedulingConfig_default 0 [] [] 0 0) ∅ 0 ∅ TrackIdAllocator_new 0%Z None None []
  end.

Lemma empty_demo_wf : WF 0 empty_demo /\ Setup 0 empty_demo.
Proof.
  assert (Hc : exists c, chan_new = Ok c /\ chan_rep c []) by apply chan_new_rep.
  assert (empty_demo = match chan_new with
     | Ok c => mkWorld (mkRuntime [] c c ∅ RuntimeStat_new false SchedulingConfig_default 0 [] [] 0 0)
                 ∅ 0 ∅ TrackIdAllocator_new 0%Z None None []
     | Panic _ => empty_demo end) as -> by (vm_compute; reflexivity).
  destruct Hc as (c & -> & Hc). split.
  - split.
    + split; unfold live_at, view; cbn; try done. by intros id [s Hs].
    + exists [], []. by split.
  - split; [constructor|done].
Qed.

Lemma executor_ops_safe_witness :
  exists w' jh, spawn_any TaskQueue None (Yield 1 5) empty_demo = Ok (w', jh) /\ WF 1 w'.
Proof.
  destruct empty_demo_wf as [HW HS].
  destruct (proj1 (executor_ops_safe 1 demo_fut_sends 0 0 empty_demo HW HS) TaskQueue None (Yield 1 5))
    as (w' & jh & Hs & HW' & _); [unfold room, chan_room; cbn; lia|].
  exists w', jh. exact (conj Hs HW').
Defined.
