(* ===== verification/ExecutorLive.v ===== *)
(** * ExecutorLive: how [run_queue] ends

    Cooperative tasks (each poll that is pending has woken its own waker, and the
    number of polls, wake-ups and spawns is bounded) are run to completion; tasks
    nobody wakes are given up after the configured number of passes; and the
    result of a run tells why it ended. *)

From S2P Require Import Prelude Spsc Future Track Slab Task Executor ExecutorDemo ExecutorFacts.
Local Open Scope nat_scope.

(** ** Sums over a finite map *)

Definition msum (m : gmap nat nat) : nat := map_fold (fun _ v acc => v + acc) 0 m.

Lemma msum_insert (m : gmap nat nat) i x : m !! i = None -> msum (<[i := x]> m) = x + msum m.
Proof. intros Hi. unfold msum. rewrite map_fold_insert_L; [done| |done]. intros. lia. Qed.

Lemma msum_delete (m : gmap nat nat) i x : m !! i = Some x -> msum m = x + msum (delete i m).
Proof.
  intros Hi. rewrite <- (insert_delete_id m i x) at 1 by done.
  by rewrite msum_insert by apply lookup_delete_eq.
Qed.

Lemma msum_union (m1 m2 : gmap nat nat) : m1 ##ₘ m2 -> msum (m1 ∪ m2) = msum m1 + msum m2.
Proof.
  revert m2. induction m1 as [|i x m1 Hi IH] using map_ind; intros m2 Hd.
  - by rewrite (left_id_L _ _).
  - apply map_disjoint_insert_l in Hd as [Hi2 Hd].
    rewrite <- insert_union_l, !msum_insert, IH; [lia|done..|]. by rewrite lookup_union_None.
Qed.

Lemma elem_weave_l {A} (x : A) dp ep dq eq :
  x ∈ dp ++ dq -> x ∈ (dp ++ ep) ++ (dq ++ eq).
Proof. rewrite !elem_of_app. tauto. Qed.
Lemma elem_weave_r {A} (x : A) dp ep dq eq :
  x ∈ ep ++ eq -> x ∈ (dp ++ ep) ++ (dq ++ eq).
Proof. rewrite !elem_of_app. tauto. Qed.

Lemma not_elem_difference_insert (i : nat) (X Y : gset nat) : i ∉ X ∖ ({[i]} ∪ Y).
Proof. set_solver. Qed.
Lemma union_difference_insert (i : nat) (X Y : gset nat) :
  i ∈ X -> i ∉ Y -> {[i]} ∪ (X ∖ ({[i]} ∪ Y)) = X ∖ Y.
Proof. intros. apply set_eq. intros x. destruct (decide (x = i)); set_solver. Qed.

Lemma enqueue_in kind id p q : exists dp dq,
  enqueue kind id (p, q) = (p ++ dp, q ++ dq) /\ length dp + length dq = 1 /\ id ∈ dp ++ dq.
Proof.
  destruct kind; [exists [], [id]|exists [id], []]; rewrite app_nil_r; cbn;
    (split; [done|split; [done|left]]).
Qed.

Section live.
Context {V F E C SL : Type} `{Program V F E} `{FifoChan C}.
Context `{Slab (option (Task (TaskFuture F))) SL}.
Abbreviation World := (World V E C SL).
Abbreviation Act := (Act V F E).
Abbreviation Task := (Task (TaskFuture F)).
Implicit Types (w : World) (k : Waker) (id : nat) (t : Task) (a : Act).

(** ** Cooperative futures

    [coop n f]: polling [f] until it is ready, with every task it spawns, takes
    at most [n] polls, sends and completions altogether; every poll that is
    pending has woken the waker it was given. *)
Inductive coop : nat -> F -> Prop :=
| coop_poll n f : (forall k, coop_act n k false (upoll k f)) -> coop (S n) f
with coop_act : nat -> Waker -> bool -> Act -> Prop :=
| ca_ready n k b f v : coop_act (S n) k b (ARet f (Ready v))
| ca_pending n k f : coop n f -> coop_act n k true (ARet f Pending)
| ca_env n k b upd next : (forall e, coop_act n k b (next e)) -> coop_act n k b (AEnv upd next)
| ca_wake n k b k' next :
    coop_act n k (b || bool_decide (k' = k)) next -> coop_act (S n) k b (AWake k' next)
| ca_spawn m n k b q name f next :
    coop m f -> (forall jh, coop_act n k b (next jh)) ->
    coop_act (S (m + n)) k b (ASpawn q name f next)
| ca_join n k b jh next : (forall r, coop_act n k b (next r)) -> coop_act n k b (AJoin jh next).

Lemma coop_act_sends n k b a : coop_act n k b a -> act_sends_le n a.
Proof.
  revert n b. induction a as [f r|upd next IH|k' next IH|q name f next IH|jh next IH|next IH|msg];
    intros n b Hc; inversion Hc; subst; cbn; eauto.
  assert (Hmono : forall m n (x : Act), m <= n -> act_sends_le m x -> act_sends_le n x).
  { clear. intros m n x. revert m n.
    induction x as [f r|upd next IH|k' next IH|q name f next IH|jh next IH|next IH|msg];
      intros m n Hmn; cbn; eauto; destruct m, n; try lia; intros Hm; try done; eauto;
      try (eapply IH; [|exact Hm]; lia); intros j; eapply IH; [|exact (Hm j)]; lia. }
  intros j. eapply Hmono, IH; [|done]. lia.
Qed.

(** What a cooperative poll leaves behind. *)
Record coop_run (n : nat) (b : bool) k w w' (f : F) (r : Poll V) (p q : list nat)
    (nb : gmap nat nat) (n' : nat) (dp dq : list nat) : Prop := {
  cr_queues : queues w' (p ++ dp) (q ++ dq);
  cr_old : view w ⊆ view w';
  cr_dom : dom nb = dom (view w') ∖ dom (view w);
  cr_new id m : nb !! id = Some m -> id ∈ dp ++ dq /\
    exists t bd, live_at w' id t /\ fbody (future t) = Some bd /\ coop m (body_inner bd);
  cr_sum : msum nb + n' + length dp + length dq <= n;
  cr_shutdown : shutdown_requested (rt w') = shutdown_requested (rt w);
  cr_result : match r with
              | Ready _ => 1 <= n'
              | Pending => coop n' f /\ (b = false -> task_id k ∈ dp ++ dq)
              end
}.

Lemma coop_run_same n b k w w1 w' f r p q nb n' dp dq :
  queues w1 p q -> view w1 = view w -> shutdown_requested (rt w1) = shutdown_requested (rt w) ->
  coop_run n b k w1 w' f r p q nb n' dp dq -> coop_run n b k w w' f r p q nb n' dp dq.
Proof.
  intros Hq Hv Hs [H1' H2' H3' H4' H5' H6' H7']. rewrite Hv in *. rewrite Hs in *. by split.
Qed.

Lemma mt_inner_maybe (f : F) b : mt_inner (maybe_tracked f b) = f.
Proof. by destruct b. Qed.

(** A poll that sends a wake-up first, and one that spawns first. *)
Lemma coop_run_sent n b k id w w1 w' f r p q nb n' dp dq ep eq :
  view w1 = view w -> shutdown_requested (rt w1) = shutdown_requested (rt w) ->
  length dp + length dq = 1 -> id ∈ dp ++ dq ->
  coop_run n (b || bool_decide (id = task_id k)) k w1 w' f r (p ++ dp) (q ++ dq) nb n' ep eq ->
  coop_run (S n) b k w w' f r p q nb n' (dp ++ ep) (dq ++ eq).
Proof.
  intros Hv Hsd Hl Hin [R1 R2 R3 R4 R5 R6 R7]. rewrite Hv in *. rewrite Hsd in *. split; try done.
  - by rewrite !app_assoc.
  - intros i m Hm. destruct (R4 i m Hm) as [Hi ?]. split; [by apply elem_weave_r|done].
  - rewrite !length_app. lia.
  - destruct r; [done|]. destruct R7 as [? R7]. split; [done|]. intros ->.
    case_bool_decide; subst; [by apply elem_weave_l|by apply elem_weave_r, R7].
Qed.

Lemma coop_run_spawned n m b k id t bd w w1 w' f r p q nb n' dp dq ep eq :
  spawned t id w w1 -> fbody (future t) = Some bd -> coop m (body_inner bd) ->
  length dp + length dq = 1 -> id ∈ dp ++ dq ->
  coop_run n b k w1 w' f r (p ++ dp) (q ++ dq) nb n' ep eq ->
  coop_run (S (m + n)) b k w w' f r p q (<[id := m]> nb) n' (dp ++ ep) (dq ++ eq).
Proof.
  intros [Hv Hvac _ _ _ Hsd] Hbd Hm Hl Hin [R1 R2 R3 R4 R5 R6 R7].
  assert (Hnb : nb !! id = None).
  { apply not_elem_of_dom. rewrite R3, Hv, dom_insert_L. apply not_elem_difference_insert. }
  split; try done.
  - by rewrite !app_assoc.
  - etransitivity; [|exact R2]. rewrite Hv. by apply insert_subseteq.
  - rewrite dom_insert_L, R3, Hv, dom_insert_L. apply union_difference_insert.
    + apply (subseteq_dom _ _ R2). rewrite Hv, dom_insert_L. by apply elem_of_union_l, elem_of_singleton.
    + by apply not_elem_of_dom.
  - intros i x Hi. destruct (decide (i = id)) as [->|Hne].
    + rewrite lookup_insert_eq in Hi. injection Hi as <-. split; [by apply elem_weave_l|].
      exists t, bd. split; [|done]. unfold live_at. eapply lookup_weaken; [|exact R2]. rewrite Hv. apply lookup_insert_eq.
    + rewrite lookup_insert_ne in Hi by done. destruct (R4 i x Hi) as [Hi' ?].
      split; [by apply elem_weave_r|done].
  - rewrite msum_insert by done. rewrite !length_app. lia.
  - congruence.
  - destruct r; [done|]. destruct R7 as [? R7]. split; [done|]. intros ->. by apply elem_weave_r, R7.
Qed.

Lemma run_coop k a n b w p q w' f r :
  coop_act n k b a -> queues w p q -> room (length p + length q + n) ->
  run_act k a w = Ok (w', f, r) ->
  exists nb n' dp dq, coop_run n b k w w' f r p q nb n' dp dq.
Proof.
  revert n b w p q. induction a as [f0 r0|upd next IH|k' next IH|qk name g next IH|jh next IH|next IH|msg];
    intros n b w p q Hc Hq Hroom Hrun; cbn [run_act] in Hrun.
  - inversion Hrun; subst. exists ∅, n, [], []. split; rewrite ?app_nil_r; try done.
    + by rewrite dom_empty_L, difference_diag_L.
    + unfold msum. rewrite map_fold_empty. cbn. lia.
    + inversion Hc; subst; [lia|by split].
  - inversion Hc; subst.
    destruct (IH (env w) n b (set_env (upd (env w)) w) p q) as (nb & n' & dp & dq & Hr); [done..|].
    exists nb, n', dp, dq. by eapply coop_run_same, Hr.
  - inversion Hc as [| | |n0 ? ? ? ? Hn| |]; subst. apply bind_Ok in Hrun as (w1 & Hs & Hrun).
    destruct (send_to_ok (task_sender k') (task_id k') w p q Hq) as (w1' & Hs' & Hq1 & c1 & c2 & Hw1).
    { unfold room in *. lia. }
    unfold wake_by_ref in Hs. rewrite Hs in Hs'. simplify_eq.
    destruct (enqueue_in (task_sender k') (task_id k') p q) as (dp & dq & He & Hl & Hin). rewrite He in Hq1.
    destruct (IH _ _ _ _ _ Hn Hq1) with (2 := Hrun) as (nb & n' & ep & eq & Hr).
    { unfold room in *. cbn. rewrite !length_app. lia. }
    exists nb, n', (dp ++ ep), (dq ++ eq). eapply (coop_run_sent _ _ _ (task_id k')); [done|done|lia|done|].
    destruct Hr as [R1 R2 R3 R4 R5 R6 R7]. split; try done. destruct r; [done|].
    destruct R7 as [? R7]. split; [done|]. intros [Hb Hid]%orb_false_iff. apply R7, orb_false_iff. split; [done|].
    apply bool_decide_eq_false. apply bool_decide_eq_false in Hid. congruence.
  - inversion Hc as [| | | |m n0 ? ? ? ? ? ? Hm Hn|]; subst. apply bind_Ok in Hrun as ([w1 jh] & Hs & Hrun).
    destruct (spawn_any_ok qk name g w p q Hq) as (w1' & jh' & Hs' & He & id & Hsp & -> & Hq1).
    { unfold room in *. lia. }
    rewrite Hs in Hs'. simplify_eq. destruct (enqueue_in qk id p q) as (dp & dq & Heq & Hl & Hin). rewrite Heq in Hq1.
    destruct (IH (mkJoin (next_addr w) (out_type g)) _ _ _ _ _ (Hn _) Hq1) with (2 := Hrun) as (nb & n' & ep & eq & Hr).
    { unfold room in *. cbn. rewrite !length_app. lia. }
    exists (<[id := m]> nb), n', (dp ++ ep), (dq ++ eq).
    eapply coop_run_spawned; [exact Hsp|done| |lia|done|exact Hr]. cbn. by rewrite mt_inner_maybe.
  - inversion Hc; subst.
    destruct (JoinHandle_poll k jh (heap w)) as [h x].
    destruct (IH x n b (set_heap h w) p q) as (nb & n' & dp & dq & Hr); [done..|].
    exists nb, n', dp, dq. by eapply coop_run_same, Hr.
  - inversion Hc.
  - inversion Hc.
Qed.

(** ** The potential of a world

    [Live rest n w]: every live task is cooperative and its id is queued or in
    [rest], the part of the buffer still to be polled; [n] bounds the budgets of
    the tasks plus the queued ids. *)
Definition budget (bud : gmap nat nat) (ids : list nat) w : Prop :=
  forall id m, bud !! id = Some m -> id ∈ ids /\
    exists t bd, live_at w id t /\ fbody (future t) = Some bd /\ coop m (body_inner bd).

Definition Live (rest : list nat) (n : nat) w : Prop :=
  PoolOk None w /\
  exists (bud : gmap nat nat) p q, queues w p q /\ dom bud = dom (view w) /\ budget bud (rest ++ p ++ q) w /\
    msum bud + length rest + length p + length q <= n.

Lemma live_weaken rest n n' w : n <= n' -> Live rest n w -> Live rest n' w.
Proof.
  intros Hn [HP (bud & p & q & Hq & Hd & Hb & Hs)]. split; [done|]. exists bud, p, q.
  do 3 (split; [done|]). lia.
Qed.

Lemma live_dom w (bud : gmap nat nat) id t :
  dom bud = dom (view w) -> live_at w id t -> exists m, bud !! id = Some m.
Proof.
  intros Hd Ht. apply elem_of_dom. rewrite Hd. apply elem_of_dom. by eexists.
Qed.

(** The budgets after a poll: the polled task's, if it goes on, and the new ones. *)
Lemma dom_budget (v v1 : gmap nat (option Task)) (bud nb : gmap nat nat) id :
  dom bud = dom v -> id ∈ dom v -> dom nb = dom v1 ∖ dom v -> dom v ⊆ dom v1 ->
  dom (delete id bud ∪ nb) = dom v1 ∖ {[id]} /\ delete id bud ##ₘ nb /\ id ∉ dom nb.
Proof.
  intros Hb Hid Hn Hsub.
  assert (id ∉ dom nb) by (rewrite Hn; set_solver).
  split; [|split; [|done]].
  - rewrite dom_union_L, dom_delete_L, Hb, Hn. apply set_eq. intros x.
    destruct (decide (x ∈ dom v)); set_solver.
  - apply map_disjoint_dom. rewrite dom_delete_L, Hb, Hn. set_solver.
Qed.

Lemma live_insert_other w w' id t i u :
  view w' = <[id := Some t]> (view w) -> i <> id -> live_at w i u -> live_at w' i u.
Proof. unfold live_at. intros -> Hne Hl. by rewrite lookup_insert_ne. Qed.

(** What [ran] does to the queues and the pool when the future is cooperative. *)
(** What a cooperative step with a budget of [n] leaves: tasks that were spawned, each with
    a budget of its own and queued, and a rest for the one that stays pending. *)
Definition coop_ran k n p q w w' (r : Poll unit) (ob : option (TaskBody F)) : Prop :=
  exists nb n' dp dq, queues w' (p ++ dp) (q ++ dq) /\ view w ⊆ view w' /\
    dom nb = dom (view w') ∖ dom (view w) /\
    (forall id m, nb !! id = Some m -> id ∈ dp ++ dq /\
       exists t bd, live_at w' id t /\ fbody (future t) = Some bd /\ coop m (body_inner bd)) /\
    msum nb + n' + length dp + length dq <= n /\
    shutdown_requested (rt w') = shutdown_requested (rt w) /\
    (is_ready r = false ->
       exists bd', ob = Some bd' /\ coop n' (body_inner bd') /\ task_id k ∈ dp ++ dq).

(** After the future's poll the wrapper may queue [ep] and [eq] out of the rest. *)
Lemma coop_run_ran k n f' ru p q nb n' dp dq w w1 w' r ob ep eq n2 : coop_run n false k w w1 f' ru p q nb n' dp dq ->
  view w' = view w1 -> queues w' ((p ++ dp) ++ ep) ((q ++ dq) ++ eq) ->
  shutdown_requested (rt w') = shutdown_requested (rt w1) -> n2 + length ep + length eq <= n' ->
  (is_ready r = false -> exists bd', ob = Some bd' /\ coop n2 (body_inner bd') /\ task_id k ∈ dp ++ dq) ->
  coop_ran k n p q w w' r ob.
Proof.
  intros [R1 R2 R3 R4 R5 R6 _] Hv Hq2 Hs Hl Hr. exists nb, n2, (dp ++ ep), (dq ++ eq).
  rewrite !app_assoc. unfold live_at in *. rewrite Hv. rewrite !length_app.
  split; [done|]. split; [done|]. split; [done|]. split.
  { intros id m Hm'. destruct (R4 id m Hm') as [Hi ?]. split; [|done].
    rewrite <- app_assoc, elem_of_app, !elem_of_app in *. clear -Hi. tauto. }
  split; [lia|]. split; [congruence|]. intros Hrr. destruct (Hr Hrr) as (bd' & ? & ? & Hi).
  exists bd'. split; [done|]. split; [done|]. clear -Hi.
  rewrite !elem_of_app in *. tauto.
Qed.

Lemma ran_coop k bd addr w w' r ob n p q :
  ran n k bd addr w w' r ob -> coop_act n k false (upoll k (body_inner bd)) ->
  queues w p q -> room (length p + length q + n) -> coop_ran k n p q w w' r ob.
Proof.
  intros (w0 & w1 & f' & ru & Hq0 & Hrun & _ & Hm) Hc Hq Hroom.
  pose proof (quiet_queues _ _ _ _ Hq0 Hq) as Hqs.
  destruct (run_coop _ _ _ _ _ _ _ _ _ _ Hc Hqs Hroom Hrun) as (nb & n' & dp & dq & HR).
  assert (R1 := cr_queues _ _ _ _ _ _ _ _ _ _ _ _ _ HR). assert (R7 := cr_result _ _ _ _ _ _ _ _ _ _ _ _ _ HR).
  assert (Hgo : coop_ran k n p q w0 w' r ob -> coop_ran k n p q w w' r ob).
  { destruct Hq0 as (_ & S0 & V0 & _). unfold coop_ran. by rewrite V0, S0. }
  destruct ru as [v|].
  - destruct Hm as (-> & -> & w2 & w3 & Hq2 & Hc3 & Hq3).
    pose proof (quiet_queues _ _ _ _ Hq2 R1) as Hqs2.
    assert (Hqs3 : exists ep eq, queues w3 ((p ++ dp) ++ ep) ((q ++ dq) ++ eq) /\ length ep + length eq <= 1).
    { pose proof (cp_queues _ _ _ _ Hc3 _ _ Hqs2) as Hx. destruct (waker _) as [k'|].
      - destruct (enqueue_in (task_sender k') (task_id k') (p ++ dp) (q ++ dq)) as (ep & eq & He & Hl & _).
        rewrite He in Hx. exists ep, eq. split; [done|lia].
      - exists [], []. rewrite !app_nil_r. split; [done|cbn; lia]. }
    destruct Hqs3 as (ep & eq & Hqs3 & Hl).
    apply Hgo, (coop_run_ran k n f' (Ready v) p q nb n' dp dq w0 w1 w' _ _ ep eq (n' - 1) HR).
    + destruct Hq3 as (_ & _ & -> & _). rewrite (cp_view _ _ _ _ Hc3). apply Hq2.
    + by apply (quiet_queues _ _ _ _ Hq3).
    + destruct Hq3 as (_ & -> & _). rewrite (cp_shutdown _ _ _ _ Hc3). apply Hq2.
    + lia.
    + done.
  - destruct Hm as (-> & Hq2 & bd' & -> & <- & _). apply Hgo, (coop_run_ran k n _ Pending p q nb n' dp dq w0 w1 w' _ _ [] [] n' HR).
    + apply Hq2.
    + rewrite !app_nil_r. by apply (quiet_queues _ _ _ _ Hq2).
    + apply Hq2.
    + cbn. lia.
    + intros _. exists bd'. destruct R7 as [? R7]. auto.
Qed.

Lemma live_ids_cons id rest p q i : i <> id -> i ∈ (id :: rest) ++ p ++ q -> i ∈ rest ++ p ++ q.
Proof. rewrite !elem_of_app, elem_of_cons. tauto. Qed.

Lemma live_ids_ext (rest p q dp dq : list nat) i : i ∈ rest ++ p ++ q -> i ∈ rest ++ (p ++ dp) ++ (q ++ dq).
Proof. rewrite !elem_of_app. tauto. Qed.
Lemma live_ids_new (rest p q dp dq : list nat) i : i ∈ dp ++ dq -> i ∈ rest ++ (p ++ dp) ++ (q ++ dq).
Proof. rewrite !elem_of_app. tauto. Qed.

(** The budgets when the poll of [id] returned: of the other tasks, and the new ones. *)
Lemma budget_polled bud nb id rest p q dp dq w wm :
  budget bud ((id :: rest) ++ p ++ q) w -> is_Some (view w !! id) -> view (take_slot id w) ⊆ view wm ->
  budget nb (dp ++ dq) wm -> delete id bud ##ₘ nb ->
  budget (delete id bud ∪ nb) (rest ++ (p ++ dp) ++ (q ++ dq)) wm.
Proof.
  intros Hb Hid Hsub Hnb Hdisj i x Hi. apply lookup_union_Some in Hi as [Hi|Hi]; [| |done].
  - apply lookup_delete_Some in Hi as [Hne Hi]. destruct (Hb i x Hi) as (Hin & u & bd & Hu & ?).
    split; [by eapply live_ids_ext, live_ids_cons, Hin|]. exists u, bd. split; [|done].
    unfold live_at. eapply lookup_weaken; [|exact Hsub]. by rewrite take_slot_view, lookup_insert_ne.
  - destruct (Hnb i x Hi) as [Hin ?]. split; [by apply live_ids_new|done].
Qed.

(** A task that ended leaves no budget behind. *)
Lemma live_ended bud id rest p q n wm w' :
  PoolOk None w' -> retired id wm w' -> queues wm p q -> bud !! id = None -> dom bud = dom (view wm) ∖ {[id]} ->
  budget bud (rest ++ p ++ q) wm -> msum bud + length rest + length p + length q <= n -> Live rest n w'.
Proof.
  intros HP Hr Hq Hnone Hd Hb Hs. split; [done|]. exists bud, p, q. split; [by apply Hr|].
  split; [by rewrite (rd_view _ _ _ Hr), dom_delete_L|]. split; [|done]. intros i x Hi.
  destruct (Hb i x Hi) as (Hin & u & bd & Hu & ?). split; [done|]. exists u, bd. split; [|done].
  unfold live_at. rewrite (rd_view _ _ _ Hr), lookup_delete_ne; congruence.
Qed.

(** A task that goes on is queued again and keeps what is left of its budget. *)
Lemma live_kept bud id t bd m rest p q n wm :
  PoolOk None (fill_slot id t wm) -> queues wm p q -> is_Some (view wm !! id) -> bud !! id = None ->
  dom bud = dom (view wm) ∖ {[id]} -> budget bud (rest ++ p ++ q) wm ->
  fbody (future t) = Some bd -> coop m (body_inner bd) -> id ∈ rest ++ p ++ q ->
  msum bud + m + length rest + length p + length q <= n -> Live rest n (fill_slot id t wm).
Proof.
  intros HP Hq Hid Hnone Hd Hb Hbd Hm Hin Hs. assert (Hv := fill_slot_view id t wm Hid).
  split; [done|]. exists (<[id := m]> bud), p, q. split; [done|]. split.
  { rewrite Hv, !dom_insert_L, Hd. apply elem_of_dom in Hid. clear -Hid. apply set_eq. intros x.
    destruct (decide (x = id)); set_solver. }
  split; [|rewrite msum_insert by done; lia]. intros i x Hi. destruct (decide (i = id)) as [->|Hne].
  - rewrite lookup_insert_eq in Hi. injection Hi as <-. split; [done|]. exists t, bd.
    unfold live_at. by rewrite Hv, lookup_insert_eq.
  - rewrite lookup_insert_ne in Hi by done. destruct (Hb i x Hi) as (? & u & bd' & Hu & ?). split; [done|].
    exists u, bd'. split; [|done]. by eapply live_insert_other.
Qed.

(** A stale id costs only its place in the buffer. *)
Lemma live_stale id rest n w : Live (id :: rest) n w -> view w !! id = None -> Live rest (n - 1) w /\ 1 <= n.
Proof.
  intros [HP (bud & p & q & Hq & Hd & Hb & Hs)] Hv. cbn [length] in Hs. split; [|lia]. split; [done|].
  exists bud, p, q. do 2 (split; [done|]). split; [|lia]. intros i m Hi. destruct (Hb i m Hi) as [Hin ?]. split; [|done].
  eapply live_ids_cons, Hin. intros ->. apply not_elem_of_dom in Hv. apply Hv. rewrite <- Hd. apply elem_of_dom. eauto.
Qed.

(** Polling one entry consumes potential. *)
Lemma live_poll id rest n w :
  Live (id :: rest) n w -> room n ->
  exists w' b, poll_and_retire id w = Ok (w', b) /\ Live rest (n - 1) w' /\ frame w w' /\ 1 <= n /\
    shutdown_requested (rt w') = shutdown_requested (rt w).
Proof.
  intros HL Hroom. destruct (view w !! id) as [s|] eqn:Hv.
  2: { exists w, false. destruct (live_stale _ _ _ _ HL Hv). by split; [apply poll_and_retire_vacant|]. }
  destruct HL as [HP (bud & p & q & Hq & Hd & Hb & Hs)]. cbn [length] in Hs.
  destruct (po_slot _ _ HP id) as [t Ht]; [by eexists|done|]. destruct (live_dom w bud id t Hd Ht) as [m Hm].
  destruct (Hb id m Hm) as (_ & t' & bd & Ht' & Hbd & Hcoop).
  unfold live_at in Ht, Ht'. rewrite Ht in Ht'. injection Ht' as <-.
  inversion Hcoop as [m' f Hact]; subst. pose proof (msum_delete bud id _ Hm) as Hsum.
  destruct (poll_and_retire_spec m' id t bd w p q) as (wm & w' & r & ob & st & Hp & Hpol);
    [done|done|done|intros k; by eapply coop_act_sends, Hact|done|unfold room in *; lia|].
  pose proof (polled_inv _ _ _ _ _ _ _ _ _ _ HP Ht Hpol) as (HP' & Hf & _). destruct Hpol as [_ Hran Hready Hpend].
  destruct (ran_coop _ _ _ _ _ _ _ _ p q Hran (Hact _))
    as (nb & n' & dp & dq & Hq' & Hsub & Hdn & Hnb & Hs' & Hsd & Hpd); [done|unfold room in *; lia|].
  assert (Hdt : dom (view (take_slot id w)) = dom (view w))
    by (rewrite take_slot_view by (by eexists); apply dom_insert_lookup_L; by eexists).
  rewrite Hdt in Hdn. assert (Hid : id ∈ dom (view w)) by (apply elem_of_dom; by eexists).
  assert (Hsubd : dom (view w) ⊆ dom (view wm)) by (rewrite <- Hdt; by apply subseteq_dom).
  destruct (dom_budget (view w) (view wm) bud nb id Hd Hid Hdn Hsubd) as (Hdom & Hdisj & _).
  assert (Hbud := budget_polled bud nb id rest p q dp dq w wm Hb ltac:(by eexists) Hsub Hnb Hdisj).
  assert (Hnone : (delete id bud ∪ nb) !! id = None) by (apply not_elem_of_dom; rewrite Hdom; set_solver).
  exists w', (is_ready r). split; [done|].
  change (shutdown_requested (rt w)) with (shutdown_requested (rt (take_slot id w))). rewrite <- Hsd. destruct (is_ready r) eqn:Hr.
  - specialize (Hready eq_refl). split; [|split; [done|split; [lia|apply Hready]]].
    eapply live_ended; [done..|]. rewrite msum_union, !length_app by done. lia.
  - destruct (Hpd eq_refl) as (bd' & -> & Hcoop' & Hself). rewrite (Hpend eq_refl) in *.
    split; [|split; [done|split; [lia|done]]].
    eapply live_kept; [done|done|apply elem_of_dom, Hsubd, Hid|done|done|done|done|done|by apply live_ids_new|].
    rewrite msum_union, !length_app by done. lia.
Qed.

Lemma live_buffer ids rest n w :
  Live (ids ++ rest) n w -> room n ->
  exists w' b, poll_buffer ids w = Ok (w', b) /\ Live rest (n - length ids) w' /\ frame w w' /\
    length ids <= n /\ shutdown_requested (rt w') = shutdown_requested (rt w).
Proof.
  revert n w. induction ids as [|id ids IH]; intros n w HL Hroom; cbn [poll_buffer length] in *.
  - exists w, false. rewrite Nat.sub_0_r. split; [done|]. split; [done|]. split; [done|].
    split; [lia|done].
  - destruct (live_poll id (ids ++ rest) n w HL Hroom) as (w1 & b1 & Hp1 & HL1 & Hf1 & Hn & Hs1).
    rewrite Hp1. cbn [mbind outcome_bind].
    destruct (IH (n - 1) w1 HL1) as (w2 & b2 & Hp2 & HL2 & Hf2 & Hn2 & Hs2); [unfold room in *; lia|].
    rewrite Hp2. cbn. eexists _, _. split; [done|].
    split; [by replace (n - S (length ids)) with (n - 1 - length ids) by lia|].
    split; [by transitivity w1|]. split; [lia|congruence].
Qed.

Lemma live_same rest n w w' :
  task_pool (rt w') = task_pool (rt w) -> task_chan (rt w') = task_chan (rt w) ->
  polling_chan (rt w') = polling_chan (rt w) -> heap w' = heap w -> next_addr w' = next_addr w ->
  Live rest n w -> Live rest n w'.
Proof.
  intros Hp Ht Hc Hh Hn [HP (bud & p & q & Hq & Hd & Hb & Hs)]. split.
  - eapply pool_ok_same; [exact HP|done|]. split; [lia|]. by rewrite Hh.
  - exists bud, p, q. unfold queues, budget, live_at, view in *. by rewrite Ht, Hc, Hp.
Qed.

(** Receiving moves ids from a queue into the buffer. *)
Lemma live_drain n w : Live [] n w ->
  exists w', drain_polling w = Ok w' /\ Live (polling_task_buffer (rt w')) n w' /\
    frame (on_rt (set_polling_task_buffer (polling_task_buffer (rt w'))) w) w' /\
    shutdown_requested (rt w') = shutdown_requested (rt w) /\ task_pool (rt w') = task_pool (rt w) /\
    (polling_task_buffer (rt w') = [] -> exists p q, queues w' p q /\ p = [] /\
       forall id t, live_at w' id t -> id ∈ q).
Proof.
  intros [HP (bud & p & q & Hq & Hd & Hb & Hs)].
  destruct (drain_polling_spec w p q Hq) as (c & Hdr & Hc). eexists. split; [exact Hdr|]. cbn.
  split; [|split; [by split|split; [done|split; [done|]]]].
  - split; [eapply pool_ok_same; [exact HP|done|by split]|].
    exists bud, [], q. split; [split; [done|apply Hq]|]. split; [done|]. split; [done|]. cbn. lia.
  - intros ->. exists [], q. split; [split; [done|apply Hq]|]. split; [done|].
    intros id t Ht. destruct (live_dom w bud id t Hd Ht) as [m Hm].
    by destruct (Hb id m Hm) as [? _].
Qed.

Lemma live_batch n w : Live [] n w -> 1 <= task_batch_size (scheduling_config (rt w)) ->
  exists w', take_batch w = Ok w' /\ Live (task_buffer (rt w')) n w' /\
    frame (on_rt (set_task_buffer (task_buffer (rt w'))) w) w' /\
    shutdown_requested (rt w') = shutdown_requested (rt w) /\
    (task_buffer (rt w') = [] -> forall p q, queues w p q -> length q = 0).
Proof.
  intros [HP (bud & p & q & Hq & Hd & Hb & Hs)] Hbs.
  destruct (take_batch_spec w p q Hq) as (c & Hdr & Hc). eexists. split; [exact Hdr|]. cbn.
  set (k := task_batch_size _) in *.
  split; [|split; [by split|split; [done|]]].
  - split; [eapply pool_ok_same; [exact HP|done|by split]|].
    exists bud, p, (drop k q). split; [split; [apply Hq|done]|]. split; [done|]. split.
    + intros id m Hm. destruct (Hb id m Hm) as [Hin ?]. split; [|done].
      cbn in Hin. rewrite <- (take_drop k q) in Hin. rewrite !elem_of_app in *. tauto.
    + pose proof (f_equal length (take_drop k q)) as Hl. rewrite length_app in Hl. cbn in Hs. lia.
  - intros Hnil p' q' Hq'. destruct (queues_inj _ _ _ _ _ Hq Hq') as [_ ->].
    destruct q; [done|]. destruct k; [lia|]. done.
Qed.

(** A world whose loop can run: cooperative tasks and no reactor. *)
Record Ready_to_run (n : nat) w : Prop := {
  rr_live : Live [] n w;
  rr_reactors : reactors (rt w) = [];
  rr_interval : reactor_poll_interval (scheduling_config (rt w)) <> 0%Z;
  rr_batch : 1 <= task_batch_size (scheduling_config (rt w));
  rr_shutdown : shutdown_requested (rt w) = false
}.

(** The safety bound and the idle parking change counters only. *)
Lemma safety_cases w w2 s : check_safety_bound w = (w2, s) -> w2 = w \/ w2 = on_rt (set_reactor_only_count 0%Z) w.
Proof. unfold check_safety_bound. destruct (_ <=? _)%Z; intros [= <- _]; auto. Qed.

Lemma live_idle rest n c p w : Live rest n w ->
  let w' := idle_park c (update_reactor_only c p w) in
  Live rest n w' /\ reactors (rt w') = reactors (rt w) /\ scheduling_config (rt w') = scheduling_config (rt w) /\
  shutdown_requested (rt w') = shutdown_requested (rt w).
Proof.
  intros HL. unfold idle_park, update_reactor_only, yield_thread.
  repeat case_match; (split; [by eapply live_same, HL|done]).
Qed.

Lemma no_reactors it w (b : bool) : reactors (rt w) = [] ->
  (if b then poll_reactors it w else mret (w, false)) = Ok (w, false).
Proof.
  intros Hr. destruct b; [|done]. unfold poll_reactors. rewrite Hr. cbn. rewrite <- Hr. by destruct w as [[]].
Qed.

(** A pass starts with the drained polling queue in its buffer. *)
Lemma live_start n w : Ready_to_run n w ->
  exists w2, Live (polling_task_buffer (rt w2)) n w2 /\ reactors (rt w2) = [] /\
    scheduling_config (rt w2) = scheduling_config (rt w) /\ shutdown_requested (rt w2) = false /\ view w2 = view w /\
    (polling_task_buffer (rt w2) = [] -> exists q, queues w2 [] q /\ forall id t, live_at w2 id t -> id ∈ q) /\
    exists pn, forall (k : bool -> World * bool -> outcome (World * bool)),
      (let '(w, iteration) := next_iteration w in
       w ← drain_polling w;
       let '(w, safety_override) := check_safety_bound w in
       poll_now ← should_poll safety_override iteration w;
       x ← (if poll_now : bool then poll_reactors iteration w else mret (w, false)); k poll_now x) = k pn (w2, false).
Proof.
  intros [HL HR Hi _ Hsd]. destruct (next_iteration w) as [w0 it] eqn:Hni.
  assert (w0 = on_rt (set_iteration_count (wrap64 (iteration_count (rt w) + 1))) w) as -> by by inversion Hni.
  set (w0 := on_rt _ w). assert (HL0 : Live [] n w0) by by eapply live_same, HL.
  destruct (live_drain n w0 HL0) as (w1 & Hd & HL1 & Hf1 & Hs1 & Hp1 & Hemp). rewrite Hd. cbn [mbind outcome_bind].
  destruct (check_safety_bound w1) as [w2 s] eqn:Hcs. assert (Hw2 := safety_cases _ _ _ Hcs).
  assert (Hr1 := fr_reactors _ _ Hf1). assert (Hc1 := fr_config _ _ Hf1). cbn in Hr1, Hc1.
  assert (HR2 : reactors (rt w2) = [] /\ scheduling_config (rt w2) = scheduling_config (rt w)).
  { rewrite <- HR. by destruct Hw2 as [-> | ->]. }
  destruct HR2 as [HR2 Hc2]. destruct (should_poll_ok s it w2) as [pn Hpn]; [by rewrite Hc2|]. exists w2.
  split; [by destruct Hw2 as [-> | ->]; [|eapply live_same, HL1]|]. split; [done|]. split; [done|].
  split; [rewrite <- Hsd; by destruct Hw2 as [-> | ->]|]. split; [transitivity (view w1); [by destruct Hw2 as [-> | ->]|unfold view; by rewrite Hp1]|].
  split.
  - intros Hb. assert (Hb1 : polling_task_buffer (rt w1) = []) by by destruct Hw2 as [-> | ->].
    destruct (Hemp Hb1) as (p & q & Hq & -> & Hlive). exists q. by destruct Hw2 as [-> | ->].
  - exists pn. intros k. rewrite Hpn. cbn [mbind outcome_bind]. by rewrite no_reactors.
Qed.

Lemma live_pass n w :
  Ready_to_run n w -> view w <> ∅ -> room n ->
  exists w' b n', run_queue_pass w = Ok (w', b) /\ n' < n /\ Ready_to_run n' w'.
Proof.
  intros HRR Hne Hroom. destruct (live_start n w HRR) as (w2 & HL2 & HR2 & Hc2 & Hs2 & Hv2 & Hemp & pn & Hrun).
  destruct HRR as [_ _ Hi Hbs _]. unfold run_queue_pass.
  rewrite (Hrun (fun pn x => let '(w, progress1) := x in
    '(w, progress2) ← poll_buffer (polling_task_buffer (rt w)) w;
    w ← take_batch w;
    '(w, completed) ← poll_buffer (task_buffer (rt w)) w;
    let w := update_reactor_only completed pn w in
    mret (idle_park completed w, progress1 || progress2 || completed))). clear Hrun.
  destruct (live_buffer (polling_task_buffer (rt w2)) [] n w2)
    as (w3 & b3 & Hp3 & HL3 & Hf3 & Hl3 & Hs3); [by rewrite app_nil_r|done|].
  rewrite Hp3. cbn [mbind outcome_bind]. pose proof (fr_config _ _ Hf3) as Hc3. rewrite Hc2 in Hc3.
  destruct (live_batch _ w3 HL3) as (w4 & Hd4 & HL4 & Hf4 & Hs4 & Hq4); [by rewrite Hc3|].
  rewrite Hd4. cbn [mbind outcome_bind].
  destruct (live_buffer (task_buffer (rt w4)) [] (n - length (polling_task_buffer (rt w2))) w4)
    as (w5 & b5 & Hp5 & HL5 & Hf5 & Hl5 & Hs5); [by rewrite app_nil_r|unfold room in *; lia|].
  rewrite Hp5. cbn [mbind outcome_bind].
  set (m := length (polling_task_buffer (rt w2))) in *. set (m' := length (task_buffer (rt w4))) in *.
  destruct (live_idle [] _ b5 pn w5 HL5) as (HL6 & HR6 & Hc6 & Hs6).
  assert (Hm : 1 <= m + m').
  { destruct (decide (m = 0)) as [Hm0|]; [|lia]. destruct (decide (m' = 0)) as [Hm0'|]; [|lia]. exfalso.
    unfold m, m' in *. apply length_zero_iff_nil in Hm0, Hm0'. rewrite Hm0 in Hp3. cbn in Hp3. inversion Hp3; subst w3.
    destruct (Hemp Hm0) as (q & Hq & Hlive). assert (Hq0 := Hq4 Hm0' [] q Hq). apply length_zero_iff_nil in Hq0. subst q.
    apply map_choose in Hne as (i & x & Hix). destruct (po_slot _ _ (proj1 HL2) i) as [t Ht]; [rewrite Hv2; by eexists|done|].
    specialize (Hlive i t Ht). by apply elem_of_nil in Hlive. }
  eexists _, (false || b3 || b5), (n - m - m'). split; [reflexivity|]. split; [lia|].
  pose proof (fr_reactors _ _ Hf5) as HR5. pose proof (fr_config _ _ Hf5) as Hc5.
  pose proof (fr_reactors _ _ Hf4) as HR4. pose proof (fr_config _ _ Hf4) as Hc4.
  pose proof (fr_reactors _ _ Hf3) as HR3. cbn in HR4, Hc4. split; [done|..].
  - by rewrite HR6, HR5, HR4, HR3.
  - by rewrite Hc6, Hc5, Hc4, Hc3.
  - by rewrite Hc6, Hc5, Hc4, Hc3.
  - by rewrite Hs6, Hs5, Hs4, Hs3.
Qed.

Lemma slab_len_zero w : Nat.eqb (slab_len (task_pool (rt w))) 0 = bool_decide (view w = ∅).
Proof.
  rewrite slab_len_view. fold (view w). case_bool_decide as Hv.
  - by rewrite Hv, map_size_empty.
  - apply Nat.eqb_neq. by intros ?%map_size_empty_inv.
Qed.

Lemma run_loop_coop n fuel max stuck sleep w :
  Ready_to_run n w -> room n -> n <= fuel -> in_u64 max ->
  (0 <= stuck)%Z -> (stuck + Z.of_nat n <= max)%Z ->
  exists w', run_queue_loop fuel max stuck sleep w = Ok (w', PoolEmpty) /\ Ready_to_run n w' /\ view w' = ∅.
Proof.
  revert fuel stuck sleep w. induction (lt_wf n) as [n _ IH].
  intros fuel stuck sleep w Hrr Hroom Hfuel Hmax Hst Hsm.
  destruct fuel as [|fuel]; cbn [run_queue_loop]; rewrite slab_len_zero.
  - case_bool_decide as Hv; [by exists w|]. exfalso.
    destruct (live_pass n w Hrr Hv Hroom) as (? & ? & ? & _ & ? & _). lia.
  - case_bool_decide as Hv; [by exists w|]. rewrite (rr_shutdown _ _ Hrr).
    destruct (live_pass n w Hrr Hv Hroom) as (w1 & b & n1 & Hp & Hlt & Hrr1).
    unfold run_queue_iter. rewrite Hp. cbn [mbind outcome_bind mret outcome_ret].
    assert (Hgo : forall st sl w2, Ready_to_run n1 w2 -> (0 <= st)%Z -> (st + Z.of_nat n1 <= max)%Z ->
      exists w', run_queue_loop fuel max st sl w2 = Ok (w', PoolEmpty) /\ Ready_to_run n w' /\ view w' = ∅).
    { intros st sl w2 Hr2 H1' H2'.
      destruct (IH n1 Hlt fuel st sl w2 Hr2) as (w' & Hl & Hr & Hv'); try done;
        [unfold room in *; lia|lia|].
      exists w'. split; [done|]. split; [|done]. destruct Hr as [HL ? ? ? ?]. split; try done.
      eapply live_weaken, HL. lia. }
    unfold stuck_check. destruct b; [apply Hgo; [done|lia|lia]|].
    rewrite wrap64_small by (unfold in_u64 in *; lia).
    assert (Hcmp : (max <? stuck + 1)%Z = false) by (apply Z.ltb_ge; lia). rewrite Hcmp.
    destruct (_ =? 0)%Z; apply Hgo; try lia; [|done].
    destruct Hrr1 as [HL ? ? ? ?]. split; try done. by eapply live_same, HL.
Qed.

Lemma env_u64_range name dflt : in_u64 dflt -> in_u64 (env_u64 name dflt).
Proof.
  intros Hd. unfold env_u64. destruct (getenv name) as [s|]; [|done].
  destruct (parse_u64 s) as [z|] eqn:Hz; [|done].
  apply parse_uint_range in Hz; [|done]. unfold in_u64, u64_max in *. lia.
Qed.

(** Spawning a cooperative future keeps the world ready to run. *)
Lemma ready_spawn kind name (f : F) m n w :
  Ready_to_run n w -> coop m f -> room (S n) ->
  exists w' jh, spawn_any kind name f w = Ok (w', jh) /\ Ready_to_run (S (n + m)) w'.
Proof.
  intros [[HP (bud & p & q & Hq & Hd & Hb & Hs)] HR Hi Hbs Hsd] Hc Hroom. cbn [length] in Hs.
  destruct (spawn_any_ok kind name f w p q Hq) as (w' & jh & Hsp & He & id & [Hv Hvac _ _ Hf Hs'] & _ & Hq').
  { unfold room in *. lia. }
  exists w', jh. split; [done|].
  destruct (enqueue_in kind id p q) as (dp & dq & Heq & Hl & Hin). rewrite Heq in Hq'.
  split.
  - split; [by apply He|]. exists (<[id := m]> bud), (p ++ dp), (q ++ dq). split; [done|].
    split; [by rewrite Hv, !dom_insert_L, Hd|].
    assert (Hbi : bud !! id = None) by (apply not_elem_of_dom; rewrite Hd; by apply not_elem_of_dom).
    split; [|rewrite msum_insert, !length_app by done; cbn [length]; lia].
    intros i x Hix. destruct (decide (i = id)) as [->|Hne].
    + rewrite lookup_insert_eq in Hix. injection Hix as <-. split; [by apply live_ids_new|].
      eexists _, _. split; [unfold live_at; by rewrite Hv, lookup_insert_eq|].
      split; [done|]. cbn. by rewrite mt_inner_maybe.
    + rewrite lookup_insert_ne in Hix by done. destruct (Hb i x Hix) as (Hi' & t & bd & Ht & ?).
      split; [by apply live_ids_ext|]. exists t, bd. split; [|done]. by eapply live_insert_other.
  - by rewrite (fr_reactors _ _ Hf).
  - by rewrite (fr_config _ _ Hf).
  - by rewrite (fr_config _ _ Hf).
  - congruence.
Qed.

(** C6. [run_queue] terminates on cooperative programs: if every live task is
    cooperative with its id queued, and the budgets and the queued ids sum to at
    most [n], which the queues can hold and is below the stuck limit, then the
    loop returns within [n] passes, without a panic, with the pool empty: every
    task, including those spawned on the way, has completed. *)
Theorem run_queue_terminates n fuel w :
  Ready_to_run n w -> room n -> n <= fuel -> (Z.of_nat n <= max_stuck_iterations)%Z ->
  exists w', run_queue fuel w = Ok (w', PoolEmpty) /\ slab_len (task_pool (rt w')) = 0.
Proof.
  intros Hrr Hroom Hfuel Hmax.
  destruct (run_loop_coop n fuel max_stuck_iterations 0 1 w Hrr Hroom Hfuel) as (w' & Hr & _ & Hv); try lia.
  { apply env_u64_range. unfold in_u64. lia. }
  exists w'. split; [done|]. rewrite slab_len_view. fold (view w'). by rewrite Hv.
Qed.

(** ** Giving up

    Nothing to do: no id is queued, no reactor is registered, yet the pool is not
    empty.  A pass changes nothing but the counters. *)
Record Deadlocked w : Prop := {
  dl_queues : queues w [] [];
  dl_reactors : reactors (rt w) = [];
  dl_pool : view w <> ∅;
  dl_interval : reactor_poll_interval (scheduling_config (rt w)) <> 0%Z
}.

Lemma deadlocked_same w w' :
  task_pool (rt w') = task_pool (rt w) -> reactors (rt w') = reactors (rt w) ->
  scheduling_config (rt w') = scheduling_config (rt w) -> queues w' [] [] ->
  Deadlocked w -> Deadlocked w'.
Proof.
  intros Hp Hr Hc Hq [H1' H2' H3' H4']. split; [done|by rewrite Hr| |by rewrite Hc].
  unfold view in *. by rewrite Hp.
Qed.

(** Everything a pass without work leaves alone. *)
Record untouched w w' : Prop := {
  un_pool : task_pool (rt w') = task_pool (rt w);
  un_heap : heap w' = heap w;
  un_env : env w' = env w;
  un_shutdown : shutdown_requested (rt w') = shutdown_requested (rt w);
  un_stat : stat (rt w') = stat (rt w)
}.

#[export] Instance untouched_preorder : PreOrder untouched.
Proof. split; [by split|]. intros w1 w2 w3 [] []. split; congruence. Qed.

Lemma deadlocked_drain w : Deadlocked w ->
  exists w', drain_polling w = Ok w' /\ Deadlocked w' /\ untouched w w' /\
    polling_task_buffer (rt w') = [] /\ iteration_count (rt w') = iteration_count (rt w) /\ os w' = os w.
Proof.
  intros HD. destruct (drain_polling_spec w [] [] (dl_queues _ HD)) as (c & Hd & Hc).
  eexists. split; [exact Hd|]. split; [|by split].
  apply (deadlocked_same w); [done..| |exact HD]. split; [done|]. apply HD.
Qed.

Lemma deadlocked_batch w : Deadlocked w ->
  exists w', take_batch w = Ok w' /\ Deadlocked w' /\ untouched w w' /\
    task_buffer (rt w') = [] /\ iteration_count (rt w') = iteration_count (rt w) /\ os w' = os w.
Proof.
  intros HD. destruct (take_batch_spec w [] [] (dl_queues _ HD)) as (c & Hd & Hc).
  rewrite take_nil, drop_nil in *.
  eexists. split; [exact Hd|]. split; [|by split].
  apply (deadlocked_same w); [done..| |exact HD]. split; [apply HD|done].
Qed.

Lemma deadlocked_reactors it w (b : bool) : Deadlocked w ->
  (if b then poll_reactors it w else mret (w, false)) = Ok (w, false).
Proof.
  intros HD. by apply no_reactors, HD.
Qed.

Lemma deadlocked_pass w : Deadlocked w ->
  exists w', run_queue_pass w = Ok (w', false) /\ Deadlocked w' /\ untouched w w' /\
    iteration_count (rt w') = wrap64 (iteration_count (rt w) + 1).
Proof.
  intros HD. unfold run_queue_pass.
  destruct (next_iteration w) as [w0 it] eqn:Hni.
  assert (w0 = on_rt (set_iteration_count (wrap64 (iteration_count (rt w) + 1))) w) as -> by by inversion Hni.
  set (w0 := on_rt _ w).
  assert (HD0 : Deadlocked w0) by (apply (deadlocked_same w); [done..|apply HD|exact HD]).
  destruct (deadlocked_drain w0 HD0) as (w1 & Hd & HD1 & Hu1 & Hb1 & Hi1 & _). rewrite Hd.
  cbn [mbind outcome_bind].
  destruct (check_safety_bound w1) as [w2 s] eqn:Hcs.
  assert (Hw2 : Deadlocked w2 /\ untouched w1 w2 /\ polling_task_buffer (rt w2) = [] /\
     iteration_count (rt w2) = iteration_count (rt w1)).
  { unfold check_safety_bound in Hcs. destruct (_ <=? _)%Z in Hcs; simplify_eq; cbn;
      (split; [by (eapply deadlocked_same, HD1; try done; apply HD1)|by split]). }
  destruct Hw2 as (HD2 & Hu2 & Hb2 & Hi2).
  destruct (should_poll_ok s it w2) as [pn Hpn]; [apply HD2|]. rewrite Hpn. cbn [mbind outcome_bind].
  rewrite (deadlocked_reactors it w2 pn HD2). cbn [mbind outcome_bind].
  rewrite Hb2. cbn [poll_buffer mbind outcome_bind mret outcome_ret].
  destruct (deadlocked_batch w2 HD2) as (w3 & Hd3 & HD3 & Hu3 & Hb3 & Hi3 & _). rewrite Hd3.
  cbn [mbind outcome_bind]. rewrite Hb3. cbn [poll_buffer mbind outcome_bind mret outcome_ret].
  eexists. split; [reflexivity|].
  assert (Hu : untouched w w3).
  { transitivity w0; [by split|]. transitivity w1; [done|]. by transitivity w2. }
  assert (Hi : iteration_count (rt w3) = wrap64 (iteration_count (rt w) + 1)) by by rewrite Hi3, Hi2, Hi1.
  unfold idle_park, update_reactor_only, yield_thread.
  repeat case_match; (split; [by (eapply deadlocked_same, HD3; try done; apply HD3)|]);
    (split; [transitivity w3; [done|by split]|done]).
Qed.

Lemma deadlocked_loop n fuel max stuck sleep w :
  Deadlocked w -> shutdown_requested (rt w) = false ->
  (0 <= stuck <= max)%Z -> (max < u64_max)%Z -> Z.of_nat n = (max - stuck)%Z -> n < fuel ->
  exists w', run_queue_loop fuel max stuck sleep w = Ok (w', StuckOut) /\ untouched w w' /\
    iteration_count (rt w') = wrap64 (iteration_count (rt w) + Z.of_nat n + 1).
Proof.
  revert fuel stuck sleep w. induction n as [|n IH]; intros fuel stuck sleep w HD Hsd Hst Hmax Hn Hf;
    (destruct fuel as [|fuel]; [lia|]); cbn [run_queue_loop]; rewrite slab_len_zero;
    rewrite bool_decide_eq_false_2 by apply HD; rewrite Hsd;
    destruct (deadlocked_pass w HD) as (w1 & Hp & HD1 & Hu1 & Hi1);
    unfold run_queue_iter; rewrite Hp; cbn [mbind outcome_bind mret outcome_ret]; unfold stuck_check;
    rewrite (wrap64_small (stuck + 1)) by (unfold in_u64, u64_max in *; lia).
  - rewrite (proj2 (Z.ltb_lt max (stuck + 1))) by lia. exists w1.
    split; [done|]. split; [done|]. rewrite Hi1. f_equal. lia.
  - rewrite (proj2 (Z.ltb_ge max (stuck + 1))) by lia.
    assert (Hgo : forall sl w2, Deadlocked w2 -> untouched w1 w2 ->
      iteration_count (rt w2) = iteration_count (rt w1) ->
      exists w', run_queue_loop fuel max (stuck + 1) sl w2 = Ok (w', StuckOut) /\ untouched w w' /\
        iteration_count (rt w') = wrap64 (iteration_count (rt w) + Z.of_nat (S n) + 1)).
    { intros sl w2 HD2 Hu2 Hi2.
      destruct (IH fuel (stuck + 1)%Z sl w2) as (w' & Hl & Hu & Hi); try done; try lia.
      { by rewrite (un_shutdown _ _ Hu2), (un_shutdown _ _ Hu1). }
      exists w'. split; [done|]. split; [transitivity w1; [done|]; by transitivity w2|].
      rewrite Hi, Hi2, Hi1. unfold wrap64. rewrite <- Z.add_assoc, Zplus_mod_idemp_l. f_equal. lia. }
    destruct (_ =? 0)%Z; apply Hgo; try done. by eapply deadlocked_same, HD1; try done; apply HD1.
Qed.

(** [block_on] in the same state panics instead. *)
Lemma deadlocked_block_iter w : Deadlocked w ->
  exists w', block_on_iter w = Ok (w', false) /\ Deadlocked w' /\ untouched w w'.
Proof.
  intros HD. unfold block_on_iter.
  destruct (next_iteration w) as [w0 it] eqn:Hni.
  assert (w0 = on_rt (set_iteration_count (wrap64 (iteration_count (rt w) + 1))) w) as -> by by inversion Hni.
  set (w0 := on_rt _ w).
  assert (HD0 : Deadlocked w0) by (apply (deadlocked_same w); [done..|apply HD|exact HD]).
  destruct (deadlocked_drain w0 HD0) as (w1 & Hd & HD1 & Hu1 & Hb1 & Hi1 & _). rewrite Hd.
  cbn [mbind outcome_bind].
  destruct (should_poll_ok false it w1) as [pn Hpn]; [apply HD1|]. rewrite Hpn. cbn [mbind outcome_bind].
  rewrite (deadlocked_reactors it w1 pn HD1). cbn [mbind outcome_bind].
  rewrite Hb1. cbn [poll_buffer mbind outcome_bind mret outcome_ret].
  destruct (deadlocked_batch w1 HD1) as (w3 & Hd3 & HD3 & Hu3 & Hb3 & Hi3 & _). rewrite Hd3.
  cbn [mbind outcome_bind]. rewrite Hb3. cbn [poll_buffer mbind outcome_bind mret outcome_ret].
  exists w3. split; [done|]. split; [done|].
  transitivity w0; [by split|]. by transitivity w1.
Qed.

Lemma deadlocked_block_loop n fuel max target stuck w :
  Deadlocked w -> is_Some (view w !! target) -> (0 <= stuck <= max)%Z -> (max < u64_max)%Z ->
  Z.of_nat n = (max - stuck)%Z -> n < fuel ->
  block_on_loop fuel max target stuck w = Panic "block_on deadlock detected".
Proof.
  revert fuel stuck w. induction n as [|n IH]; intros fuel stuck w HD Ht Hst Hmax Hn Hf;
    (destruct fuel as [|fuel]; [lia|]); cbn [block_on_loop]; rewrite slab_get_view;
    fold (view w); destruct Ht as [s Ht]; rewrite Ht;
    destruct (deadlocked_block_iter w HD) as (w1 & Hp & HD1 & Hu1);
    rewrite Hp; cbn [mbind outcome_bind mret outcome_ret];
    rewrite (wrap64_small (stuck + 1)) by (unfold in_u64, u64_max in *; lia).
  - by rewrite (proj2 (Z.ltb_lt max (stuck + 1))) by lia.
  - rewrite (proj2 (Z.ltb_ge max (stuck + 1))) by lia.
    apply IH; try done; try lia.
    + by eapply deadlocked_same, HD1; try done; apply HD1.
    + unfold view. cbn. rewrite (un_pool _ _ Hu1). fold (view w). by rewrite Ht.
Qed.

(** C8. The runtime does not hang on tasks nobody can wake.  With no id queued, no
    reactor and a pool that is not empty, [run_queue] returns after exactly one
    pass more than [PLUVIO_MAX_STUCK_ITERATIONS] and reports that it is stuck,
    having touched neither tasks nor results nor the environment; [block_on]'s
    loop, waiting for any task of that pool, panics. *)
Theorem deadlock_is_reported fuel w :
  Deadlocked w -> shutdown_requested (rt w) = false ->
  (max_stuck_iterations < u64_max)%Z -> (max_stuck_iterations < Z.of_nat fuel)%Z ->
  (exists w', run_queue fuel w = Ok (w', StuckOut) /\ untouched w w' /\
    iteration_count (rt w') = wrap64 (iteration_count (rt w) + max_stuck_iterations + 1)) /\
  (forall target, is_Some (view w !! target) ->
    block_on_loop fuel max_stuck_iterations target 0 w = Panic "block_on deadlock detected").
Proof.
  intros HD Hsd Hmax Hf.
  assert (Hr : in_u64 max_stuck_iterations) by (apply env_u64_range; unfold in_u64; lia).
  unfold in_u64 in Hr. split.
  - destruct (deadlocked_loop (Z.to_nat max_stuck_iterations) fuel max_stuck_iterations 0 1 w)
      as (w' & Hl & Hu & Hi); try done; try lia.
    exists w'. split; [done|]. split; [done|]. rewrite Hi. f_equal. lia.
  - intros target Ht.
    apply (deadlocked_block_loop (Z.to_nat max_stuck_iterations)); try done; lia.
Qed.

(** ** Why the loop returned *)

(** The last [n] passes before [w] made no progress (a pass may be followed by a
    sleep). *)
Inductive idle_for : nat -> World -> Prop :=
| idle_zero w : idle_for 0 w
| idle_pass n w w1 w2 :
    idle_for n w -> run_queue_pass w = Ok (w1, false) ->
    w2 = w1 \/ (exists e, w2 = yield_thread e w1) -> idle_for (S n) w2.

Lemma stuck_check_idle max stuck sleep w w1 w2 st sl brk :
  (0 <= stuck <= max)%Z -> (max <= u64_max)%Z -> idle_for (Z.to_nat stuck) w ->
  run_queue_pass w = Ok (w1, false) -> stuck_check max false stuck sleep w1 = (w2, st, sl, brk) ->
  idle_for (Z.to_nat st) w2 /\ (0 <= st)%Z /\ if brk then st = (max + 1)%Z else (st <= max)%Z.
Proof.
  intros Hst Hmax Hidle Hp. unfold stuck_check.
  destruct (decide (stuck + 1 < 2 ^ 64)%Z) as [Hlt|Hge].
  - rewrite wrap64_small by (unfold in_u64; lia).
    destruct (max <? stuck + 1)%Z eqn:Hc; [|destruct (_ =? 0)%Z]; intros [= <- <- <- <-];
      (replace (Z.to_nat (stuck + 1)) with (S (Z.to_nat stuck)) by lia);
      (split; [eapply idle_pass; [exact Hidle|exact Hp|eauto]|lia]).
  - assert (Hw : wrap64 (stuck + 1) = 0%Z).
    { unfold u64_max in Hmax. by replace (stuck + 1)%Z with (2 ^ 64)%Z by lia. }
    rewrite Hw. destruct (max <? 0)%Z eqn:Hc; [lia|]. cbn.
    intros [= <- <- <- <-]. split; [constructor|lia].
Qed.

Lemma run_loop_exit fuel max stuck sleep w w' ex :
  (0 <= stuck <= max)%Z -> (max <= u64_max)%Z -> idle_for (Z.to_nat stuck) w ->
  run_queue_loop fuel max stuck sleep w = Ok (w', ex) ->
  match ex with
  | PoolEmpty => slab_len (task_pool (rt w')) = 0
  | ShutDown => shutdown_requested (rt w') = true /\ slab_len (task_pool (rt w')) <> 0
  | StuckOut => idle_for (S (Z.to_nat max)) w'
  | OutOfFuel => shutdown_requested (rt w') = false /\ slab_len (task_pool (rt w')) <> 0
  end.
Proof.
  revert stuck sleep w. induction fuel as [|fuel IH]; intros stuck sleep w Hst Hmax Hidle;
    cbn [run_queue_loop]; (destruct (Nat.eqb_spec (slab_len (task_pool (rt w))) 0) as [Hz|Hz];
    [by intros [= <- <-]|]); (destruct (shutdown_requested (rt w)) eqn:Hsd; [by intros [= <- <-]|]).
  - by intros [= <- <-].
  - intros Hrun. apply bind_Ok in Hrun as ([[[w2 st] sl] brk] & Hit & Hrun).
    unfold run_queue_iter in Hit. apply bind_Ok in Hit as ([w1 b] & Hp & Hit).
    injection Hit as Hit. destruct b.
    + cbn in Hit. injection Hit as <- <- <- <-. eapply IH, Hrun; [lia|done|constructor].
    + destruct (stuck_check_idle _ _ _ _ _ _ _ _ _ Hst Hmax Hidle Hp Hit) as (Hi2 & H0' & Hb).
      destruct brk.
      * injection Hrun as <- <-. subst st. by replace (Z.to_nat (max + 1)) with (S (Z.to_nat max)) in Hi2 by lia.
      * eapply IH, Hrun; [lia|done|done].
Qed.

(** C35. Whatever the program, when [run_queue] returns it returns for one of the
    three documented reasons: the pool is empty; shutdown was requested with
    tasks remaining; or the last [PLUVIO_MAX_STUCK_ITERATIONS] + 1 passes in a row
    made no progress (no reactor polled, no task completed). *)
Theorem run_queue_exit_reason fuel w w' ex :
  run_queue fuel w = Ok (w', ex) ->
  match ex with
  | PoolEmpty => slab_len (task_pool (rt w')) = 0
  | ShutDown => shutdown_requested (rt w') = true /\ slab_len (task_pool (rt w')) <> 0
  | StuckOut => idle_for (S (Z.to_nat max_stuck_iterations)) w'
  | OutOfFuel => shutdown_requested (rt w') = false /\ slab_len (task_pool (rt w')) <> 0
  end.
Proof.
  assert (Hr : in_u64 max_stuck_iterations) by (apply env_u64_range; unfold in_u64; lia).
  unfold in_u64 in Hr. apply run_loop_exit; [lia|unfold u64_max; lia|constructor].
Qed.

(** ** What completing a task does *)

(** C7. A spawned task's value reaches its own join handle and wakes its joiner.
    When polling the id of a live task completes it, its future, polled with the task's
    own waker in the world the poll begins with, returned some [v] and left a world [w1];
    the task's result cell then holds exactly [v] at the task's output type, so a
    handle of that type reads it, and every other cell is as [w1] has it; the waker that
    [w1] has in the task's cell, if one was registered, has its id queued at the end of its
    queue, and nothing else is queued; the cells of all other live tasks are still empty,
    the task's slot is free and the invariant holds again. *)
Theorem completion_reaches_handle b id t ty mt w w' p q :
  PoolOk None w -> live_at w id t -> fbody (future t) = Some (BodySpawned ty mt) ->
  fut_sends_le b (mt_inner mt) -> queues w p q -> room (length p + length q + S b) ->
  poll_and_retire id w = Ok (w', true) ->
  exists w1 mt' v p1 q1,
    MaybeTracked_poll (new_waker (tsender t) id) mt (read_clock (take_slot id w)).1 = Ok (w1, mt', Ready v) /\
    queues w1 p1 q1 /\
    heap_get (heap w') (tshared t) = mkShared None (Some (ROk (mkAny ty v))) /\
    (forall addr, addr <> tshared t -> heap_get (heap w') addr = heap_get (heap w1) addr) /\
    (forall k, JoinHandle_poll k (mkJoin (tshared t) ty) (heap w') =
       (heap_set (tshared t) (mkShared None None) (heap w'), Ready (ROk v))) /\
    (forall i u, live_at w' i u -> sresult (heap_get (heap w') (tshared u)) = None) /\
    match waker (heap_get (heap w1) (tshared t)) with
    | Some k => let pq := enqueue (task_sender k) (task_id k) (p1, q1) in queues w' pq.1 pq.2
    | None => queues w' p1 q1
    end /\
    view w' !! id = None /\ PoolOk None w'.
Proof.
  intros HP Ht Hbd Hb Hq Hroom Hpr.
  destruct (poll_and_retire_spec b id t _ w p q HP Ht Hbd Hb Hq Hroom)
    as (wm & w2 & r & ob & st & Hp & Hpol).
  rewrite Hpr in Hp. injection Hp as <- Hr.
  destruct (polled_inv _ _ _ _ _ _ _ _ _ _ HP Ht Hpol) as (HP' & _ & _).
  destruct Hpol as [Hpoll _ Hready _]. specialize (Hready (symmetry Hr)). destruct r as [[]|]; [|done].
  destruct (take_slot_ok id t w HP Ht) as [_ Hfree]. destruct (po_task _ _ HP _ _ Ht) as [_ _ Hsh _ _].
  destruct (Task_poll_ready b t ty mt id (take_slot id w) wm _ p q Hbd Hb Hq Hroom Hpoll)
    as (w1 & mt' & v & wa & wb & p1 & q1 & Hmt & Hq1 & Hq2 & Hc & Hq3). rewrite Hsh in Hc.
  exists w1, mt', v, p1, q1. split; [done|]. split; [done|].
  assert (Hheap : heap w' = heap wb) by (rewrite (rd_heap _ _ _ Hready); apply Hq3).
  assert (Ha1 : heap wa = heap w1) by apply Hq2.
  assert (Hcell : heap_get (heap w') (tshared t) = mkShared None (Some (ROk (mkAny ty v)))).
  { rewrite Hheap, (cp_heap _ _ _ _ Hc). by rewrite decide_True. }
  split; [exact Hcell|]. split.
  { intros addr Ha. rewrite Hheap, (cp_heap _ _ _ _ Hc), Ha1. by rewrite decide_False. }
  split; [intros k; unfold JoinHandle_poll; cbn; rewrite Hcell; cbn; by rewrite Nat.eqb_refl|].
  split; [intros i u Hu; apply (po_task _ _ HP' i u Hu)|]. split.
  - pose proof (cp_queues _ _ _ _ Hc _ _ (quiet_queues _ _ _ _ Hq2 Hq1)) as Hx. rewrite Ha1 in Hx.
    destruct (waker (heap_get (heap w1) (tshared t))) as [k'|]; apply Hready, (quiet_queues _ _ _ _ Hq3 Hx).
  - split; [|done]. rewrite (rd_view _ _ _ Hready). apply lookup_delete_eq.
Qed.
End live.

(** ** Witnesses *)

Lemma demo_coop n v : coop (S (S (n + n))) (Yield n v).
Proof.
  induction n as [|n IH]; constructor; intros k; cbn.
  - constructor.
  - replace (n + S n) with (S (n + n)) by lia. apply ca_wake.
    rewrite bool_decide_eq_true_2 by done. by apply ca_pending.
Qed.

Lemma empty_demo_ready : Ready_to_run 0 empty_demo.
Proof.
  destruct empty_demo_wf as [[HP (p & q & Hq & Hl)] _].
  destruct p, q; cbn in Hl; try lia. split; try (vm_compute; done).
  - split; [done|]. exists ∅, [], []. split; [done|]. split.
    + replace (view empty_demo) with (∅ : gmap nat (option (Task (TaskFuture Demo)))); [|vm_compute; done].
      by rewrite !dom_empty_L.
    + split; [done|]. vm_compute. lia.
  - apply (Nat.leb_le 1). vm_compute. done.
Qed.

Lemma run_queue_terminates_witness : exists w jh w',
  spawn_any TaskQueue None (Yield 2 7) empty_demo = Ok (w, jh) /\ run_queue 7 w = Ok (w', PoolEmpty).
Proof.
  destruct (ready_spawn TaskQueue None (Yield 2 7) 6 0 empty_demo empty_demo_ready (demo_coop 2 7))
    as (w & jh & Hs & Hr); [unfold room, chan_room; cbn; lia|].
  destruct (run_queue_terminates 7 7 w Hr) as (w' & Hrun & _).
  - unfold room, chan_room. cbn. lia.
  - lia.
  - replace max_stuck_iterations with 20%Z by (vm_compute; reflexivity). lia.
  - exists w, jh, w'. exact (conj Hs Hrun).
Defined.

(** A pool with one task that was polled once and never woken. *)
Definition sleeping_demo : DemoWorld :=
  match spawn_any TaskQueue None Never empty_demo with
  | Ok (w, _) => match run_queue_pass w with Ok (w, _) => w | Panic _ => w end
  | Panic _ => empty_demo
  end.

Lemma queues_empty (w : DemoWorld) n :
  WF n w -> chan_len (polling_chan (rt w)) = 0 -> chan_len (task_chan (rt w)) = 0 -> queues w [] [].
Proof.
  intros [_ (p & q & [Hp Hq] & _)]. rewrite (chan_len_rep _ _ Hp), (chan_len_rep _ _ Hq).
  intros ->%length_zero_iff_nil ->%length_zero_iff_nil. by split.
Qed.

Lemma sleeping_demo_wf : exists n, WF n sleeping_demo.
Proof.
  destruct empty_demo_wf as [HW HS].
  destruct (spawn_any_wf TaskQueue None Never 0 empty_demo HW) as (w & Hs & HW1 & _);
    [unfold room, chan_room; cbn; lia|].
  assert (HS1 : Setup 0 w).
  { assert (Hw : match spawn_any TaskQueue None Never empty_demo with
      | Ok (w, _) => Setup 0 w | Panic _ => True end).
    { vm_compute. split; [constructor|done]. }
    by rewrite Hs in Hw. }
  destruct (run_queue_pass_wf 1 demo_fut_sends 0 1 w HW1 HS1) as (w' & b & Hp & HW2 & _).
  { assert (Hw : match spawn_any TaskQueue None Never empty_demo with
      | Ok (w, _) => (pass_bound 1 0 1 w <=? 100) = true | Panic _ => True end) by (vm_compute; done).
    rewrite Hs in Hw. apply Nat.leb_le in Hw. unfold room.
    assert (Hr : chan_room = (2 ^ 58)%Z) by reflexivity. rewrite Hr. lia. }
  exists (pass_bound 1 0 1 w). unfold sleeping_demo. by rewrite Hs, Hp.
Qed.

Lemma deadlock_is_reported_witness :
  (exists w', run_queue 21 sleeping_demo = Ok (w', StuckOut)) /\
  block_on_loop 21 20 0 0 sleeping_demo = Panic "block_on deadlock detected".
Proof.
  assert (HD : Deadlocked sleeping_demo).
  { split.
    - destruct sleeping_demo_wf as [n HW]. apply (queues_empty _ n HW); vm_compute; reflexivity.
    - vm_compute. done.
    - intros Hv. apply (f_equal (fun m => m !! 0)) in Hv. vm_compute in Hv. done.
    - vm_compute. done. }
  destruct (deadlock_is_reported 21 sleeping_demo HD) as [(w' & Hr & _) Hb].
  - vm_compute. done.
  - vm_compute. done.
  - vm_compute. done.
  - split; [exists w'; exact Hr|]. apply (Hb 0). vm_compute. eexists. reflexivity.
Defined.

Lemma run_queue_exit_reason_witness : exists w',
  run_queue 21 sleeping_demo = Ok (w', StuckOut) /\
  idle_for (S (Z.to_nat max_stuck_iterations)) w'.
Proof.
  destruct (run_queue 21 sleeping_demo) as [[w' ex]|m] eqn:Hr; [|by vm_compute in Hr].
  assert (He : ex = StuckOut) by (vm_compute in Hr; by inversion Hr). subst ex.
  exists w'. split; [reflexivity|]. exact (run_queue_exit_reason 21 sleeping_demo w' StuckOut Hr).
Defined.

(** A pool with one task ready to return 5. *)
Definition ready_demo : DemoWorld :=
  match spawn_any TaskQueue None (Yield 0 5) empty_demo with Ok (w, _) => w | Panic _ => empty_demo end.

Lemma completion_reaches_handle_witness : exists w' v,
  poll_and_retire 0 ready_demo = Ok (w', true) /\
  forall k, JoinHandle_poll k (mkJoin 0 1) (heap w') =
    (heap_set 0 (mkShared None None) (heap w'), Ready (ROk v)).
Proof.
  destruct empty_demo_wf as [HW _].
  destruct (spawn_any_wf TaskQueue None (Yield 0 5) 0 empty_demo HW) as (w & Hs & [HP (p & q & Hq & Hl)] & _);
    [unfold room, chan_room; cbn; lia|].
  assert (Hw : ready_demo = w) by (unfold ready_demo; by rewrite Hs). rewrite <- Hw in *.
  destruct (poll_and_retire 0 ready_demo) as [[w' b]|m] eqn:Hr; [|by vm_compute in Hr].
  assert (b = true) as -> by (vm_compute in Hr; by inversion Hr).
  destruct (completion_reaches_handle 1 0
    (mkTask (mkTaskFuture (Some (BodySpawned 1 (Untracked (Yield 0 5)))) 0) TaskQueue 0 (Some (TaskStat_new None)))
    1 (Untracked (Yield 0 5)) ready_demo w' p q HP)
    as (w1 & mt' & v & p1 & q1 & _ & _ & _ & _ & Hj & _).
  - vm_compute. reflexivity.
  - reflexivity.
  - apply demo_fut_sends.
  - exact Hq.
  - unfold room, chan_room. cbn. lia.
  - exact Hr.
  - exists w', v. split; [reflexivity|exact Hj].
Defined.
