(* ===== verification/ExecutorType.v ===== *)
(** * ExecutorType: results have the type their handle expects

    A task's result crosses from the task to its [JoinHandle] as a [Box<dyn Any>] that
    the handle downcasts.  A typing of the shared states ([Typing]: the type of each
    address, as a store typing) is kept by every operation of the runtime and only
    grows, whatever the user's futures do; so the downcast of a handle that came out
    of a spawn never fails. *)

From S2P Require Import Prelude Spsc Future Track Slab Task Executor ExecutorDemo ExecutorFacts.
Local Open Scope nat_scope.

Section types.
Context {V F E C SL : Type} `{Program V F E} `{FifoChan C}.
Context `{Slab (option (Task (TaskFuture F))) SL}.
Abbreviation World := (World V E C SL).
Abbreviation Act := (Act V F E).
Abbreviation Task := (Task (TaskFuture F)).
Implicit Types (w : World) (k : Waker) (id : nat) (t : Task) (a : Act).

(** ** Typings *)

Abbreviation Typing := (gmap nat nat).
Implicit Types (Γ : Typing).

(** The type a task body stores its result at. *)
Definition body_type (b : TaskBody F) : nat :=
  match b with BodySpawned ty _ => ty | BodyBlockOn _ _ => unit_type end.

Definition future_typed Γ (tf : TaskFuture F) : Prop :=
  forall bd, fbody tf = Some bd -> Γ !! fshared tf = Some (body_type bd).
Definition handle_typed Γ (jh : JoinHandle) : Prop := Γ !! shared_state jh = Some (type_data jh).

Record well_typed Γ w : Prop := {
  wt_task id t : live_at w id t -> future_typed Γ (future t);
  wt_heap addr r : sresult (heap_get (heap w) addr) = Some r ->
    exists data, r = ROk data /\ Γ !! addr = Some (any_type data);
  wt_next addr : next_addr w <= addr -> Γ !! addr = None
}.

(** What the operations do to typings. *)
Definition evolves w w' : Prop :=
  forall Γ, well_typed Γ w -> exists Γ', Γ ⊆ Γ' /\ well_typed Γ' w'.

#[export] Instance evolves_preorder : PreOrder evolves.
Proof.
  split; [intros w Γ HΓ; by exists Γ|]. intros w1 w2 w3 H12 H23 Γ HΓ.
  destruct (H12 Γ HΓ) as (Γ2 & Hs2 & HΓ2). destruct (H23 Γ2 HΓ2) as (Γ3 & Hs3 & HΓ3).
  exists Γ3. split; [by trans Γ2|done].
Qed.

Lemma future_typed_mono Γ Γ' tf : Γ ⊆ Γ' -> future_typed Γ tf -> future_typed Γ' tf.
Proof. intros Hs Hf bd Hb. eapply lookup_weaken; [by apply Hf|done]. Qed.

Lemma well_typed_same Γ w w' :
  view w' = view w -> heap w' = heap w -> next_addr w' = next_addr w -> well_typed Γ w -> well_typed Γ w'.
Proof.
  intros Hv Hh Hn [W1 W2 W3]. unfold live_at in *.
  split; unfold live_at; [rewrite Hv|rewrite Hh|rewrite Hn]; done.
Qed.

Lemma evolves_same w w' :
  view w' = view w -> heap w' = heap w -> next_addr w' = next_addr w -> evolves w w'.
Proof. intros Hv Hh Hn Γ HΓ. exists Γ. split; [done|]. by eapply well_typed_same. Qed.

(** A slot gets a well-typed task. *)
Lemma well_typed_slot Γ w w' id (o : option Task) :
  view w' = <[id := o]> (view w) -> heap w' = heap w -> next_addr w' = next_addr w ->
  (forall t, o = Some t -> future_typed Γ (future t)) -> well_typed Γ w -> well_typed Γ w'.
Proof.
  intros Hv Hh Hn Ho [W1 W2 W3]. unfold live_at in *.
  split; unfold live_at; [rewrite Hv|rewrite Hh|rewrite Hn]; try done.
  intros i t Hi. destruct (decide (i = id)) as [->|Hne].
  - rewrite lookup_insert_eq in Hi. injection Hi as ->. by apply Ho.
  - rewrite lookup_insert_ne in Hi by done. by eapply W1.
Qed.

(** ** Sending and spawning *)

Lemma send_to_evolves kind id w w' : send_to kind id w = Ok w' -> evolves w w'.
Proof. intros Hs. destruct kind; cbn in Hs; inv_Ok; by apply evolves_same. Qed.

Lemma wake_all_evolves ks w w' : wake_all ks w = Ok w' -> evolves w w'.
Proof.
  revert w. induction ks as [|k ks IH]; intros w Hw; cbn in Hw; inv_Ok; [done|].
  etrans; [by eapply send_to_evolves|]. by apply IH.
Qed.

Lemma insert_and_send_typed b kind name w w' id jh Γ :
  insert_and_send b (body_type b) kind name w = Ok (w', id, jh) -> well_typed Γ w ->
  exists Γ', Γ ⊆ Γ' /\ well_typed Γ' w' /\ handle_typed Γ' jh /\ type_data jh = body_type b /\
    shared_state jh = next_addr w.
Proof.
  intros Hs HΓ. unfold insert_and_send, create_task_and_handle, pool_insert in Hs.
  set (t := Some (Task_new (mkTaskFuture (Some b) (next_addr w)) kind (next_addr w) name)) in *.
  cbn in Hs. destruct (slab_insert_view t (task_pool (rt w))) as [Hvac Hview].
  destruct (slab_insert t (task_pool (rt w))) as [pool i] eqn:Hi. cbn in Hvac, Hview.
  apply bind_Ok in Hs as (w2 & Hsend & Hs). inv_Ok.
  assert (Hfresh : Γ !! next_addr w = None) by (by apply (wt_next _ _ HΓ)).
  set (Γ' := <[next_addr w := body_type b]> Γ).
  assert (Hsub : Γ ⊆ Γ') by by apply insert_subseteq.
  match type of Hsend with send_to _ _ ?x = _ => set (w1 := x) in * end.
  assert (HΓ1 : well_typed Γ' w1).
  { destruct HΓ as [W1 W2 W3]. split.
    - intros j u. unfold live_at, view, w1. cbn. rewrite Hview.
      destruct (decide (j = id)) as [->|Hne]; [rewrite lookup_insert_eq|rewrite lookup_insert_ne by done].
      + intros [= <-] bd [= <-]. apply lookup_insert_eq.
      + intros Hj. eapply future_typed_mono; [exact Hsub|]. by eapply W1.
    - intros addr r. cbn. rewrite heap_get_set. case_decide; [done|]. intros Hr.
      destruct (W2 _ _ Hr) as (data & -> & Hd). exists data. split; [done|]. by eapply lookup_weaken.
    - intros addr Ha. cbn in Ha. unfold Γ'. rewrite lookup_insert_ne by lia. apply W3. lia. }
  destruct (send_to_evolves _ _ _ _ Hsend _ HΓ1) as (Γ'' & Hsub' & HΓ'').
  exists Γ''. split; [by trans Γ'|]. split; [done|]. split; [|done].
  eapply lookup_weaken; [|exact Hsub']. apply lookup_insert_eq.
Qed.

(** A spawned task's handle has the type of its future's output. *)
Lemma spawn_any_typed kind name f w w' jh Γ :
  spawn_any kind name f w = Ok (w', jh) -> well_typed Γ w ->
  exists Γ', Γ ⊆ Γ' /\ well_typed Γ' w' /\ handle_typed Γ' jh /\ type_data jh = out_type f.
Proof.
  rewrite spawn_any_unfold. intros Hs HΓ. apply bind_Ok in Hs as ([[w1 id] jh1] & Hs & Heq). injection Heq as <- <-.
  destruct (insert_and_send_typed _ _ _ _ _ _ _ _ Hs HΓ) as (Γ' & H1' & H2' & H3' & H4' & _).
  by exists Γ'.
Qed.

(** ** Joining *)

Lemma join_typed k jh w Γ : well_typed Γ w -> well_typed Γ (set_heap (JoinHandle_poll k jh (heap w)).1 w).
Proof.
  intros [W1 W2 W3]. split; try done. intros addr r. unfold JoinHandle_poll. cbn.
  destruct (sresult (heap_get (heap w) (shared_state jh))); cbn [fst]; rewrite heap_get_set; case_decide; apply W2 || discriminate.
Qed.

(** A typed handle is pending or yields a value, never an error. *)
Lemma join_succeeds k jh w Γ : well_typed Γ w -> handle_typed Γ jh ->
  (JoinHandle_poll k jh (heap w)).2 = Pending \/ exists v, (JoinHandle_poll k jh (heap w)).2 = Ready (ROk v).
Proof.
  intros HΓ Hj. unfold JoinHandle_poll. destruct (sresult _) as [r|] eqn:Hr; [|by left]. right.
  destruct (wt_heap _ _ HΓ _ _ Hr) as (data & -> & Hd). unfold handle_typed in Hj. rewrite Hj in Hd.
  injection Hd as Hd. cbn. rewrite Hd, Nat.eqb_refl. by eexists.
Qed.

(** ** User code *)

Lemma run_act_evolves k a w w' f r : run_act k a w = Ok (w', f, r) -> evolves w w'.
Proof.
  revert w. induction a as [f0 p|upd next IH|k' next IH|q name f0 next IH|jh next IH|next IH|msg]; intros w Hr; cbn [run_act] in Hr.
  - by inv_Ok.
  - etrans; [|by eapply IH]. by apply evolves_same.
  - apply bind_Ok in Hr as (w1 & Hs & Hr). etrans; [by eapply send_to_evolves|]. by eapply IH.
  - apply bind_Ok in Hr as ([w1 jh] & Hs & Hr). etrans; [|by eapply IH]. intros Γ HΓ.
    destruct (spawn_any_typed _ _ _ _ _ _ _ Hs HΓ) as (Γ' & ? & ? & _). by exists Γ'.
  - destruct (JoinHandle_poll k jh (heap w)) as [h p] eqn:Hp. etrans; [|by eapply IH].
    intros Γ HΓ. exists Γ. split; [done|]. pose proof (join_typed k jh w Γ HΓ) as HΓ'. by rewrite Hp in HΓ'.
  - etrans; [|by eapply IH]. by apply evolves_same.
  - done.
Qed.

Lemma maybe_tracked_evolves k (mt : MaybeTracked F) w w' (mt' : MaybeTracked F) (r : Poll V) :
  MaybeTracked_poll k mt w = Ok (w', mt', r) -> evolves w w'.
Proof.
  intros Hp. destruct mt as [[f0 o]|f0]; cbn [MaybeTracked_poll] in Hp.
  - apply bind_Ok in Hp as ([[w1 tf] r1] & Hp & [= -> <- ->]). unfold TrackedFuture_poll in Hp.
    destruct (match track_id (mkTracked f0 o) with None => acquire_track_id w | Some id => (w, id) end) as [wa tid] eqn:Ho.
    assert (Ha : evolves w wa).
    { destruct o; cbn in Ho; [injection Ho as -> _; done|]. unfold acquire_track_id in Ho.
      destruct (TrackIdAllocator_acquire _). injection Ho as <- _. by apply evolves_same. }
    apply bind_Ok in Hp as ([[wb f1] r2] & Hf & Hp). apply run_act_evolves in Hf.
    etrans; [exact Ha|]. etrans; [|etrans; [exact Hf|]]; [by apply evolves_same|].
    destruct (is_ready r2); injection Hp as <- _ _.
    + apply evolves_same; reflexivity.
    + apply evolves_same; reflexivity.
  - apply bind_Ok in Hp as ([[w1 f1] r1] & Hp & [= -> _ _]). exact (run_act_evolves _ _ _ _ _ _ Hp).
Qed.

(** ** Polling a task *)

(** What a step does to typings, and that the future it returns is typed. *)
Definition typed_step w w' (tf tf' : TaskFuture F) : Prop :=
  forall Γ, well_typed Γ w -> future_typed Γ tf -> exists Γ', Γ ⊆ Γ' /\ well_typed Γ' w' /\ future_typed Γ' tf'.

Lemma wrapped_finish_typed addr res w w' Γ : wrapped_finish addr res w = Ok w' ->
  well_typed Γ w -> Γ !! addr = Some (any_type res) -> exists Γ', Γ ⊆ Γ' /\ well_typed Γ' w'.
Proof.
  unfold wrapped_finish. destruct (complete_shared_spec addr res (heap w)) as (h & -> & Hh). intros Hw HΓ Ha.
  assert (HΓ1 : well_typed Γ (set_heap h w)).
  { destruct HΓ as [W1 W2 W3]. split; [exact W1| |exact W3]. intros a r. cbn. rewrite Hh. case_decide; [subst a|apply W2].
    intros [= <-]. by exists res. }
  destruct (waker _); [by eapply send_to_evolves|]. inv_Ok. by exists Γ.
Qed.

Lemma wrapped_poll_typed k tf w w' tf' r : wrapped_poll k tf w = Ok (w', tf', r) -> typed_step w w' tf tf'.
Proof.
  unfold wrapped_poll. destruct (fbody tf) as [[ty mt|f holder]|] eqn:Hb; intros Hp Γ HΓ Htf; [| |done];
    specialize (Htf _ Hb); apply bind_Ok in Hp as ([[w1 x] p] & Hpoll & Hp); cbn [body_type] in Htf.
  - destruct (maybe_tracked_evolves _ _ _ _ _ _ Hpoll Γ HΓ) as (Γ1 & Hs1 & HΓ1).
    assert (Ht1 := lookup_weaken _ _ _ _ Htf Hs1). destruct p as [v|].
    + apply bind_Ok in Hp as (w2 & Hf & [= <- <- <-]).
      assert (HΓ2 : well_typed Γ1 (fdrop x w1)) by (destruct x; by eapply well_typed_same, HΓ1).
      destruct (wrapped_finish_typed _ _ _ _ _ Hf HΓ2 Ht1) as (Γ2 & Hs2 & HΓ3).
      exists Γ2. split; [by trans Γ1|]. by split.
    + injection Hp as <- <- <-. exists Γ1. split; [done|]. split; [done|]. by intros bd [= <-].
  - destruct (run_act_evolves _ _ _ _ _ _ Hpoll Γ HΓ) as (Γ1 & Hs1 & HΓ1).
    assert (Ht1 := lookup_weaken _ _ _ _ Htf Hs1). destruct p as [v|].
    + apply bind_Ok in Hp as (w2 & Hf & [= <- <- <-]).
      destruct (wrapped_finish_typed _ _ _ _ Γ1 Hf) as (Γ2 & Hs2 & HΓ3); [by eapply well_typed_same, HΓ1|done|].
      exists Γ2. split; [by trans Γ1|]. by split.
    + injection Hp as <- <- <-. exists Γ1. split; [done|]. split; [done|]. by intros bd [= <-].
Qed.

Lemma Task_poll_typed t id w w' t' r : Task_poll_task t id w = Ok (w', t', r) ->
  typed_step w w' (future t) (future t').
Proof.
  unfold Task_poll_task, read_clock. destruct (clock (env w)) as [e now]. intros Hp Γ HΓ Ht.
  apply bind_Ok in Hp as ([[w1 tf] p] & Hw & Hp). destruct (clock (env w1)) as [e1 later].
  apply bind_Ok in Hp as (st & _ & [= <- <- _]).
  destruct (wrapped_poll_typed _ _ _ _ _ _ Hw Γ) as (Γ1 & Hs1 & HΓ1 & Ht1); [by eapply well_typed_same, HΓ|done|].
  exists Γ1. split; [done|]. split; [by eapply well_typed_same, HΓ1|done].
Qed.

Lemma poll_task_evolves id w w' r : poll_task id w = Ok (w', r) -> evolves w w'.
Proof.
  unfold poll_task. rewrite slab_get_view. fold (view w).
  destruct (view w !! id) as [[t|]|] eqn:Hv; intros Hp; [|by inv_Ok|by inv_Ok].
  fold (take_slot id w) in Hp. apply bind_Ok in Hp as ([[w1 t1] p] & Hp1 & Hp). injection Hp as <- _.
  intros Γ HΓ.
  assert (HΓ0 : well_typed Γ (take_slot id w)).
  { eapply well_typed_slot; [apply take_slot_view; rewrite Hv; by eexists|..]; done. }
  destruct (Task_poll_typed _ _ _ _ _ _ Hp1 Γ HΓ0) as (Γ1 & Hs1 & HΓ1 & Ht1); [exact (wt_task _ _ HΓ id t Hv)|].
  exists Γ1. split; [done|]. rewrite slab_get_view. fold (view w1).
  destruct (view w1 !! id) eqn:Hv1; [|done].
  eapply well_typed_slot; [apply (fill_slot_view id t1); rewrite Hv1; by eexists|done|done| |done]. by intros ? [= <-].
Qed.

Lemma retire_evolves id w w' : retire id w = Ok w' -> evolves w w'.
Proof.
  unfold retire. rewrite slab_get_view. fold (view w). intros Hr.
  apply bind_Ok in Hr as ([[ret st] slot] & Ha & Hr). apply bind_Ok in Hr as (pool & Hp & Hr). injection Hr as <-.
  assert (Hrem : forall p0, slab_remove id p0 = Ok pool -> slab_view pool = delete id (slab_view p0)).
  { intros p0 Hp0. destruct (slab_view p0 !! id) as [o|] eqn:Ho.
    - destruct (slab_remove_view id p0) as (s' & Hs' & Hv); [rewrite Ho; by eexists|]. rewrite Hp0 in Hs'. by injection Hs' as ->.
    - destruct (slab_remove_panic id p0 Ho) as [m Hm]. congruence. }
  apply Hrem in Hp. intros Γ [W1 W2 W3]. exists Γ. split; [done|]. split; [|exact W2|exact W3].
  intros i u. unfold live_at, view. cbn. rewrite Hp. intros [Hne Hi]%lookup_delete_Some.
  assert (Hold : slab_view match slot with Some t => slab_put id t (task_pool (rt w)) | None => task_pool (rt w) end !! i
    = view w !! i).
  { destruct slot as [o|]; [|done]. unfold add_task_stat in Ha. destruct (view w !! id) as [[t|]|] eqn:Hv.
    - rewrite slab_put_view by (unfold view in Hv; rewrite Hv; by eexists). by rewrite lookup_insert_ne.
    - rewrite slab_put_view by (unfold view in Hv; rewrite Hv; by eexists). by rewrite lookup_insert_ne.
    - by injection Ha. }
  rewrite Hold in Hi. exact (W1 i u Hi).
Qed.

Lemma poll_and_retire_evolves id w w' b : poll_and_retire id w = Ok (w', b) -> evolves w w'.
Proof.
  unfold poll_and_retire. intros Hp. apply bind_Ok in Hp as ([w1 r] & Hp1 & Hp).
  etrans; [by eapply poll_task_evolves|]. destruct r as [[u|]|]; [|by inv_Ok..].
  apply bind_Ok in Hp as (w2 & Hr & [= <- _]). by eapply retire_evolves.
Qed.

Lemma poll_buffer_evolves ids w w' b : poll_buffer ids w = Ok (w', b) -> evolves w w'.
Proof.
  revert w b. induction ids as [|id ids IH]; intros w b Hp; cbn [poll_buffer] in Hp; [by inv_Ok|].
  apply bind_Ok in Hp as ([w1 b1] & Hp1 & Hp). apply bind_Ok in Hp as ([w2 b2] & Hp2 & [= <- _]).
  etrans; [by eapply poll_and_retire_evolves|]. by eapply IH.
Qed.

(** ** The event loops *)

Lemma drain_evolves w w' : drain_polling w = Ok w' -> evolves w w'.
Proof. unfold drain_polling. intros Hd. apply bind_Ok in Hd as ([c ids] & _ & [= <-]). by apply evolves_same. Qed.

Lemma batch_evolves w w' : take_batch w = Ok w' -> evolves w w'.
Proof. unfold take_batch. intros Hd. apply bind_Ok in Hd as ([c ids] & _ & [= <-]). by apply evolves_same. Qed.

Lemma poll_reactor_evolves x w w' x' : poll_reactor x w = Ok (w', x') -> evolves w w'.
Proof.
  unfold poll_reactor. intros Hp. apply bind_Ok in Hp as ([e ks] & _ & Hp). apply bind_Ok in Hp as (w1 & Hw & [= <- _]).
  etrans; [|by eapply wake_all_evolves]. by apply evolves_same.
Qed.

Lemma cached_status_evolves x it w w' x' s : get_cached_reactor_status x it w = (w', x', s) -> evolves w w'.
Proof.
  unfold get_cached_reactor_status. destruct (_ <? _)%Z; [by intros [= <- _ _]|].
  destruct (dyn_status _ _). intros [= <- _ _]. by apply evolves_same.
Qed.

Lemma poll_reactors_evolves it w w' b : poll_reactors it w = Ok (w', b) -> evolves w w'.
Proof.
  unfold poll_reactors. intros Hp. apply bind_Ok in Hp as ([[w1 l'] b1] & Hp & [= <- _]).
  trans w1; [|by apply evolves_same]. clear b. revert Hp. generalize (reactors (rt w)) as l. intros l. revert w l' b1.
  induction l as [|[i x] l IH]; intros w l' b1 Hp; cbn [poll_reactors_loop] in Hp; [by injection Hp as <- _ _|].
  destruct (negb (enable x)).
  - apply bind_Ok in Hp as ([[w2 l2] b2] & Hp & [= <- _ _]). by eapply IH.
  - destruct (get_cached_reactor_status x it w) as [[w2 x2] s] eqn:Hs. apply cached_status_evolves in Hs.
    apply bind_Ok in Hp as ([[w3 x3] b3] & Hx & Hp). apply bind_Ok in Hp as ([[w4 l4] b4] & Hp & [= <- _ _]).
    etrans; [exact Hs|]. etrans; [|by eapply IH]. destruct s.
    + apply bind_Ok in Hx as ([w5 x5] & Hx & [= <- _ _]). by eapply poll_reactor_evolves.
    + by injection Hx as <- _ _.
Qed.

(** The part the bodies of [run_queue] and [block_on] share. *)
Lemma poll_phase_evolves (poll_now : bool) it w w' b :
  (if poll_now then poll_reactors it w else mret (w, false)) = Ok (w', b) -> evolves w w'.
Proof. destruct poll_now; [apply poll_reactors_evolves|by intros [= <- _]]. Qed.

Lemma update_reactor_only_same b1 b2 w :
  evolves w (update_reactor_only b1 b2 w).
Proof. unfold update_reactor_only. repeat case_match; by apply evolves_same. Qed.

Lemma idle_park_same b w : evolves w (idle_park b w).
Proof. unfold idle_park, yield_thread. repeat case_match; by apply evolves_same. Qed.

Lemma stuck_check_same m b st sl w w' st' sl' brk : stuck_check m b st sl w = (w', st', sl', brk) -> evolves w w'.
Proof. unfold stuck_check, yield_thread. repeat case_match; intros [= <- _ _ _]; by apply evolves_same. Qed.

Lemma run_queue_pass_evolves w w' b : run_queue_pass w = Ok (w', b) -> evolves w w'.
Proof.
  unfold run_queue_pass. destruct (next_iteration w) as [w0 it] eqn:H0'. injection H0' as <- _. intros Hp.
  apply bind_Ok in Hp as (w1 & Hd & Hp). destruct (check_safety_bound w1) as [w2 so] eqn:Hc.
  apply bind_Ok in Hp as (now & _ & Hp). apply bind_Ok in Hp as ([w3 b1] & H3 & Hp).
  apply bind_Ok in Hp as ([w4 b2] & H4 & Hp). apply bind_Ok in Hp as (w5 & H5 & Hp).
  apply bind_Ok in Hp as ([w6 b3] & H6 & Hp). injection Hp as <- _.
  etrans; [|etrans; [by eapply drain_evolves|]]; [by apply evolves_same|].
  etrans; [|etrans; [by eapply poll_phase_evolves|]].
  - unfold check_safety_bound in Hc. injection Hc as <- _. destruct (env_u64 _ _ <=? _)%Z; [by apply evolves_same|done].
  - etrans; [by eapply poll_buffer_evolves|]. etrans; [by eapply batch_evolves|].
    etrans; [by eapply poll_buffer_evolves|]. etrans; [apply update_reactor_only_same|apply idle_park_same].
Qed.

Lemma run_queue_evolves fuel w w' ex : run_queue fuel w = Ok (w', ex) -> evolves w w'.
Proof.
  unfold run_queue. generalize 0%Z as st, 1%Z as sl. revert w.
  induction fuel as [|fuel IH]; intros w st sl Hr; cbn [run_queue_loop] in Hr; do 2 (case_match; [by inv_Ok|]).
  - by inv_Ok.
  - apply bind_Ok in Hr as ([[[w1 st1] sl1] brk] & Hi & Hr). unfold run_queue_iter in Hi.
    apply bind_Ok in Hi as ([w0 b] & Hp & [= Hi]). etrans; [by eapply run_queue_pass_evolves|].
    etrans; [by eapply stuck_check_same|]. destruct brk; [by inv_Ok|by eapply IH].
Qed.

Lemma block_on_iter_evolves w w' b : block_on_iter w = Ok (w', b) -> evolves w w'.
Proof.
  unfold block_on_iter. destruct (next_iteration w) as [w0 it] eqn:H0'. injection H0' as <- _. intros Hp.
  apply bind_Ok in Hp as (w1 & Hd & Hp). apply bind_Ok in Hp as (now & _ & Hp).
  apply bind_Ok in Hp as ([w3 b1] & H3 & Hp). apply bind_Ok in Hp as ([w4 b2] & H4 & Hp).
  apply bind_Ok in Hp as (w5 & H5 & Hp). apply bind_Ok in Hp as ([w6 b3] & H6 & [= <- _]).
  etrans; [|etrans; [by eapply drain_evolves|]]; [by apply evolves_same|].
  etrans; [by eapply poll_phase_evolves|]. etrans; [by eapply poll_buffer_evolves|].
  etrans; [by eapply batch_evolves|by eapply poll_buffer_evolves].
Qed.

Lemma block_on_loop_evolves fuel m target st w w' b : block_on_loop fuel m target st w = Ok (w', b) -> evolves w w'.
Proof.
  revert w st. induction fuel as [|fuel IH]; intros w st Hb; cbn [block_on_loop] in Hb; (case_match; [|by inv_Ok]).
  - by inv_Ok.
  - apply bind_Ok in Hb as ([w1 p] & Hi & Hb). etrans; [by eapply block_on_iter_evolves|].
    destruct p; [by eapply IH|]. case_match; [done|]. etrans; [|by eapply IH]. by apply evolves_same.
Qed.

Lemma block_on_evolves fuel name f w w' o : block_on_with_name_and_runtime fuel name f w = Ok (w', o) -> evolves w w'.
Proof.
  unfold block_on_with_name_and_runtime. set (w0 := set_next_addr _ w). intros Hb.
  destruct (create_task_and_handle (BodyBlockOn f (next_addr w)) unit_type TaskQueue (Some name) w0) as [[wa task] jh] eqn:Hc.
  destruct (pool_insert task wa) as [wb id] eqn:Hp. apply bind_Ok in Hb as (w1 & Hs & Hb).
  assert (Hi : insert_and_send (BodyBlockOn f (next_addr w)) unit_type TaskQueue (Some name) w0 = Ok (w1, id, jh))
    by (unfold insert_and_send; by rewrite Hc, Hp, Hs).
  apply bind_Ok in Hb as ([w2 fin] & Hl & Hb). trans w1; [|etrans; [by eapply block_on_loop_evolves|]].
  - intros Γ HΓ.
    destruct (insert_and_send_typed (BodyBlockOn f (next_addr w)) _ _ _ _ _ _ Γ Hi) as (Γ' & Hs' & HΓ' & _).
    + destruct HΓ as [W1 W2 W3]. split; [exact W1|exact W2|]. intros addr Ha. apply W3. cbn in Ha. lia.
    + by exists Γ'.
  - destruct fin; [|by injection Hb as <- _]. apply bind_Ok in Hb as (v & _ & [= <- _]). by apply evolves_same.
Qed.

Lemma progress_evolves w w' : progress w = Ok w' -> evolves w w'.
Proof.
  unfold progress. intros Hp. apply bind_Ok in Hp as ([w1 l1] & H1' & Hp). apply bind_Ok in Hp as (w2 & H2' & Hp).
  apply bind_Ok in Hp as ([w3 b] & H3' & Hp). trans w1.
  - clear -H1'. revert H1'. generalize (reactors (rt w)) as l. intros l. revert w l1.
    induction l as [|[i x] l IH]; intros w l1 Hr; cbn [progress_reactors] in Hr; [by injection Hr as <- _|].
    apply bind_Ok in Hr as ([w2 x2] & Hx & Hr). apply bind_Ok in Hr as ([w3 l3] & Hr & [= <- _]).
    etrans; [|by eapply IH]. destruct (enable x); [|by injection Hx as <- _].
    destruct (dyn_status _ _) as [e s]. destruct s; [|injection Hx as <- _; by apply evolves_same].
    etrans; [|by eapply poll_reactor_evolves]. by apply evolves_same.
  - etrans; [|etrans; [by eapply drain_evolves|]]; [by apply evolves_same|]. etrans; [by eapply poll_buffer_evolves|].
    revert Hp. generalize max_tasks_per_call as n. intros n. clear. revert w3.
    induction n as [|n IH]; intros w3 Hp; cbn [progress_tasks] in Hp; [by inv_Ok|].
    apply bind_Ok in Hp as ([c o] & _ & Hp). destruct o as [id|].
    + apply bind_Ok in Hp as ([w4 b] & H4 & Hp). etrans; [|etrans; [by eapply poll_and_retire_evolves|by eapply IH]].
      by apply evolves_same.
    + injection Hp as <-. by apply evolves_same.
Qed.

(** ** Sessions *)

(** What a thread does with a runtime, and the handles its spawns returned; the
    user's code is any [Act]. *)
Inductive session : World -> list JoinHandle -> Prop :=
| ss_new config r tl e ret o : with_config config = Ok r -> session (mkWorld r ∅ 0 ∅ tl e ret o []) []
| ss_spawn w hs kind name f w' jh : session w hs -> spawn_any kind name f w = Ok (w', jh) -> session w' (jh :: hs)
| ss_act w hs k a w' f p : session w hs -> run_act k a w = Ok (w', f, p) -> session w' hs
| ss_reactor w hs i d : session w hs -> session (register_reactor i d w) hs
| ss_run w hs fuel w' ex : session w hs -> run_queue fuel w = Ok (w', ex) -> session w' hs
| ss_block_on w hs fuel name f w' o : session w hs ->
    block_on_with_name_and_runtime fuel name f w = Ok (w', o) -> session w' hs
| ss_progress w hs w' : session w hs -> progress w = Ok w' -> session w' hs.

Lemma session_typed w hs : session w hs -> exists Γ, well_typed Γ w /\ Forall (handle_typed Γ) hs.
Proof.
  assert (Hstep : forall w w' hs, evolves w w' -> (exists Γ, well_typed Γ w /\ Forall (handle_typed Γ) hs) ->
    exists Γ, well_typed Γ w' /\ Forall (handle_typed Γ) hs).
  { intros w1 w2 hs1 He (Γ & HΓ & Hh). destruct (He Γ HΓ) as (Γ' & Hs & HΓ'). exists Γ'. split; [done|].
    eapply Forall_impl; [exact Hh|]. intros jh Hj. by eapply lookup_weaken. }
  induction 1 as [config r tl e ret o Hr|w hs kind name f w' jh _ IH Hs|w hs k a w' f p _ IH Hr|w hs i d _ IH
    |w hs fuel w' ex _ IH Hr|w hs fuel name f w' o _ IH Hb|w hs w' _ IH Hp].
  - exists ∅. split; [|constructor]. unfold with_config in Hr. inv_Ok. split; cbn.
    + intros id t Ht. unfold live_at, view in Ht. cbn in Ht. by rewrite slab_new_view in Ht.
    + done.
    + done.
  - destruct IH as (Γ & HΓ & Hh). destruct (spawn_any_typed _ _ _ _ _ _ _ Hs HΓ) as (Γ' & Hsub & HΓ' & Hj & _).
    exists Γ'. split; [done|]. constructor; [done|]. eapply Forall_impl; [exact Hh|]. intros jh' Hj'. by eapply lookup_weaken.
  - eapply Hstep; [by eapply run_act_evolves|done].
  - eapply Hstep; [|done]. by apply evolves_same.
  - eapply Hstep; [by eapply run_queue_evolves|done].
  - eapply Hstep; [by eapply block_on_evolves|done].
  - eapply Hstep; [by eapply progress_evolves|done].
Qed.

(** C21. Results are well typed.  In any session with the runtime, whatever the
    user's futures do, a handle that a spawn returned is always pending or ready with
    a value: the downcast of the task's boxed result to the handle's type succeeds,
    and no other error reaches the handle. *)
Theorem join_handles_well_typed w hs jh k : session w hs -> jh ∈ hs ->
  (JoinHandle_poll k jh (heap w)).2 = Pending \/ exists v, (JoinHandle_poll k jh (heap w)).2 = Ready (ROk v).
Proof.
  intros Hs Hj. destruct (session_typed _ _ Hs) as (Γ & HΓ & Hh). rewrite Forall_forall in Hh.
  by apply (join_succeeds _ _ _ _ HΓ), Hh.
Qed.
End types.

(** ** A session: spawn, run, and join *)

Definition typed_demo : outcome (DemoWorld * JoinHandle) :=
  w ← demo_world;
  '(w, jh) ← spawn_any TaskQueue None (Yield 1 7) w;
  '(w, _) ← run_queue 10 w;
  mret (w, jh).

Lemma typed_demo_session w jh : typed_demo = Ok (w, jh) -> session w [jh].
Proof.
  unfold typed_demo, demo_world, Runtime_new. intros Hd. apply bind_Ok in Hd as (w0 & H0 & Hd).
  apply bind_Ok in H0 as (r & Hr & [= <-]). apply bind_Ok in Hd as ([w1 jh1] & H1 & Hd).
  apply bind_Ok in Hd as ([w2 ex] & H2 & [= <- <-]).
  eapply ss_run, H2. eapply ss_spawn, H1. by eapply ss_new.
Qed.

Example typed_demo_value : ('(w, jh) ← typed_demo; mret (JoinHandle_poll (mkWaker 9 TaskQueue) jh (heap w)).2) = Ok (Ready (ROk 7)).
Proof. vm_compute. reflexivity. Qed.

Lemma join_handles_well_typed_witness : exists w jh, typed_demo = Ok (w, jh) /\
  ((JoinHandle_poll (mkWaker 9 TaskQueue) jh (heap w)).2 = Pending \/
   exists v, (JoinHandle_poll (mkWaker 9 TaskQueue) jh (heap w)).2 = Ready (ROk v)).
Proof.
  destruct typed_demo as [[w jh]|m] eqn:Hd; [|by vm_compute in Hd].
  exists w, jh. split; [done|]. apply (join_handles_well_typed w [jh]).
  - by apply typed_demo_session.
  - by left.
Defined.
