(* ===== verification/Await.v ===== *)
(** * Await: the runtime, one future and the reactor that completes it
    ([pluvio_runtime/src/executor/mod.rs])

    [block_on] of a future on a runtime whose only reactor is the one the future waits
    for.  [Client] is such a pair of a future and a reactor over one environment, and
    [Served] is what the pair promises: while the future waits the reactor reports
    [Stopped] a bounded number of times in a row, and a bounded number of its polls
    wakes the future's waker, after which the future is ready.  [block_on_returns] is what the runtime promises in return.
    The timer ([Sleep]), the ring ([RingWait]), the UCX reactor ([UcxWait]) and the MPI
    reactor ([MpiWait]) keep the promise with their futures. *)

From S2P Require Import Prelude Spsc Future Track Slab Task Executor ExecutorFacts ExecutorLive.
Local Open Scope nat_scope.

(** ** The interface *)

(** How the futures of type [F] are polled and dropped, the clock, and the reactor. *)
Record Client (V F E : Type) : Type := mkClient {
  cpoll : Waker -> F -> E -> outcome (E * F * Poll V);
  cdrop : F -> E -> E;
  cclock : E -> E * Z;
  creactor : DynReactor E
}.
Arguments mkClient {V F E} _ _ _ _.
Arguments cpoll {V F E} _ _ _ _.
Arguments cdrop {V F E} _ _ _.
Arguments cclock {V F E} _ _.
Arguments creactor {V F E} _.

(** [Begin N e]: the future [f0] can be started and will need at most [N] polls of the
    reactor.  [Waiting n l k f e]: [f] was polled with the waker [k] and waits, for at most
    [n] more polls of the reactor, before the next of which the reactor may report
    [Stopped] [l] times, which is never more than [looks].  [Due f e]: the next poll of
    [f] is ready.  [Finished v e]: it resolved to [v]. *)
Class Served {V F E} (c : Client V F E) (f0 : F) := {
  looks : nat;
  Begin : nat -> E -> Prop;
  Waiting : nat -> nat -> Waker -> F -> E -> Prop;
  Due : F -> E -> Prop;
  Finished : V -> E -> Prop;
  begin_clock N e : Begin N e -> Begin N (cclock c e).1;
  waiting_clock n l k f e : Waiting n l k f e -> Waiting n l k f (cclock c e).1;
  due_clock f e : Due f e -> Due f (cclock c e).1;
  finished_clock v e : Finished v e -> Finished v (cclock c e).1;
  begin_status N e : Begin N e -> Begin N (dyn_status (creactor c) e).1;
  begin_reactor N e : Begin N e -> exists e', dyn_poll (creactor c) e = Ok (e', []) /\ Begin N e';
  begin_poll N k e : Begin N e ->
    (exists e' f v, cpoll c k f0 e = Ok (e', f, Ready v) /\ Finished v (cdrop c f e')) \/
    (exists e' f n l, cpoll c k f0 e = Ok (e', f, Pending) /\ Waiting n l k f e' /\ n <= N /\ l <= looks);
  waiting_status n l k f e : Waiting n l k f e ->
    (exists e', dyn_status (creactor c) e = (e', Running) /\ Waiting n l k f e') \/
    (exists e' l', dyn_status (creactor c) e = (e', Stopped) /\ Waiting n l' k f e' /\ l' < l);
  waiting_reactor n l k f e : Waiting n l k f e ->
    (exists e' n' l', dyn_poll (creactor c) e = Ok (e', []) /\ Waiting n' l' k f e' /\ n' < n /\ l' <= looks) \/
    (exists e', dyn_poll (creactor c) e = Ok (e', [k]) /\ Due f e');
  due_poll k f e : Due f e ->
    exists e' f' v, cpoll c k f e = Ok (e', f', Ready v) /\ Finished v (cdrop c f' e')
}.

Section await.
Context {V F E : Type} (cl : Client V F E) (unit_value : V) (genv : string -> option string).
Context (ho : forall X : Type, list (string * X) -> list (string * X)).
Context (ho_perm : forall X (l : list (string * X)), ho X l ≡ₚ l).

(** User code that awaits a future of the client.  A poll that panics is outside this
    language; the polls that [Served] speaks of do not. *)
Definition await_poll (k : Waker) (f : F) : Act V F E :=
  AEnv (fun e => match cpoll cl k f e with Ok (e, _, _) => e | Panic _ => e end)
       (fun e => match cpoll cl k f e with Ok (_, f, p) => ARet f p | Panic _ => ARet f Pending end).

#[local] Instance client_program : Program V F E := {|
  upoll := await_poll;
  udrop := cdrop cl;
  out_type _ := 0;
  unit_type := 0;
  unit_val := unit_value;
  getenv := genv;
  clock := cclock cl;
  hash_order := ho;
  hash_order_perm := ho_perm
|}.

Context {C SL : Type} `{FifoChan C} `{Slab (option (Task (TaskFuture F))) SL}.
Abbreviation AWorld := (World V E C SL).
Implicit Types (w : AWorld) (e : E) (f : F) (id : nat).

Lemma await_poll_run k f e' f' p w :
  cpoll cl k f (env w) = Ok (e', f', p) -> run_act k (await_poll k f) w = Ok (set_env e' w, f', p).
Proof. intros Hp. unfold await_poll. cbn [run_act]. by rewrite Hp. Qed.

(** ** One poll of the task *)

(** The task of [block_on]. *)
Definition await_task f (holder addr : nat) (st : TaskStat) : Task (TaskFuture F) :=
  mkTask (mkTaskFuture (Some (BodyBlockOn f holder)) addr) TaskQueue addr (Some st).

Lemma task_poll_pending id f f' holder addr st e' w :
  cpoll cl (new_waker TaskQueue id) f (cclock cl (env w)).1 = Ok (e', f', Pending) ->
  exists st', Task_poll_task (await_task f holder addr st) id w =
    Ok (set_env (cclock cl e').1 w, await_task f' holder addr st', Pending).
Proof.
  intros Hp. unfold Task_poll_task, read_clock. cbn [clock client_program].
  destruct (cclock cl (env w)) as [e0 t0] eqn:He0. cbn [fst] in Hp. unfold wrapped_poll. cbn [fbody future await_task].
  unfold fpoll, user_future. cbn [upoll client_program tsender await_task].
  rewrite (await_poll_run _ _ _ _ _ (set_env e0 w) Hp). cbn [mbind outcome_bind mret outcome_ret].
  cbn [env set_env]. destruct (cclock cl e') as [e1 t1]. eexists. cbn. by destruct w.
Qed.

(** A poll that is ready stores the result and drops the future; nobody holds the
    handle of a [block_on] task, so nobody is woken. *)
Lemma task_poll_ready id f f' v holder addr st e' w :
  cpoll cl (new_waker TaskQueue id) f (cclock cl (env w)).1 = Ok (e', f', Ready v) ->
  waker (heap_get (heap w) addr) = None ->
  exists h st', Task_poll_task (await_task f holder addr st) id w =
    Ok (set_env (cclock cl (cdrop cl f' e')).1 (set_heap h (set_holders (<[holder := v]> (holders w)) w)),
        mkTask (mkTaskFuture None addr) TaskQueue addr (Some st'), Ready tt).
Proof.
  intros Hp Hw. unfold Task_poll_task, read_clock. cbn [clock client_program].
  destruct (cclock cl (env w)) as [e0 t0] eqn:He0. cbn [fst] in Hp. unfold wrapped_poll. cbn [fbody future await_task].
  unfold fpoll, user_future. cbn [upoll client_program tsender await_task].
  rewrite (await_poll_run _ _ _ _ _ (set_env e0 w) Hp). cbn [mbind outcome_bind mret outcome_ret].
  unfold wrapped_finish. destruct (complete_shared_spec addr (mkAny unit_type unit_val)
    (heap (set_holders (<[holder := v]> (holders w)) (fdrop f' (set_env e' (set_env e0 w)))))) as (h & Hc & _).
  cbn -[complete_shared] in *. rewrite Hc, Hw. exists h. cbn.
  destruct (cclock cl (cdrop cl f' e')) as [e1 t1]. eexists. cbn. by destruct w.
Qed.

(** A pending poll changes the task and the environment. *)
Lemma poll_pending id f f' holder addr st e' w :
  view w !! id = Some (Some (await_task f holder addr st)) ->
  cpoll cl (new_waker TaskQueue id) f (cclock cl (env w)).1 = Ok (e', f', Pending) ->
  exists p st', poll_and_retire id w = Ok (on_rt (set_task_pool p) (set_env (cclock cl e').1 w), false) /\
    slab_view p = <[id := Some (await_task f' holder addr st')]> (view w).
Proof.
  intros Hv Hp. unfold poll_and_retire, poll_task. rewrite slab_get_view. fold (view w). rewrite Hv.
  fold (take_slot id w). destruct (task_poll_pending id f f' holder addr st e' (take_slot id w) Hp) as [st' ->].
  cbn [mbind outcome_bind]. assert (Ht : view (take_slot id w) = <[id := None]> (view w)) by (by apply take_slot_view).
  rewrite slab_get_view. cbn [rt set_env]. unfold view in Ht at 1. rewrite Ht, lookup_insert_eq. cbn.
  eexists _, st'. split; [reflexivity|]. rewrite slab_put_view; unfold view in Ht at 1; cbn in Ht; rewrite Ht.
  - apply insert_insert_eq.
  - rewrite lookup_insert_eq. eauto.
Qed.

(** A ready poll frees the slot. *)
Lemma poll_ready id f f' v holder addr st e' w :
  view w !! id = Some (Some (await_task f holder addr st)) -> waker (heap_get (heap w) addr) = None ->
  cpoll cl (new_waker TaskQueue id) f (cclock cl (env w)).1 = Ok (e', f', Ready v) ->
  exists w', poll_and_retire id w = Ok (w', true) /\ view w' = delete id (view w) /\
    env w' = (cclock cl (cdrop cl f' e')).1 /\ holders w' = <[holder := v]> (holders w) /\ frame w w' /\
    task_chan (rt w') = task_chan (rt w) /\ polling_chan (rt w') = polling_chan (rt w).
Proof.
  intros Hv Hw Hp. unfold poll_and_retire, poll_task. rewrite slab_get_view. fold (view w). rewrite Hv.
  fold (take_slot id w). destruct (task_poll_ready id f f' v holder addr st e' (take_slot id w) Hp Hw) as (h & st' & ->).
  cbn [mbind outcome_bind]. set (w1 := set_env _ _).
  assert (Ht : view w1 = <[id := None]> (view w)) by (by apply take_slot_view).
  rewrite slab_get_view. unfold view in Ht at 1. rewrite Ht, lookup_insert_eq. cbn [mret outcome_ret mbind outcome_bind].
  destruct (retire_ok id (mkTask (mkTaskFuture None addr) TaskQueue addr (Some st')) w1) as (w' & Hr & Hrd).
  { unfold view. rewrite Ht, lookup_insert_eq. eauto. }
  { eauto. }
  unfold fill_slot in Hr. rewrite Hr. cbn.
  assert (Hen : env w' = env w1 /\ task_chan (rt w') = task_chan (rt w1) /\ polling_chan (rt w') = polling_chan (rt w1)).
  { clear Hrd. unfold retire in Hr. inv_Ok. destruct a as [[r s] o]. inv_Ok. done. }
  destruct Hen as (He & Htc & Hpc). destruct Hrd as [Hf Hvw _ _ Hh _ _]. exists w'. split; [done|].
  split; [rewrite Hvw; unfold view; rewrite Ht; apply delete_insert_eq|]. split; [done|]. split; [done|].
  split; [|done]. transitivity w1; [by split|done].
Qed.

(** ** The reactor phase of a pass *)

Context (cfg : SchedulingConfig) (name : string).
Implicit Types (x : ReactorWrapper E).

(** The client's reactor is the only one. *)
Record OneReactor x w : Prop := {
  or_cfg : scheduling_config (rt w) = cfg;
  or_reactors : reactors (rt w) = [(name, x)];
  or_reactor : reactor x = creactor cl;
  or_enable : enable x = true;
  or_valid : (cache_valid_until_iteration x <= iteration_count (rt w) + status_cache_iterations cfg)%Z
}.

Lemma one_reactor_same x w w' :
  scheduling_config (rt w') = scheduling_config (rt w) -> reactors (rt w') = reactors (rt w) ->
  (iteration_count (rt w) <= iteration_count (rt w'))%Z -> OneReactor x w -> OneReactor x w'.
Proof. intros Hc Hr Hi []. split; [congruence|congruence|done|done|lia]. Qed.

(** The status in pass [it], from the cache or the reactor, and the environment and the
    wrapper after it was looked at. *)
Definition status_now (it : Z) x e : ReactorStatus :=
  if (it <? cache_valid_until_iteration x)%Z then cached_status x else (dyn_status (creactor cl) e).2.
Definition status_env (it : Z) x e : E :=
  if (it <? cache_valid_until_iteration x)%Z then e else (dyn_status (creactor cl) e).1.
Definition looked (it : Z) x e : ReactorWrapper E :=
  if (it <? cache_valid_until_iteration x)%Z then x
  else mkWrapper (reactor x) (poll_counter x) (enable x) (status_now it x e)
         (wrap64 (it + status_cache_iterations cfg)).
(** The wrapper after its reactor was polled. *)
Definition polled_once x : ReactorWrapper E :=
  mkWrapper (reactor x) (wrap64 (poll_counter x + 1)) (enable x) (cached_status x) (cache_valid_until_iteration x).

Lemma looked_only it x e w w' :
  OneReactor x w -> scheduling_config (rt w') = cfg -> iteration_count (rt w') = iteration_count (rt w) ->
  (it < iteration_count (rt w))%Z -> (0 <= it + status_cache_iterations cfg)%Z ->
  reactors (rt w') = [(name, looked it x e)] \/ reactors (rt w') = [(name, polled_once (looked it x e))] ->
  exists x', OneReactor x' w'.
Proof.
  intros [? ? Hx He Hv] Hc Hi Hi' Hp Hr.
  assert (Hl : reactor (looked it x e) = creactor cl /\ enable (looked it x e) = true /\
    (cache_valid_until_iteration (looked it x e) <= iteration_count (rt w') + status_cache_iterations cfg)%Z).
  { unfold looked. destruct (_ <? _)%Z; [split; [done|]; split; [done|lia]|]. cbn. split; [done|]. split; [done|].
    unfold wrap64. assert (Hm := Z.mod_le (it + status_cache_iterations cfg) (2 ^ 64)). lia. }
  destruct Hl as (H1' & H2' & H3'), Hr as [Hr|Hr]; eexists; by split.
Qed.

Lemma reactor_phase it x w :
  OneReactor x w ->
  match status_now it x (env w) with
  | Stopped => poll_reactors it w =
      Ok (on_rt (set_reactors [(name, looked it x (env w))]) (set_env (status_env it x (env w)) w), false)
  | Running => forall e' ks w2,
      dyn_poll (creactor cl) (status_env it x (env w)) = Ok (e', ks) -> wake_all ks (set_env e' w) = Ok w2 ->
      poll_reactors it w = Ok (on_rt (set_reactors [(name, polled_once (looked it x (env w)))]) w2, true)
  end.
Proof.
  intros [Hc Hr Hx He _]. unfold poll_reactors. rewrite Hr. cbn [poll_reactors_loop]. rewrite He. cbn [negb].
  assert (Hg : get_cached_reactor_status x it w =
    (set_env (status_env it x (env w)) w, looked it x (env w), status_now it x (env w))).
  { unfold get_cached_reactor_status, looked, status_now, status_env. rewrite Hx, Hc.
    destruct (_ <? _)%Z; [by destruct w|]. by destruct (dyn_status _ _). }
  rewrite Hg. assert (Hlr : reactor (looked it x (env w)) = creactor cl) by (unfold looked; by destruct (_ <? _)%Z).
  destruct (status_now it x (env w)); [|done]. intros e' ks w2 Hp Hw. unfold poll_reactor. rewrite Hlr.
  cbn [env set_env]. rewrite Hp. cbn [mbind outcome_bind].
  change (set_env e' (set_env (status_env it x (env w)) w)) with (set_env e' w). rewrite Hw. cbn.
  unfold polled_once. by rewrite Hlr.
Qed.

(** ** One pass of [block_on] *)

Definition batched (c : C) (q : list nat) w : AWorld := on_rt (fun r => set_task_buffer q (set_task_chan c r)) w.
(** The world when the reactors are polled. *)
Definition begun (c : C) w : AWorld :=
  on_rt (fun r => set_polling_task_buffer [] (set_polling_chan c r))
    (on_rt (set_iteration_count (wrap64 (iteration_count (rt w) + 1))) w).

(** A pass with no task in the polling queue: reactors, then the queued tasks. *)
Lemma block_iter w q : queues w [] q ->
  exists c, chan_rep c [] /\ forall pn w1 b q1,
  should_poll false (iteration_count (rt w)) (begun c w) = Ok pn ->
  (if pn : bool then poll_reactors (iteration_count (rt w)) (begun c w) else mret (begun c w, false)) = Ok (w1, b) ->
  polling_task_buffer (rt w1) = [] -> queues w1 [] q1 -> length q1 <= task_batch_size (scheduling_config (rt w1)) ->
  exists c', chan_rep c' [] /\ forall w2 b2, poll_buffer q1 (batched c' q1 w1) = Ok (w2, b2) ->
    block_on_iter w = Ok (w2, b || b2).
Proof.
  intros Hq. unfold block_on_iter. cbn [next_iteration].
  destruct (drain_polling_spec (on_rt (set_iteration_count (wrap64 (iteration_count (rt w) + 1))) w) [] q Hq)
    as (c & Hd & Hc).
  exists c. split; [done|]. intros pn w1 b q1 Hs Hr Hb Hq1 Hl. fold (begun c w) in Hd.
  destruct (take_batch_spec w1 [] q1 Hq1) as (c' & Ht & Hc').
  rewrite take_ge, drop_ge in * by done. exists c'. split; [done|]. intros w2 b2 Hp.
  unfold next_iteration. cbv zeta. rewrite Hd. cbn [mbind outcome_bind]. rewrite Hs. cbn [mbind outcome_bind].
  rewrite Hr. cbn [mbind outcome_bind]. rewrite Hb. cbn [poll_buffer mbind outcome_bind mret outcome_ret].
  rewrite Ht. cbn [mbind outcome_bind]. fold (batched c' q1 w1). cbn [rt batched on_rt set_rt task_buffer set_task_buffer].
  rewrite Hp. cbn [mbind outcome_bind mret outcome_ret]. by rewrite orb_false_r.
Qed.

(** ** The states of the wait *)

Context (f0 : F) `{HS : !Served cl f0}.

(** [block_on]'s task waits, for at most [n] polls of the reactor and, before the next,
    [l] looks at its status. *)
Record Asleep (n l : nat) x id (holder addr : nat) w : Prop := {
  as_only : OneReactor x w;
  as_waiting : exists f st, view w = {[id := Some (await_task f holder addr st)]} /\
    Waiting n l (new_waker TaskQueue id) f (env w);
  as_queues : queues w [] [];
  as_waker : waker (heap_get (heap w) addr) = None
}.

(** Nothing is scheduled: before the call and after it. *)
Record Idle (P : E -> Prop) x w : Prop := {
  id_only : OneReactor x w;
  id_view : view w = ∅;
  id_queues : queues w [] [];
  id_env : P (env w)
}.

Lemma asleep_same n l x n' l' x' id holder addr w w' :
  Asleep n l x id holder addr w -> OneReactor x' w' -> task_pool (rt w') = task_pool (rt w) -> queues w' [] [] ->
  (forall f, Waiting n l (new_waker TaskQueue id) f (env w) -> Waiting n' l' (new_waker TaskQueue id) f (env w')) ->
  heap w' = heap w -> Asleep n' l' x' id holder addr w'.
Proof.
  intros [? (f & st & Hv & Hf) ? ?] ? Hp ? He Hh. split; try done; [|by rewrite Hh].
  exists f, st. split; [by unfold view; rewrite Hp|by apply He].
Qed.

Lemma asleep_yield n l x id holder addr o w :
  Asleep n l x id holder addr w -> Asleep n l x id holder addr (yield_thread o w).
Proof. intros HA. eapply asleep_same; [exact HA|by apply (one_reactor_same x w), HA|done|apply HA|done|done]. Qed.
Lemma idle_yield P x o w : Idle P x w -> Idle P x (yield_thread o w).
Proof. intros [HT ? ? ?]. split; try done. by apply (one_reactor_same x w). Qed.

(** The configuration: a reactor interval and a batch that are not zero. *)
Record ConfigOk : Prop := {
  co_interval : (0 < reactor_poll_interval cfg)%Z;
  co_batch : 1 <= task_batch_size cfg;
  co_cache : (0 <= status_cache_iterations cfg)%Z;
  co_room : room (C := C) 1
}.
Context (Hcfg : ConfigOk).

(** The reactor is polled in pass [it]. *)
Definition due (it : Z) x : Prop :=
  (it `mod` reactor_poll_interval cfg = 0)%Z /\ (cached_status x = Running \/ (cache_valid_until_iteration x <= it)%Z).

Lemma begun_only x c w : OneReactor x w -> (0 <= iteration_count (rt w) < u64_max)%Z ->
  OneReactor x (begun c w) /\ iteration_count (rt (begun c w)) = (iteration_count (rt w) + 1)%Z.
Proof.
  intros HT Hi. assert (Hw : wrap64 (iteration_count (rt w) + 1) = (iteration_count (rt w) + 1)%Z)
    by (apply wrap64_small; unfold in_u64, u64_max in *; lia).
  split; [|done]. apply (one_reactor_same x w); [done|done|cbn; lia|done].
Qed.

Lemma begun_should c w : scheduling_config (rt w) = cfg ->
  should_poll false (iteration_count (rt w)) (begun c w) =
  Ok (bool_decide (iteration_count (rt w) <= 1 \/ iteration_count (rt w) `mod` reactor_poll_interval cfg = 0)%Z).
Proof.
  intros Hc. unfold should_poll, on_interval. cbn. rewrite Hc.
  destruct (Z.leb_spec (iteration_count (rt w)) 1); [by rewrite bool_decide_true by by left|].
  destruct (Z.eqb_spec (reactor_poll_interval cfg) 0); [destruct Hcfg; lia|]. unfold mret, outcome_ret. f_equal.
  destruct (Z.eqb_spec (iteration_count (rt w) `mod` reactor_poll_interval cfg) 0).
  - symmetry. apply bool_decide_true. by right.
  - symmetry. apply bool_decide_false. intros []; lia.
Qed.

(** What a pass makes of the waiting task: its end, or a reactor poll that did not wake
    it, or a look at a reactor that reports [Stopped], or nothing, when it is not due. *)
Inductive pass_result (n l : nat) x id (holder addr : nat) w w' : bool -> Prop :=
| pr_done x' v : Idle (Finished v) x' w' -> holders w' !! holder = Some v -> pass_result n l x id holder addr w w' true
| pr_early x' n' l' : Asleep n' l' x' id holder addr w' -> n' < n -> l' <= looks ->
    pass_result n l x id holder addr w w' true
| pr_look x' l' : Asleep n l' x' id holder addr w' -> l' < l -> pass_result n l x id holder addr w w' false
| pr_none : Asleep n l x id holder addr w' -> ~ due (iteration_count (rt w)) x ->
    pass_result n l x id holder addr w w' false.

(** A poll of the task whose future is ready. *)
Lemma finish f holder addr st id e' f' v w :
  view w = {[id := Some (await_task f holder addr st)]} -> waker (heap_get (heap w) addr) = None ->
  cpoll cl (new_waker TaskQueue id) f (cclock cl (env w)).1 = Ok (e', f', Ready v) -> Finished v (cdrop cl f' e') ->
  exists w', poll_buffer [id] w = Ok (w', true) /\ view w' = ∅ /\ Finished v (env w') /\
    holders w' !! holder = Some v /\ frame w w' /\
    task_chan (rt w') = task_chan (rt w) /\ polling_chan (rt w') = polling_chan (rt w).
Proof.
  intros Hv Hw Hp Hd.
  destruct (poll_ready id f f' v holder addr st e' w) as
    (w' & Hr & Hv' & He & Hh & Hf & Hc1 & Hc2); [rewrite Hv; apply lookup_singleton_eq|done|done|].
  exists w'. cbn [poll_buffer]. rewrite Hr. split; [done|].
  split; [by rewrite Hv', Hv, delete_singleton_eq|]. split; [rewrite He; by apply finished_clock|].
  by split; [rewrite Hh, lookup_insert_eq|].
Qed.

Lemma frame_only x w w' : frame w w' -> OneReactor x w -> OneReactor x w'.
Proof. intros Hf. apply one_reactor_same; [apply Hf|apply Hf|by rewrite (fr_iter _ _ Hf)]. Qed.

(** The reactor phase of a pass, and the rest of the pass as a continuation of it. *)
Definition turn (c : C) w : outcome (AWorld * bool) :=
  if bool_decide (iteration_count (rt w) <= 1 \/ iteration_count (rt w) `mod` reactor_poll_interval cfg = 0)%Z
  then poll_reactors (iteration_count (rt w)) (begun c w) else mret (begun c w, false).

Definition goes_on (c : C) w : Prop := forall w1 b q1,
  turn c w = Ok (w1, b) -> polling_task_buffer (rt w1) = [] -> queues w1 [] q1 -> scheduling_config (rt w1) = cfg ->
  length q1 <= 1 -> exists c', chan_rep c' [] /\ forall w2 b2,
    poll_buffer q1 (batched c' q1 w1) = Ok (w2, b2) -> block_on_iter w = Ok (w2, b || b2).

Lemma block_turn w q : queues w [] q -> scheduling_config (rt w) = cfg -> exists c, chan_rep c [] /\ goes_on c w.
Proof.
  intros Hq Hc. destruct (block_iter w q Hq) as (c & Hr & Hgo). exists c. split; [done|].
  intros w1 b q1 Ht Hb Hq1 Hc1 Hl. apply (Hgo _ w1 b q1 (begun_should c w Hc)); try done.
  rewrite Hc1. destruct Hcfg. lia.
Qed.

(** A pass in which no task is queued, after its reactor phase. *)
Lemma quiet_pass n l x id holder addr c w w1 b :
  goes_on c w -> turn c w = Ok (w1, b) -> Asleep n l x id holder addr w1 -> polling_task_buffer (rt w1) = [] ->
  exists w', block_on_iter w = Ok (w', b) /\ iteration_count (rt w') = iteration_count (rt w1) /\
    Asleep n l x id holder addr w'.
Proof.
  intros Hgo Hr HA Hb. assert (HT := as_only _ _ _ _ _ _ _ HA).
  destruct (Hgo w1 b [] Hr Hb (as_queues _ _ _ _ _ _ _ HA) (or_cfg _ _ HT)) as (c' & Hc' & Hfin); [cbn; lia|].
  exists (batched c' [] w1). split; [rewrite (Hfin _ false eq_refl); by rewrite orb_false_r|]. split; [done|].
  apply (asleep_same n l x n l x id holder addr w1); try done; [|split; [apply HA|done]]. by apply (one_reactor_same x w1).
Qed.

(** A pass whose reactor poll woke the task. *)
Lemma woken_pass n l x id holder addr f st c x' w w1 :
  goes_on c w -> turn c w = Ok (w1, true) -> OneReactor x' w1 -> polling_task_buffer (rt w1) = [] -> queues w1 [] [id] ->
  view w1 = {[id := Some (await_task f holder addr st)]} -> waker (heap_get (heap w1) addr) = None -> Due f (env w1) ->
  exists w', block_on_iter w = Ok (w', true) /\ iteration_count (rt w') = iteration_count (rt w1) /\
    pass_result n l x id holder addr w w' true.
Proof.
  intros Hgo Hr HT Hb Hq Hv Hw Hdue.
  destruct (Hgo w1 true [id] Hr Hb Hq (or_cfg _ _ HT)) as (c' & Hc' & Hfin); [done|].
  destruct (due_poll (new_waker TaskQueue id) f (cclock cl (env w1)).1) as (e' & f' & v & Hp & Hd); [by apply due_clock|].
  destruct (finish f holder addr st id e' f' v (batched c' [id] w1)) as (w' & Hpb & Hv' & He & Hh & Hf & Hc1 & Hc2); try done.
  exists w'. split; [exact (Hfin _ _ Hpb)|]. split; [by rewrite (fr_iter _ _ Hf)|].
  apply (pr_done _ _ _ _ _ _ _ _ x' v); [|done]. split; [|done| |done].
  - apply (frame_only x' (batched c' [id] w1)); [done|]. by apply (one_reactor_same x' w1).
  - unfold queues. rewrite Hc1, Hc2. by destruct Hq.
Qed.

(** A status that says [Stopped] is a cached one, or one look less is left. *)
Lemma waiting_stopped n l k f x e it : Waiting n l k f e -> status_now it x e = Stopped ->
  (looked it x e = x /\ status_env it x e = e /\ ~ (cached_status x = Running \/ cache_valid_until_iteration x <= it)%Z) \/
  (exists l', Waiting n l' k f (status_env it x e) /\ l' < l).
Proof.
  intros Hf. unfold status_now, status_env, looked. destruct (Z.ltb_spec it (cache_valid_until_iteration x)).
  - intros Hst. left. split; [done|]. split; [done|]. rewrite Hst. intros []; [done|lia].
  - destruct (waiting_status _ _ _ _ _ Hf) as [(e' & -> & _)|(e' & l' & -> & Hf' & Hl)]; [done|]. right. by exists l'.
Qed.

Lemma waiting_running n l k f x e it : Waiting n l k f e -> status_now it x e = Running ->
  Waiting n l k f (status_env it x e).
Proof.
  intros Hf. unfold status_now, status_env. destruct (_ <? _)%Z; [done|].
  by destruct (waiting_status _ _ _ _ _ Hf) as [(e' & -> & He)|(e' & l' & -> & _)].
Qed.

(** A pass that polls the reactor. *)
Lemma running_pass n l x id holder addr c w :
  Asleep n l x id holder addr w -> (0 <= iteration_count (rt w) < u64_max)%Z -> chan_rep c [] -> goes_on c w ->
  (iteration_count (rt w) <= 1 \/ iteration_count (rt w) `mod` reactor_poll_interval cfg = 0)%Z ->
  status_now (iteration_count (rt w)) x (env w) = Running ->
  exists w', block_on_iter w = Ok (w', true) /\ iteration_count (rt w') = (iteration_count (rt w) + 1)%Z /\
    pass_result n l x id holder addr w w' true.
Proof.
  intros HA Hit Hc Hgo Hdue Hst. destruct Hcfg as [_ _ Hca Hroom]. assert (HT0 := as_only _ _ _ _ _ _ _ HA).
  destruct (begun_only x c w HT0 Hit) as [HT Hi]. set (it := iteration_count (rt w)) in *.
  assert (Htn : turn c w = poll_reactors it (begun c w)) by (unfold turn; by rewrite bool_decide_true).
  assert (Hph := reactor_phase it x _ HT). change (env (begun c w)) with (env w) in Hph. rewrite Hst in Hph.
  destruct (as_waiting _ _ _ _ _ _ _ HA) as (f & st & Hv & Hf). assert (Hqb : queues (begun c w) [] []) by (split; [done|apply HA]).
  destruct (waiting_reactor _ _ _ _ _ (waiting_running _ _ _ _ x _ it Hf Hst)) as [(e' & n' & l' & Hp & Hf' & Hn & Hl)|(e' & Hp & Hd)].
  - specialize (Hph _ _ _ Hp eq_refl). match type of Hph with _ = Ok (?w1, _) =>
      destruct (looked_only it x (env w) (begun c w) w1) as [x' HT']; [done|apply HT|done|lia|lia|by right|];
      assert (HA1 : Asleep n' l' x' id holder addr w1) by (split; [done|by exists f, st|done|apply HA]) end.
    destruct (quiet_pass n' l' _ _ _ _ _ w _ true Hgo (eq_trans Htn Hph) HA1 eq_refl) as (w' & Hb & Hi' & HA').
    exists w'. split; [done|]. split; [by rewrite <- Hi|]. by apply (pr_early _ _ _ _ _ _ _ _ x' n' l').
  - destruct (send_to_ok TaskQueue id (set_env e' (begun c w)) [] [] Hqb) as (w3 & Hsend & Hq3 & c1 & c2 & ->); [done|].
    specialize (Hph _ [new_waker TaskQueue id] (on_rt (fun r => set_polling_chan c2 (set_task_chan c1 r)) (set_env e' (begun c w))) Hp).
    cbn [wake_all] in Hph. unfold wake_by_ref in Hph. cbn [task_id task_sender new_waker] in Hph.
    rewrite Hsend in Hph. specialize (Hph eq_refl).
    match type of Hph with _ = Ok (?w1, _) =>
      destruct (looked_only it x (env w) (begun c w) w1) as [x' HT']; [done|apply HT|done|lia|lia|by right|] end.
    destruct (woken_pass n l x id holder addr f st c x' w _ Hgo (eq_trans Htn Hph) HT') as (w' & Hb & Hi' & Hres); try done;
      [apply HA|].
    exists w'. split; [done|]. split; [by rewrite <- Hi|done].
Qed.

(** A pass that does not. *)
Lemma idle_pass n l x id holder addr c w w1 x1 l1 :
  goes_on c w -> turn c w = Ok (w1, false) -> (0 <= iteration_count (rt w) < u64_max)%Z ->
  Asleep n l1 x1 id holder addr w1 -> polling_task_buffer (rt w1) = [] ->
  iteration_count (rt w1) = (iteration_count (rt w) + 1)%Z ->
  (l1 < l \/ l1 = l /\ x1 = x /\ ~ due (iteration_count (rt w)) x) ->
  exists w', block_on_iter w = Ok (w', false) /\ iteration_count (rt w') = (iteration_count (rt w) + 1)%Z /\
    pass_result n l x id holder addr w w' false.
Proof.
  intros Hgo Ht Hit HA1 Hb1 Hi1 Hor. destruct (quiet_pass _ _ _ _ _ _ _ _ _ _ Hgo Ht HA1 Hb1) as (w' & Hb & Hi' & HA').
  exists w'. split; [done|]. split; [lia|].
  destruct Hor as [Hl|(-> & -> & Hnd)]; [by apply (pr_look _ _ _ _ _ _ _ _ x1 l1)|by apply pr_none].
Qed.

Lemma asleep_pass n l x id holder addr w :
  Asleep n l x id holder addr w -> (0 <= iteration_count (rt w) < u64_max)%Z ->
  exists w' b, block_on_iter w = Ok (w', b) /\ iteration_count (rt w') = (iteration_count (rt w) + 1)%Z /\
    pass_result n l x id holder addr w w' b.
Proof.
  intros HA Hit. assert (HT0 := as_only _ _ _ _ _ _ _ HA). assert (Hca := co_cache Hcfg).
  destruct (block_turn w [] (as_queues _ _ _ _ _ _ _ HA) (or_cfg _ _ HT0)) as (c & Hc & Hgo).
  destruct (begun_only x c w HT0 Hit) as [HT Hi]. set (it := iteration_count (rt w)) in *.
  assert (HB : Asleep n l x id holder addr (begun c w)).
  { apply (asleep_same n l x n l x id holder addr w); try done. split; [done|apply HA]. }
  destruct (as_waiting _ _ _ _ _ _ _ HA) as (f & st & Hv & Hf).
  destruct (decide (it <= 1 \/ it `mod` reactor_poll_interval cfg = 0)%Z) as [Hdue|Hdue]; cycle 1.
  { destruct (idle_pass n l x id holder addr c w (begun c w) x l Hgo) as (w' & ?); try done;
      [unfold turn; fold it; by rewrite bool_decide_false|right; do 2 (split; [done|]); intros []; tauto|by exists w', false]. }
  destruct (status_now it x (env w)) eqn:Hst.
  { destruct (running_pass n l x id holder addr c w HA Hit Hc Hgo Hdue Hst) as (w' & ?). by exists w', true. }
  assert (Hph := reactor_phase it x _ HT). change (env (begun c w)) with (env w) in Hph. rewrite Hst in Hph.
  assert (Htn : turn c w = poll_reactors it (begun c w)) by (unfold turn; fold it; by rewrite bool_decide_true).
  match type of Hph with _ = Ok (?w1, _) =>
    assert (Hid : exists x1 l1, Asleep n l1 x1 id holder addr w1 /\ (l1 < l \/ l1 = l /\ x1 = x /\ ~ due it x)) end.
  { destruct (waiting_stopped _ _ _ _ _ _ it Hf Hst) as [(Hl & He & Hnd)|(l' & Hf' & Hl)].
    - rewrite Hl, He. exists x, l. split; [|right; do 2 (split; [done|]); intros []; tauto].
      apply (asleep_same n l x n l x id holder addr (begun c w)); try done; [|apply HB]. by destruct HT.
    - match goal with |- exists _ _, Asleep _ _ _ _ _ _ ?w1 /\ _ =>
        destruct (looked_only it x (env w) (begun c w) w1) as [x' HT']; [done|apply HT|done|lia|lia|by left|] end.
      exists x', l'. split; [|by left]. split; [done|by exists f, st|split; [done|apply HA]|apply HA]. }
  destruct Hid as (x1 & l1 & HA1 & Hor).
  destruct (idle_pass n l x id holder addr c w _ x1 l1 Hgo (eq_trans Htn Hph) Hit HA1) as (w' & ?); try done. by exists w', false.
Qed.

(** The reactor phase of the first pass, before the future was polled. *)
Lemma first_turn N x id c w :
  OneReactor x w -> chan_rep c [] -> queues w [] [id] -> Begin N (env w) ->
  (0 <= iteration_count (rt w) < u64_max)%Z ->
  exists w1 b x', turn c w = Ok (w1, b) /\ OneReactor x' w1 /\ task_pool (rt w1) = task_pool (rt w) /\
    queues w1 [] [id] /\ Begin N (env w1) /\ heap w1 = heap w /\
    polling_task_buffer (rt w1) = [] /\ iteration_count (rt w1) = (iteration_count (rt w) + 1)%Z.
Proof.
  intros HT Hc0 Hq Hn Hit. destruct Hcfg as [_ _ Hca _]. destruct (begun_only x c w HT Hit) as [HTb Hib].
  assert (Hqb : queues (begun c w) [] [id]) by (split; [done|apply Hq]). unfold turn.
  case_bool_decide; [|by exists (begun c w), false, x]. assert (Hph := reactor_phase (iteration_count (rt w)) x _ HTb).
  change (env (begun c w)) with (env w) in Hph.
  assert (Hs : Begin N (status_env (iteration_count (rt w)) x (env w))).
  { unfold status_env. destruct (_ <? _)%Z; [done|by apply begin_status]. }
  assert (Hl := looked_only (iteration_count (rt w)) x (env w) (begun c w)). destruct (status_now _ _ _).
  - destruct (begin_reactor _ _ Hs) as (e' & Hp & He). specialize (Hph _ _ _ Hp eq_refl).
    match type of Hph with _ = Ok (?w1, _) => destruct (Hl w1) as [x' HT']; [done|apply HTb|done|lia|lia|by right|] end.
    eexists _, _, x'. by split; [exact Hph|].
  - match type of Hph with _ = Ok (?w1, _) => destruct (Hl w1) as [x' HT']; [done|apply HTb|done|lia|lia|by left|] end.
    eexists _, _, x'. by split; [exact Hph|].
Qed.

(** The first pass polls the new task, which resolves or starts to wait. *)
Lemma first_pass N x id holder addr st w :
  OneReactor x w -> view w = {[id := Some (await_task f0 holder addr st)]} -> queues w [] [id] ->
  Begin N (env w) -> waker (heap_get (heap w) addr) = None -> (0 <= iteration_count (rt w) < u64_max)%Z ->
  exists w' b x', block_on_iter w = Ok (w', b) /\ iteration_count (rt w') = (iteration_count (rt w) + 1)%Z /\
    ((exists v, Idle (Finished v) x' w' /\ holders w' !! holder = Some v) \/
     exists n l, n <= N /\ l <= looks /\ Asleep n l x' id holder addr w').
Proof.
  intros HT Hv Hq Hn Hw Hit. destruct (block_turn w [id] Hq (or_cfg _ _ HT)) as (c0 & Hc0 & Hgo).
  destruct (first_turn N x id c0 w HT Hc0 Hq Hn Hit) as (w1 & b & x' & Hr & HT1 & Hp1 & Hq1 & Hn1 & Hh1 & Hb1 & Hi1).
  destruct (Hgo w1 b [id] Hr Hb1 Hq1 (or_cfg _ _ HT1)) as (c' & Hc' & Hfin); [done|].
  set (w2 := batched c' [id] w1) in *. assert (Hv2 : view w2 = view w) by (unfold view; cbn; by rewrite Hp1).
  rewrite Hv in Hv2. assert (HT2 : OneReactor x' w2) by (by apply (one_reactor_same x' w1)).
  destruct (begin_poll N (new_waker TaskQueue id) (cclock cl (env w1)).1) as
    [(e' & f' & v & Hp & Hd)|(e' & f' & n & l & Hp & Hf & Hle & Hll)]; [by apply begin_clock| |].
  - destruct (finish f0 holder addr st id e' f' v w2) as (w' & Hpb & Hv' & He & Hh & Hf & Hc1 & Hc2); try done.
    { cbn. by rewrite Hh1. }
    exists w', (b || true), x'. split; [exact (Hfin _ _ Hpb)|]. split; [by rewrite (fr_iter _ _ Hf)|].
    left. exists v. split; [|done]. split; [by apply (frame_only x' w2)|done| |done].
    unfold queues. rewrite Hc1, Hc2. by destruct Hq1.
  - destruct (poll_pending id f0 f' holder addr st e' w2) as (p & st' & Hpr & Hvp); [|exact Hp|].
    { rewrite Hv2. apply lookup_singleton_eq. }
    match type of Hpr with _ = Ok (?v, _) => set (w3 := v) in * end.
    exists w3, (b || false), x'. split; [apply Hfin; cbn [poll_buffer]; by rewrite Hpr|].
    split; [done|]. right. exists n, l. split; [done|]. split; [done|].
    split; [by apply (one_reactor_same x' w1)| |split; [apply Hq1|done]|cbn; by rewrite Hh1].
    exists f', st'. split; [unfold view; cbn; by rewrite Hvp, Hv2, insert_singleton_eq|]. by apply waiting_clock.
Qed.

(** The polls and looks left after a poll. *)
Lemma round_bound n n' m l l' : n' < n -> l' <= m -> S (n' * S m + l') <= n * S m + l.
Proof. intros Hn Hl. assert (S n' * S m <= n * S m) by (apply Nat.mul_le_mono_r; lia). lia. Qed.

(** Some pass among the next [patience] polls the reactor or looks at its status. *)
Definition patience : nat := Z.to_nat (status_cache_iterations cfg + reactor_poll_interval cfg).

Lemma due_soon x w : OneReactor x w -> exists j, j < patience /\ due (iteration_count (rt w) + Z.of_nat j) x.
Proof.
  intros HT. destruct Hcfg as [Hiv _ Hca _]. unfold patience, due. set (iv := reactor_poll_interval cfg) in *.
  set (a := (iteration_count (rt w) + status_cache_iterations cfg)%Z).
  assert (Hv := or_valid _ _ HT). fold a in Hv. assert (Hm := Z.mod_pos_bound (- a) iv Hiv).
  exists (Z.to_nat (status_cache_iterations cfg + (- a) mod iv)). split; [lia|]. split; [|right; lia].
  replace (iteration_count (rt w) + _)%Z with (a + (- a) mod iv)%Z by lia.
  rewrite Zplus_mod_idemp_r. replace (a + - a)%Z with 0%Z by lia. apply Z.mod_0_l. lia.
Qed.

Lemma loop_ends fuel max_stuck id stuck P x w : Idle P x w -> block_on_loop fuel max_stuck id stuck w = Ok (w, true).
Proof. intros HI. destruct fuel; cbn [block_on_loop]; rewrite slab_get_view; fold (view w); by rewrite (id_view _ _ _ HI), lookup_empty. Qed.

(** [block_on]'s loop on the waiting task: [j] passes until the reactor is looked at or
    polled, [l] looks until it is polled, [n] polls until the task is woken. *)
Lemma asleep_loop max_stuck n : (max_stuck <= u64_max)%Z -> forall l j x id holder addr w fuel stuck,
  Asleep n l x id holder addr w -> due (iteration_count (rt w) + Z.of_nat j) x -> j <= patience -> l <= looks ->
  (Z.of_nat (S looks * S patience) <= max_stuck)%Z ->
  (0 <= stuck)%Z -> (stuck + Z.of_nat (j + l * S patience) <= max_stuck)%Z ->
  j + (n * S looks + l) * S patience < fuel -> (0 <= iteration_count (rt w))%Z ->
  (iteration_count (rt w) + Z.of_nat (j + (n * S looks + l) * S patience) < u64_max)%Z ->
  exists w' x' v, block_on_loop fuel max_stuck id stuck w = Ok (w', true) /\ Idle (Finished v) x' w' /\
    holders w' !! holder = Some v.
Proof.
  intros H64. induction n as [n IHn] using lt_wf_ind. intros l. induction l as [l IHl] using lt_wf_ind.
  intros j. induction j as [j IHj] using lt_wf_ind.
  intros x id holder addr w fuel stuck HA Hdue Hj Hl Hmax Hst Hsum Hf Hi Hw.
  destruct fuel as [|fuel]; [lia|]. cbn [block_on_loop]. rewrite slab_get_view. fold (view w).
  destruct (as_waiting _ _ _ _ _ _ _ HA) as (f & st & Hv & _). rewrite Hv, lookup_singleton_eq.
  destruct (asleep_pass n l x id holder addr w HA) as (w' & b & Hp & Hi' & Hres); [lia|]. rewrite Hp. cbn [mbind outcome_bind].
  destruct Hres as [x' v HI Hh|x' n' l' HA' Hlt Hl'|x' l' HA' Hlt|HA' Hnd].
  - exists w', x', v. split; [|done]. by eapply loop_ends.
  - destruct (due_soon x' w' (as_only _ _ _ _ _ _ _ HA')) as (j' & Hj' & Hd').
    assert (Hm1 := round_bound n n' looks l l' Hlt Hl'). assert (Hm2 := Nat.mul_le_mono_r _ _ (S patience) Hm1).
    assert (Hm3 := Nat.mul_le_mono_r _ _ (S patience) (le_n_S _ _ Hl')).
    apply (IHn n' Hlt l' j' x' id holder addr); try done; cbn in Hm2, Hm3; lia.
  - rewrite (wrap64_small (stuck + 1)) by (unfold in_u64, u64_max in *; lia).
    assert (Hm := Nat.mul_le_mono_r _ _ (S patience) Hlt). rewrite Nat.mul_succ_l in Hm.
    rewrite Nat.mul_add_distr_r in *. rewrite (proj2 (Z.ltb_ge _ _)) by lia.
    destruct (due_soon x' w' (as_only _ _ _ _ _ _ _ HA')) as (j' & Hj' & Hd').
    apply (IHl l' Hlt j' x' id holder addr); try done; rewrite ?Nat.mul_add_distr_r; try (cbn; lia); by apply asleep_yield.
  - destruct j as [|j]; [by rewrite Z.add_0_r in Hdue|].
    rewrite (wrap64_small (stuck + 1)) by (unfold in_u64, u64_max in *; lia).
    rewrite (proj2 (Z.ltb_ge _ _)) by lia.
    apply (IHj j ltac:(lia) x id holder addr); try done; try (cbn; lia); [by apply asleep_yield|].
    cbn. rewrite Hi'. by replace (iteration_count (rt w) + 1 + Z.of_nat j)%Z with (iteration_count (rt w) + Z.of_nat (S j))%Z by lia.
Qed.

(** ** The call *)

Lemma block_on_unfold nm fuel f w :
  block_on_with_name_and_runtime fuel nm f w =
  (let holder := next_addr w in
   '(w, target, _) ← insert_and_send (BodyBlockOn f holder) unit_type TaskQueue (Some nm)
                       (set_next_addr (S holder) w);
   '(w', finished) ← block_on_loop fuel max_stuck_iterations target 0 w;
   if finished : bool then
     v ← expect "Task completed but result was not set" (holders w' !! holder);
     mret (set_holders (delete (holder) (holders w')) w', Some v)
   else mret (w', None)).
Proof.
  unfold block_on_with_name_and_runtime, insert_and_send, create_task_and_handle. destruct (pool_insert _ _) as [w1 id].
  by destruct (send_to _ _ _).
Qed.

(** Passes that are enough for [N] polls of the reactor. *)
Definition passes (N : nat) : nat := S N * S looks * S patience.

(** The loop from the first pass on. *)
Lemma started_loop N x id holder addr st fuel w :
  OneReactor x w -> view w = {[id := Some (await_task f0 holder addr st)]} -> queues w [] [id] ->
  Begin N (env w) -> waker (heap_get (heap w) addr) = None ->
  (Z.of_nat (S looks * S patience) <= max_stuck_iterations)%Z ->
  passes N < fuel -> (0 <= iteration_count (rt w))%Z ->
  (iteration_count (rt w) + Z.of_nat (passes N) < u64_max)%Z ->
  exists w' x' v, block_on_loop fuel max_stuck_iterations id 0 w = Ok (w', true) /\ Idle (Finished v) x' w' /\
    holders w' !! holder = Some v.
Proof.
  intros HT Hv Hq Hn Hw Hstuck Hf Hi Hit. assert (Hmax : in_u64 max_stuck_iterations) by (by apply env_u64_range).
  unfold in_u64 in Hmax. destruct fuel as [|fuel]; [lia|]. cbn [block_on_loop]. rewrite slab_get_view. fold (view w).
  rewrite Hv, lookup_singleton_eq.
  destruct (first_pass N x id holder addr st w) as (w2 & b & x2 & Hp & Hi2 & Hres); [done|done|done|done|done| |].
  { split; [done|]. unfold passes in Hit. cbn in Hit. lia. }
  rewrite Hp. cbn [mbind outcome_bind]. rewrite (wrap64_small (0 + 1)) by (unfold in_u64, u64_max; lia).
  rewrite (proj2 (Z.ltb_ge max_stuck_iterations _)) by lia.
  assert (Hw3 : exists w3 stuck, (if b then block_on_loop fuel max_stuck_iterations id 0 w2
      else block_on_loop fuel max_stuck_iterations id (0 + 1) (yield_thread YieldNow w2)) =
      block_on_loop fuel max_stuck_iterations id stuck w3 /\ (0 <= stuck <= 1)%Z /\ (w3 = w2 \/ w3 = yield_thread YieldNow w2)).
  { destruct b; [by exists w2, 0%Z; repeat split; try lia; left|by eexists _, 1%Z; repeat split; try lia; right]. }
  destruct Hw3 as (w3 & stuck & -> & Hst & Hw3). destruct Hres as [(v & HI2 & Hho)|(n & l & Hnle & Hll & HA)].
  - exists w3, x2, v. assert (HI3 : Idle (Finished v) x2 w3) by (by destruct Hw3 as [-> | ->]; [|apply idle_yield]).
    split; [by eapply loop_ends|]. by destruct Hw3 as [-> | ->].
  - assert (HA3 : Asleep n l x2 id holder addr w3) by (destruct Hw3 as [-> | ->]; [done|by apply asleep_yield]).
    assert (Hi3 : iteration_count (rt w3) = iteration_count (rt w2)) by (by destruct Hw3 as [-> | ->]).
    destruct (due_soon x2 w3 (as_only _ _ _ _ _ _ _ HA3)) as (j & Hj & Hd).
    assert (Hs64 : (max_stuck_iterations <= u64_max)%Z) by (unfold u64_max; lia).
    assert (Hm1 := round_bound (S N) n looks 0 l (le_n_S _ _ Hnle) Hll). rewrite Nat.add_0_r in Hm1.
    assert (Hm2 := Nat.mul_le_mono_r _ _ (S patience) Hm1). fold (passes N) in Hm2. rewrite Nat.mul_succ_l in Hm2.
    assert (Hm3 := Nat.mul_le_mono_r _ _ (S patience) (le_n_S _ _ Hll)). rewrite Nat.mul_succ_l in Hm3.
    apply (asleep_loop max_stuck_iterations n Hs64 l j x2 id holder addr); try done; lia.
Qed.

(** What the runtime promises: from an idle runtime [block_on] of the future returns
    with the fuel given, and leaves no task and no queued id behind. *)
Lemma block_on_returns nm x fuel N w :
  Idle (Begin N) x w -> (Z.of_nat (S looks * S patience) <= max_stuck_iterations)%Z ->
  passes N < fuel -> (0 <= iteration_count (rt w))%Z ->
  (iteration_count (rt w) + Z.of_nat (passes N) < u64_max)%Z ->
  exists w' x' v, block_on_with_name_and_runtime fuel nm f0 w = Ok (w', Some v) /\ Idle (Finished v) x' w'.
Proof.
  intros HI Hstuck Hf Hi Hit. rewrite block_on_unfold. cbv zeta. set (w0 := set_next_addr (S (next_addr w)) w).
  destruct (insert_and_send_ok (BodyBlockOn f0 (next_addr w)) unit_type TaskQueue (Some nm) w0 [] [])
    as (w1 & id & Hs & [Hv _ Hh _ Hfr _] & Hq); [apply HI|apply Hcfg|].
  assert (He := insert_and_send_env _ _ _ _ _ _ _ _ Hs). rewrite Hs. cbn [mbind outcome_bind].
  change (view w0) with (view w) in Hv. rewrite (id_view _ _ _ HI), insert_empty in Hv.
  assert (HT1 : OneReactor x w1).
  { apply (frame_only x w0); [done|]. apply (one_reactor_same x w); [done..|apply HI]. }
  assert (Hi1 : iteration_count (rt w1) = iteration_count (rt w)) by (by rewrite (fr_iter _ _ Hfr)).
  destruct (started_loop N x id (next_addr w) (next_addr w0) (TaskStat_new (Some nm)) fuel w1) as (w' & x' & v & Hl & HI' & Hho);
    [done|done|done|rewrite He; apply HI|by rewrite Hh, heap_get_set, decide_True|done|done|lia|lia|].
  rewrite Hl. cbn [mbind outcome_bind]. rewrite Hho. cbn [expect mbind outcome_bind mret outcome_ret].
  eexists _, x', v. split; [done|]. destruct HI'. split; try done. by apply (one_reactor_same x' w').
Qed.

(** A new runtime with the reactor registered is idle. *)
Definition fresh_world e : outcome AWorld :=
  r ← with_config cfg;
  mret (register_reactor name (creactor cl) (mkWorld r ∅ 0 ∅ TrackIdAllocator_new e None None [])).

Lemma fresh_idle P e : P e ->
  exists w x, fresh_world e = Ok w /\ Idle P x w /\ iteration_count (rt w) = 0%Z.
Proof.
  intros He. unfold fresh_world, with_config. destruct chan_new_rep as (c & Hn & Hr). rewrite Hn. cbn [mbind outcome_bind mret outcome_ret].
  eexists _, _. split; [reflexivity|]. split; [|done]. split; [split| | |].
  - done.
  - cbn. unfold hash_insert. cbn. apply Permutation_singleton_r, ho_perm.
  - done.
  - done.
  - cbn. destruct Hcfg. lia.
  - unfold view. cbn. apply slab_new_view.
  - done.
  - done.
Qed.
End await.

(** The default configuration will do. *)
Lemma default_config_ok : ConfigOk (C := Inner nat) SchedulingConfig_default.
Proof. split; [done|cbn; lia|done|unfold room; vm_compute; done]. Qed.
