(* ===== verification/Timer.v ===== *)
(** * Timer: timers, delays and timeouts ([pluvio_timer/src/lib.rs])

    The reactor's [BTreeMap] is a list sorted by key, with the standard library's
    operations on it; instants are nanoseconds.  [TimerState] is the thread-local
    reactor together with the process-wide handle counter.  [Delay] and [Timeout]
    are futures over any world that contains a [TimerState] and a clock. *)

From S2P Require Import Prelude Future Executor.
From Stdlib Require Import Sorting.Sorted.
Local Open Scope Z_scope.

(** ** Handles *)

Record TimerHandle : Type := mkHandle {
  deadline : Z;
  hid : Z
}.

#[export] Instance TimerHandle_eq_dec : EqDecision TimerHandle.
Proof. solve_decision. Defined.

(** The derived [Ord]: by deadline, then by id. *)
Definition handle_lt (a b : TimerHandle) : bool :=
  (deadline a <? deadline b) || ((deadline a =? deadline b) && (hid a <? hid b)).
Definition handle_le (a b : TimerHandle) : bool := negb (handle_lt b a).

Definition max_at (d : Z) : TimerHandle := mkHandle d u64_max.

(** ** [BTreeMap<TimerHandle, Waker>] *)

Abbreviation Timers := (list (TimerHandle * Waker)).

Fixpoint btree_insert (h : TimerHandle) (k : Waker) (l : Timers) : Timers :=
  match l with
  | [] => [(h, k)]
  | (h', k') :: l' =>
      if handle_lt h h' then (h, k) :: l
      else if handle_lt h' h then (h', k') :: btree_insert h k l'
      else (h, k) :: l'
  end.

Fixpoint btree_remove (h : TimerHandle) (l : Timers) : Timers * option Waker :=
  match l with
  | [] => ([], None)
  | (h', k') :: l' =>
      if bool_decide (h = h') then (l', Some k')
      else let (l', o) := btree_remove h l' in ((h', k') :: l', o)
  end.

(** The keys of [range(..=h)], in order. *)
Definition btree_range_to (h : TimerHandle) (l : Timers) : list TimerHandle :=
  (filter (fun e => handle_le e.1 h = true) l).*1.

(** ** The reactor *)

Record TimerState : Type := mkTimers {
  timers : Timers;
  timer_count_atomic : Z;
  COUNTER : Z
}.

Definition TimerReactor_new (counter : Z) : TimerState := mkTimers [] 0 counter.

(** [TimerHandle::new]. *)
Definition TimerHandle_new (d : Z) (st : TimerState) : TimerState * TimerHandle :=
  (mkTimers (timers st) (timer_count_atomic st) (wrap64 (COUNTER st + 1)), mkHandle d (COUNTER st)).

Definition register_timer (d : Z) (k : Waker) (st : TimerState) : TimerState * TimerHandle :=
  let (st, handle) := TimerHandle_new d st in
  (mkTimers (btree_insert handle k (timers st)) (wrap64 (timer_count_atomic st + 1)) (COUNTER st),
   handle).

Definition cancel_timer (h : TimerHandle) (st : TimerState) : TimerState * bool :=
  let (l, o) := btree_remove h (timers st) in
  match o with
  | Some _ => (mkTimers l (wrap64 (timer_count_atomic st - 1)) (COUNTER st), true)
  | None => (mkTimers l (timer_count_atomic st) (COUNTER st), false)
  end.

Definition timer_count (st : TimerState) : nat := length (timers st).

(** The loop over the collected handles; the wakers, in the order woken. *)
Fixpoint wake_loop (expired : list TimerHandle) (st : TimerState) : TimerState * list Waker :=
  match expired with
  | [] => (st, [])
  | h :: expired =>
      let (l, o) := btree_remove h (timers st) in
      match o with
      | Some k =>
          let st := mkTimers l (wrap64 (timer_count_atomic st - 1)) (COUNTER st) in
          let (st, ks) := wake_loop expired st in (st, k :: ks)
      | None => wake_loop expired (mkTimers l (timer_count_atomic st) (COUNTER st))
      end
  end.

Definition wake_expired_timers (now : Z) (st : TimerState) : TimerState * nat * list Waker :=
  match timers st with
  | [] => (st, 0%nat, [])
  | (first_handle, _) :: _ =>
      if now <? deadline first_handle then (st, 0%nat, [])
      else
        let expired := btree_range_to (max_at now) (timers st) in
        let (st, ks) := wake_loop expired st in (st, length expired, ks)
  end.

Definition timer_status (st : TimerState) : ReactorStatus :=
  if 0 <? timer_count_atomic st then Running else Stopped.

(** A world with the thread-local timer reactor and a monotonic clock. *)
Class HasTimer (S : Type) := {
  get_timer : S -> TimerState;
  put_timer : TimerState -> S -> S;
  read_now : S -> S * Z;
  get_put_timer s t : get_timer (put_timer t s) = t;
  read_now_timer s : get_timer (read_now s).1 = get_timer s
}.

(** The [Reactor] implementation, as the executor sees it. *)
Definition timer_reactor {E : Type} `{HasTimer E} : DynReactor E := {|
  dyn_poll := fun e =>
    let (e, now) := read_now e in
    let '(st, _, ks) := wake_expired_timers now (get_timer e) in
    Ok (put_timer st e, ks);
  dyn_status := fun e => (e, timer_status (get_timer e))
|}.

(** ** Delay *)

Record Delay : Type := mkDelay {
  ddeadline : Z;
  timer_handle : option TimerHandle
}.

Definition Delay_new_at (d : Z) : Delay := mkDelay d None.

Inductive TimeoutError : Type := TimedOut.

Record Timeout (F : Type) : Type := mkTimeout {
  tfuture : option F;
  delay : Delay
}.
Arguments mkTimeout {F} _ _.
Arguments tfuture {F} _.
Arguments delay {F} _.

Section futures.
Context {S : Type} `{HasTimer S}.

Definition Delay_new (duration : Z) (s : S) : S * Delay :=
  let (s, now) := read_now s in (s, Delay_new_at (now + duration)).
Definition sleep (duration : Z) (s : S) : S * Delay := Delay_new duration s.

Definition Delay_deadline (x : Delay) : Z := ddeadline x.
Definition Delay_remaining (x : Delay) (s : S) : S * Z :=
  let (s, now) := read_now s in (s, Z.max 0 (ddeadline x - now)).

Definition Delay_poll (k : Waker) (x : Delay) (s : S) : outcome (S * Delay * Poll unit) :=
  let (s, now) := read_now s in
  if ddeadline x <=? now then mret (s, x, Ready tt)
  else
    match timer_handle x with
    | None =>
        let (st, handle) := register_timer (ddeadline x) (clone_raw k) (get_timer s) in
        mret (put_timer st s, mkDelay (ddeadline x) (Some handle), Pending)
    | Some _ => mret (s, x, Pending)
    end.

Definition Delay_drop (x : Delay) (s : S) : S :=
  match timer_handle x with
  | Some handle => put_timer (cancel_timer handle (get_timer s)).1 s
  | None => s
  end.

#[export] Instance Delay_Future : Future S Delay unit :=
  {| fpoll := Delay_poll; fdrop := Delay_drop |}.

(** ** Timeout *)

Section timeout.
Context {F A : Type} `{Future S F A}.

Definition Timeout_new (duration : Z) (f : F) (s : S) : S * Timeout F :=
  let (s, d) := Delay_new duration s in (s, mkTimeout (Some f) d).
Definition Timeout_new_at (d : Z) (f : F) : Timeout F := mkTimeout (Some f) (Delay_new_at d).
Definition timeout (duration : Z) (f : F) (s : S) : S * Timeout F := Timeout_new duration f s.
Definition timeout_at (d : Z) (f : F) : Timeout F := Timeout_new_at d f.

Definition Timeout_poll (k : Waker) (x : Timeout F) (s : S) :
    outcome (S * Timeout F * Poll (result A TimeoutError)) :=
  '(s, o, p) ← (match tfuture x with
                | Some f => '(s, f, p) ← fpoll k f s; mret (s, Some f, p)
                | None => mret (s, None, Pending)
                end);
  match p with
  | Ready a => mret (drop_opt (A := A) o s, mkTimeout None (delay x), Ready (ROk a))
  | Pending =>
      '(s, d, q) ← Delay_poll k (delay x) s;
      match q with
      | Ready _ => mret (drop_opt (A := A) o s, mkTimeout None d, Ready (RErr TimedOut))
      | Pending => mret (s, mkTimeout o d, Pending)
      end
  end.

(** Fields are dropped in declaration order. *)
Definition Timeout_drop (x : Timeout F) (s : S) : S :=
  Delay_drop (delay x) (drop_opt (A := A) (tfuture x) s).

#[export] Instance Timeout_Future : Future S (Timeout F) (result A TimeoutError) :=
  {| fpoll := Timeout_poll; fdrop := Timeout_drop |}.
End timeout.
End futures.

(** * Facts *)

Definition klt (a b : TimerHandle) : Prop := handle_lt a b = true.

Lemma handle_lt_spec a b :
  klt a b <-> deadline a < deadline b \/ (deadline a = deadline b /\ hid a < hid b).
Proof. unfold klt, handle_lt. rewrite orb_true_iff, andb_true_iff, !Z.ltb_lt, Z.eqb_eq. done. Qed.

Lemma klt_trans a b c : klt a b -> klt b c -> klt a c.
Proof. rewrite !handle_lt_spec. lia. Qed.
Lemma klt_irrefl a : ~ klt a a.
Proof. rewrite handle_lt_spec. lia. Qed.
Lemma klt_total a b : handle_lt a b = false -> handle_lt b a = false -> a = b.
Proof.
  intros H1 H2. destruct a as [d i], b as [d' i'].
  assert (~ klt (mkHandle d i) (mkHandle d' i')) by (unfold klt; congruence).
  assert (~ klt (mkHandle d' i') (mkHandle d i)) by (unfold klt; congruence).
  rewrite handle_lt_spec in *. cbn in *. f_equal; lia.
Qed.

(** The map's representation invariant. *)
Definition btree_wf (l : Timers) : Prop := StronglySorted klt l.*1.

Lemma btree_wf_cons h k l : btree_wf ((h, k) :: l) <-> btree_wf l /\ Forall (fun e => klt h e.1) l.
Proof.
  unfold btree_wf. cbn. split.
  - intros Hs. inversion Hs; subst. split; [done|]. by rewrite Forall_fmap in *.
  - intros [Hs Hl]. constructor; [done|]. by rewrite Forall_fmap.
Qed.

(** Inserting a fresh key. *)
Lemma btree_insert_fresh h k l :
  btree_wf l -> h ∉ l.*1 ->
  exists l1 l2, l = l1 ++ l2 /\ btree_insert h k l = l1 ++ (h, k) :: l2 /\ btree_wf (btree_insert h k l).
Proof.
  induction l as [|[h' k'] l IH]; intros Hwf Hfresh; cbn [btree_insert].
  - exists [], []. do 2 (split; [done|]). apply btree_wf_cons. by split.
  - pose proof Hwf as [Hwf' Hall]%btree_wf_cons. cbn in Hfresh.
    apply not_elem_of_cons in Hfresh as [Hne Hfresh].
    destruct (handle_lt h h') eqn:H1.
    + exists [], ((h', k') :: l). do 2 (split; [done|]). apply btree_wf_cons. split; [done|].
      constructor; [done|]. eapply Forall_impl; [exact Hall|]. intros [h2 k2] Hlt. cbn in *.
      by eapply klt_trans.
    + destruct (handle_lt h' h) eqn:H2; [|by destruct (Hne (klt_total _ _ H1 H2))].
      destruct (IH Hwf' Hfresh) as (l1 & l2 & -> & Hi & Hw). exists ((h', k') :: l1), l2.
      rewrite Hi in *. do 2 (split; [done|]). apply btree_wf_cons. split; [done|].
      apply Forall_app in Hall as [Ha Hb]. apply Forall_app. split; [done|]. by constructor.
Qed.

Lemma btree_remove_spec h l :
  btree_wf l ->
  match btree_remove h l with
  | (l', Some k) => exists l1 l2, l = l1 ++ (h, k) :: l2 /\ l' = l1 ++ l2
  | (l', None) => l' = l /\ h ∉ l.*1
  end.
Proof.
  induction l as [|[h' k'] l IH]; intros Hwf; cbn [btree_remove].
  - split; [done|]. apply not_elem_of_nil.
  - pose proof Hwf as [Hwf' _]%btree_wf_cons. case_bool_decide as Hd; [subst; by exists [], l|].
    specialize (IH Hwf'). destruct (btree_remove h l) as [l' [k|]].
    + destruct IH as (l1 & l2 & -> & ->). by exists ((h', k') :: l1), l2.
    + destruct IH as [-> Hn]. split; [done|]. cbn. by apply not_elem_of_cons.
Qed.

Lemma btree_wf_app l1 l2 : btree_wf (l1 ++ l2) -> btree_wf l1 /\ btree_wf l2 /\
  Forall (fun a => Forall (fun b => klt a.1 b.1) l2) l1.
Proof.
  induction l1 as [|[h k] l1 IH]; intros Hwf; [split; [constructor|]; split; [done|constructor]|].
  apply btree_wf_cons in Hwf as [Hwf Hall]. destruct (IH Hwf) as (Ha & Hb & Hc).
  apply Forall_app in Hall as [Hx Hy]. split; [by apply btree_wf_cons|]. split; [done|].
  by constructor.
Qed.

Lemma btree_wf_join l1 l2 : btree_wf l1 -> btree_wf l2 ->
  Forall (fun a => Forall (fun b => klt a.1 b.1) l2) l1 -> btree_wf (l1 ++ l2).
Proof.
  induction l1 as [|[h k] l1 IH]; intros Ha Hb Hc; [done|]. inversion Hc; subst.
  apply btree_wf_cons in Ha as [Ha Hall]. apply btree_wf_cons. split; [by apply IH|].
  apply Forall_app. by split.
Qed.

Lemma btree_wf_remove l1 e l2 : btree_wf (l1 ++ e :: l2) -> btree_wf (l1 ++ l2).
Proof.
  intros (Ha & Hb & Hc)%btree_wf_app. destruct e as [h k]. apply btree_wf_cons in Hb as [Hb _].
  apply btree_wf_join; [done..|]. eapply Forall_impl; [exact Hc|].
  intros x Hx. by inversion Hx.
Qed.

Lemma btree_wf_key h k k' l : btree_wf l -> (h, k) ∈ l -> (h, k') ∈ l -> k = k'.
Proof.
  intros Hwf H1 H2. apply list_elem_of_split in H1 as (l1 & l2 & ->).
  apply btree_wf_app in Hwf as (_ & Hb & Hc). apply btree_wf_cons in Hb as [_ Hb].
  rewrite elem_of_app, elem_of_cons in H2. destruct H2 as [H2|[[=]|H2]]; [|done|].
  - rewrite Forall_forall in Hc. specialize (Hc _ H2). inversion Hc; subst.
    by destruct (klt_irrefl h).
  - rewrite Forall_forall in Hb. specialize (Hb _ H2). by destruct (klt_irrefl h).
Qed.

(** ** The reactor's invariant *)

Record TimerInv (st : TimerState) : Prop := {
  ti_sorted : btree_wf (timers st);
  ti_count : timer_count_atomic st = Z.of_nat (length (timers st));
  ti_range : Z.of_nat (length (timers st)) < 2 ^ 64;
  ti_ids : Forall (fun e => hid e.1 < COUNTER st) (timers st);
  ti_counter : 0 <= COUNTER st <= u64_max
}.

Lemma timer_inv_new c : 0 <= c <= u64_max -> TimerInv (TimerReactor_new c).
Proof. intros Hc. split; cbn; [constructor|done|done|constructor|done]. Qed.

Lemma register_inv d k st :
  TimerInv st -> COUNTER st < u64_max -> Z.of_nat (length (timers st)) < 2 ^ 64 - 1 ->
  exists st', register_timer d k st = (st', mkHandle d (COUNTER st)) /\ TimerInv st' /\
    timers st' ≡ₚ (mkHandle d (COUNTER st), k) :: timers st /\ COUNTER st' = COUNTER st + 1.
Proof.
  intros [H1 H2 H3 H4 H5] Hc Hl. unfold register_timer, TimerHandle_new. cbn.
  set (h := mkHandle d (COUNTER st)).
  assert (Hf : h ∉ (timers st).*1).
  { intros ([h' k'] & Hh & Hin)%list_elem_of_fmap. rewrite Forall_forall in H4.
    specialize (H4 _ Hin). cbn in Hh, H4. subst h'. cbn in H4. lia. }
  destruct (btree_insert_fresh h k (timers st) H1 Hf) as (l1 & l2 & Hsp & Hins & Hwf).
  eexists. split; [reflexivity|].
  assert (Hp : btree_insert h k (timers st) ≡ₚ (h, k) :: timers st)
    by (rewrite Hins, Hsp; by rewrite Permutation_middle).
  assert (Hlen : length (btree_insert h k (timers st)) = S (length (timers st))) by by rewrite Hp.
  unfold u64_max in *.
  split; [split; cbn|split; cbn].
  - done.
  - rewrite wrap64_small by (unfold in_u64; lia). lia.
  - lia.
  - rewrite Hp, wrap64_small by (unfold in_u64; lia). constructor; [cbn; lia|].
    eapply Forall_impl; [exact H4|]. cbn. lia.
  - rewrite wrap64_small by (unfold in_u64; lia). unfold u64_max. lia.
  - done.
  - apply wrap64_small. unfold in_u64. lia.
Qed.

(** Dropping entries keeps the invariant. *)
Lemma timer_inv_sub st l :
  TimerInv st -> btree_wf l -> l ⊆ timers st -> (length l <= length (timers st))%nat ->
  TimerInv (mkTimers l (Z.of_nat (length l)) (COUNTER st)).
Proof.
  intros [H1 H2 H3 H4 H5] Hwf Hsub Hlen. split; cbn; try done; [lia|].
  rewrite Forall_forall in *. intros e He. by apply H4, Hsub.
Qed.

Lemma cancel_inv h st :
  TimerInv st ->
  exists st' b, cancel_timer h st = (st', b) /\ TimerInv st' /\ COUNTER st' = COUNTER st /\
    (b = true <-> h ∈ (timers st).*1) /\
    (forall e, e ∈ timers st' <-> e ∈ timers st /\ e.1 <> h).
Proof.
  intros HI. pose proof HI as [H1 H2 H3 H4 H5]. unfold cancel_timer.
  pose proof (btree_remove_spec h (timers st) H1) as Hr.
  destruct (btree_remove h (timers st)) as [l [k|]].
  - destruct Hr as (l1 & l2 & Hsp & ->).
    assert (Hlen : length (timers st) = S (length (l1 ++ l2))) by (rewrite Hsp, !length_app; cbn; lia).
    assert (Hw : wrap64 (timer_count_atomic st - 1) = Z.of_nat (length (l1 ++ l2))).
    { rewrite H2, Hlen. rewrite wrap64_small; [lia|unfold in_u64; lia]. }
    rewrite Hw. eexists _, _. split; [done|]. split; [|split; [done|split]].
    + apply timer_inv_sub; [done| | |lia].
      * rewrite Hsp in H1. by eapply btree_wf_remove.
      * rewrite Hsp. intros x. rewrite !elem_of_app, elem_of_cons. tauto.
    + split; [|done]. intros _. rewrite Hsp, fmap_app, elem_of_app. cbn. right. by left.
    + intros [h' k']. cbn. rewrite Hsp in *.
      pose proof (btree_wf_app _ _ H1) as (_ & Hb & Hc). apply btree_wf_cons in Hb as [_ Hb].
      rewrite !elem_of_app, elem_of_cons. split.
      * intros Hin. split; [tauto|]. intros ->. rewrite Forall_forall in Hb, Hc.
        destruct Hin as [Hin|Hin].
        -- specialize (Hc _ Hin). inversion Hc; subst. by destruct (klt_irrefl h).
        -- specialize (Hb _ Hin). by destruct (klt_irrefl h).
      * intros [[?|[[= -> ->]|?]] Hne]; [tauto|done|tauto].
  - destruct Hr as [-> Hn]. eexists _, _. split; [done|]. split; [|split; [done|split]].
    + destruct st; exact HI.
    + done.
    + intros [h' k']. cbn. split; [|tauto]. intros Hin. split; [done|]. intros ->.
      apply Hn. apply list_elem_of_fmap. by exists (h, k').
Qed.

(** ** Expiry *)

Definition expired_at (now : Z) (e : TimerHandle * Waker) : Prop := deadline e.1 <= now.
#[export] Instance expired_at_dec now e : Decision (expired_at now e).
Proof. unfold expired_at. apply _. Defined.

Section filters.
Context {A : Type} (P Q : A -> Prop) `{!forall x, Decision (P x), !forall x, Decision (Q x)}.

Lemma filter_none (l : list A) : Forall (fun x => ~ P x) l -> filter P l = [].
Proof.
  induction 1 as [|x l Hx _ IH]; [done|]. cbn [filter list_filter]. by rewrite decide_False.
Qed.
Lemma filter_ext_Forall (l : list A) : Forall (fun x => P x <-> Q x) l -> filter P l = filter Q l.
Proof.
  induction 1 as [|x l Hx _ IH]; [done|]. cbn [filter list_filter].
  destruct (decide (P x)), (decide (Q x)); try tauto. f_equal. exact IH.
Qed.
End filters.

(** In a sorted map the expired timers are a prefix. *)
Lemma expired_prefix now l : btree_wf l ->
  l = filter (expired_at now) l ++ filter (fun e => ~ expired_at now e) l.
Proof.
  induction l as [|[h k] l IH]; intros Hwf; [done|]. apply btree_wf_cons in Hwf as [Hwf Hall].
  destruct (decide (expired_at now (h, k))) as [He|He].
  - rewrite filter_cons_True, filter_cons_False by tauto. cbn. f_equal. by apply IH.
  - rewrite filter_cons_False, filter_cons_True by done.
    assert (Hnone : filter (expired_at now) l = []).
    { apply filter_none. eapply Forall_impl; [exact Hall|].
      intros [h' k'] Hlt Hx. apply He. unfold expired_at in *. cbn in *.
      apply handle_lt_spec in Hlt. lia. }
    rewrite Hnone. cbn. f_equal. rewrite (IH Hwf) at 1. by rewrite Hnone.
Qed.

Lemma range_to_expired now l :
  Forall (fun e => hid e.1 <= u64_max) l ->
  btree_range_to (max_at now) l = (filter (expired_at now) l).*1.
Proof.
  intros Hall. unfold btree_range_to. f_equal. apply filter_ext_Forall.
  eapply Forall_impl; [exact Hall|]. intros [h k] Hid. cbn in Hid. unfold expired_at, handle_le. cbn.
  destruct (handle_lt (max_at now) h) eqn:Hlt; cbn.
  - split; [done|]. intros Hd. apply handle_lt_spec in Hlt. cbn in Hlt. lia.
  - split; [|done]. intros _. assert (~ klt (max_at now) h) as Hn by (unfold klt; congruence).
    rewrite handle_lt_spec in Hn. cbn in Hn. lia.
Qed.

Lemma wake_loop_prefix l1 l2 c n :
  Z.of_nat (length l1) <= c < 2 ^ 64 ->
  wake_loop l1.*1 (mkTimers (l1 ++ l2) c n) = (mkTimers l2 (c - Z.of_nat (length l1)) n, l1.*2).
Proof.
  revert c. induction l1 as [|[h k] l1 IH]; intros c Hc; cbn [fmap list_fmap wake_loop length] in *.
  - rewrite Z.sub_0_r. done.
  - cbn [app btree_remove timers]. rewrite bool_decide_eq_true_2 by done.
    cbn [timer_count_atomic COUNTER]. rewrite wrap64_small by (unfold in_u64; lia).
    rewrite IH by lia. cbn. f_equal. f_equal. lia.
Qed.

Lemma wake_expired_eq now st : TimerInv st ->
  let gone := filter (expired_at now) (timers st) in
  let rest := filter (fun e => ~ expired_at now e) (timers st) in
  wake_expired_timers now st =
    (mkTimers rest (Z.of_nat (length rest)) (COUNTER st), length gone, gone.*2).
Proof.
  destruct st as [ts c n]. intros [H1 H2 H3 H4 H5] gone rest.
  cbn [timers timer_count_atomic COUNTER] in *.
  pose proof (expired_prefix now ts H1) as Hsp.
  assert (Hids : Forall (fun e => hid e.1 <= u64_max) ts).
  { eapply Forall_impl; [exact H4|]. cbn. lia. }
  pose proof (range_to_expired now ts Hids) as Hrange.
  pose proof (f_equal length Hsp) as Hlen. rewrite length_app in Hlen.
  fold gone rest in Hsp, Hrange, Hlen.
  unfold wake_expired_timers. cbn [timers].
  assert (Hgo : (let (st, ks) := wake_loop (btree_range_to (max_at now) ts) (mkTimers ts c n) in
     (st, length (btree_range_to (max_at now) ts), ks)) =
     (mkTimers rest (Z.of_nat (length rest)) n, length gone, gone.*2)).
  { clearbody gone rest. subst ts. rewrite Hrange, wake_loop_prefix by lia.
    rewrite length_fmap. f_equal. f_equal. f_equal. lia. }
  destruct ts as [|[h k] l] eqn:Hts; [by rewrite H2|]. rewrite <- Hts in *.
  destruct (Z.ltb_spec now (deadline h)) as [Hlt|Hge]; [|exact Hgo].
  assert (Hg : gone = []).
  { apply filter_none. rewrite Hts in *. apply btree_wf_cons in H1 as [_ Hall].
    constructor; [unfold expired_at; cbn; lia|]. eapply Forall_impl; [exact Hall|].
    intros [h' k'] Hk Hx. apply handle_lt_spec in Hk. unfold expired_at in Hx. cbn in *. lia. }
  rewrite Hg in *. cbn [app] in Hsp. rewrite <- Hsp, H2. done.
Qed.

Lemma poll_inv now st : TimerInv st -> TimerInv (wake_expired_timers now st).1.1.
Proof.
  intros HI. rewrite wake_expired_eq by done. cbn. apply timer_inv_sub; [done| | |].
  - pose proof (ti_sorted _ HI) as Hwf. rewrite (expired_prefix now _ Hwf) in Hwf.
    by apply btree_wf_app in Hwf as (_ & Hwf & _).
  - intros e. rewrite list_elem_of_filter. tauto.
  - apply length_filter.
Qed.

(** C10. A poll of the reactor is the naive scan: although it stops early and
    collects a range, it wakes exactly the timers whose deadline is at or before
    [now], in order of deadline and registration, never one that is not due,
    keeps exactly the others, and afterwards the atomic counter that [status]
    reads says [Running] exactly when a timer is left. *)
Theorem wake_expired_spec now st : TimerInv st ->
  let '(st', count, woken) := wake_expired_timers now st in
  timers st = filter (expired_at now) (timers st) ++ timers st' /\
  woken = (filter (expired_at now) (timers st)).*2 /\ count = length woken /\
  StronglySorted klt (filter (expired_at now) (timers st)).*1 /\
  (forall e, e ∈ timers st' <-> e ∈ timers st /\ now < deadline e.1) /\
  TimerInv st' /\
  (timer_status st' = Running <-> timers st' <> []).
Proof.
  intros HI. pose proof (poll_inv now st HI) as HI'. rewrite wake_expired_eq in * by done.
  pose proof (ti_sorted _ HI) as Hwf. pose proof (expired_prefix now _ Hwf) as Hsp.
  split; [exact Hsp|]. split; [done|]. split; [by rewrite length_fmap|].
  split; [rewrite Hsp in Hwf; apply btree_wf_app in Hwf; apply Hwf|]. split.
  { intros e. cbn. rewrite list_elem_of_filter. unfold expired_at. split; [intros []|intros []];
      (split; [lia || done|lia || done]). }
  split; [exact HI'|]. unfold timer_status. cbn.
  destruct (filter (fun e => ~ expired_at now e) (timers st)); cbn; [by split|].
  by split.
Qed.

(** ** Operations on the reactor *)

Inductive TimerOp : Type :=
| TReg (d : Z) (k : Waker)
| TCancel (h : TimerHandle)
| TPoll (now : Z).

Definition timer_op (o : TimerOp) (st : TimerState) : TimerState :=
  match o with
  | TReg d k => (register_timer d k st).1
  | TCancel h => (cancel_timer h st).1
  | TPoll now => (wake_expired_timers now st).1.1
  end.

Definition timer_ops (os : list TimerOp) (st : TimerState) : TimerState :=
  foldl (fun st o => timer_op o st) st os.

(** Room for [n] more registrations. *)
Definition timer_room (n : nat) (st : TimerState) : Prop :=
  COUNTER st + Z.of_nat n <= u64_max /\ Z.of_nat (length (timers st)) + Z.of_nat n < 2 ^ 64.

Lemma timer_op_ok o n st : TimerInv st -> timer_room (S n) st ->
  TimerInv (timer_op o st) /\ timer_room n (timer_op o st).
Proof.
  intros HI [Hc Hl]. destruct o as [d k|h|now]; cbn [timer_op].
  - destruct (register_inv d k st HI) as (st' & Hr & HI' & Hp & Hc'); [lia|lia|].
    rewrite Hr. split; [done|]. split; cbn; [lia|]. rewrite Hp. cbn [length]. lia.
  - destruct (cancel_inv h st HI) as (st' & b & Hr & HI' & Hc' & _ & Hel). rewrite Hr. cbn.
    split; [done|]. split; [lia|].
    assert (length (timers st') <= length (timers st))%nat; [|lia].
    apply submseteq_length, NoDup_submseteq.
    + eapply (NoDup_fmap_1 fst). pose proof (ti_sorted _ HI') as Hs. clear -Hs.
      unfold btree_wf in Hs. induction Hs as [|h l Hs IH Hall]; constructor; [|done].
      intros Hin. rewrite Forall_forall in Hall. by destruct (klt_irrefl h (Hall h Hin)).
    + intros e. rewrite Hel. tauto.
  - split; [by apply poll_inv|]. rewrite wake_expired_eq by done. cbn. split; [cbn; lia|].
    cbn. pose proof (length_filter (fun e => ~ expired_at now e) (timers st)). lia.
Qed.

(** An entry survives every operation that does not concern it. *)
Lemma timer_op_keeps o n st h k : TimerInv st -> timer_room (S n) st -> (h, k) ∈ timers st ->
  o <> TCancel h -> (forall now, o = TPoll now -> now < deadline h) ->
  (h, k) ∈ timers (timer_op o st).
Proof.
  intros HI [Hc Hl] Hin Hnc Hnp. destruct o as [d k'|h'|now]; cbn [timer_op].
  - destruct (register_inv d k' st HI) as (st' & Hr & _ & Hp & _); [lia|lia|].
    rewrite Hr. cbn. rewrite Hp. by right.
  - destruct (cancel_inv h' st HI) as (st' & b & Hr & _ & _ & _ & Hel). rewrite Hr. cbn.
    apply Hel. split; [done|]. cbn. congruence.
  - rewrite wake_expired_eq by done. cbn. apply list_elem_of_filter. split; [|done].
    unfold expired_at. cbn. specialize (Hnp now eq_refl). lia.
Qed.

(** C9. A timer fires once, on time, and is never lost.  Whatever timers are
    registered, cancelled and polled in between, a registered timer stays in the
    map until it is cancelled or the reactor is polled at or past its deadline;
    that first poll wakes its waker and removes it, so no later poll can wake it
    again; and the invariant (sorted map, counter equal to its size) holds
    throughout. *)
Theorem timer_fires_once os now st h k :
  TimerInv st -> timer_room (length os) st -> (h, k) ∈ timers st ->
  TCancel h ∉ os -> (forall t, TPoll t ∈ os -> t < deadline h) -> deadline h <= now ->
  TimerInv (timer_ops os st) /\ (h, k) ∈ timers (timer_ops os st) /\
  (exists i, timers (timer_ops os st) !! i = Some (h, k) /\
     (wake_expired_timers now (timer_ops os st)).2 !! i = Some k) /\
  h ∉ (timers (wake_expired_timers now (timer_ops os st)).1.1).*1.
Proof.
  intros HI Hroom Hin Hnc Hnp Hd.
  assert (Hrun : TimerInv (timer_ops os st) /\ (h, k) ∈ timers (timer_ops os st)).
  { clear Hd now. revert st HI Hroom Hin. induction os as [|o os IH]; intros st HI Hroom Hin; [done|].
    cbn [timer_ops foldl length] in *. destruct (timer_op_ok o _ st HI Hroom) as [HI' Hroom'].
    apply not_elem_of_cons in Hnc as [Hne Hnc]. apply IH; try done.
    - intros t Ht. apply Hnp. by right.
    - eapply timer_op_keeps; [done..|intros ->; done|]. intros t ->. apply Hnp. left. }
  destruct Hrun as [HI' Hin']. split; [done|]. split; [done|].
  set (st' := timer_ops os st) in *. rewrite wake_expired_eq by done. cbn.
  pose proof (ti_sorted _ HI') as Hwf. pose proof (expired_prefix now _ Hwf) as Hsp.
  split.
  - apply list_elem_of_lookup_1 in Hin' as [i Hi]. exists i. split; [done|].
    rewrite list_lookup_fmap. rewrite Hsp in Hi.
    apply lookup_app_Some in Hi as [Hi|[_ Hi]]; [by rewrite Hi|].
    apply list_elem_of_lookup_2, list_elem_of_filter in Hi as [Hi _]. by destruct Hi.
  - intros ([h' k'] & -> & Hx)%list_elem_of_fmap. apply list_elem_of_filter in Hx as [Hx _]. by apply Hx.
Qed.

(** ** Delay and Timeout *)

Section delay_facts.
Context {S : Type} `{HasTimer S}.
Implicit Types (s : S) (x : Delay) (k : Waker).

(** [Delay] resolves exactly when its deadline has passed and never before;
    the first poll before the deadline registers one timer, at the deadline and
    with the waker it was given, under a handle no other timer has; later polls
    register nothing; dropping the delay removes that timer and no other, and is
    harmless when the timer has already fired. *)
Theorem delay_spec (d : Z) k s :
  let s1 := (read_now s).1 in let now := (read_now s).2 in
  TimerInv (get_timer s) -> timer_room 1 (get_timer s) ->
  exists s' x, Delay_poll k (Delay_new_at d) s = Ok (s', x, (if d <=? now then Ready tt else Pending)) /\
    (d <= now -> s' = s1 /\ x = Delay_new_at d) /\
    (now < d ->
      exists h, x = mkDelay d (Some h) /\ deadline h = d /\ ~ (h ∈ (timers (get_timer s)).*1) /\
        (timers (get_timer s') ≡ₚ (h, clone_raw k) :: timers (get_timer s)) /\
        TimerInv (get_timer s') /\
        (forall k2 s2, exists r, Delay_poll k2 x s2 = Ok ((read_now s2).1, x, r) /\
           r = (if d <=? (read_now s2).2 then Ready tt else Pending)) /\
        (forall s2, TimerInv (get_timer s2) ->
           TimerInv (get_timer (Delay_drop x s2)) /\
           forall e, e ∈ timers (get_timer (Delay_drop x s2)) <-> e ∈ timers (get_timer s2) /\ e.1 <> h)).
Proof.
  intros s1 now HI [Hc Hl]. unfold Delay_poll. cbn [ddeadline timer_handle Delay_new_at].
  pose proof (read_now_timer s) as Hrt. unfold s1, now in *.
  destruct (read_now s) as [s' t]. cbn [fst snd] in *. destruct (Z.leb_spec d t) as [Hle|Hlt].
  - eexists _, _. split; [done|]. split; [done|]. lia.
  - rewrite Hrt. destruct (register_inv d (clone_raw k) (get_timer s) HI) as (st & Hr & HI' & Hp & _);
      [lia|lia|].
    rewrite Hr. eexists _, _. split; [done|]. split; [lia|]. intros _.
    eexists. split; [done|]. split; [done|]. split.
    { intros ([h' k'] & Hh & Hin)%list_elem_of_fmap. pose proof (ti_ids _ HI) as Hids.
      rewrite Forall_forall in Hids. specialize (Hids _ Hin). cbn in Hh, Hids. subst h'. cbn in Hids. lia. }
    rewrite get_put_timer. split; [done|]. split; [done|]. split.
    + intros k2 s2. cbn. destruct (read_now s2) as [s3 t3]. cbn. destruct (d <=? t3); by eexists.
    + intros s2 HI2. unfold Delay_drop. cbn [timer_handle].
      destruct (cancel_inv (mkHandle d (COUNTER (get_timer s))) _ HI2) as (st' & b & Hr2 & HI2' & _ & _ & Hel).
      rewrite Hr2. cbn [fst]. rewrite get_put_timer. by split.
Qed.

Context {F A : Type} `{Future S F A}.

(** [Timeout] polls its future first, so a result that is ready is returned
    even when the deadline has passed too; otherwise it resolves with the error
    exactly when the deadline has passed, and drops the future in both cases; when
    it resolves to neither, the future and the delay are kept. *)
Theorem timeout_spec k (f : F) x s s1 f' p :
  fpoll k f s = Ok (s1, f', p) ->
  Timeout_poll k (mkTimeout (Some f) x) s =
  match p with
  | Ready a => Ok (fdrop (A := A) f' s1, mkTimeout None x, Ready (ROk a))
  | Pending =>
      if ddeadline x <=? (read_now s1).2
      then Ok (fdrop (A := A) f' (read_now s1).1, mkTimeout None x, Ready (RErr TimedOut))
      else '(s2, x', _) ← Delay_poll k x s1; Ok (s2, mkTimeout (Some f') x', Pending)
  end.
Proof.
  intros Hf. unfold Timeout_poll. cbn. rewrite Hf. cbn. destruct p as [a|]; [done|].
  unfold Delay_poll. destruct (read_now s1) as [s2 now]. cbn.
  destruct (ddeadline x <=? now); [done|]. destruct (timer_handle x); cbn; done.
Qed.
End delay_facts.

(** ** Witnesses *)

Definition two_timers : TimerState :=
  (register_timer 30 (mkWaker 1 TaskQueue) (register_timer 50 (mkWaker 0 TaskQueue) (TimerReactor_new 1)).1).1.

Lemma two_timers_inv : TimerInv two_timers /\ timer_room 10 two_timers.
Proof.
  assert (H0 : TimerInv (TimerReactor_new 1)) by (apply timer_inv_new; unfold u64_max; lia).
  destruct (timer_op_ok (TReg 50 (mkWaker 0 TaskQueue)) 11 _ H0) as [H1 R1];
    [split; cbn; unfold u64_max; lia|].
  exact (timer_op_ok (TReg 30 (mkWaker 1 TaskQueue)) 10 _ H1 R1).
Qed.

Lemma wake_expired_spec_witness :
  wake_expired_timers 40 two_timers = (mkTimers [(mkHandle 50 1, mkWaker 0 TaskQueue)] 1 3, 1%nat, [mkWaker 1 TaskQueue]) /\
  TimerInv (mkTimers [(mkHandle 50 1, mkWaker 0 TaskQueue)] 1 3).
Proof.
  split; [vm_compute; reflexivity|].
  pose proof (wake_expired_spec 40 two_timers (proj1 two_timers_inv)) as Hw.
  replace (wake_expired_timers 40 two_timers) with
    (mkTimers [(mkHandle 50 1, mkWaker 0 TaskQueue)] 1 3, 1%nat, [mkWaker 1 TaskQueue]) in Hw
    by (vm_compute; reflexivity).
  exact (proj1 (proj2 (proj2 (proj2 (proj2 (proj2 Hw)))))).
Defined.

Lemma timer_fires_once_witness :
  let os := [TPoll 40; TReg 60 (mkWaker 2 TaskQueue); TCancel (mkHandle 30 2)] in
  (mkHandle 50 1, mkWaker 0 TaskQueue) ∈ timers (timer_ops os two_timers) /\
  wake_expired_timers 55 (timer_ops os two_timers) =
    (mkTimers [(mkHandle 60 3, mkWaker 2 TaskQueue)] 1 4, 1%nat, [mkWaker 0 TaskQueue]).
Proof.
  split; [|vm_compute; reflexivity].
  destruct two_timers_inv as [HI HR].
  refine (proj1 (proj2 (timer_fires_once _ 55 two_timers (mkHandle 50 1) (mkWaker 0 TaskQueue) HI _ _ _ _ _))).
  - destruct HR. split; cbn in *; lia.
  - apply (list_elem_of_lookup_2 _ 1). vm_compute. reflexivity.
  - intros Hin. repeat (apply elem_of_cons in Hin as [[=]|Hin]). by apply elem_of_nil in Hin.
  - intros t Hin. repeat (apply elem_of_cons in Hin as [[=]|Hin]); [subst; cbn; lia|by apply elem_of_nil in Hin].
  - cbn. lia.
Defined.

#[export] Program Instance pair_HasTimer : HasTimer (TimerState * Z) := {
  get_timer s := s.1;
  put_timer t s := (t, s.2);
  read_now s := ((s.1, s.2 + 1), s.2)
}.
Next Obligation. done. Qed.
Next Obligation. done. Qed.

Lemma delay_spec_witness :
  exists s' h, Delay_poll (mkWaker 7 TaskQueue) (Delay_new_at 90) (two_timers, 10) = Ok (s', mkDelay 90 (Some h), Pending) /\
    deadline h = 90.
Proof.
  destruct two_timers_inv as [HI [HR1 HR2]].
  destruct (delay_spec (H := pair_HasTimer) 90 (mkWaker 7 TaskQueue) (two_timers, 10) HI) as (s' & x & Hp & _ & Hreg).
  - split; cbn in *; lia.
  - destruct Hreg as (h & Hx & Hd & _); [cbn; lia|]. exists s', h. rewrite Hx in Hp. exact (conj Hp Hd).
Defined.

Lemma timeout_spec_witness :
  Timeout_poll (mkWaker 7 TaskQueue) (mkTimeout (Some (Delay_new_at 90)) (Delay_new_at 5)) (two_timers, 10) =
    Ok (mkTimers (timers two_timers) 2 4, 12, mkTimeout None (Delay_new_at 5), Ready (RErr TimedOut)).
Proof.
  rewrite (timeout_spec (mkWaker 7 TaskQueue) (Delay_new_at 90) (Delay_new_at 5) (two_timers, 10)
    (((register_timer 90 (mkWaker 7 TaskQueue) two_timers).1, 11)) (mkDelay 90 (Some (mkHandle 90 3))) Pending).
  - vm_compute. reflexivity.
  - vm_compute. reflexivity.
Defined.
