(* ===== verification/Sleep.v ===== *)
(** * Sleep: the runtime and the timer together
    ([pluvio_runtime/src/executor/mod.rs], [pluvio_timer/src/lib.rs])

    [block_on(sleep_until(d))] on a runtime whose only reactor is the timer: the
    executor of [Executor] runs the [Delay] of [Timer], and the timer's reactor wakes
    it.  The clock is any monotone sequence of readings that passes the deadline;
    the environment keeps how many were read.  The timer keeps the promise of
    [Await.Served], so [Await.block_on_returns] applies. *)

From S2P Require Import Prelude Spsc Future Slab Task Executor ExecutorFacts Timer Await.
Local Open Scope nat_scope.

Record SleepEnv : Type := mkSleep { stimers : TimerState; sreads : nat }.

Section sleep.
Context (now : nat -> Z).

#[local] Program Instance sleep_timer : HasTimer SleepEnv := {
  get_timer := stimers;
  put_timer t e := mkSleep t (sreads e);
  read_now e := (mkSleep (stimers e) (S (sreads e)), now (sreads e))
}.
Next Obligation. done. Qed.
Next Obligation. done. Qed.

Definition sleep_client : Client unit Delay SleepEnv :=
  mkClient Delay_poll Delay_drop read_now timer_reactor.

(** ** The timer keeps the promise *)

Context (D : Z) (D_monotone : forall n, (now n <= now (S n))%Z).
Implicit Types (e : SleepEnv) (k : Waker).

Definition no_timer (c : Z) : TimerState := mkTimers [] 0 c.
Definition one_timer (h : TimerHandle) (k : Waker) (c : Z) : TimerState := mkTimers [(h, k)] 1 c.

(** No timer is registered. *)
Definition Resting e : Prop := exists c, stimers e = no_timer c /\ (0 <= c <= u64_max)%Z.
(** A clock that passes the deadline within [n] readings. *)
Definition Passes (n : nat) e : Prop := (D <= now (sreads e + n))%Z.
(** The deadline was passed by a reading of the clock. *)
Definition Passed e : Prop := exists n, n < sreads e /\ (D <= now n)%Z.
(** The delay's timer is registered under the waker [k]. *)
Definition Registered k (f : Delay) e : Prop := exists h c,
  f = mkDelay D (Some h) /\ deadline h = D /\ (hid h <= u64_max)%Z /\
  stimers e = one_timer h k c /\ (0 <= c <= u64_max)%Z.

Lemma now_mono n m : n <= m -> (now n <= now m)%Z.
Proof. induction 1 as [|m _ IH]; [done|]. specialize (D_monotone m). lia. Qed.

Lemma wake_none t c : wake_expired_timers t (no_timer c) = (no_timer c, 0, []).
Proof. done. Qed.

Lemma wake_one t h k c : deadline h = D -> (hid h <= u64_max)%Z ->
  wake_expired_timers t (one_timer h k c) =
  if (t <? D)%Z then (one_timer h k c, 0, []) else (no_timer c, 1, [k]).
Proof.
  intros Hd Hi. unfold wake_expired_timers. cbn [timers one_timer]. rewrite Hd.
  destruct (Z.ltb_spec t D); [done|].
  assert (btree_range_to (max_at t) [(h, k)] = [h]) as ->.
  { unfold btree_range_to. rewrite filter_cons_True; [done|]. cbn. unfold handle_le, handle_lt, max_at. cbn.
    rewrite Hd. apply negb_true_iff, orb_false_iff. split; [lia|]. apply andb_false_iff. right. lia. }
  cbn. by rewrite bool_decide_true.
Qed.

Lemma passes_read n e : Passes n e -> Passes n (read_now e).1.
Proof. unfold Passes. cbn. intros HD. assert (Hm := now_mono (sreads e + n) (S (sreads e + n))). lia. Qed.
Lemma passed_read e : Passed e -> Passed (read_now e).1.
Proof. intros (n & Hn & HD). exists n. cbn. split; [lia|done]. Qed.

(** The first poll of the delay. *)
Lemma delay_first k e c : stimers e = no_timer c ->
  Delay_poll k (Delay_new_at D) e =
  if (D <=? now (sreads e))%Z then Ok (mkSleep (no_timer c) (S (sreads e)), Delay_new_at D, Ready tt)
  else Ok (mkSleep (one_timer (mkHandle D c) k (wrap64 (c + 1))) (S (sreads e)),
           mkDelay D (Some (mkHandle D c)), Pending).
Proof. intros Ht. unfold Delay_poll. destruct k. cbn. rewrite Ht. by destruct (_ <=? _)%Z. Qed.

#[local] Program Instance sleep_served : Served sleep_client (Delay_new_at D) := {
  looks := 0;
  Begin N e := Resting e /\ Passes N e;
  Waiting n _ k f e := Registered k f e /\ Passes n e;
  Due f e := (exists h, f = mkDelay D (Some h)) /\ Resting e /\ (D <= now (sreads e))%Z;
  Finished _ e := Resting e /\ Passed e
}.
Next Obligation. intros N e [? ?]. split; [done|by apply passes_read]. Qed.
Next Obligation. intros n l k f e [? ?]. split; [done|by apply passes_read]. Qed.
Next Obligation.
  intros f e (? & ? & Hd). split; [done|]. split; [done|]. cbn. assert (Hm := now_mono (sreads e) (S (sreads e))). lia.
Qed.
Next Obligation. intros v e [? ?]. split; [done|by apply passed_read]. Qed.
Next Obligation. done. Qed.
Next Obligation.
  intros N e [(c & Hc & Hr) Hp]. cbn. rewrite Hc, wake_none. eexists. split; [done|].
  split; [by exists c|exact (passes_read _ _ Hp)].
Qed.
Next Obligation.
  intros N k e [(c & Hc & Hr) Hp]. cbn [cpoll cdrop sleep_client]. rewrite (delay_first k e c Hc). destruct (Z.leb_spec D (now (sreads e))).
  - left. eexists _, _, tt. split; [done|]. split; [by exists c|]. exists (sreads e). split; [cbn; lia|done].
  - right. eexists _, _, N, 0. split; [done|]. split; [|done]. split; [|exact (passes_read _ _ Hp)].
    exists (mkHandle D c), (wrap64 (c + 1)). do 2 (split; [done|]). split; [cbn; lia|]. split; [done|].
    assert (Hr64 := wrap64_range (c + 1)). unfold in_u64, u64_max in *. lia.
Qed.
Next Obligation. intros n l k f e [(h & c & ? & ? & ? & Ht & ?) ?]. left. eexists. cbn. rewrite Ht. split; [done|]. split; [by exists h, c|done]. Qed.
Next Obligation.
  intros n l k f e [(h & c & -> & Hd & Hi & Ht & Hr) Hp]. cbn. rewrite Ht, wake_one by done.
  destruct (Z.ltb_spec (now (sreads e)) D) as [Hlt|Hge].
  - left. destruct n as [|n]; [unfold Passes in Hp; rewrite Nat.add_0_r in Hp; lia|].
    eexists _, n, 0. split; [done|]. split; [|lia]. split; [by exists h, c|].
    unfold Passes in *. cbn in *. by replace (S (sreads e + n)) with (sreads e + S n) by lia.
  - right. eexists. split; [done|]. split; [by exists h|]. split; [by exists c|].
    cbn. assert (Hm := now_mono (sreads e) (S (sreads e))). lia.
Qed.
Next Obligation.
  intros k f e ((h & ->) & (c & Hc & Hr) & Hd). cbn [cpoll cdrop sleep_client]. unfold Delay_poll. cbn.
  rewrite (proj2 (Z.leb_le _ _) Hd). eexists _, _, tt. split; [done|]. unfold Delay_drop. cbn. rewrite Hc.
  split; [by exists c|]. exists (sreads e). split; [cbn; lia|done].
Qed.

(** ** The call *)

Context (genv : string -> option string).
Context (ho : forall X : Type, list (string * X) -> list (string * X)).
Context (ho_perm : forall X (l : list (string * X)), ho X l ≡ₚ l).
Context {C SL : Type} `{FifoChan C} `{Slab (option (Task (TaskFuture Delay))) SL}.
Context (cfg : SchedulingConfig) (name : string) (Hcfg : ConfigOk (C := C) cfg).
#[local] Instance sleep_program : Program unit Delay SleepEnv := client_program sleep_client tt genv ho ho_perm.
Implicit Types (w : World unit SleepEnv C SL).

(** C22. A sleep ends.  On a runtime with the timer as its only reactor and nothing else to
    run, [block_on] of a delay returns with the fuel given, for any clock that goes
    forward and passes the deadline within [N] readings; it returns only after a reading
    at or past the deadline, and leaves no task, no timer and no queued id behind, so
    that the next sleep can start. *)
Theorem block_on_sleeps nm x fuel N w :
  Idle sleep_client cfg name Resting x w -> (D <= now (sreads (env w) + N))%Z ->
  (Z.of_nat (patience cfg) < max_stuck_iterations)%Z ->
  S N * S (patience cfg) < fuel -> (0 <= iteration_count (rt w))%Z ->
  (iteration_count (rt w) + Z.of_nat (S N * S (patience cfg)) < u64_max)%Z ->
  exists w' x', block_on_with_name_and_runtime fuel nm (Delay_new_at D) w = Ok (w', Some tt) /\
    Idle sleep_client cfg name Resting x' w' /\ Passed (env w').
Proof.
  intros [I1 I2 I3 I4] HN Hstuck Hf Hi Hit.
  destruct (block_on_returns sleep_client tt genv ho ho_perm cfg name (Delay_new_at D) Hcfg nm x fuel N w)
    as (w' & x' & [] & Hb & [J1 J2 J3 [J4 J5]]); try done; cbn [looks sleep_served]; unfold passes; cbn [looks sleep_served];
    rewrite ?Nat.mul_1_l, ?Nat.mul_1_r; try done;
    [rewrite Nat2Z.inj_succ; by apply Zlt_le_succ|].
  by exists w', x'.
Qed.
End sleep.

(** ** Witness *)

(** Default configuration, a clock of one nanosecond per reading, a sleep of 5: 655
    passes are enough. *)
Lemma block_on_sleeps_witness :
  let ho := fun X (l : list (string * X)) => l in
  let perm := fun X (l : list (string * X)) => Permutation_refl l in
  exists (w w' : World unit SleepEnv (Inner nat) (gmap nat (option (Task (TaskFuture Delay))))),
    fresh_world (sleep_client Z.of_nat) tt (fun _ => None) ho perm SchedulingConfig_default "timer"
      (mkSleep (TimerReactor_new 1) 0) = Ok w /\
    block_on_with_name_and_runtime (H := sleep_program Z.of_nat (fun _ => None) ho perm) 655 "sleep" (Delay_new_at 5) w =
      Ok (w', Some tt).
Proof.
  intros ho perm.
  destruct (fresh_idle (C := Inner nat) (SL := gmap nat (option (Task (TaskFuture Delay)))) (sleep_client Z.of_nat) tt
    (fun _ => None) ho perm SchedulingConfig_default "timer" default_config_ok
    (fun e => Resting e /\ sreads e = 0) (mkSleep (TimerReactor_new 1) 0)) as (w & x & Hw & [I1 I2 I3 [I4 Hr]] & Hi).
  { split; [|done]. exists 1%Z. split; [done|]. unfold u64_max. lia. }
  exists w. destruct (block_on_sleeps Z.of_nat 5 ltac:(lia) (fun _ => None) ho perm SchedulingConfig_default "timer"
    default_config_ok "sleep" x 655 5 w) as (w' & x' & Hb & _).
  - by split.
  - rewrite Hr. vm_compute. done.
  - vm_compute. done.
  - vm_compute. lia.
  - by rewrite Hi.
  - rewrite Hi. vm_compute. done.
  - exists w'. by split.
Defined.
