(* ===== verification/UringAlloc.v ===== *)
(** * UringAlloc: the pool of fixed buffers ([pluvio_uring/src/allocator.rs])

    A [Vec] of free buffers used as a stack and a queue of waiters.  The state a
    [LazyAcquire] shares with the queue is a cell of [lazy_states], because the
    same future can be queued several times.  Waking is reported as a value: the
    operations return the waker they wake. *)

From S2P Require Import Prelude Future.

(** ** Buffers *)

(** The memory is a list of bytes; its address is not modelled. *)
Record FixedBufferInner : Type := mkBuf {
  bytes : list Z;
  bindex : nat;
  rdma_lkey : Z;
  rdma_rkey : Z
}.

(** [FixedBuffer]: [None] once the inner buffer was taken. *)
Definition FixedBuffer : Type := option FixedBufferInner.

Definition buf_len (b : FixedBuffer) : nat :=
  match b with Some i => length (bytes i) | None => 0 end.
Definition buf_index (b : FixedBuffer) : nat :=
  match b with Some i => bindex i | None => 0 end.
Definition buf_rdma_lkey (b : FixedBuffer) : Z :=
  match b with Some i => rdma_lkey i | None => 0%Z end.
Definition buf_rdma_rkey (b : FixedBuffer) : Z :=
  match b with Some i => rdma_rkey i | None => 0%Z end.
Definition buf_as_slice (b : FixedBuffer) : list Z :=
  match b with Some i => bytes i | None => [] end.

(** ** The allocator *)

Record FixedBufferAllocator : Type := mkAlloc {
  buffers : list FixedBufferInner;
  acquire_queue : list nat;
  lazy_states : gmap nat (option Waker);
  next_state : nat
}.

(** [Vec::pop] and [Vec::push]. *)
Definition vec_pop {A} (l : list A) : option (list A * A) :=
  match rev l with x :: r => Some (rev r, x) | [] => None end.
Definition vec_push {A} (x : A) (l : list A) : list A := l ++ [x].

(** [Layout::from_size_align] fails when the size rounded up to the alignment
    exceeds [isize::MAX]. *)
Definition layout_ok (len align : Z) : bool :=
  ((len + align - 1) / align * align <=? isize_max)%Z.

Definition new_aligned_buffer (alignment len : Z) : outcome (list Z) :=
  if (len =? 0)%Z
  then Panic "buffer_size must be greater than zero when allocating fixed buffers"
  else if layout_ok len alignment then mret (repeat 0%Z (Z.to_nat len))
  else Panic "invalid layout for aligned buffer".

Fixpoint new_buffers (page_size buffer_size : Z) (idx : list nat) : outcome (list FixedBufferInner) :=
  match idx with
  | [] => mret []
  | i :: idx =>
      buf ← new_aligned_buffer page_size buffer_size;
      rest ← new_buffers page_size buffer_size idx;
      mret (mkBuf buf i 0 0 :: rest)
  end.

Definition new_without_uring (page_size : Z) (queue_size : nat) (buffer_size : Z) :
    outcome FixedBufferAllocator :=
  bs ← new_buffers page_size buffer_size (seq 0 queue_size);
  mret (mkAlloc bs [] ∅ 0).

(** The iovecs handed to [register_buffers]: the length of each, in order; the
    kernel accepts or refuses them ([register_ok]). *)
Definition iovecs (a : FixedBufferAllocator) : list nat :=
  map (fun b => length (bytes b)) (buffers a).
Definition FixedBufferAllocator_new (register_ok : list nat -> bool) (page_size : Z)
    (queue_size : nat) (buffer_size : Z) : outcome FixedBufferAllocator :=
  a ← new_without_uring page_size queue_size buffer_size;
  if register_ok (iovecs a) then mret a else Panic "Failed to register buffers".

Definition set_buffers (bs : list FixedBufferInner) (a : FixedBufferAllocator) : FixedBufferAllocator :=
  mkAlloc bs (acquire_queue a) (lazy_states a) (next_state a).

(** [register_fn] is stateful ([FnMut]); it sees a buffer by its index and length. *)
Fixpoint register_loop {St Err : Type} (f : St -> nat -> nat -> St * result (Z * Z) Err)
    (st : St) (bs : list FixedBufferInner) : St * list FixedBufferInner * option Err :=
  match bs with
  | [] => (st, [], None)
  | b :: bs =>
      match f st (bindex b) (length (bytes b)) with
      | (st, ROk (lkey, rkey)) =>
          let '(st, bs, e) := register_loop f st bs in
          (st, mkBuf (bytes b) (bindex b) lkey rkey :: bs, e)
      | (st, RErr e) => (st, b :: bs, Some e)
      end
  end.
Definition register_rdma_keys {St Err : Type} (f : St -> nat -> nat -> St * result (Z * Z) Err)
    (st : St) (a : FixedBufferAllocator) : St * FixedBufferAllocator * result unit Err :=
  let '(st, bs, e) := register_loop f st (buffers a) in
  (st, set_buffers bs a, match e with None => ROk tt | Some e => RErr e end).

Definition acquire_inner (a : FixedBufferAllocator) : FixedBufferAllocator * option FixedBuffer :=
  match vec_pop (buffers a) with
  | Some (bs, b) => (set_buffers bs a, Some (Some b))
  | None => (a, None)
  end.
Definition try_acquire (a : FixedBufferAllocator) : FixedBufferAllocator * option FixedBuffer :=
  acquire_inner a.

Definition fill_buffers (data : Z) (a : FixedBufferAllocator) : FixedBufferAllocator :=
  set_buffers (map (fun b => mkBuf (map (fun _ => data) (bytes b)) (bindex b) (rdma_lkey b) (rdma_rkey b))
    (buffers a)) a.

(** ** Waiting for a buffer *)

(** A [LazyAcquire] is the address of its state. *)
Definition LazyAcquire_new (a : FixedBufferAllocator) : FixedBufferAllocator * nat :=
  (mkAlloc (buffers a) (acquire_queue a) (<[next_state a := None]> (lazy_states a)) (S (next_state a)),
   next_state a).

Definition LazyAcquire_poll (k : Waker) (state : nat) (a : FixedBufferAllocator) :
    FixedBufferAllocator * Poll FixedBuffer :=
  match acquire_inner a with
  | (a, Some buffer) => (a, Ready buffer)
  | (a, None) =>
      (mkAlloc (buffers a) (acquire_queue a ++ [state])
         (<[state := Some (clone_raw k)]> (lazy_states a)) (next_state a),
       Pending)
  end.

(** [acquire] is an [async fn] around a [LazyAcquire]: not started, waiting,
    finished. *)
Inductive AcquireFuture : Type := AcquireStart | AcquireWait (state : nat) | AcquireDone.

Definition acquire_poll (k : Waker) (f : AcquireFuture) (a : FixedBufferAllocator) :
    outcome (FixedBufferAllocator * AcquireFuture * Poll FixedBuffer) :=
  match f with
  | AcquireDone => Panic "`async fn` resumed after completion"
  | _ =>
      let (a, state) := match f with AcquireWait state => (a, state) | _ => LazyAcquire_new a end in
      let (a, p) := LazyAcquire_poll k state a in
      mret (a, match p with Ready _ => AcquireDone | Pending => AcquireWait state end, p)
  end.

(** Dropping a buffer returns it, then takes the waker of the first waiter. *)
Definition FixedBuffer_drop (b : FixedBuffer) (a : FixedBufferAllocator) :
    FixedBufferAllocator * option Waker :=
  let a := match b with Some i => set_buffers (vec_push i (buffers a)) a | None => a end in
  match acquire_queue a with
  | state :: q =>
      (mkAlloc (buffers a) q (<[state := None]> (lazy_states a)) (next_state a),
       default None (lazy_states a !! state))
  | [] => (a, None)
  end.

(** [Drop for FixedBufferAllocator]: the buffers freed, in order. *)
Definition FixedBufferAllocator_drop (a : FixedBufferAllocator) : list FixedBufferInner :=
  rev (buffers a).

(** * Facts *)

Lemma vec_pop_push {A} (l : list A) :
  match vec_pop l with Some (l', x) => l = vec_push x l' | None => l = [] end.
Proof.
  unfold vec_pop, vec_push. destruct (rev l) as [|x r] eqn:Hr.
  - apply (f_equal (@rev A)) in Hr. by rewrite rev_involutive in Hr.
  - apply (f_equal (@rev A)) in Hr. by rewrite rev_involutive in Hr.
Qed.

Lemma new_buffers_spec page n idx bs : new_buffers page n idx = Ok bs ->
  map bindex bs = idx /\ Forall (fun b => length (bytes b) = Z.to_nat n) bs.
Proof.
  revert bs. induction idx as [|i idx IH]; intros bs; cbn [new_buffers].
  - intros [= <-]. by split.
  - intros Hb. inv_Ok. destruct (IH a0 H0) as [Hi Hl]. cbn. split; [by rewrite Hi|].
    constructor; [|done]. cbn. unfold new_aligned_buffer in H.
    destruct (n =? 0)%Z; [done|]. destruct (layout_ok n page); [|done].
    injection H as <-. apply repeat_length.
Qed.

(** ** Ownership

    The allocator and the buffers its users hold.  A step is what user code can
    do: take a buffer if there is one, poll a waiting future, write to a held
    buffer, drop a buffer. *)
Definition PoolState : Type := FixedBufferAllocator * list FixedBufferInner.

Inductive pool_step : PoolState -> PoolState -> Prop :=
| ps_try a a' b held : try_acquire a = (a', Some (Some b)) -> pool_step (a, held) (a', b :: held)
| ps_poll k st a a' b held :
    LazyAcquire_poll k st a = (a', Ready (Some b)) -> pool_step (a, held) (a', b :: held)
| ps_wait k st a a' held : LazyAcquire_poll k st a = (a', Pending) -> pool_step (a, held) (a', held)
| ps_new a a' st held : LazyAcquire_new a = (a', st) -> pool_step (a, held) (a', held)
| ps_write a b data held1 held2 :
    length data = length (bytes b) ->
    pool_step (a, held1 ++ b :: held2)
              (a, held1 ++ mkBuf data (bindex b) (rdma_lkey b) (rdma_rkey b) :: held2)
| ps_fill a data held : pool_step (a, held) (fill_buffers data a, held)
| ps_drop a a' w b held1 held2 :
    FixedBuffer_drop (Some b) a = (a', w) -> pool_step (a, held1 ++ b :: held2) (a', held1 ++ held2).

(** Every registered buffer is in exactly one place, with its length. *)
Definition PoolInv (n : nat) (len : nat) (s : PoolState) : Prop :=
  map bindex (buffers s.1 ++ s.2) ≡ₚ seq 0 n /\
  Forall (fun b => length (bytes b) = len) (buffers s.1 ++ s.2).

Lemma pool_inv_perm n len a a' h h' :
  buffers a ++ h ≡ₚ buffers a' ++ h' -> PoolInv n len (a, h) -> PoolInv n len (a', h').
Proof. intros Hp [H1 H2]. split; cbn in *; by rewrite <- Hp. Qed.

Lemma acquire_inner_perm a a' b h :
  acquire_inner a = (a', Some (Some b)) -> buffers a ++ h ≡ₚ buffers a' ++ b :: h.
Proof.
  unfold acquire_inner. pose proof (vec_pop_push (buffers a)) as Hv.
  destruct (vec_pop (buffers a)) as [[bs x]|]; [|done]. intros [= <- <-]. rewrite Hv. cbn.
  unfold vec_push. by rewrite <- app_assoc.
Qed.

Lemma pool_step_inv n len s s' : PoolInv n len s -> pool_step s s' -> PoolInv n len s'.
Proof.
  intros HI Hs. destruct Hs.
  - eapply pool_inv_perm, HI. by apply acquire_inner_perm.
  - eapply pool_inv_perm, HI. apply acquire_inner_perm. unfold LazyAcquire_poll in H.
    destruct (acquire_inner a) as [a1 [b1|]]; by simplify_eq.
  - eapply pool_inv_perm, HI. unfold LazyAcquire_poll, acquire_inner in H.
    destruct (vec_pop _) as [[]|]; by simplify_eq.
  - eapply pool_inv_perm, HI. unfold LazyAcquire_new in H. by simplify_eq.
  - destruct HI as [H1 H2]. split; cbn in *.
    + by rewrite !map_app in *.
    + rewrite !Forall_app in *. destruct H2 as (Ha & Hb & Hc). inversion Hc; subst.
      split; [done|]. split; [done|]. constructor; [cbn; congruence|done].
  - destruct HI as [H1 H2]. split; cbn in *.
    + rewrite map_app in *. by rewrite map_map.
    + rewrite Forall_app in *. destruct H2 as [H2 H3]. split; [|done]. rewrite Forall_fmap.
      eapply Forall_impl; [exact H2|]. intros b Hb. cbn. by rewrite length_map.
  - eapply pool_inv_perm, HI. unfold FixedBuffer_drop in H. cbn in H.
    assert (buffers a' = vec_push b (buffers a)) as -> by (destruct (acquire_queue a); by simplify_eq).
    unfold vec_push. rewrite <- !app_assoc. cbn. f_equal. by rewrite Permutation_middle.
Qed.

(** C16. Buffers are neither duplicated nor lost.  From a new pool of [n] buffers
    of [len] bytes, whatever sequence of acquisitions, waits, writes and drops
    its users perform, the indices of the free buffers and of the buffers in
    users' hands together are exactly [0 .. n - 1]: no two holders ever share a
    registered buffer, every dropped one is free again, and every buffer keeps
    its length. *)
Theorem buffers_conserved page n len a a' held :
  new_without_uring page n len = Ok a ->
  steps pool_step (a, []) (a', held) ->
  map bindex (buffers a' ++ held) ≡ₚ seq 0 n /\
  NoDup (map bindex held) /\
  Forall (fun b => length (bytes b) = Z.to_nat len) (buffers a' ++ held).
Proof.
  intros Hn Hs. assert (HI : PoolInv n (Z.to_nat len) (a', held)).
  { refine (steps_inv _ (PoolInv n (Z.to_nat len)) _ _ (pool_step_inv n _) Hs _).
    unfold new_without_uring in Hn. inv_Ok. destruct (new_buffers_spec _ _ _ _ H) as [Hi Hl].
    split; cbn; rewrite app_nil_r; by rewrite ?Hi. }
  destruct HI as [H1 H2]. split; [done|]. split; [|done].
  assert (Hd : NoDup (map bindex (buffers a' ++ held))) by (rewrite H1; apply NoDup_seq).
  rewrite map_app in Hd. by apply NoDup_app in Hd as (_ & _ & Hd).
Qed.

(** ** Waking waiters *)

(** Well-behaved waiters: each waiting future is queued once and has its waker. *)
Definition QueueOk (a : FixedBufferAllocator) : Prop :=
  NoDup (acquire_queue a) /\
  Forall (fun st => exists k, lazy_states a !! st = Some (Some k)) (acquire_queue a) /\
  Forall (fun st => st < next_state a) (acquire_queue a).

(** An [acquire] that finds an empty pool and no one waiting waits; the next buffer
    dropped wakes it, and it then resolves with that buffer. *)
Lemma acquire_handoff k k' a b :
  buffers a = [] -> acquire_queue a = [] ->
  exists st a1 a2 a3, acquire_poll k AcquireStart a = Ok (a1, AcquireWait st, Pending) /\
    FixedBuffer_drop (Some b) a1 = (a2, Some (clone_raw k)) /\
    acquire_poll k' (AcquireWait st) a2 = Ok (a3, AcquireDone, Ready (Some b)) /\ buffers a3 = [].
Proof.
  destruct a as [bs q ls n]. cbn. intros -> ->. exists n. do 3 eexists. split; [done|].
  split; [unfold FixedBuffer_drop; cbn; by rewrite lookup_insert_eq|]. done.
Qed.

(** Waiters are woken first come, first served.  While every waiting future is
    queued once (it is polled again only after it was woken), polling a future
    that is not queued keeps that so and, when the pool is empty, puts it last;
    dropping a buffer returns it to the pool, wakes exactly the first waiter and
    removes it from the queue. *)
Theorem waiters_fifo a :
  QueueOk a ->
  (forall k st, st ∉ acquire_queue a -> st < next_state a ->
     let '(a', r) := LazyAcquire_poll k st a in QueueOk a' /\
     match r with
     | Ready _ => buffers a <> [] /\ acquire_queue a' = acquire_queue a
     | Pending => buffers a = [] /\ acquire_queue a' = acquire_queue a ++ [st]
     end) /\
  (forall b, let '(a', w) := FixedBuffer_drop (Some b) a in QueueOk a' /\
     buffers a' = buffers a ++ [b] /\ acquire_queue a' = tail (acquire_queue a) /\
     match acquire_queue a with
     | [] => w = None
     | st :: _ => exists k, lazy_states a !! st = Some (Some k) /\ w = Some k
     end).
Proof.
  intros (Hnd & Hk & Hlt). split.
  - intros k st Hst Hb. unfold LazyAcquire_poll, acquire_inner.
    pose proof (vec_pop_push (buffers a)) as Hv. destruct (vec_pop (buffers a)) as [[bs x]|].
    + split; [done|]. split; [|done]. rewrite Hv. unfold vec_push. by destruct bs.
    + split; [|done]. split; [|split].
      * cbn. apply NoDup_app. split; [done|]. split; [|apply NoDup_singleton].
        intros y Hy ->%list_elem_of_singleton. done.
      * cbn. apply Forall_app. split.
        -- eapply Forall_impl; [exact Hk|]. intros y [k' Hy]. destruct (decide (y = st)) as [->|Hne].
           ++ exists (clone_raw k). by rewrite lookup_insert_eq.
           ++ exists k'. by rewrite lookup_insert_ne.
        -- constructor; [|constructor]. exists (clone_raw k). by rewrite lookup_insert_eq.
      * cbn. apply Forall_app. split; [done|]. by constructor.
  - intros b. unfold FixedBuffer_drop. cbn. destruct (acquire_queue a) as [|st q] eqn:Hq.
    + cbn. rewrite Hq. split; [|done]. unfold QueueOk. cbn. rewrite Hq. split; [constructor|].
      split; constructor.
    + inversion Hnd as [|? ? Hst Hnd']; subst. inversion Hk as [|? ? [k Hst'] Hk']; subst.
      inversion Hlt; subst. split; [|split; [done|split; [done|]]].
      * split; [done|]. split; [|done]. cbn. rewrite Forall_forall in *. intros y Hy.
        destruct (Hk' y Hy) as [k' Hy']. exists k'. rewrite lookup_insert_ne; [done|].
        by intros ->.
      * exists k. split; [done|]. by rewrite Hst'.
Qed.

(** A pool with no free buffer where the future [A] (state 0) was polled twice,
    then [B] (state 1) once. *)
Definition double_poll (a : FixedBufferAllocator) : FixedBufferAllocator :=
  let (a, A) := LazyAcquire_new a in
  let (a, B) := LazyAcquire_new a in
  let (a, _) := LazyAcquire_poll (mkWaker 10 TaskQueue) A a in
  let (a, _) := LazyAcquire_poll (mkWaker 10 TaskQueue) A a in
  let (a, _) := LazyAcquire_poll (mkWaker 11 TaskQueue) B a in a.

(** A waiter polled twice swallows another waiter's wake-up.  [poll] queues
    its state on every pending poll, so after two polls of [A] (a spurious wake-up
    or a [select]) and one of [B], the buffer's first drop wakes [A], which takes
    the buffer; when [A] drops it, the stale second entry of [A] is popped, nobody
    is woken, and [B] waits on although a buffer is free. *)
Theorem double_poll_loses_wakeup (b : FixedBufferInner) :
  let a := double_poll (mkAlloc [] [] ∅ 0) in
  let (a, w1) := FixedBuffer_drop (Some b) a in
  let (a, r) := LazyAcquire_poll (mkWaker 10 TaskQueue) 0 a in
  let (a, w2) := FixedBuffer_drop (Some b) a in
  w1 = Some (mkWaker 10 TaskQueue) /\ r = Ready (Some b) /\ w2 = None /\
  buffers a = [b] /\ acquire_queue a = [1] /\
  lazy_states a !! 1 = Some (Some (mkWaker 11 TaskQueue)).
Proof. by cbv. Qed.

(** ** Witnesses *)

Lemma buffers_conserved_witness : exists a a' held,
  new_without_uring 4096 2 8 = Ok a /\ steps pool_step (a, []) (a', held) /\
  NoDup (map bindex held) /\ map bindex held = [0; 1].
Proof.
  assert (Hn : exists a, new_without_uring 4096 2 8 = Ok a) by (eexists; vm_compute; reflexivity).
  destruct Hn as [a Ha].
  assert (Hs : exists a' held, steps pool_step (a, []) (a', held) /\ map bindex held = [0; 1]).
  { vm_compute in Ha. injection Ha as <-. eexists _, _. split.
    - eapply steps_step; [by apply ps_try|]. eapply steps_step; [by apply ps_try|]. apply steps_refl.
    - reflexivity. }
  destruct Hs as (a' & held & Hs & Hi). exists a, a', held. split; [done|]. split; [done|].
  split; [|done]. exact (proj1 (proj2 (buffers_conserved 4096 2 8 a a' held Ha Hs))).
Defined.

Lemma waiters_fifo_witness :
  let a := mkAlloc [] [3] {[3 := Some (mkWaker 9 TaskQueue)]} 5 in
  acquire_queue (LazyAcquire_poll (mkWaker 8 TaskQueue) 4 a).1 = [3; 4] /\
  QueueOk (LazyAcquire_poll (mkWaker 8 TaskQueue) 4 a).1.
Proof.
  assert (HQ : QueueOk (mkAlloc [] [3] {[3 := Some (mkWaker 9 TaskQueue)]} 5)).
  { split; [apply NoDup_singleton|]. split; (constructor; [|constructor]); [by eexists|cbn; lia]. }
  pose proof (proj1 (waiters_fifo _ HQ) (mkWaker 8 TaskQueue) 4) as Hp.
  split; [reflexivity|]. apply Hp; [|cbn; lia]. intros Hin%list_elem_of_singleton. done.
Defined.
