(* ===== verification/UringReactor.v ===== *)
(** * UringReactor: the io_uring reactor ([pluvio_uring/src/reactor.rs], [builder.rs])

    The crate [io-uring] and the kernel behind it are not part of the repository:
    a ring is an instance of [Ring], whose laws say that every pushed entry
    completes at most once and that the completion queue only reports entries
    that were pushed.  A [HandleState] is shared between the reactor and the
    future that waits for it, so it lives in a store ([handles]). *)

From S2P Require Import Prelude Future Executor UringAlloc.
Local Open Scope Z_scope.

(** ** The ring *)

Class Ring (Sqe R : Type) := {
  ring_push : Sqe -> Z -> R -> option R;
  ring_sq_len : R -> nat;
  ring_need_wakeup : R -> bool;
  ring_submit : R -> option R;
  ring_sync : R -> R;
  ring_completion : R -> R * list (Z * Z);
  ring_submit_and_wait : nat -> R -> option R;
  (** the [user_data] of the entries pushed and not yet reported *)
  ring_inflight : R -> list Z;
  ring_push_inflight sqe u r r' : ring_push sqe u r = Some r' -> ring_inflight r' ≡ₚ u :: ring_inflight r;
  ring_submit_inflight r r' : ring_submit r = Some r' -> ring_inflight r' ≡ₚ ring_inflight r;
  ring_sync_inflight r : ring_inflight (ring_sync r) ≡ₚ ring_inflight r;
  ring_wait_inflight n r r' : ring_submit_and_wait n r = Some r' -> ring_inflight r' ≡ₚ ring_inflight r;
  ring_completion_inflight r :
    ring_inflight r ≡ₚ (ring_completion r).2.*1 ++ ring_inflight (ring_completion r).1
}.

(** ** State *)

Record IoUringParams : Type := mkParams {
  submit_depth : Z;
  wait_submit_timeout : Z;
  wait_complete_timeout : Z;
  sq_poll : option Z
}.

(** [io::Result<i32>]: an error carries its errno. *)
Record HandleState : Type := mkHandleState {
  hwaker : option Waker;
  hresult : option (result Z Z)
}.
Definition HandleState_new : HandleState := mkHandleState None None.

Record IoUringReactor (R : Type) : Type := mkUring {
  ring : R;
  completions : gmap Z nat;
  handles : gmap nat HandleState;
  next_handle : nat;
  user_data_counter : Z;
  allocator : FixedBufferAllocator;
  last_submit_time : Z;
  io_uring_params : IoUringParams;
  completed_count : Z;
  submit_thread : option bool
}.
Arguments mkUring {R} _ _ _ _ _ _ _ _ _ _.
Arguments ring {R} _.
Arguments completions {R} _.
Arguments handles {R} _.
Arguments next_handle {R} _.
Arguments user_data_counter {R} _.
Arguments allocator {R} _.
Arguments last_submit_time {R} _.
Arguments io_uring_params {R} _.
Arguments completed_count {R} _.
Arguments submit_thread {R} _.

(** [WaitHandle]: the address of its state. *)
Abbreviation WaitHandle := nat (only parsing).

Definition handle_at {R} (h : nat) (x : IoUringReactor R) : HandleState :=
  default HandleState_new (handles x !! h).

Section reactor.
Context {Sqe R : Type} `{Ring Sqe R}.
Implicit Types (x : IoUringReactor R) (h : WaitHandle).

Definition set_ring (r : R) x : IoUringReactor R :=
  mkUring r (completions x) (handles x) (next_handle x) (user_data_counter x) (allocator x)
    (last_submit_time x) (io_uring_params x) (completed_count x) (submit_thread x).
Definition set_handles (hs : gmap nat HandleState) x : IoUringReactor R :=
  mkUring (ring x) (completions x) hs (next_handle x) (user_data_counter x) (allocator x)
    (last_submit_time x) (io_uring_params x) (completed_count x) (submit_thread x).
Definition set_completions (cs : gmap Z nat) x : IoUringReactor R :=
  mkUring (ring x) cs (handles x) (next_handle x) (user_data_counter x) (allocator x)
    (last_submit_time x) (io_uring_params x) (completed_count x) (submit_thread x).
Definition set_completed (n : Z) x : IoUringReactor R :=
  mkUring (ring x) (completions x) (handles x) (next_handle x) (user_data_counter x) (allocator x)
    (last_submit_time x) (io_uring_params x) n (submit_thread x).
Definition set_last_submit (t : Z) x : IoUringReactor R :=
  mkUring (ring x) (completions x) (handles x) (next_handle x) (user_data_counter x) (allocator x)
    t (io_uring_params x) (completed_count x) (submit_thread x).
(** [flag.store(true); thread.unpark()]. *)
Definition signal_thread x : IoUringReactor R :=
  mkUring (ring x) (completions x) (handles x) (next_handle x) (user_data_counter x) (allocator x)
    (last_submit_time x) (io_uring_params x) (completed_count x) (Some true).

(** ** Waiting *)

Definition WaitHandle_poll (k : Waker) h x : IoUringReactor R * Poll (result Z Z) :=
  let handle := handle_at h x in
  match hresult handle with
  | Some r => (set_handles (<[h := mkHandleState (hwaker handle) None]> (handles x)) x, Ready r)
  | None => (set_handles (<[h := mkHandleState (Some (clone_raw k)) None]> (handles x)) x, Pending)
  end.

(** ** Submitting *)

Definition push_sqe (sqe : Sqe) x : outcome (IoUringReactor R * WaitHandle) :=
  let user_data := user_data_counter x in
  let h := next_handle x in
  r ← expect "Submission queue is full" (ring_push sqe user_data (ring x));
  mret (mkUring r (<[user_data := h]> (completions x)) (<[h := HandleState_new]> (handles x)) (S h)
          (wrap64 (user_data + 1)) (allocator x) (last_submit_time x) (io_uring_params x)
          (completed_count x) (submit_thread x), h).

(** The submission half of [poll_submit_and_completions]. *)
Definition poll_submit (now : Z) x : outcome (IoUringReactor R) :=
  let has_pending_sqes := negb (Nat.eqb (ring_sq_len (ring x)) 0) in
  x ← (match sq_poll (io_uring_params x) with
       | Some _ =>
           if has_pending_sqes && ring_need_wakeup (ring x)
           then r ← expect "Failed to submit SQE (SQPOLL wakeup)" (ring_submit (ring x));
                mret (set_ring r x)
           else mret x
       | None =>
           if has_pending_sqes then
             match submit_thread x with
             | Some _ => mret (signal_thread (set_ring (ring_sync (ring x)) x))
             | None => r ← expect "Failed to submit SQE" (ring_submit (ring x)); mret (set_ring r x)
             end
           else mret x
       end);
  mret (if has_pending_sqes then set_last_submit now x else x).

(** The result of a completion: an errno when negative. *)
Definition cqe_result (res : Z) : result Z Z := if 0 <=? res then ROk res else RErr (- res).

(** The loop over the completion queue; the wakers, in order. *)
Fixpoint complete_loop (cqes : list (Z * Z)) x : outcome (IoUringReactor R * list Waker) :=
  match cqes with
  | [] => mret (x, [])
  | (user_data, res) :: cqes =>
      match completions x !! user_data with
      | Some h =>
          let x := set_completions (delete user_data (completions x)) x in
          let x := set_completed (wrap64 (completed_count x + 1)) x in
          let wk := hwaker (handle_at h x) in
          let x := set_handles (<[h := mkHandleState None (Some (cqe_result res))]> (handles x)) x in
          match wk with
          | Some k => '(x, ks) ← complete_loop cqes x; mret (x, k :: ks)
          | None => Panic "internal error: entered unreachable code: Waker is None for user_data"
          end
      | None =>
          Panic "internal error: entered unreachable code: Received completion for unknown user_data"
      end
  end.

Definition poll_submit_and_completions (now : Z) x : outcome (IoUringReactor R * list Waker) :=
  x ← poll_submit now x;
  let (r, cqes) := ring_completion (ring x) in
  complete_loop cqes (set_ring r x).

(** ** Status *)

Definition is_empty x : bool := bool_decide (completions x = ∅).

Definition has_pending_io x : bool := completed_count x <? user_data_counter x.

(** The initialiser of the [ALWAYS_POLL] cell. *)
Definition always_poll_init (getenv : string -> option string) : bool :=
  match getenv "PLUVIO_URING_ALWAYS_POLL"%string with
  | Some v => negb (bool_decide (v = "0"%string))
  | None => false
  end.

Definition uring_status (always_poll : bool) (now : Z) x : ReactorStatus :=
  let has_pending_sqe := negb (Nat.eqb (ring_sq_len (ring x)) 0) in
  let p := io_uring_params x in
  if always_poll then
    if has_pending_sqe || has_pending_io x then Running else Stopped
  else
    let elapsed := Z.max 0 (now - last_submit_time x) in
    match sq_poll p with
    | Some _ =>
        if has_pending_sqe && ring_need_wakeup (ring x) then Running
        else if has_pending_io x && (wait_complete_timeout p <=? elapsed) then Running
        else Stopped
    | None =>
        if (submit_depth p <=? Z.of_nat (ring_sq_len (ring x)))
           || (has_pending_sqe && (wait_submit_timeout p <=? elapsed))
           || (has_pending_io x && (wait_complete_timeout p <=? elapsed))
        then Running else Stopped
    end.

Definition wait_cqueue x : outcome (IoUringReactor R * bool) :=
  if user_data_counter x <=? completed_count x then mret (x, false)
  else r ← expect "Failed to wait for completion" (ring_submit_and_wait 0 (ring x));
       mret (set_ring r x, true).

(** ** Construction *)

Record IoUringReactorBuilder : Type := mkBuilder {
  queue_size : Z;
  buffer_size : Z;
  bsubmit_depth : Z;
  bsq_poll : option Z;
  bwait_submit_timeout : Z;
  bwait_complete_timeout : Z
}.

(** Durations in nanoseconds. *)
Definition Builder_default : IoUringReactorBuilder :=
  mkBuilder 1024 4096 64 None 50000000 100000000.
Definition Builder_new : IoUringReactorBuilder := Builder_default.
Definition with_queue_size (n : Z) (b : IoUringReactorBuilder) : IoUringReactorBuilder :=
  mkBuilder n (buffer_size b) (bsubmit_depth b) (bsq_poll b) (bwait_submit_timeout b)
    (bwait_complete_timeout b).
Definition with_buffer_size (n : Z) (b : IoUringReactorBuilder) : IoUringReactorBuilder :=
  mkBuilder (queue_size b) n (bsubmit_depth b) (bsq_poll b) (bwait_submit_timeout b)
    (bwait_complete_timeout b).
Definition with_submit_depth (n : Z) (b : IoUringReactorBuilder) : IoUringReactorBuilder :=
  mkBuilder (queue_size b) (buffer_size b) n (bsq_poll b) (bwait_submit_timeout b)
    (bwait_complete_timeout b).
Definition with_wait_submit_timeout (n : Z) (b : IoUringReactorBuilder) : IoUringReactorBuilder :=
  mkBuilder (queue_size b) (buffer_size b) (bsubmit_depth b) (bsq_poll b) n (bwait_complete_timeout b).
Definition with_wait_complete_timeout (n : Z) (b : IoUringReactorBuilder) : IoUringReactorBuilder :=
  mkBuilder (queue_size b) (buffer_size b) (bsubmit_depth b) (bsq_poll b) (bwait_submit_timeout b) n.
Definition with_sq_poll (n : Z) (b : IoUringReactorBuilder) : IoUringReactorBuilder :=
  mkBuilder (queue_size b) (buffer_size b) (bsubmit_depth b) (Some n) (bwait_submit_timeout b)
    (bwait_complete_timeout b).

(** [SubmitThread::enabled_by_env]. *)
Definition enabled_by_env (getenv : string -> option string) : bool :=
  match getenv "PLUVIO_URING_SUBMIT_THREAD"%string with
  | Some v => negb (bool_decide (v = "0"%string))
  | None => false
  end.

(** What [build] asks the operating system for: a ring (with or without a
    submission thread in the kernel), the page size, the registration of the
    buffers and the clock. *)
Record UringOs : Type := mkUringOs {
  os_ring : option Z -> Z -> option R;
  os_page_size : Z;
  os_register : list nat -> bool;
  os_now : Z;
  os_getenv : string -> option string
}.

(** [IOURING_REACTOR.set]: the thread-local cell is set at most once. *)
Definition uring_init (x : IoUringReactor R) (cell : option (IoUringReactor R)) :
    option (IoUringReactor R) * result unit string :=
  match cell with
  | Some _ => (cell, RErr "Failed to set IoUringReactor in thread local storage"%string)
  | None => (Some x, ROk tt)
  end.

Definition build (o : UringOs) (b : IoUringReactorBuilder) (cell : option (IoUringReactor R)) :
    outcome (option (IoUringReactor R) * IoUringReactor R) :=
  r ← (match bsq_poll b with
       | Some _ => expect "Failed to create io_uring with SQPOLL" (os_ring o (bsq_poll b) (queue_size b))
       | None => expect "Failed to create io_uring" (os_ring o None (queue_size b))
       end);
  let st := match bsq_poll b with
            | None => if enabled_by_env (os_getenv o) then Some false else None
            | Some _ => None
            end in
  a ← FixedBufferAllocator_new (os_register o) (os_page_size o) (Z.to_nat (queue_size b)) (buffer_size b);
  let x := mkUring r ∅ ∅ 0 0 a (os_now o)
             (mkParams (bsubmit_depth b) (bwait_submit_timeout b) (bwait_complete_timeout b) (bsq_poll b))
             0 st in
  match uring_init x cell with
  | (cell, ROk _) => mret (cell, x)
  | (_, RErr _) => Panic "Failed to initialize IoUringReactor"
  end.

Definition IoUringReactor_new (o : UringOs) (cell : option (IoUringReactor R)) :
    outcome (option (IoUringReactor R) * IoUringReactor R) := build o Builder_default cell.

(** [OnceCell::get_or_init]: panics when the cell was set while [f] ran. *)
Definition get_or_init (o : UringOs) (cell : option (IoUringReactor R)) :
    outcome (option (IoUringReactor R) * IoUringReactor R) :=
  match cell with
  | Some x => mret (cell, x)
  | None =>
      '(cell, x) ← build o Builder_default cell;
      match cell with
      | Some _ => Panic "reentrant init"
      | None => mret (Some x, x)
      end
  end.
End reactor.

(** ** A client that awaits what it pushes *)

Section client.
Context {Sqe R : Type} `{Ring Sqe R}.

(** [UAwait]: an [async fn] pushes its entry and polls the future it got in the
    same poll; [UPollAgain]: a later poll of a future; [UReact]: a poll of the
    reactor. *)
Inductive UEvent : Type :=
| UAwait (sqe : Sqe) (k : Waker)
| UPollAgain (h : nat) (k : Waker)
| UReact (now : Z).

Definition uring_event (e : UEvent) (x : IoUringReactor R) : outcome (IoUringReactor R) :=
  match e with
  | UAwait sqe k => '(x, h) ← push_sqe sqe x; mret (WaitHandle_poll k h x).1
  | UPollAgain h k => mret (WaitHandle_poll k h x).1
  | UReact now => '(x, _) ← poll_submit_and_completions now x; mret x
  end.

Fixpoint uring_run (es : list UEvent) (x : IoUringReactor R) : outcome (IoUringReactor R) :=
  match es with
  | [] => mret x
  | e :: es => x ← uring_event e x; uring_run es x
  end.
End client.

(** The panics of a ring that refuses an entry or a submission. *)
Definition ring_refusals : list string :=
  ["Submission queue is full"; "Failed to submit SQE"; "Failed to submit SQE (SQPOLL wakeup)"]%string.

(** * Facts *)

Section facts.
Context {Sqe R : Type} `{Ring Sqe R}.
Implicit Types (x : IoUringReactor R) (h : WaitHandle).

(** The entries waiting in [completions] are exactly those in flight, each with a
    state of its own, and the two counters differ by their number. *)
Record UringInv x : Prop := {
  ui_inflight : (map_to_list (completions x)).*1 ≡ₚ ring_inflight (ring x);
  ui_count : user_data_counter x = completed_count x + Z.of_nat (size (completions x));
  ui_completed : 0 <= completed_count x;
  ui_counter : user_data_counter x < 2 ^ 64;
  ui_below u h : completions x !! u = Some h -> u < user_data_counter x /\ (h < next_handle x)%nat;
  ui_inj u u' h : completions x !! u = Some h -> completions x !! u' = Some h -> u = u'
}.

Lemma uring_inv_same x x' :
  completions x' = completions x -> ring_inflight (ring x') ≡ₚ ring_inflight (ring x) ->
  user_data_counter x' = user_data_counter x -> completed_count x' = completed_count x ->
  next_handle x' = next_handle x -> UringInv x -> UringInv x'.
Proof.
  intros Hc Hr Hu Hd Hn [I1 I2 I3 I4 I5 I6]. split; rewrite ?Hc, ?Hu, ?Hd, ?Hn; auto.
  by rewrite Hr.
Qed.

Lemma push_sqe_inv sqe x x' h :
  UringInv x -> user_data_counter x < 2 ^ 64 - 1 -> push_sqe sqe x = Ok (x', h) ->
  UringInv x' /\ h = next_handle x /\ handle_at h x' = HandleState_new /\
  completions x' = <[user_data_counter x := h]> (completions x) /\
  (forall h', h' <> h -> handle_at h' x' = handle_at h' x).
Proof.
  intros [I1 I2 I3 I4 I5 I6] Hlt Hp. unfold push_sqe in Hp. inv_Ok.
  assert (Hfresh : completions x !! user_data_counter x = None).
  { destruct (completions x !! user_data_counter x) as [h|] eqn:Hc; [|done].
    destruct (I5 _ _ Hc). lia. }
  split; [|split; [done|split; [|split; [done|]]]].
  - split; cbn.
    + rewrite map_to_list_insert by done. cbn. rewrite I1. symmetry. by eapply ring_push_inflight.
    + rewrite map_size_insert_None by done. rewrite wrap64_small by (unfold in_u64; lia). lia.
    + done.
    + rewrite wrap64_small by (unfold in_u64; lia). lia.
    + intros u h. rewrite wrap64_small by (unfold in_u64; lia).
      destruct (decide (u = user_data_counter x)) as [->|Hne].
      * rewrite lookup_insert_eq. intros [= <-]. split; lia.
      * rewrite lookup_insert_ne by done. intros Hu. destruct (I5 _ _ Hu). split; lia.
    + intros u u' h. destruct (decide (u = user_data_counter x)) as [->|Hne],
        (decide (u' = user_data_counter x)) as [->|Hne'];
        rewrite ?lookup_insert_eq, ?lookup_insert_ne by done; try done.
      * intros [= <-] Hu'. destruct (I5 _ _ Hu'). lia.
      * intros Hu [= <-]. destruct (I5 _ _ Hu). lia.
      * apply I6.
  - unfold handle_at. cbn. by rewrite lookup_insert_eq.
  - intros h' Hne. unfold handle_at. cbn. by rewrite lookup_insert_ne.
Qed.

Lemma wait_poll_inv k h x : UringInv x -> UringInv (WaitHandle_poll k h x).1.
Proof. intros HI. unfold WaitHandle_poll. destruct (hresult _); by eapply uring_inv_same, HI. Qed.

Lemma poll_submit_inv now x x' : poll_submit now x = Ok x' -> UringInv x ->
  UringInv x' /\ completions x' = completions x /\ handles x' = handles x.
Proof.
  intros Hp HI. unfold poll_submit in Hp. apply bind_Ok in Hp as (x1 & H1 & [= <-]).
  assert (Hx : UringInv x1 /\ completions x1 = completions x /\ handles x1 = handles x).
  { destruct (sq_poll _).
    - destruct (_ && _); inv_Ok; [|done]. split; [|done]. eapply uring_inv_same, HI; try done.
      cbn. by eapply ring_submit_inflight.
    - destruct (negb _); [|by inv_Ok]. destruct (submit_thread x); inv_Ok; (split; [|done]);
        eapply uring_inv_same, HI; try done; cbn; [apply ring_sync_inflight|by eapply ring_submit_inflight]. }
  destruct Hx as (Hi & Hc & Hh). destruct (negb _); [|done].
  split; [by eapply uring_inv_same, Hi|done].
Qed.

(** What the loop over the completion queue does when every completed entry is
    known and waited for. *)
Record drained (cqes : list (Z * Z)) x x' (ks : list Waker) : Prop := {
  dr_wakes i u res : cqes !! i = Some (u, res) -> exists h k, completions x !! u = Some h /\
    hwaker (handle_at h x) = Some k /\ ks !! i = Some k /\
    handle_at h x' = mkHandleState None (Some (cqe_result res));
  dr_length : length ks = length cqes;
  dr_completions u : completions x' !! u = if decide (u ∈ cqes.*1) then None else completions x !! u;
  dr_others h : (forall u res, (u, res) ∈ cqes -> completions x !! u <> Some h) ->
    handle_at h x' = handle_at h x;
  dr_completed : completed_count x' = Z.of_nat (length cqes) + completed_count x;
  dr_same : ring x' = ring x /\ user_data_counter x' = user_data_counter x /\ next_handle x' = next_handle x
}.

(** The state after the first entry, of which [h] and [k] are the handle and the waker. *)
Lemma drained_cons u res cqes x x1 x' h k ks :
  (u ∉ cqes.*1) -> completions x !! u = Some h -> hwaker (handle_at h x) = Some k ->
  (forall v h' r', (v, r') ∈ cqes -> completions x !! v = Some h' -> h' <> h /\ v <> u) ->
  handle_at h x1 = mkHandleState None (Some (cqe_result res)) ->
  (forall h', h' <> h -> handle_at h' x1 = handle_at h' x) ->
  (forall v, completions x1 !! v = if decide (v = u) then None else completions x !! v) ->
  completed_count x1 = completed_count x + 1 ->
  ring x1 = ring x /\ user_data_counter x1 = user_data_counter x /\ next_handle x1 = next_handle x ->
  drained cqes x1 x' ks -> drained ((u, res) :: cqes) x x' (k :: ks).
Proof.
  intros Hnin Hu Hw Hne Hh Hh1 Hc1 Hn (X1 & X2 & X3) [D1 D2 D3 D4 D5 (D6 & D7 & D8)].
  assert (Hvu : forall v r', (v, r') ∈ cqes -> v <> u) by (intros v r' Hv ->; apply Hnin, list_elem_of_fmap; by exists (u, r')).
  assert (Hkeep : forall v r' h', (v, r') ∈ cqes -> completions x1 !! v = Some h' -> completions x !! v = Some h').
  { intros v r' h' Hv Hc. by rewrite Hc1, decide_False in Hc by by eapply Hvu. }
  split; [|cbn; congruence| | |cbn [length]; lia|split; [congruence|split; congruence] ].
  - intros [|i] v r'; cbn.
    + intros [= <- <-]. exists h, k. do 3 (split; [done|]). rewrite (D4 h); [done|]. intros v r' Hv Hc.
      by destruct (Hne _ _ _ Hv (Hkeep _ _ _ Hv Hc)).
    + intros Hi. destruct (D1 i v r' Hi) as (h' & k' & Hc & Hw' & Hks & Hh').
      assert (Hv : (v, r') ∈ cqes) by by eapply list_elem_of_lookup_2. apply (Hkeep _ _ _ Hv) in Hc.
      destruct (Hne _ _ _ Hv Hc). rewrite Hh1 in Hw' by done. by exists h', k'.
  - intros v. rewrite D3, Hc1. cbn [fmap list_fmap fst]. destruct (decide (v = u)) as [->|Hvu'].
    + rewrite (decide_True (P := u ∈ u :: _)) by by left. by case_decide.
    + destruct (decide (v ∈ cqes.*1)); [by rewrite decide_True by by right|].
      rewrite decide_False; [done|]. by rewrite elem_of_cons; intros [|].
  - intros h' Hno. assert (h' <> h) by (intros ->; eapply Hno; [by left|done]).
    rewrite D4; [by apply Hh1|]. intros v r' Hv Hc. eapply Hno; [by right|by eapply Hkeep].
Qed.

Lemma complete_loop_ok cqes x :
  NoDup cqes.*1 ->
  (forall u u' h, completions x !! u = Some h -> completions x !! u' = Some h -> u = u') ->
  0 <= completed_count x -> completed_count x + Z.of_nat (length cqes) < 2 ^ 64 ->
  (forall u res, (u, res) ∈ cqes -> exists h k, completions x !! u = Some h /\ hwaker (handle_at h x) = Some k) ->
  exists x' ks, complete_loop cqes x = Ok (x', ks) /\ drained cqes x x' ks.
Proof.
  revert x. induction cqes as [|[u res] cqes IH]; intros x Hnd Hinj H0c Hlt Hk; cbn [complete_loop].
  - exists x, []. split; [done|]. split; try done.
  - destruct (Hk u res) as (h & k & Hu & Hw); [by left|]. rewrite Hu. cbv zeta.
    inversion Hnd as [|? ? Hnin Hnd']; subst. cbn [length] in Hlt. assert (Hw0 := Hw).
    unfold handle_at in Hw. unfold handle_at. cbn [handles set_completed set_completions]. rewrite Hw.
    set (x1 := set_handles _ _).
    assert (Hne : forall v h' r', (v, r') ∈ cqes -> completions x !! v = Some h' -> h' <> h /\ v <> u).
    { intros v h' r' Hv Hc. assert (v <> u).
      { intros ->. apply Hnin. apply list_elem_of_fmap. by exists (u, r'). }
      split; [|done]. intros ->. by destruct (Hinj v u h Hc Hu). }
    assert (Hh1 : forall h', h' <> h -> handle_at h' x1 = handle_at h' x).
    { intros h' Hh. unfold handle_at, x1. cbn. by rewrite lookup_insert_ne. }
    assert (Hc1 : forall v, completions x1 !! v = if decide (v = u) then None else completions x !! v).
    { intros v. unfold x1. cbn. rewrite lookup_delete. repeat case_decide; congruence. }
    assert (Hn1 : completed_count x1 = completed_count x + 1) by (unfold x1; cbn; rewrite wrap64_small; [done|unfold in_u64; lia]).
    destruct (IH x1) as (x' & ks & Hl & HD); [done| |lia|lia| |].
    + intros v v' h'. rewrite !Hc1. repeat case_decide; try done. apply Hinj.
    + intros v r' Hv. destruct (Hk v r') as (h' & k' & Hc & Hw'); [by right|].
      destruct (Hne _ _ _ Hv Hc). exists h', k'. by rewrite Hc1, decide_False, Hh1.
    + rewrite Hl. cbn. exists x', (k :: ks). split; [done|]. apply (drained_cons u res cqes x x1 x' h); try done.
      unfold handle_at, x1. cbn. by rewrite lookup_insert_eq.
Qed.

Lemma inflight_nodup x : UringInv x -> NoDup (ring_inflight (ring x)).
Proof. intros HI. rewrite <- ui_inflight by done. apply NoDup_fst_map_to_list. Qed.

Lemma completions_inflight x u : UringInv x ->
  u ∈ ring_inflight (ring x) <-> exists h, completions x !! u = Some h.
Proof.
  intros HI. rewrite <- ui_inflight, list_elem_of_fmap by done. split.
  - intros ([v h] & -> & Hv). exists h. by apply elem_of_map_to_list in Hv.
  - intros [h Hu]. exists (u, h). split; [done|]. by apply elem_of_map_to_list.
Qed.

(** What a drained completion queue leaves: the invariant, with the reported
    entries gone. *)
Lemma drained_inv cqes x x' ks :
  UringInv x -> ring_inflight (ring x) ≡ₚ cqes.*1 ++ ring_inflight (ring x') ->
  drained cqes (set_ring (ring x') x) x' ks -> UringInv x'.
Proof.
  intros HI Hperm [D1 D2 D3 D4 D5 (_ & D6 & D7)]. cbn in *.
  assert (Hnd := inflight_nodup _ HI). rewrite Hperm in Hnd. apply NoDup_app in Hnd as (_ & Hdis & Hnd').
  assert (Hsub : forall u h, completions x' !! u = Some h -> completions x !! u = Some h).
  { intros u h. rewrite D3. by case_decide. }
  assert (Hin : (map_to_list (completions x')).*1 ≡ₚ ring_inflight (ring x')).
  { apply NoDup_Permutation; [apply NoDup_fst_map_to_list|done|]. intros u.
    rewrite list_elem_of_fmap. split.
    - intros ([v h] & -> & Hv). apply elem_of_map_to_list in Hv. cbn. rewrite D3 in Hv.
      case_decide as Hc; [done|].
      assert (Hr : v ∈ ring_inflight (ring x)) by (apply completions_inflight; eauto).
      rewrite Hperm in Hr. apply elem_of_app in Hr as [|]; done.
    - intros Hu. destruct (proj1 (completions_inflight x u HI)) as [h Hh].
      { rewrite Hperm. apply elem_of_app. by right. }
      exists (u, h). split; [done|]. apply elem_of_map_to_list. rewrite D3, decide_False; [done|].
      intros Hc. by eapply Hdis. }
  assert (Hsz : (size (completions x) = length cqes + size (completions x'))%nat).
  { assert (He := Permutation_length (ui_inflight _ HI)). assert (He' := Permutation_length Hin).
    rewrite Hperm, length_app, !length_fmap, length_map_to_list in He.
    rewrite length_fmap, length_map_to_list in He'. lia. }
  destruct HI as [I1 I2 I3 I4 I5 I6]. split; [done|lia|lia|lia| |].
  - intros u h Hu. rewrite D6, D7. by apply I5, Hsub.
  - intros u u' h Hu Hu'. eapply I6; by apply Hsub.
Qed.

(** Every future in flight was polled since its entry was pushed. *)
Definition Waited x : Prop :=
  forall u h, completions x !! u = Some h -> is_Some (hwaker (handle_at h x)).

(** One poll of a reactor whose futures all wait: it succeeds once the submission
    does, and drains the completion queue. *)
Lemma poll_drains now x x1 :
  UringInv x -> Waited x -> poll_submit now x = Ok x1 ->
  let '(r, cqes) := ring_completion (ring x1) in
  exists x' ks, poll_submit_and_completions now x = Ok (x', ks) /\
    drained cqes (set_ring r x1) x' ks /\ UringInv x' /\ Waited x'.
Proof.
  intros HI HW Hs. destruct (ring_completion (ring x1)) as [r cqes] eqn:Hc.
  destruct (poll_submit_inv _ _ _ Hs HI) as (HI1 & Hcm & Hhs).
  assert (Hperm := ring_completion_inflight (ring x1)). rewrite Hc in Hperm. cbn in Hperm.
  assert (Hnd := inflight_nodup _ HI1). rewrite Hperm in Hnd.
  assert (Hsz : (length cqes <= size (completions x1))%nat).
  { assert (He := Permutation_length (ui_inflight _ HI1)).
    rewrite Hperm, length_app, !length_fmap, length_map_to_list in He. lia. }
  destruct (complete_loop_ok cqes (set_ring r x1)) as (x' & ks & Hl & HD); cbn.
  - by apply NoDup_app in Hnd as [? _].
  - apply HI1.
  - apply HI1.
  - destruct HI1 as [_ I2 I3 I4 _ _]. lia.
  - intros u res Hu. destruct (proj1 (completions_inflight x1 u HI1)) as [h Hh].
    { rewrite Hperm. apply elem_of_app. left. apply list_elem_of_fmap. by exists (u, res). }
    rewrite Hcm in Hh. destruct (HW _ _ Hh) as [k Hk]. exists h, k. rewrite Hcm. split; [done|].
    unfold handle_at in *. cbn. by rewrite Hhs.
  - exists x', ks. assert (Hr : r = ring x') by (destruct (dr_same _ _ _ _ HD) as [-> _]; done).
    split; [unfold poll_submit_and_completions; rewrite Hs; cbn; by rewrite Hc|].
    split; [done|]. subst r. split; [by eapply drained_inv|].
    intros u h Hu. destruct HD as [_ _ D3 D4 _ _]. rewrite D3 in Hu. case_decide as Hin; [done|].
    rewrite D4.
    + cbn in Hu. unfold handle_at. cbn. rewrite Hhs. apply (HW u). by rewrite <- Hcm.
    + cbn. intros v res Hv Hcv. cbn in Hu. assert (v = u) as -> by (by eapply (ui_inj _ HI1)).
      apply Hin, list_elem_of_fmap. by exists (u, res).
Qed.

(** C14. A completed operation reaches its future exactly once.  When every future
    in flight has been polled and the submission succeeds, the reactor's poll does
    not panic; for each completion the ring reports, it wakes, in the ring's order,
    the waker of the last poll of that operation's future, and that future's next
    poll returns the operation's result (an error carrying the errno when the
    kernel's number is negative) while the polls after it find nothing.  The other
    futures are untouched, and [is_empty] holds exactly when nothing is pending. *)
Theorem uring_poll_delivers now x x1 :
  UringInv x -> Waited x -> poll_submit now x = Ok x1 ->
  exists x' ks, poll_submit_and_completions now x = Ok (x', ks) /\ UringInv x' /\ Waited x' /\
    length ks = length (ring_completion (ring x1)).2 /\
    (forall i u res, (ring_completion (ring x1)).2 !! i = Some (u, res) ->
       exists h k, completions x !! u = Some h /\ hwaker (handle_at h x) = Some k /\ ks !! i = Some k /\
         forall k1 k2, exists x2 x3, WaitHandle_poll k1 h x' = (x2, Ready (cqe_result res)) /\
           WaitHandle_poll k2 h x2 = (x3, Pending)) /\
    (forall h, (forall u res, (u, res) ∈ (ring_completion (ring x1)).2 -> completions x !! u <> Some h) ->
       handle_at h x' = handle_at h x) /\
    is_empty x' = negb (has_pending_io x').
Proof.
  intros HI HW Hs. assert (HP := poll_drains _ _ _ HI HW Hs).
  destruct (ring_completion (ring x1)) as [r cqes]. destruct HP as (x' & ks & Hp & HD & HI' & HW').
  destruct (poll_submit_inv _ _ _ Hs HI) as (_ & Hcm & Hhs).
  exists x', ks. split; [done|]. split; [done|]. split; [done|]. destruct HD as [D1 D2 _ D4 _ _].
  split; [done|]. split; [|split].
  - intros i u res Hi. destruct (D1 _ _ _ Hi) as (h & k & Hu & Hw & Hk & Hh). cbn in Hu. rewrite Hcm in Hu.
    unfold handle_at in Hw. cbn in Hw. rewrite Hhs in Hw. exists h, k. do 3 (split; [done|]).
    intros k1 k2. unfold WaitHandle_poll at 1. rewrite Hh. cbn. do 2 eexists. split; [done|].
    unfold WaitHandle_poll, handle_at. cbn. by rewrite lookup_insert_eq.
  - intros h Hh. rewrite D4; [|by intros u res Hu; cbn; rewrite Hcm; eapply Hh].
    unfold handle_at. cbn. by rewrite Hhs.
  - unfold is_empty, has_pending_io. assert (Hct := ui_count _ HI').
    destruct (decide (completions x' = ∅)) as [He|Hne].
    + rewrite He, map_size_empty in Hct. rewrite bool_decide_true by done. symmetry. apply negb_true_iff. lia.
    + rewrite bool_decide_false by done. symmetry. apply negb_false_iff.
      assert (size (completions x') <> 0%nat) by (by rewrite map_size_empty_iff). lia.
Qed.

Lemma poll_submit_refusal now x m : poll_submit now x = Panic m -> m ∈ ring_refusals.
Proof.
  unfold poll_submit, ring_refusals, expect. intros Hp.
  destruct (sq_poll _); repeat (case_match; cbn in Hp; try done); injection Hp as <-; set_solver.
Qed.

Lemma push_sqe_refusal sqe x m : push_sqe sqe x = Panic m -> m ∈ ring_refusals.
Proof.
  unfold push_sqe, ring_refusals, expect. intros Hp. case_match; cbn in Hp; [done|].
  injection Hp as <-. by left.
Qed.

Lemma wait_poll_waited k h x : Waited x -> Waited (WaitHandle_poll k h x).1.
Proof.
  intros HW u h' Hu. unfold WaitHandle_poll, handle_at in *.
  assert (Hu' : completions x !! u = Some h') by (by destruct (hresult _)).
  specialize (HW _ _ Hu'). unfold handle_at in HW.
  destruct (hresult _), (decide (h' = h)) as [->|Hne]; cbn;
    rewrite ?lookup_insert_eq, ?lookup_insert_ne by done; cbn; eauto.
Qed.

Lemma uring_event_safe e x :
  UringInv x -> Waited x -> user_data_counter x + 1 < 2 ^ 64 ->
  match uring_event e x with
  | Ok x' => UringInv x' /\ Waited x' /\ user_data_counter x' <= user_data_counter x + 1
  | Panic m => m ∈ ring_refusals
  end.
Proof.
  intros HI HW Hlt. destruct e as [sqe k|h k|now]; cbn [uring_event].
  - destruct (push_sqe sqe x) as [[x1 h]|m] eqn:Hp; cbn [mbind outcome_bind];
      [|by eapply push_sqe_refusal].
    destruct (push_sqe_inv _ _ _ _ HI ltac:(lia) Hp) as (HI1 & Hh & Hnew & Hc & Hoth).
    split; [by apply wait_poll_inv|]. split.
    + intros u h' Hu. unfold WaitHandle_poll in *. rewrite Hnew in *. cbn in *. unfold handle_at. cbn.
      destruct (decide (h' = h)) as [->|Hne]; [by rewrite lookup_insert_eq; eauto|].
      rewrite lookup_insert_ne by done. rewrite Hc in Hu.
      destruct (decide (u = user_data_counter x)) as [->|Hu'].
      * rewrite lookup_insert_eq in Hu. congruence.
      * rewrite lookup_insert_ne in Hu by done. specialize (HW _ _ Hu).
        rewrite <- Hoth in HW by done. exact HW.
    + unfold push_sqe in Hp. inv_Ok. unfold WaitHandle_poll. destruct HI.
      case_match; cbn; rewrite wrap64_small by (unfold in_u64; lia); lia.
  - split; [by apply wait_poll_inv|]. split; [by apply wait_poll_waited|].
    unfold WaitHandle_poll. case_match; cbn; lia.
  - destruct (poll_submit now x) as [x1|m] eqn:Hs.
    + assert (HP := poll_drains _ _ _ HI HW Hs). destruct (ring_completion _) as [r cqes].
      destruct HP as (x' & ks & -> & HD & HI' & HW'). cbn. do 2 (split; [done|]).
      destruct HD as [_ _ _ _ _ (_ & -> & _)]. cbn.
      assert (user_data_counter x1 = user_data_counter x) as ->; [|lia].
      unfold poll_submit in Hs. inv_Ok. destruct (sq_poll _); repeat case_match; inv_Ok; done.
    + unfold poll_submit_and_completions. rewrite Hs. cbn. by eapply poll_submit_refusal.
Qed.

Lemma build_inv (o : UringOs) b cell c x :
  (forall q n r, os_ring o q n = Some r -> ring_inflight r ≡ₚ []) ->
  build o b cell = Ok (c, x) ->
  UringInv x /\ Waited x /\ user_data_counter x = 0 /\ cell = None /\ c = Some x.
Proof.
  intros Hr Hb. unfold build in Hb. inv_Ok. destruct cell; cbn in *; [done|].
  inv_Ok. split; [|split; [|done]].
  - split; cbn; try done. rewrite map_to_list_empty. symmetry. cbn.
    destruct (bsq_poll b); inv_Ok; by eapply Hr.
  - intros u h. done.
Qed.

(** C36. A program that awaits each future it gets from [push_sqe] before the
    reactor runs again never reaches one of the [unreachable!]s of the reactor:
    through any sequence of awaited entries, later polls and reactor polls from a
    freshly built reactor, fewer than [2 ^ 64] of them, the only panics are those of
    a ring that refuses an entry or a submission, and each table entry keeps
    standing for one operation in flight with a waker to wake. *)
Theorem awaiting_clients_safe (o : UringOs) b cell c x es :
  (forall q n r, os_ring o q n = Some r -> ring_inflight r ≡ₚ []) ->
  build o b cell = Ok (c, x) -> Z.of_nat (length es) < 2 ^ 64 - 1 ->
  match uring_run es x with
  | Ok x' => UringInv x' /\ Waited x'
  | Panic m => m ∈ ring_refusals
  end.
Proof.
  intros Hr Hb Hl. destruct (build_inv _ _ _ _ _ Hr Hb) as (HI & HW & H0 & _). clear Hb Hr.
  assert (Hc : user_data_counter x + Z.of_nat (length es) < 2 ^ 64 - 1) by lia. clear H0 Hl.
  revert x HI HW Hc. induction es as [|e es IH]; intros x HI HW Hc; cbn [uring_run]; [done|].
  cbn [length] in Hc. assert (He := uring_event_safe e x HI HW ltac:(lia)).
  destruct (uring_event e x) as [x1|m]; cbn [mbind outcome_bind]; [|done].
  destruct He as (HI1 & HW1 & Hle). apply IH; [done|done|lia].
Qed.

Lemma complete_loop_panics cqes x u h :
  u ∈ cqes.*1 -> completions x !! u = Some h -> hwaker (handle_at h x) = None ->
  exists m, complete_loop cqes x = Panic m.
Proof.
  revert x. induction cqes as [|[v res] cqes IH]; intros x Hu Hc Hw; [by apply elem_of_nil in Hu|].
  cbn [complete_loop]. destruct (completions x !! v) as [h'|] eqn:Hv; [|eauto]. cbv zeta.
  destruct (decide (u = v)) as [->|Hne].
  - rewrite Hv in Hc. injection Hc as ->. unfold handle_at in *. cbn. rewrite Hw. eauto.
  - cbn in Hu. apply elem_of_cons in Hu as [|Hu]; [done|].
    destruct (hwaker (handle_at h' _)); [|eauto].
    destruct (IH (set_handles (<[h' := mkHandleState None (Some (cqe_result res))]>
      (handles (set_completed (wrap64 (completed_count (set_completions (delete v (completions x)) x) + 1))
      (set_completions (delete v (completions x)) x)))) (set_completed
      (wrap64 (completed_count (set_completions (delete v (completions x)) x) + 1))
      (set_completions (delete v (completions x)) x)))) as [m ->]; [done| | |eauto].
    + cbn. by rewrite lookup_delete_ne.
    + unfold handle_at in *. cbn. destruct (decide (h = h')) as [->|]; [by rewrite lookup_insert_eq|].
      by rewrite lookup_insert_ne.
Qed.

(** The waker is not optional: when an entry was pushed and its future not
    polled before a reactor poll finds it completed, that poll panics, and its
    result is lost. *)
Theorem unpolled_completion_panics sqe x x1 h now x2 :
  push_sqe sqe x = Ok (x1, h) -> poll_submit now x1 = Ok x2 ->
  user_data_counter x ∈ (ring_completion (ring x2)).2.*1 ->
  exists m, poll_submit_and_completions now x1 = Panic m.
Proof.
  intros Hp Hs Hin. unfold poll_submit_and_completions. rewrite Hs. cbn.
  destruct (ring_completion (ring x2)) as [r cqes].
  assert (Hx : completions x2 = completions x1 /\ handles x2 = handles x1).
  { unfold poll_submit in Hs. inv_Ok. destruct (sq_poll _); repeat case_match; inv_Ok; done. }
  destruct Hx as [Hc Hh]. unfold push_sqe in Hp. inv_Ok.
  eapply complete_loop_panics; [done| |]; cbn.
  - rewrite Hc. cbn. apply lookup_insert_eq.
  - unfold handle_at. cbn. rewrite Hh. cbn. by rewrite lookup_insert_eq.
Qed.

(** [get_or_init] never makes a reactor: on a fresh thread its build fills the cell the
    initialisation is about to set. *)
Lemma get_or_init_fresh (o : UringOs) : exists m, get_or_init o (None : option (IoUringReactor R)) = Panic m.
Proof.
  unfold get_or_init, build. cbn. destruct (os_ring o _ _); cbn; [|eauto].
  destruct (FixedBufferAllocator_new _ _ _ _); cbn; eauto.
Qed.

(** A thread has at most one reactor, and only [build] makes it.  A build on a
    thread whose cell is set panics, a build on a fresh thread sets the cell to the
    reactor it returns, and from then on [get_or_init] returns that reactor; but
    [get_or_init] never makes one: on a fresh thread its build fills the cell the
    initialisation is about to set, and the thread panics. *)
Theorem one_reactor_per_thread (o : UringOs) b (x : IoUringReactor R) :
  (exists m, build o b (Some x) = Panic m) /\
  (exists m, get_or_init o (None : option (IoUringReactor R)) = Panic m) /\
  (forall c y, build o b None = Ok (c, y) -> c = Some y /\ get_or_init o c = Ok (c, y)).
Proof.
  assert (Hb : forall cell, (exists m, build (R := R) o b cell = Panic m) \/
    (exists y, cell = None /\ build o b cell = Ok (Some y, y))).
  { intros cell. unfold build.
    match goal with |- context [?m ≫= _ = Panic _] => destruct m as [r|e] end;
      cbn [mbind outcome_bind]; [|eauto].
    destruct (FixedBufferAllocator_new _ _ _ _) as [a|m]; cbn [mbind outcome_bind]; [|eauto].
    destruct cell; cbn; eauto. }
  split; [|split].
  - destruct (Hb (Some x)) as [|(? & ? & _)]; done.
  - apply get_or_init_fresh.
  - intros c y Hy. destruct (Hb None) as [[m Hm]|(z & _ & Hz)]; [congruence|].
    rewrite Hz in Hy. injection Hy as <- <-. done.
Qed.

(** When the runtime polls the ring.  With [PLUVIO_URING_ALWAYS_POLL] it is
    polled exactly while entries are queued or operations in flight; otherwise a
    reactor with neither (and a positive submit depth) is never polled, operations
    in flight are always polled once [wait_complete_timeout] has passed since the
    last submission, whether or not the kernel has a submission thread, and without
    one queued entries are once [wait_submit_timeout] has passed or [submit_depth]
    of them wait. *)
Theorem uring_status_spec now x :
  let p := io_uring_params x in
  let queued := ring_sq_len (ring x) in
  let elapsed := Z.max 0 (now - last_submit_time x) in
  (uring_status true now x = Running <-> queued <> 0%nat \/ has_pending_io x = true) /\
  (queued = 0%nat -> has_pending_io x = false -> 0 < submit_depth p -> uring_status false now x = Stopped) /\
  (has_pending_io x = true -> wait_complete_timeout p <= elapsed -> uring_status false now x = Running) /\
  (sq_poll p = None -> queued <> 0%nat ->
     wait_submit_timeout p <= elapsed \/ submit_depth p <= Z.of_nat queued ->
     uring_status false now x = Running) /\
  (sq_poll p <> None -> uring_status false now x = Running ->
     (queued <> 0%nat /\ ring_need_wakeup (ring x) = true) \/
     (has_pending_io x = true /\ wait_complete_timeout p <= elapsed)).
Proof.
  cbv zeta. unfold uring_status. cbv zeta.
  destruct (Nat.eqb_spec (ring_sq_len (ring x)) 0) as [Hq|Hq]; cbn [negb andb orb].
  all: split; [destruct (has_pending_io x); cbn; (split; [by auto|by intros [|]])|].
  all: split.
  1: { intros _ -> ?. cbn. destruct (sq_poll _); cbn; [done|]. rewrite Hq.
       destruct (Z.leb_spec (submit_depth (io_uring_params x)) (Z.of_nat 0)); [lia|done]. }
  2: done.
  all: split; [intros -> Hle%Z.leb_le; rewrite Hle; cbn; destruct (sq_poll _);
    [destruct (ring_need_wakeup (ring x)); done|by rewrite ?orb_true_r]|].
  all: split; [intros -> ? [E%Z.leb_le|E%Z.leb_le]; try done; rewrite E; by rewrite ?orb_true_r|].
  all: intros Hsq; destruct (sq_poll _); [|done]; cbn.
  - destruct (has_pending_io x); cbn; [|done]. destruct (Z.leb_spec (wait_complete_timeout (io_uring_params x))
      (Z.max 0 (now - last_submit_time x))); [by right|done].
  - destruct (ring_need_wakeup (ring x)); [by left|].
    destruct (has_pending_io x); cbn; [|done]. destruct (Z.leb_spec (wait_complete_timeout (io_uring_params x))
      (Z.max 0 (now - last_submit_time x))); [by right|done].
Qed.
End facts.

(** * A concrete ring

    An entry is the number its operation returns; submitting completes at once. *)

Module ListRing.
Record t : Type := mk { sq : list (Z * Z); cq : list (Z * Z) }.
Definition submit (r : t) : t := mk [] (cq r ++ sq r).
Definition push (sqe u : Z) (r : t) : option t :=
  if (length (sq r) <? 4)%nat then Some (mk (sq r ++ [(u, sqe)]) (cq r)) else None.
Definition inflight (r : t) : list Z := (cq r ++ sq r).*1.
End ListRing.

#[export] Instance list_ring : Ring Z ListRing.t.
Proof.
  refine {| ring_push := ListRing.push; ring_sq_len r := length (ListRing.sq r);
    ring_need_wakeup r := false; ring_submit r := Some (ListRing.submit r); ring_sync := ListRing.submit;
    ring_completion r := (ListRing.mk (ListRing.sq r) [], ListRing.cq r);
    ring_submit_and_wait _ r := Some (ListRing.submit r); ring_inflight := ListRing.inflight |};
    unfold ListRing.push, ListRing.inflight, ListRing.submit.
  - intros sqe u r r'. case_match; [|done]. intros [= <-]. cbn.
    rewrite app_assoc, fmap_app. cbn. by rewrite Permutation_app_comm.
  - intros r r' [= <-]. cbn. by rewrite app_nil_r.
  - intros r. cbn. by rewrite app_nil_r.
  - intros _ r r' [= <-]. cbn. by rewrite app_nil_r.
  - intros r. cbn. by rewrite fmap_app.
Defined.

Definition demo_os : @UringOs ListRing.t :=
  mkUringOs (fun _ _ => Some (ListRing.mk [] [])) 4096 (fun _ => true) 0 (fun _ => None).
Definition demo_builder : IoUringReactorBuilder := with_buffer_size 8 (with_queue_size 2 Builder_new).
Definition demo_built : outcome (option (IoUringReactor ListRing.t) * IoUringReactor ListRing.t) :=
  build demo_os demo_builder None.
Definition demo_reactor : IoUringReactor ListRing.t :=
  match demo_built with Ok (_, x) => x | Panic _ =>
      mkUring (ListRing.mk [] []) ∅ ∅ 0 0 (mkAlloc [] [] ∅ 0) 0 (mkParams 0 0 0 None) 0 None
  end.
Definition demo_client : list (UEvent (Sqe := Z)) := [UAwait 7 (mkWaker 5 TaskQueue); UAwait (-5) (mkWaker 6 TaskQueue)].
Definition demo_waiting : IoUringReactor ListRing.t :=
  match uring_run demo_client demo_reactor with Ok x => x | Panic _ => demo_reactor end.

Lemma demo_rings q n r : os_ring demo_os q n = Some r -> ring_inflight r ≡ₚ [].
Proof. cbn. by intros [= <-]. Qed.

Lemma demo_build_ok : build demo_os demo_builder None = Ok (Some demo_reactor, demo_reactor).
Proof. by vm_compute. Qed.

Lemma demo_waiting_ok : UringInv demo_waiting /\ Waited demo_waiting.
Proof.
  destruct (build_inv _ _ _ _ _ demo_rings demo_build_ok) as (HI & HW & _).
  assert (H1 := uring_event_safe (UAwait 7 (mkWaker 5 TaskQueue)) _ HI HW eq_refl).
  vm_compute in H1. destruct H1 as (HI1 & HW1 & _).
  exact (let H2 := uring_event_safe (UAwait (-5) (mkWaker 6 TaskQueue)) _ HI1 HW1 eq_refl in
    conj (proj1 H2) (proj1 (proj2 H2))).
Qed.

Lemma uring_poll_delivers_witness : exists x' ks,
  poll_submit_and_completions 3 demo_waiting = Ok (x', ks) /\ length ks = 2%nat /\
  is_empty x' = negb (has_pending_io x').
Proof.
  assert (Hs : exists x1, poll_submit 3 demo_waiting = Ok x1 /\ length (ring_completion (ring x1)).2 = 2%nat)
    by (eexists; split; vm_compute; reflexivity).
  destruct Hs as (x1 & Hs & Hl). destruct demo_waiting_ok as [HI HW].
  destruct (uring_poll_delivers 3 demo_waiting x1 HI HW Hs) as (x' & ks & Hp & _ & _ & Hk & _ & _ & He).
  exists x', ks. rewrite Hk, Hl. done.
Defined.

Lemma awaiting_clients_safe_witness :
  exists x', uring_run (demo_client ++ [UReact 3; UPollAgain 0 (mkWaker 5 TaskQueue)]) demo_reactor = Ok x' /\
    UringInv x' /\ Waited x'.
Proof.
  pose proof (awaiting_clients_safe demo_os demo_builder None _ _
    (demo_client ++ [UReact 3; UPollAgain 0 (mkWaker 5 TaskQueue)]) demo_rings demo_build_ok eq_refl) as Hs.
  destruct (uring_run _ demo_reactor) as [x'|m] eqn:Hr; [by exists x'|].
  vm_compute in Hr. discriminate.
Defined.

Lemma unpolled_completion_panics_witness : exists x1 h m,
  push_sqe 7 demo_reactor = Ok (x1, h) /\ poll_submit_and_completions 3 x1 = Panic m.
Proof.
  assert (Hp : exists x1 h x2, push_sqe 7 demo_reactor = Ok (x1, h) /\ poll_submit 3 x1 = Ok x2 /\
    (ring_completion (ring x2)).2.*1 = [0] /\ user_data_counter demo_reactor = 0).
  { do 3 eexists. repeat split; vm_compute; reflexivity. }
  destruct Hp as (x1 & h & x2 & Hp & Hs & Hc & H0).
  destruct (unpolled_completion_panics 7 demo_reactor x1 h 3 x2 Hp Hs) as [m Hm]; [|by exists x1, h, m].
  rewrite Hc, H0. by left.
Defined.

Lemma one_reactor_per_thread_witness : exists m,
  get_or_init demo_os (Some demo_reactor) = Ok (Some demo_reactor, demo_reactor) /\
  build demo_os demo_builder (Some demo_reactor) = Panic m.
Proof.
  destruct (one_reactor_per_thread demo_os demo_builder demo_reactor) as ([m Hm] & _ & Hg).
  exists m. split; [|done]. exact (proj2 (Hg _ _ demo_build_ok)).
Defined.

Lemma uring_status_spec_witness :
  uring_status false 100000000 demo_waiting = Running /\ uring_status false 0 demo_reactor = Stopped.
Proof.
  split.
  - destruct (uring_status_spec 100000000 demo_waiting) as (_ & _ & Hs & _).
    apply Hs; [reflexivity|vm_compute; discriminate].
  - destruct (uring_status_spec 0 demo_reactor) as (_ & Hs & _). by apply Hs.
Defined.
