(* ===== verification/SubmitThread.v ===== *)
(** * SubmitThread: the thread that enters the kernel for the reactor
    ([SubmitThread] in [pluvio_uring/src/reactor.rs])

    The reactor publishes its entries, sets a flag and unparks the thread; the thread
    takes the flag, or parks, and calls [io_uring_enter].  The two run concurrently, so
    the reactor's half of [poll_submit] is taken apart into its three actions here, and
    every interleaving of them with the steps of the thread is a run.

    The flag and the park token of the thread are taken and given by atomic
    read-modify-write operations, which see the latest value.  The tail of the queue is
    not: what the thread is sure to see of it is what it acquired with the flag or the
    token ([t_view]), and the kernel may see any tail from there on. *)

From S2P Require Import Prelude Future UringAlloc UringReactor.
Local Open Scope nat_scope.

(** ** The queue the two share *)

(** How many entries the reactor has put into the queue, how many of these the kernel can
    see, and how many it has taken.  [io_uring_enter n seen e] asks it to take at most
    [n]; the caller has seen the tail [seen], and [e] is what the kernel makes of it. *)
Class SharedQueue (Sqe R E : Type) `{Ring Sqe R} := {
  sq_entries : R -> nat;
  pushed : R -> nat;
  published : R -> nat;
  consumed : R -> nat;
  io_uring_enter : nat -> nat -> E -> R -> R;
  sq_order r : consumed r <= published r <= pushed r;
  sq_room r : pushed r <= consumed r + sq_entries r;
  sq_len_law r : pushed r - consumed r <= ring_sq_len r;
  push_law sqe u r r' : ring_push sqe u r = Some r' ->
    pushed r' = S (pushed r) /\ published r <= published r' /\ consumed r' = consumed r /\ sq_entries r' = sq_entries r;
  sync_law r : pushed (ring_sync r) = pushed r /\ published (ring_sync r) = pushed r /\
    consumed (ring_sync r) = consumed r /\ sq_entries (ring_sync r) = sq_entries r;
  completion_law r : let r' := (ring_completion r).1 in
    pushed r' = pushed r /\ published r' = published r /\ consumed r' = consumed r /\ sq_entries r' = sq_entries r;
  enter_law n seen e r : let r' := io_uring_enter n seen e r in
    pushed r' = pushed r /\ published r' = published r /\ consumed r <= consumed r' /\ sq_entries r' = sq_entries r
}.

(** [PLUVIO_URING_SUBMIT_THREAD=spin]. *)
Definition submit_spin (getenv : string -> option string) : bool :=
  match getenv "PLUVIO_URING_SUBMIT_THREAD"%string with
  | Some v => bool_decide (v = "spin"%string)
  | None => false
  end.

(** What the thread was started with: whether it spins instead of parking, and the size of
    the queue it was given. *)
Record SpawnedThread : Type := mkThread { spin : bool; entries : nat }.

Section thread.
Context {Sqe R E : Type} `{SharedQueue Sqe R E}.
Context (th : SpawnedThread).

(** ** State *)

Inductive ThreadAt : Type := AtSwap | AtPark | AtEnter.
Inductive ReactorAt : Type := Outside | Synced | Flagged.

(** [sx] holds the flag ([submit_thread]).  [flag_view], [token_view]: the tail that whoever
    takes the flag or the token acquires with it. *)
Record SubState : Type := mkSub {
  sx : IoUringReactor R;
  r_at : ReactorAt;
  flag_view : nat;
  token : bool;
  token_view : nat;
  t_at : ThreadAt;
  t_view : nat
}.

Definition flag (s : SubState) : bool := default false (submit_thread (sx s)).
Definition queue (s : SubState) : R := ring (sx s).

(** [f.swap(false)] leaves the flag down. *)
Definition set_submit_thread (b : bool) (x : IoUringReactor R) : IoUringReactor R :=
  mkUring (ring x) (completions x) (handles x) (next_handle x) (user_data_counter x) (allocator x)
    (last_submit_time x) (io_uring_params x) (completed_count x) (Some b).

(** ** The reactor *)

(** An operation is pushed; the actions of a poll with entries pending: publish, set the
    flag, unpark; and the completions of a poll. *)
Inductive ReactorAct : Type := RPush (sqe : Sqe) | RSync | RFlag | RUnpark (now : Z) | RComplete.

Definition reactor_act (a : ReactorAct) (s : SubState) : option SubState :=
  match a, r_at s with
  | RPush sqe, Outside =>
      match push_sqe sqe (sx s) with
      | Ok (x, _) => Some (mkSub x Outside (flag_view s) (token s) (token_view s) (t_at s) (t_view s))
      | Panic _ => None
      end
  | RSync, Outside =>
      match sq_poll (io_uring_params (sx s)), ring_sq_len (queue s) with
      | None, S _ =>
          Some (mkSub (set_ring (ring_sync (queue s)) (sx s)) Synced (flag_view s) (token s) (token_view s) (t_at s) (t_view s))
      | _, _ => None
      end
  | RFlag, Synced =>
      Some (mkSub (signal_thread (sx s)) Flagged (published (queue s)) (token s) (token_view s) (t_at s) (t_view s))
  | RUnpark now, Flagged =>
      Some (mkSub (set_last_submit now (sx s)) Outside (flag_view s) true (published (queue s)) (t_at s) (t_view s))
  | RComplete, Outside =>
      let (r, cqes) := ring_completion (queue s) in
      match complete_loop cqes (set_ring r (sx s)) with
      | Ok (x, _) => Some (mkSub x Outside (flag_view s) (token s) (token_view s) (t_at s) (t_view s))
      | Panic _ => None
      end
  | _, _ => None
  end.

(** ** The thread *)

(** Its next step; [e] is the answer of the kernel, and [spurious] whether [park] returns
    without a token, which it may. *)
Definition thread_step (spurious : bool) (e : E) (s : SubState) : option SubState :=
  match t_at s with
  | AtSwap =>
      if flag s
      then Some (mkSub (set_submit_thread false (sx s)) (r_at s) (flag_view s) (token s) (token_view s) AtEnter
                   (Nat.max (t_view s) (flag_view s)))
      else Some (mkSub (set_submit_thread false (sx s)) (r_at s) (flag_view s) (token s) (token_view s)
                   (if spin th then AtSwap else AtPark) (t_view s))
  | AtPark =>
      if token s
      then Some (mkSub (sx s) (r_at s) (flag_view s) false (token_view s) AtSwap (Nat.max (t_view s) (token_view s)))
      else if spurious
      then Some (mkSub (sx s) (r_at s) (flag_view s) false (token_view s) AtSwap (t_view s))
      else None
  | AtEnter =>
      Some (mkSub (set_ring (io_uring_enter (entries th) (t_view s) e (queue s)) (sx s)) (r_at s) (flag_view s) (token s)
              (token_view s) AtSwap (t_view s))
  end.

(** ** Runs *)

Inductive SubEvent : Type := OfReactor (a : ReactorAct) | OfThread (spurious : bool) (e : E).

Definition sub_step (ev : SubEvent) (s : SubState) : option SubState :=
  match ev with OfReactor a => reactor_act a s | OfThread sp e => thread_step sp e s end.

Fixpoint sub_run (evs : list SubEvent) (s : SubState) : option SubState :=
  match evs with [] => Some s | ev :: evs => s ← sub_step ev s; sub_run evs s end.

(** The state the thread starts in: the flag is down and nothing was pushed. *)
Definition sub_start (x : IoUringReactor R) : SubState := mkSub x Outside 0 false 0 AtSwap 0.

(** The thread entered the kernel and was given everything it asked for, up to the tail it
    had seen. *)
Definition served (s s' : SubState) : bool :=
  match t_at s with
  | AtEnter => Nat.min (consumed (queue s) + entries th) (t_view s) <=? consumed (queue s')
  | _ => true
  end.

(** Every entry of a run of the thread is served. *)
Fixpoint all_served (evs : list SubEvent) (s : SubState) : bool :=
  match evs with
  | [] => true
  | ev :: evs =>
      match sub_step ev s with
      | Some s' => (match ev with OfThread _ _ => served s s' | OfReactor _ => true end) && all_served evs s'
      | None => true
      end
  end.

Definition thread_steps (evs : list SubEvent) : nat :=
  length (filter (fun ev => match ev with OfThread _ _ => true | OfReactor _ => false end = true) evs).

(** * Facts *)

Implicit Types (s : SubState) (x : IoUringReactor R).

Lemma complete_loop_frame cqes x x' ks : complete_loop cqes x = Ok (x', ks) ->
  ring x' = ring x /\ submit_thread x' = submit_thread x /\ io_uring_params x' = io_uring_params x.
Proof.
  revert x x' ks. induction cqes as [|[u res] cqes IH]; intros x x' ks; cbn [complete_loop]; [by intros [= <- _]|].
  destruct (completions x !! u) as [h|]; [|done]. cbv zeta. destruct (hwaker _) as [k|]; [|done].
  destruct (complete_loop cqes _) as [[x1 ks1]|] eqn:Hl; [|done]. intros [= <- _]. apply IH in Hl as (-> & -> & ->). done.
Qed.

Lemma push_sqe_frame sqe x x' h : push_sqe sqe x = Ok (x', h) ->
  ring_push sqe (user_data_counter x) (ring x) = Some (ring x') /\
  submit_thread x' = submit_thread x /\ io_uring_params x' = io_uring_params x.
Proof. unfold push_sqe, expect. destruct (ring_push _ _ _) as [r|]; [|done]. by intros [= <- _]. Qed.

(** A parked thread without a token was told nothing, unless its token is on its way. *)
Record SubInv s : Prop := {
  si_thread : submit_thread (sx s) = Some (flag s);
  si_params : sq_poll (io_uring_params (sx s)) = None;
  si_flag_view : flag_view s <= published (queue s);
  si_token_view : token_view s <= published (queue s);
  si_view : t_view s <= published (queue s);
  si_parked : t_at s = AtPark -> token s = false -> r_at s <> Flagged -> flag s = false
}.

(** What a step leaves of the queue. *)
Lemma sub_step_queue ev s s' : sub_step ev s = Some s' -> let q := queue s in let q' := queue s' in
  sq_entries q' = sq_entries q /\ pushed q <= pushed q' /\ published q <= published q' /\ consumed q <= consumed q'.
Proof.
  unfold queue. destruct ev as [a|sp e]; cbn [sub_step].
  - unfold reactor_act. destruct a as [sqe| | |now|], (r_at s); try done.
    + destruct (push_sqe sqe (sx s)) as [[x h]|] eqn:Hp; [|done]. intros [= <-]. cbn. apply push_sqe_frame in Hp as (Hp & _ & _).
      apply push_law in Hp as (-> & ? & -> & ->). repeat split; lia.
    + destruct (sq_poll _); [done|]. destruct (ring_sq_len (queue s)); [done|]. intros [= <-]. cbn. destruct (sync_law (queue s)) as (-> & -> & -> & ->).
      assert (Ho := sq_order (queue s)). unfold queue in *. repeat split; lia.
    + intros [= <-]. by cbn.
    + intros [= <-]. by cbn.
    + assert (Hl := completion_law (queue s)). destruct (ring_completion _) as [r cqes].
      destruct (complete_loop cqes _) as [[x ks]|] eqn:Hc; [|done]. intros [= <-]. cbn. apply complete_loop_frame in Hc as (-> & _ & _).
      cbn in *. destruct Hl as (-> & -> & -> & ->). unfold queue. repeat split; lia.
  - unfold thread_step. destruct (t_at s).
    + destruct (flag s); intros [= <-]; by cbn.
    + destruct (token s); [|destruct sp; [|done] ]; intros [= <-]; by cbn.
    + intros [= <-]. cbn. destruct (enter_law (entries th) (t_view s) e (queue s)) as (-> & -> & ? & ->). unfold queue in *.
      repeat split; lia.
Qed.

#[local] Ltac fields := split; unfold flag, queue in *; cbn in *.

Lemma sub_step_inv ev s s' : SubInv s -> sub_step ev s = Some s' -> SubInv s'.
Proof.
  intros [I2 I0 I3 I4 I5 I6] Hs. destruct (sub_step_queue ev s s' Hs) as (_ & Q2 & Q3 & Q4).
  assert (Hv : forall v, v <= published (queue s) -> v <= published (queue s')) by (intros; lia).
  destruct ev as [a|sp e]; cbn [sub_step] in Hs.
  - unfold reactor_act in Hs. destruct a as [sqe| | |now|], (r_at s) eqn:Hr; try done.
    + destruct (push_sqe sqe (sx s)) as [[x h]|] eqn:Hp; [|done]. injection Hs as <-.
      apply push_sqe_frame in Hp as (_ & Hp & Hq). fields; rewrite ?Hp, ?Hq; auto.
    + destruct (sq_poll _) eqn:Hq; [done|]. destruct (ring_sq_len (queue s)); [done|]. injection Hs as <-. fields; auto; done.
    + injection Hs as <-. fields; auto; done.
    + injection Hs as <-. fields; auto; done.
    + destruct (ring_completion _) as [r cqes]. destruct (complete_loop cqes _) as [[x ks]|] eqn:Hc; [|done].
      injection Hs as <-. apply complete_loop_frame in Hc as (_ & Hc & Hq). fields; rewrite ?Hc, ?Hq; auto.
  - unfold thread_step in Hs. destruct (t_at s) eqn:Ht.
    + destruct (flag s) eqn:Hf; injection Hs as <-; fields; auto; done || lia.
    + destruct (token s); [|destruct sp; [|done] ]; injection Hs as <-; fields; auto; done || lia.
    + injection Hs as <-. fields; auto; done.
Qed.

Lemma sub_run_inv evs s s' : SubInv s -> sub_run evs s = Some s' -> SubInv s'.
Proof.
  revert s. induction evs as [|ev evs IH]; intros s HI; cbn [sub_run]; [by intros [= <-]|].
  destruct (sub_step ev s) as [s1|] eqn:Hs; [|done]. cbn [mbind option_bind]. apply IH. by eapply sub_step_inv.
Qed.

Lemma sub_start_inv x : submit_thread x = Some false -> sq_poll (io_uring_params x) = None -> SubInv (sub_start x).
Proof. intros Hx Hp. fields; rewrite ?Hx; done || lia. Qed.

(** ** The entries published reach the kernel *)

(** What was published up to [T], which one call can take, was taken, or the thread brings it to
    the kernel, or the flag tells it to. *)
Definition Coming (T : nat) s : Prop :=
  T <= consumed (queue s) + entries th /\
  (T <= consumed (queue s) \/ (t_at s = AtEnter /\ T <= t_view s) \/ (flag s = true /\ T <= flag_view s)).

(** The steps of the thread until then. *)
Definition steps_left (T : nat) s : nat :=
  if T <=? consumed (queue s) then 0
  else match t_at s with AtSwap => 2 | AtPark => 3 | AtEnter => if T <=? t_view s then 1 else 3 end.

Lemma steps_left_taken T s : T <= consumed (queue s) -> steps_left T s = 0.
Proof. intros Ht. unfold steps_left. by destruct (Nat.leb_spec T (consumed (queue s))); [|lia]. Qed.

Lemma steps_left_zero T s : steps_left T s = 0 -> T <= consumed (queue s).
Proof. unfold steps_left. repeat case_match; done || (intros _; by apply Nat.leb_le). Qed.

Lemma coming_reactor T a s s' : reactor_act a s = Some s' -> T <= published (queue s) -> Coming T s ->
  Coming T s' /\ steps_left T s' <= steps_left T s.
Proof.
  intros Hs HT [HE HC]. destruct (sub_step_queue (OfReactor a) s s' Hs) as (_ & _ & _ & Hq).
  assert (Hsame : t_at s' = t_at s /\ t_view s' = t_view s /\
    (flag s' = true /\ T <= flag_view s' \/ flag s' = flag s /\ flag_view s' = flag_view s)).
  { unfold reactor_act in Hs. destruct a as [sqe| | |now|], (r_at s) eqn:Hr; try done.
    + destruct (push_sqe sqe (sx s)) as [[x h]|] eqn:Hp; [|done]. injection Hs as <-. unfold flag. cbn.
      apply push_sqe_frame in Hp as (_ & -> & _). auto.
    + destruct (sq_poll _); [done|]. destruct (ring_sq_len (queue s)); [done|]. injection Hs as <-. cbn. auto.
    + injection Hs as <-. cbn. auto.
    + injection Hs as <-. cbn. auto.
    + destruct (ring_completion _) as [r cqes]. destruct (complete_loop cqes _) as [[x ks]|] eqn:Hc; [|done].
      injection Hs as <-. apply complete_loop_frame in Hc as (_ & Hc & _). unfold flag. cbn. rewrite Hc. auto. }
  destruct Hsame as (Ha & Hv & Hf). split.
  - split; [lia|]. rewrite Ha, Hv. destruct HC as [?|[?|[H1 H2] ] ]; [left; lia|auto|]. right. right.
    destruct Hf as [?|[-> ->] ]; auto.
  - unfold steps_left. rewrite Ha, Hv. destruct (Nat.leb_spec T (consumed (queue s'))); [lia|].
    by destruct (Nat.leb_spec T (consumed (queue s))); [lia|].
Qed.

Lemma coming_thread T sp e s s' : SubInv s -> thread_step sp e s = Some s' -> served s s' = true ->
  T <= pushed (queue s) -> Coming T s -> Coming T s' /\ steps_left T s' <= pred (steps_left T s).
Proof.
  intros HI Hs Hserved HT [HE HC]. destruct (sub_step_queue (OfThread sp e) s s' Hs) as (_ & _ & _ & Hq).
  assert (HE' : T <= consumed (queue s') + entries th) by lia.
  destruct (Nat.le_gt_cases T (consumed (queue s'))) as [Hd|Hd].
  { split; [by split; [|left]|]. rewrite (steps_left_taken T s') by done. lia. }
  unfold thread_step in Hs. unfold served in Hserved.
  unfold steps_left. destruct (Nat.leb_spec T (consumed (queue s'))); [lia|]. destruct (Nat.leb_spec T (consumed (queue s))); [lia|].
  destruct HC as [?|HC]; [lia|]. destruct (t_at s) eqn:Ht.
  - destruct HC as [ [? _]|[Hf Hv] ]; [done|]. rewrite Hf in Hs. injection Hs as <-. cbn [t_at t_view].
    split; [split; [done|right; left; cbn; split; [done|lia] ]|]. by destruct (Nat.leb_spec T (t_view s `max` flag_view s)); lia.
  - destruct HC as [ [? _]|HC]; [done|]. split.
    + split; [done|]. right. right. destruct (token s); [|destruct sp; [|done] ]; by injection Hs as <-.
    + destruct (token s); [|destruct sp; [|done] ]; injection Hs as <-; cbn; lia.
  - apply Nat.leb_le in Hserved. injection Hs as <-. cbn [t_at]. destruct (Nat.leb_spec T (t_view s)); [lia|].
    destruct HC as [ [_ ?]|HC]; [lia|]. split; [split; [done|by right; right]|lia].
Qed.

(** What was synced stays published until the flag is set. *)
Lemma synced_step ev s s' : (r_at s = Synced -> published (queue s) = pushed (queue s)) -> sub_step ev s = Some s' ->
  r_at s' = Synced -> published (queue s') = pushed (queue s').
Proof.
  intros HI Hs. destruct ev as [a|sp e]; cbn [sub_step] in Hs.
  - unfold reactor_act in Hs. destruct a as [sqe| | |now|], (r_at s) eqn:Hr; try done.
    + destruct (push_sqe sqe (sx s)) as [[x h]|]; [|done]. by injection Hs as <-.
    + destruct (sq_poll _); [done|]. destruct (ring_sq_len (queue s)); [done|]. injection Hs as <-. intros _.
      unfold queue. cbn. by destruct (sync_law (ring (sx s))) as (-> & -> & _).
    + by injection Hs as <-.
    + by injection Hs as <-.
    + destruct (ring_completion _) as [r cqes]. destruct (complete_loop cqes _) as [[x ks]|]; [|done]. by injection Hs as <-.
  - unfold thread_step, queue in *. destruct (t_at s).
    + by destruct (flag s); injection Hs as <-.
    + by destruct (token s); [|destruct sp; [|done] ]; injection Hs as <-.
    + injection Hs as <-. cbn. destruct (enter_law (entries th) (t_view s) e (ring (sx s))) as (-> & -> & _). exact HI.
Qed.

Lemma synced_run evs s s' : (r_at s = Synced -> published (queue s) = pushed (queue s)) -> sub_run evs s = Some s' ->
  r_at s' = Synced -> published (queue s') = pushed (queue s').
Proof.
  revert s. induction evs as [|ev evs IH]; intros s HI; cbn [sub_run]; [by intros [= <-]|].
  destruct (sub_step ev s) as [s1|] eqn:Hs; [|done]. cbn [mbind option_bind]. apply IH. by eapply synced_step.
Qed.

Lemma coming_run T evs s s' : SubInv s -> sub_run evs s = Some s' -> all_served evs s = true ->
  T <= published (queue s) -> Coming T s -> Coming T s' /\ steps_left T s' <= steps_left T s - thread_steps evs.
Proof.
  revert s. induction evs as [|ev evs IH]; intros s HI Hs Ha HT HC; cbn [sub_run] in Hs.
  { injection Hs as <-. split; [done|]. cbn. lia. }
  cbn [all_served] in Ha. destruct (sub_step ev s) as [s1|] eqn:Hs1; [|done]. cbn [mbind option_bind] in Hs.
  apply andb_true_iff in Ha as [Hserved Ha]. assert (HI1 := sub_step_inv ev s s1 HI Hs1).
  destruct (sub_step_queue ev s s1 Hs1) as (_ & _ & Hp & _). assert (Ho := sq_order (queue s)).
  assert (Hone : Coming T s1 /\ steps_left T s1 <= steps_left T s - thread_steps [ev]).
  { destruct ev as [a|sp e]; cbn [sub_step] in Hs1.
    - destruct (coming_reactor T a s s1 Hs1 HT HC). split; [done|]. change (thread_steps _) with 0. lia.
    - destruct (coming_thread T sp e s s1 HI Hs1 Hserved ltac:(lia) HC). split; [done|]. change (thread_steps _) with 1. lia. }
  destruct Hone as [HC1 Hl]. destruct (IH s1 HI1 Hs Ha ltac:(lia) HC1) as [HC' Hl']. split; [done|].
  assert (Hsum : thread_steps (ev :: evs) = thread_steps [ev] + thread_steps evs).
  { unfold thread_steps. change (ev :: evs) with ([ev] ++ evs). by rewrite filter_app, length_app. }
  lia.
Qed.

(** The thread is not blocked while something is coming. *)
Lemma coming_enabled T s e : SubInv s -> Coming T s -> consumed (queue s) < T -> r_at s <> Flagged ->
  exists s', thread_step false e s = Some s'.
Proof.
  intros HI [_ HC] Ht Hr. unfold thread_step. destruct (t_at s) eqn:Hat; [destruct (flag s); by eexists| |by eexists].
  destruct (token s) eqn:Htok; [by eexists|exfalso]. assert (Hf := si_parked _ HI Hat Htok Hr).
  destruct HC as [?|[ [? _]|[? _] ] ]; [lia|congruence..].
Qed.

(** The actions of the reactor are what [poll_submit] does with a thread. *)
Lemma poll_submit_acts now s b x' : r_at s = Outside -> sq_poll (io_uring_params (sx s)) = None ->
  submit_thread (sx s) = Some b -> ring_sq_len (queue s) <> 0 -> poll_submit now (sx s) = Ok x' ->
  exists s', sub_run [OfReactor RSync; OfReactor RFlag; OfReactor (RUnpark now)] s = Some s' /\
    sx s' = x' /\ r_at s' = Outside /\ token s' = true /\ flag s' = true.
Proof.
  intros Hr Hp Hb Hl. unfold poll_submit. rewrite Hp, Hb. unfold queue in Hl. destruct (Nat.eqb_spec (ring_sq_len (ring (sx s))) 0); [done|].
  cbn [negb mbind outcome_bind mret outcome_ret]. intros [= <-]. cbn [sub_run sub_step reactor_act]. rewrite Hr, Hp. unfold queue.
  destruct (ring_sq_len (ring (sx s))); [done|]. cbn. eexists. split; [done|]. by cbn.
Qed.

(** While the kernel has not taken everything, a poll of the reactor signals again. *)
Lemma pending_signals s : SubInv s -> r_at s = Outside -> consumed (queue s) < pushed (queue s) ->
  exists s', reactor_act RSync s = Some s'.
Proof.
  intros HI Hr Hc. assert (Hl := sq_len_law (queue s)). cbn. rewrite Hr, (si_params _ HI).
  destruct (ring_sq_len (queue s)); [lia|by eexists].
Qed.

Lemma build_thread (o : UringOs) b cell cell' x : build o b cell = Ok (cell', x) -> bsq_poll b = None ->
  enabled_by_env (os_getenv o) = true -> submit_thread x = Some false /\ sq_poll (io_uring_params x) = None.
Proof.
  unfold build. intros Hb Hp He. rewrite Hp, He in Hb. inv_Ok. destruct (uring_init _ _) as [c [u|m] ]; [|done].
  by injection Hb as _ <-.
Qed.

(** The state after the flag was set. *)
Lemma flagged_coming s s1 T : SubInv s -> (r_at s = Synced -> published (queue s) = pushed (queue s)) ->
  reactor_act RFlag s = Some s1 -> T <= pushed (queue s) -> T <= consumed (queue s) + entries th ->
  SubInv s1 /\ Coming T s1 /\ T <= published (queue s1).
Proof.
  intros HI Hsync Hs HT HE. split; [by apply (sub_step_inv (OfReactor RFlag) s)|]. cbn in Hs. destruct (r_at s); [done| |done].
  injection Hs as <-. rewrite <- Hsync in HT by done. split; [|done]. split; [done|]. right. right. by cbn.
Qed.
End thread.

(** [SubmitThread::spawn]. *)
Definition SubmitThread_spawn (getenv : string -> option string) (sq_entries : nat) : SpawnedThread :=
  mkThread (submit_spin getenv) sq_entries.

(** [build] with the thread enabled; the thread is given the size the builder asks for. *)
Definition build_spawned {Sqe R} `{Ring Sqe R} (o : UringOs) (b : IoUringReactorBuilder) (cell : option (IoUringReactor R)) :
    outcome (option (IoUringReactor R) * (SpawnedThread * SubState)) :=
  '(cell, x) ← build o b cell;
  mret (cell, (SubmitThread_spawn (os_getenv o) (Z.to_nat (queue_size b)), sub_start x)).

(** * Properties *)

(** C15. The submission thread loses nothing.  Take a reactor built with the thread enabled,
    any run of the two, and the moment the reactor has set the flag in a poll.  One call
    of the thread takes at most as many entries as the builder asked for, so what this
    signal can bring to the kernel ends at [T]: all that had been pushed, or that many
    entries more than had been taken.  Whatever the two do after that, and whatever each
    sees of the tail: when every call of the thread is served and it has made three steps,
    the kernel has taken every entry up to [T]; until then, once the reactor has unparked
    it, the thread can always make a step, so it never sleeps through a signal.  On a ring of
    at most the size asked for, [T] is everything pushed.  On a larger one (the kernel
    rounds the size up), and when a call fails, the rest is made good: as long as the
    kernel has not taken everything, the next poll signals again. *)
Theorem submissions_reach_kernel {Sqe R E} `{SharedQueue Sqe R E} (o : UringOs) b cell cell' th start evs0 s0 s1 evs s :
  build_spawned o b cell = Ok (cell', (th, start)) -> bsq_poll b = None -> enabled_by_env (os_getenv o) = true ->
  sub_run th evs0 start = Some s0 -> reactor_act RFlag s0 = Some s1 -> sub_run th evs s1 = Some s ->
  let T := Nat.min (pushed (queue s0)) (consumed (queue s0) + Z.to_nat (queue_size b)) in
  (all_served th evs s1 = true ->
     (3 <= thread_steps evs -> T <= consumed (queue s)) /\
     (consumed (queue s) < T -> r_at s <> Flagged -> forall e, exists s', thread_step th false e s = Some s')) /\
  (sq_entries (queue s0) <= Z.to_nat (queue_size b) -> T = pushed (queue s0)) /\
  (r_at s = Outside -> consumed (queue s) < pushed (queue s) -> exists s', reactor_act RSync s = Some s').
Proof.
  intros Hb Hp He H0' H1 Hs T. unfold build_spawned in Hb. apply bind_Ok in Hb as ([c x] & Hb & Hth). injection Hth as _ <- <-.
  set (th := SubmitThread_spawn _ _) in *. destruct (build_thread o b cell c x Hb Hp He) as [Hx Hq].
  assert (HI0 : SubInv s0) by (eapply sub_run_inv; [by apply sub_start_inv|exact H0']).
  assert (Hsync : r_at s0 = Synced -> published (queue s0) = pushed (queue s0)) by (eapply synced_run; [|exact H0']; done).
  destruct (flagged_coming th s0 s1 T HI0 Hsync H1) as (HI1 & HC1 & Hle); [unfold T; cbn; lia..|].
  assert (HI : SubInv s) by by eapply sub_run_inv. split; [|split].
  - intros Ha. destruct (coming_run th _ evs s1 s HI1 Hs Ha Hle HC1) as [HC Hl]. split.
    + intros H3. apply steps_left_zero. assert (steps_left T s1 <= 3) by (unfold steps_left; repeat case_match; lia). lia.
    + intros Hlt Hr e. by eapply coming_enabled.
  - intros Hsize. assert (Hroom := sq_room (queue s0)). unfold T. lia.
  - by apply pending_signals.
Qed.

(** ** A queue that counts *)

(** Entries taken, published and not taken, pushed and not published, and free places. *)
Module CountQueue.
Record t : Type := mk { taken : nat; shown : nat; hidden : nat; free : nat; ids : list Z }.
Definition push (u : Z) (r : t) : option t :=
  match free r with O => None | S f => Some (mk (taken r) (shown r) (S (hidden r)) f (u :: ids r)) end.
Definition sync (r : t) : t := mk (taken r) (shown r + hidden r) 0 (free r) (ids r).
Definition take (n : nat) (r : t) : t :=
  let k := Nat.min n (shown r) in mk (taken r + k) (shown r - k) (hidden r) (free r + k) (ids r).
Definition submit (r : t) : t := take (shown r + hidden r) (sync r).
End CountQueue.

#[export] Instance count_ring : Ring Z CountQueue.t.
Proof.
  refine {| ring_push _ u r := CountQueue.push u r; ring_sq_len r := CountQueue.shown r + CountQueue.hidden r;
    ring_need_wakeup _ := false; ring_submit r := Some (CountQueue.submit r); ring_sync := CountQueue.sync;
    ring_completion r := (r, []); ring_submit_and_wait _ r := Some (CountQueue.submit r);
    ring_inflight := CountQueue.ids |}; try done.
  - intros _ u r r'. unfold CountQueue.push. case_match; [done|]. by intros [= <-].
  - by intros r r' [= <-].
  - by intros _ r r' [= <-].
Defined.

(** A call fails when told to, and else takes what it is asked for. *)
#[export] Instance count_queue : SharedQueue Z CountQueue.t bool.
Proof.
  refine {| sq_entries r := CountQueue.shown r + CountQueue.hidden r + CountQueue.free r;
    pushed r := CountQueue.taken r + CountQueue.shown r + CountQueue.hidden r;
    published r := CountQueue.taken r + CountQueue.shown r; consumed := CountQueue.taken;
    io_uring_enter n _ fails r := if fails : bool then r else CountQueue.take n r |}; cbn; try (intros; lia).
  - intros _ u r r'. unfold CountQueue.push. destruct (CountQueue.free r) eqn:Hf; [done|]. intros [= <-]. cbn. lia.
  - intros n _ [|] r; cbn; lia.
Defined.

(** What [build] finds: [size] is the size the kernel gives the ring. *)
Definition thread_os (size : nat) (v : string) : @UringOs CountQueue.t :=
  mkUringOs (fun _ _ => Some (CountQueue.mk 0 0 0 size [])) 4096 (fun _ => true) 0
    (fun n => if bool_decide (n = "PLUVIO_URING_SUBMIT_THREAD"%string) then Some v else None).
Definition thread_builder (n : Z) : IoUringReactorBuilder := with_buffer_size 8 (with_queue_size n Builder_new).
Definition thread_built (size : nat) (n : Z) : outcome (SpawnedThread * SubState) :=
  '(_, ts) ← build_spawned (thread_os size "1") (thread_builder n) None; mret ts.

(** The thread parks before the flag is set. *)
Definition before_flag : list (SubEvent (Sqe := Z) (E := bool)) :=
  [OfReactor (RPush 7%Z); OfThread false false; OfReactor RSync].
Definition after_flag : list (SubEvent (Sqe := Z) (E := bool)) :=
  [OfReactor (RUnpark 5%Z); OfThread false false; OfThread false false; OfThread false false].

Lemma submissions_reach_kernel_witness : exists th start s0 s1 s,
  thread_built 4 4 = Ok (th, start) /\ sub_run th before_flag start = Some s0 /\ reactor_act RFlag s0 = Some s1 /\
  sub_run th after_flag s1 = Some s /\ pushed (queue s0) = 1 /\ 1 <= consumed (queue s).
Proof.
  assert (Hx : exists c th start s0 s1 s, build_spawned (thread_os 4 "1") (thread_builder 4) None = Ok (c, (th, start)) /\
    sub_run th before_flag start = Some s0 /\ reactor_act RFlag s0 = Some s1 /\
    sub_run th after_flag s1 = Some s /\ pushed (queue s0) = 1 /\ sq_entries (queue s0) = 4 /\ all_served th after_flag s1 = true).
  { do 6 eexists. do 6 (split; [vm_compute; reflexivity|]). vm_compute. reflexivity. }
  destruct Hx as (c & th & start & s0 & s1 & s & Hb & H0 & H1 & Hs & Hp & Hsz & Ha). exists th, start, s0, s1, s.
  split; [unfold thread_built; by rewrite Hb|]. do 4 (split; [done|]).
  destruct (submissions_reach_kernel (thread_os 4 "1") (thread_builder 4) None c th start before_flag s0 s1 after_flag s Hb)
    as (Hr & HT & _); [reflexivity|reflexivity|exact H0|exact H1|exact Hs|].
  destruct (Hr Ha) as [Hr3 _]. rewrite <- Hp, <- HT by (rewrite Hsz; vm_compute; lia). apply Hr3. vm_compute. lia.
Defined.

(** The kernel makes the ring a power of two; a thread that was given the size asked for
    does not drain a larger one.  The next poll finds the rest and signals again. *)
Example larger_ring_is_not_drained : exists th start s,
  thread_built 4 3 = Ok (th, start) /\
  sub_run th (replicate 4 (OfReactor (RPush 7%Z)) ++ map OfReactor [RSync; RFlag; RUnpark 1%Z] ++ replicate 2 (OfThread false false))
    start = Some s /\
  pushed (queue s) = 4 /\ consumed (queue s) = 3 /\ is_Some (reactor_act RSync s).
Proof. do 3 eexists. do 4 (split; [vm_compute; reflexivity|]). vm_compute. by eexists. Qed.
