(* ===== verification/UringIo.v ===== *)
(** * UringIo: files and datagram sockets on the ring
    ([pluvio_uring/src/file.rs], [socket.rs])

    An operation builds one submission entry, pushes it and waits for its
    completion.  The operations of [DmaFile] are [async fn]s: nothing happens
    before the first poll, which pushes and waits.  [send_to] and [recv_from] are
    plain functions: they push when called.  The memory the kernel fills (the
    statx record, the source address of a datagram) is an argument of the poll
    that reads it. *)

From S2P Require Import Prelude Future Executor UringAlloc UringReactor.
Local Open Scope Z_scope.

(** ** Errors *)

Inductive ErrorKind : Type := InvalidInput | InvalidData.
(** [io::Error]: from an errno, or of a kind with a message. *)
Inductive IoError : Type :=
| OsError (errno : Z)
| KindError (kind : ErrorKind) (msg : string).

Definition os_result {A} (f : Z -> A) (r : result Z Z) : result A IoError :=
  match r with ROk n => ROk (f n) | RErr e => RErr (OsError e) end.

(** ** Internet addresses *)

(** Native integers in memory, on a little-endian target or not. *)
Section endian.
Context (little : bool).

Definition mem_bytes (n : nat) (z : Z) : list Z :=
  if little then le_bytes n z else rev (le_bytes n z).
(** [swap_bytes], [to_be] and [from_be] of an [n]-byte integer. *)
Definition swap_bytes (n : nat) (z : Z) : Z := of_le_bytes (rev (le_bytes n z)).
Definition to_be (n : nat) (z : Z) : Z := if little then swap_bytes n z else z.
Definition from_be (n : nat) (z : Z) : Z := if little then swap_bytes n z else z.
(** [u32::from_be_bytes]; [Ipv4Addr::from] of a [u32] is its inverse. *)
Definition from_be_bytes (bs : list Z) : Z := of_le_bytes (rev bs).
Definition Ipv4_from_u32 (z : Z) : list Z := rev (le_bytes 4 z).

Record SocketAddrV4 : Type := mkAddr { octets : list Z; port : Z }.
Record sockaddr_in : Type := mkSin { sin_family : Z; sin_port : Z; s_addr : Z }.

Definition AF_INET : Z := 2.

Definition sockaddr_in_from_v4 (a : SocketAddrV4) : sockaddr_in :=
  mkSin AF_INET (to_be 2 (port a)) (to_be 4 (from_be_bytes (octets a))).

Definition sockaddr_in_to_v4 (sin : sockaddr_in) : SocketAddrV4 :=
  mkAddr (Ipv4_from_u32 (from_be 4 (s_addr sin))) (from_be 2 (sin_port sin)).
End endian.

(** ** Submission entries *)

Definition AT_FDCWD : Z := -100.

Inductive Entry : Type :=
| ERead (fd len offset : Z)
| EWrite (fd : Z) (buf : list Z) (len offset : Z)
| EReadFixed (fd len buf_index offset : Z)
| EWriteFixed (fd len buf_index offset : Z)
| EFallocate (fd size : Z)
| EFsync (fd : Z)
| EOpenAt (dirfd : Z) (path : string) (flags mode : Z)
| EClose (fd : Z)
| EStatx (dirfd : Z) (path : string) (flags mask : Z)
| ESendMsg (fd : Z) (name : sockaddr_in) (iov : list Z)
| ERecvMsg (fd : Z) (iov_len : Z).

Record DmaFile : Type := mkFile { ffd : Z }.

(** The entries of the operations of [DmaFile]. *)
Definition read_entry (f : DmaFile) (buffer : list Z) (offset : Z) : Entry :=
  ERead (ffd f) (wrap32 (Z.of_nat (length buffer))) offset.
Definition write_entry (f : DmaFile) (buffer : list Z) (offset : Z) : Entry :=
  EWrite (ffd f) buffer (wrap32 (Z.of_nat (length buffer))) offset.
Definition read_fixed_entry (f : DmaFile) (b : FixedBuffer) (offset len : Z) : Entry :=
  EReadFixed (ffd f) len (wrap16 (Z.of_nat (buf_index b))) offset.
Definition write_fixed_entry (f : DmaFile) (b : FixedBuffer) (offset len : Z) : Entry :=
  EWriteFixed (ffd f) len (wrap16 (Z.of_nat (buf_index b))) offset.
Definition write_fixed_raw_entry (f : DmaFile) (offset len buf_index : Z) : Entry :=
  EWriteFixed (ffd f) len buf_index offset.
Definition read_fixed_raw_entry (f : DmaFile) (offset len buf_index : Z) : Entry :=
  EReadFixed (ffd f) len buf_index offset.
Definition fallocate_entry (f : DmaFile) (size : Z) : Entry := EFallocate (ffd f) size.
Definition fsync_entry (f : DmaFile) : Entry := EFsync (ffd f).
Definition close_entry (f : DmaFile) : Entry := EClose (ffd f).

(** [CString::new] refuses a path with a NUL byte. *)
Fixpoint has_nul (s : string) : bool :=
  match s with
  | EmptyString => false
  | String c s => (Ascii.nat_of_ascii c =? 0)%nat || has_nul s
  end.
Definition CString_new (path : string) : result string IoError :=
  if has_nul path then RErr (KindError InvalidInput "path contains null byte") else ROk path.

Section ops.
Context {R : Type} `{Ring Entry R}.
Implicit Types (x : IoUringReactor R) (k : Waker).

(** ** The future of one operation *)

(** [reactor.push_sqe(sqe).await] inside an [async fn]: not started, waiting,
    finished. *)
Inductive SqeFuture : Type :=
| SqeStart (sqe : Entry)
| SqeWait (h : nat)
| SqeDone.

Definition SqeFuture_poll k (f : SqeFuture) x : outcome (IoUringReactor R * SqeFuture * Poll (result Z Z)) :=
  match f with
  | SqeStart sqe =>
      '(x, h) ← push_sqe sqe x;
      let (x, p) := WaitHandle_poll k h x in
      mret (x, match p with Ready _ => SqeDone | Pending => SqeWait h end, p)
  | SqeWait h =>
      let (x, p) := WaitHandle_poll k h x in
      mret (x, match p with Ready _ => SqeDone | Pending => SqeWait h end, p)
  | SqeDone => Panic "`async fn` resumed after completion"
  end.

(** [read], [write], [write_fixed_raw], [read_fixed_raw], [fallocate], [fsync] and
    [close] are this future over their entry. *)
Definition DmaFile_read (f : DmaFile) (buffer : list Z) (offset : Z) : SqeFuture :=
  SqeStart (read_entry f buffer offset).
Definition DmaFile_write (f : DmaFile) (buffer : list Z) (offset : Z) : SqeFuture :=
  SqeStart (write_entry f buffer offset).
Definition DmaFile_write_fixed_raw (f : DmaFile) (offset len buf_index : Z) : SqeFuture :=
  SqeStart (write_fixed_raw_entry f offset len buf_index).
Definition DmaFile_read_fixed_raw (f : DmaFile) (offset len buf_index : Z) : SqeFuture :=
  SqeStart (read_fixed_raw_entry f offset len buf_index).
Definition DmaFile_fallocate (f : DmaFile) (size : Z) : SqeFuture := SqeStart (fallocate_entry f size).
Definition DmaFile_fsync (f : DmaFile) : SqeFuture := SqeStart (fsync_entry f).
Definition DmaFile_close (f : DmaFile) : SqeFuture := SqeStart (close_entry f).

(** ** Fixed buffers: the future owns the buffer *)

Record FixedFuture : Type := mkFixed { fx_len : Z; fx_buffer : FixedBuffer; fx_sqe : SqeFuture }.

Definition DmaFile_read_fixed (f : DmaFile) (b : FixedBuffer) (offset len : Z) : FixedFuture :=
  mkFixed len b (SqeStart (read_fixed_entry f b offset len)).
Definition DmaFile_write_fixed (f : DmaFile) (b : FixedBuffer) (offset len : Z) : FixedFuture :=
  mkFixed len b (SqeStart (write_fixed_entry f b offset len)).

Definition set_allocator (a : FixedBufferAllocator) x : IoUringReactor R :=
  mkUring (ring x) (completions x) (handles x) (next_handle x) (user_data_counter x) a
    (last_submit_time x) (io_uring_params x) (completed_count x) (submit_thread x).

(** On success the buffer goes back to the caller; an error drops it, which returns
    it to the pool and may wake a waiter.  [debug] is whether debug assertions are
    compiled in. *)
Definition FixedFuture_poll (debug : bool) k (f : FixedFuture) x :
    outcome (IoUringReactor R * FixedFuture * Poll (result (Z * FixedBuffer) IoError) * option Waker) :=
  match fx_sqe f with
  | SqeStart _ =>
      if debug && negb (fx_len f <=? Z.of_nat (buf_len (fx_buffer f)))
      then Panic "fixed len must be <= buffer.len()"
      else mret tt
  | _ => mret tt
  end ;;
  '(x, s, p) ← SqeFuture_poll k (fx_sqe f) x;
  match p with
  | Pending => mret (x, mkFixed (fx_len f) (fx_buffer f) s, Pending, None)
  | Ready (ROk n) => mret (x, mkFixed (fx_len f) None s, Ready (ROk (n, fx_buffer f)), None)
  | Ready (RErr e) =>
      let (a, w) := FixedBuffer_drop (fx_buffer f) (allocator x) in
      mret (set_allocator a x, mkFixed (fx_len f) None s, Ready (RErr (OsError e)), w)
  end.

(** [IoUringReactor::acquire_buffer] and [DmaFile::acquire_buffer]: the future of the
    allocator's [acquire]. *)
Definition acquire_buffer_poll k (f : AcquireFuture) x :
    outcome (IoUringReactor R * AcquireFuture * Poll FixedBuffer) :=
  '(a, f, p) ← acquire_poll k f (allocator x);
  mret (set_allocator a x, f, p).

(** ** Paths *)

Inductive PathFuture : Type :=
| PathStart (path : string) (entry : string -> Entry)
| PathWait (f : SqeFuture)
| PathDone.

Definition open_with_reactor (path : string) (flags mode : Z) : PathFuture :=
  PathStart path (fun p => EOpenAt AT_FDCWD p flags mode).
Definition statx_path_with_reactor (path : string) (flags mask : Z) : PathFuture :=
  PathStart path (fun p => EStatx AT_FDCWD p flags mask).

(** [ok n]: what the function makes of a successful completion. *)
Definition PathFuture_poll {A} (ok : Z -> A) k (f : PathFuture) x :
    outcome (IoUringReactor R * PathFuture * Poll (result A IoError)) :=
  let wait s x :=
    '(x, s, p) ← SqeFuture_poll k s x;
    mret (x, match p with Pending => PathWait s | Ready _ => PathDone end, os_result ok <$> p) in
  match f with
  | PathStart path entry =>
      match CString_new path with
      | RErr e => mret (x, PathDone, Ready (RErr e))
      | ROk p => wait (SqeStart (entry p)) x
      end
  | PathWait s => wait s x
  | PathDone => Panic "`async fn` resumed after completion"
  end.

Definition open_poll k (f : PathFuture) x : outcome (IoUringReactor R * PathFuture * Poll (result DmaFile IoError)) :=
  PathFuture_poll mkFile k f x.
(** [filled]: the record the kernel wrote. *)
Definition statx_poll {St} (filled : St) k (f : PathFuture) x :
    outcome (IoUringReactor R * PathFuture * Poll (result St IoError)) :=
  PathFuture_poll (fun _ => filled) k f x.

(** ** The reactor of the thread *)

(** The forms without a reactor take the one [get_or_init] returns, which is the one
    of the cell: [cell] is both the cell and, once it is set, the reactor. *)
Definition DmaFile_new (o : UringOs) (fd : Z) (cell : option (IoUringReactor R)) :
    outcome (option (IoUringReactor R) * DmaFile) :=
  '(cell, _) ← get_or_init o cell; mret (cell, mkFile fd).

(** [open] and [statx_path] are [async fn]s: the reactor is looked up by the first
    poll. *)
Inductive ThreadFuture : Type :=
| ThreadStart (f : PathFuture)
| ThreadWait (f : PathFuture).

Definition DmaFile_open (path : string) (flags mode : Z) : ThreadFuture :=
  ThreadStart (open_with_reactor path flags mode).
Definition statx_path (path : string) (flags mask : Z) : ThreadFuture :=
  ThreadStart (statx_path_with_reactor path flags mask).

(** A future that has been polled holds the reactor, so the cell is set. *)
Definition ThreadFuture_poll {A} (poll : PathFuture -> IoUringReactor R -> outcome (IoUringReactor R * PathFuture * Poll A))
    (o : UringOs) (f : ThreadFuture) (cell : option (IoUringReactor R)) :
    outcome (option (IoUringReactor R) * ThreadFuture * Poll A) :=
  '(x, f) ← match f, cell with
            | ThreadStart f, _ => '(_, x) ← get_or_init o cell; mret (x, f)
            | ThreadWait f, Some x => mret (x, f)
            | ThreadWait _, None => Panic "no reactor"
            end;
  '(x, f, p) ← poll f x;
  mret (Some x, ThreadWait f, p).

Definition thread_open_poll (o : UringOs) k (f : ThreadFuture) (cell : option (IoUringReactor R)) :
    outcome (option (IoUringReactor R) * ThreadFuture * Poll (result DmaFile IoError)) :=
  ThreadFuture_poll (open_poll k) o f cell.
Definition thread_statx_poll {St} (filled : St) (o : UringOs) k (f : ThreadFuture) (cell : option (IoUringReactor R)) :
    outcome (option (IoUringReactor R) * ThreadFuture * Poll (result St IoError)) :=
  ThreadFuture_poll (statx_poll filled k) o f cell.

(** ** Datagrams *)

Record UdpSocket : Type := mkUdp { ufd : Z; ulocal : SocketAddrV4 }.

Definition local_addr (s : UdpSocket) : SocketAddrV4 := ulocal s.
Definition as_raw_fd (s : UdpSocket) : Z := ufd s.

Definition UdpSocket_send_to (little : bool) (s : UdpSocket) (buf : list Z) (peer : SocketAddrV4) x :
    outcome (IoUringReactor R * nat) :=
  push_sqe (ESendMsg (ufd s) (sockaddr_in_from_v4 little peer) buf) x.
Definition UdpSocket_recv_from (s : UdpSocket) (len : Z) x : outcome (IoUringReactor R * nat) :=
  push_sqe (ERecvMsg (ufd s) len) x.

(** [n as usize]. *)
Definition as_usize (n : Z) : Z := wrap64 n.

Definition SendToFuture_poll k (h : nat) x : IoUringReactor R * Poll (result Z IoError) :=
  let (x, p) := WaitHandle_poll k h x in (x, os_result as_usize <$> p).

(** [sin]: the source address the kernel wrote. *)
Definition RecvFromFuture_poll (little : bool) (sin : sockaddr_in) k (h : nat) x :
    IoUringReactor R * Poll (result (Z * SocketAddrV4) IoError) :=
  let (x, p) := WaitHandle_poll k h x in
  (x, (fun r => match r with
       | RErr e => RErr (OsError e)
       | ROk n =>
           if sin_family sin =? AF_INET
           then ROk (as_usize n, sockaddr_in_to_v4 little sin)
           else RErr (KindError InvalidData "non-IPv4 sender")
       end) <$> p).
End ops.

(** ** Opening a socket *)

Definition SOCK_DGRAM : Z := 2.
Definition SOL_SOCKET : Z := 1.
Definition SO_REUSEADDR : Z := 2.

(** The system calls: [socket], [setsockopt], [bind] and [getsockname] return a
    status and leave [errno] behind; only [socket] opens a descriptor. *)
Class SocketOs (S : Type) := {
  sys_socket : Z -> Z -> Z -> S -> S * Z;
  sys_setsockopt : Z -> Z -> Z -> Z -> S -> S * Z;
  sys_bind : Z -> sockaddr_in -> S -> S * Z;
  sys_getsockname : Z -> S -> S * Z * sockaddr_in;
  sys_close : Z -> S -> S;
  sys_errno : S -> Z;
  open_fds : S -> gset Z;
  sys_socket_fds d t p s : let (s', fd) := sys_socket d t p s in
    open_fds s' = (if fd <? 0 then open_fds s else {[fd]} ∪ open_fds s) /\ (0 <= fd -> fd ∉ open_fds s);
  sys_setsockopt_fds fd l o v s : open_fds (sys_setsockopt fd l o v s).1 = open_fds s;
  sys_bind_fds fd a s : open_fds (sys_bind fd a s).1 = open_fds s;
  sys_getsockname_fds fd s : open_fds (sys_getsockname fd s).1.1 = open_fds s;
  sys_close_fds fd s : open_fds (sys_close fd s) = open_fds s ∖ {[fd]}
}.

Section bind.
Context {S : Type} `{SocketOs S} (little : bool).
Implicit Types s : S.

Definition read_local_addr (fd : Z) s : S * result SocketAddrV4 IoError :=
  let '(s, rc, sin) := sys_getsockname fd s in
  (s, if rc =? 0 then ROk (sockaddr_in_to_v4 little sin) else RErr (OsError (sys_errno s))).

(** Returning an error drops the descriptor, after [errno] was read. *)
Definition fail_closing {A} (fd : Z) s : S * result A IoError :=
  (sys_close fd s, RErr (OsError (sys_errno s))).

Definition from_raw_fd (fd : Z) s : S * result UdpSocket IoError :=
  match read_local_addr fd s with
  | (s, ROk local) => (s, ROk (mkUdp fd local))
  | (s, RErr e) => (sys_close fd s, RErr e)
  end.

Definition bind_with_reactor (addr : SocketAddrV4) s : S * result UdpSocket IoError :=
  let (s, fd) := sys_socket AF_INET SOCK_DGRAM 0 s in
  if fd <? 0 then (s, RErr (OsError (sys_errno s)))
  else
    let (s, rc) := sys_setsockopt fd SOL_SOCKET SO_REUSEADDR 1 s in
    if negb (rc =? 0) then fail_closing fd s
    else
      let (s, rc) := sys_bind fd (sockaddr_in_from_v4 little addr) s in
      if negb (rc =? 0) then fail_closing fd s
      else
        match read_local_addr fd s with
        | (s, ROk local) => (s, ROk (mkUdp fd local))
        | (s, RErr e) => (sys_close fd s, RErr e)
        end.

(** [bind] evaluates [get_or_init] before the socket is opened. *)
Definition UdpSocket_bind {R} `{Ring Entry R} (o : UringOs) (addr : SocketAddrV4) (cell : option (IoUringReactor R)) s :
    outcome (option (IoUringReactor R) * S * result UdpSocket IoError) :=
  '(cell, _) ← get_or_init o cell;
  let (s, r) := bind_with_reactor addr s in
  mret (cell, s, r).

(** [OwnedFd]'s drop, with the last clone of the socket. *)
Definition UdpSocket_drop (u : UdpSocket) s : S := sys_close (ufd u) s.
End bind.

(** * Facts *)

(** ** Addresses *)

Lemma of_le_bytes_range bs : Forall byte_ok bs -> 0 <= of_le_bytes bs < 256 ^ Z.of_nat (length bs).
Proof.
  induction 1 as [|b bs Hb _ IH]; [done|]. cbn [of_le_bytes length].
  rewrite Nat2Z.inj_succ, Z.pow_succ_r by lia. unfold byte_ok in Hb. lia.
Qed.

Lemma of_le_bytes_le_bytes_small n z : 0 <= z < 256 ^ Z.of_nat n -> of_le_bytes (le_bytes n z) = z.
Proof. intros. rewrite of_le_bytes_le_bytes. by apply Z.mod_small. Qed.

Lemma swap_bytes_bytes n z : le_bytes n (swap_bytes n z) = rev (le_bytes n z).
Proof.
  unfold swap_bytes. rewrite <- (le_bytes_of_le_bytes (rev (le_bytes n z))) at 2.
  - by rewrite length_rev, le_bytes_length.
  - apply Forall_rev, le_bytes_ok.
Qed.

Lemma to_be_bytes little n z : mem_bytes little n (to_be little n z) = rev (le_bytes n z).
Proof. unfold mem_bytes, to_be. destruct little; [apply swap_bytes_bytes|done]. Qed.

Lemma from_be_to_be little n z : 0 <= z < 256 ^ Z.of_nat n -> from_be little n (to_be little n z) = z.
Proof.
  intros. unfold from_be, to_be. destruct little; [|done].
  unfold swap_bytes at 1. rewrite swap_bytes_bytes, rev_involutive. by apply of_le_bytes_le_bytes_small.
Qed.

Lemma from_be_bytes_range bs : Forall byte_ok bs ->
  0 <= from_be_bytes bs < 256 ^ Z.of_nat (length bs).
Proof.
  intros Hb. unfold from_be_bytes. rewrite <- (length_rev bs). by apply of_le_bytes_range, Forall_rev.
Qed.

Lemma rev_le_from_be_bytes n bs : Forall byte_ok bs -> length bs = n ->
  rev (le_bytes n (from_be_bytes bs)) = bs.
Proof.
  intros Hb <-. unfold from_be_bytes. rewrite <- (length_rev bs), le_bytes_of_le_bytes by by apply Forall_rev.
  apply rev_involutive.
Qed.

(** C39. Socket addresses survive the system's format.  On a little-endian and on a
    big-endian target alike, the port and the four octets lie in the memory of the
    [sockaddr_in] in network order, and reading the address back gives the address
    that was written. *)
Theorem sockaddr_roundtrip little a :
  length (octets a) = 4%nat -> Forall byte_ok (octets a) -> in_u16 (port a) ->
  let sin := sockaddr_in_from_v4 little a in
  mem_bytes little 4 (s_addr sin) = octets a /\
  mem_bytes little 2 (sin_port sin) = [port a / 256; port a mod 256] /\
  sockaddr_in_to_v4 little sin = a.
Proof.
  intros H4 Hb Hp. unfold in_u16 in Hp. unfold sockaddr_in_from_v4. cbn [s_addr sin_port]. assert (Hr := from_be_bytes_range _ Hb).
  rewrite H4 in Hr. split; [|split].
  - rewrite to_be_bytes. by apply rev_le_from_be_bytes.
  - rewrite to_be_bytes. cbn. f_equal. apply Z.mod_small. split; [apply Z.div_pos; lia|].
    apply Z.div_lt_upper_bound; lia.
  - unfold sockaddr_in_to_v4, Ipv4_from_u32. cbn [s_addr sin_port].
    rewrite !from_be_to_be by (cbn in *; lia). rewrite rev_le_from_be_bytes by done. by destruct a.
Qed.

(** ** Descriptors *)

Section bind_facts.
Context {S : Type} `{SocketOs S} (little : bool).
Implicit Types s : S.

Lemma read_local_addr_fds fd s : open_fds (read_local_addr little fd s).1 = open_fds s.
Proof.
  unfold read_local_addr. rewrite <- (sys_getsockname_fds fd s). by destruct (sys_getsockname fd s) as [[]].
Qed.

(** Opening a socket never leaks a descriptor: on every failure ([socket],
    [setsockopt], [bind] or [getsockname]) the open descriptors are those of
    before; on success exactly one new descriptor is open, the socket owns it, and
    dropping the socket closes it. *)
Theorem bind_owns_fd addr s :
  match bind_with_reactor little addr s with
  | (s', ROk u) => (ufd u ∉ open_fds s) /\ open_fds s' = ({[ufd u]} ∪ open_fds s) /\
      open_fds (UdpSocket_drop u s') = open_fds s
  | (s', RErr _) => open_fds s' = open_fds s
  end.
Proof.
  unfold bind_with_reactor. assert (Hs := sys_socket_fds AF_INET SOCK_DGRAM 0 s).
  destruct (sys_socket _ _ _ s) as [s1 fd]. destruct Hs as [Hs Hnew].
  destruct (Z.ltb_spec fd 0) as [|Hfd]; [done|]. specialize (Hnew Hfd).
  assert (Hclose : forall s', open_fds s' = open_fds s1 -> open_fds (sys_close fd s') = open_fds s).
  { intros s' Heq. rewrite sys_close_fds, Heq, Hs. set_solver. }
  assert (H1 := sys_setsockopt_fds fd SOL_SOCKET SO_REUSEADDR 1 s1).
  destruct (sys_setsockopt _ _ _ _ s1) as [s2 rc]. cbn in H1.
  destruct (negb _); [by apply Hclose|].
  assert (H2 := sys_bind_fds fd (sockaddr_in_from_v4 little addr) s2).
  destruct (sys_bind _ _ s2) as [s3 rc']. cbn in H2.
  destruct (negb _); [apply Hclose; congruence|].
  assert (H3 := read_local_addr_fds fd s3). destruct (read_local_addr little fd s3) as [s4 [local|e]]; cbn in H3.
  - cbn. unfold UdpSocket_drop. cbn. split; [done|]. split; [congruence|]. apply Hclose. congruence.
  - apply Hclose. congruence.
Qed.
End bind_facts.

(** ** Operations *)

Section op_facts.
Context {R : Type} `{Ring Entry R}.
Implicit Types (x : IoUringReactor R) (k : Waker).

Lemma wait_poll_allocator k h x : allocator (WaitHandle_poll k h x).1 = allocator x.
Proof. unfold WaitHandle_poll. by case_match. Qed.

Lemma sqe_poll_allocator k f x x' f' p :
  SqeFuture_poll k f x = Ok (x', f', p) -> allocator x' = allocator x.
Proof.
  intros Hp. destruct f as [sqe|h|]; cbn in Hp; [|..|done].
  - inv_Ok. destruct a as [x1 h]. assert (Ha := wait_poll_allocator k h x1).
    destruct (WaitHandle_poll k h x1). inv_Ok. cbn in Ha. rewrite Ha.
    unfold push_sqe in H0. by inv_Ok.
  - assert (Ha := wait_poll_allocator k h x). destruct (WaitHandle_poll k h x). by inv_Ok.
Qed.

(** The forms without a reactor are the explicit ones on the reactor of the thread;
    on a thread without one they panic. *)
Lemma thread_forms {A} (poll : PathFuture -> IoUringReactor R -> outcome (IoUringReactor R * PathFuture * Poll A))
    (o : UringOs) f fd x :
  DmaFile_new o fd (Some x) = Ok (Some x, mkFile fd) /\
  (exists m, DmaFile_new o fd None = Panic m) /\
  (forall t, t = ThreadStart f \/ t = ThreadWait f ->
     ThreadFuture_poll poll o t (Some x) = '(x, f, p) ← poll f x; mret (Some x, ThreadWait f, p)) /\
  (exists m, ThreadFuture_poll poll o (ThreadStart f) None = Panic m).
Proof.
  destruct (get_or_init_fresh o) as [m Hm]. split; [done|]. split; [|split].
  - exists m. unfold DmaFile_new. by rewrite Hm.
  - intros t [-> | ->]; done.
  - exists m. unfold ThreadFuture_poll. by rewrite Hm.
Qed.

(** C38. A fixed buffer lent to [read_fixed] or [write_fixed] is never lost.  While
    the operation waits its future owns the buffer and the pool is untouched; on
    success the same buffer comes back with the count; on an error it returns to the
    pool and the first waiter's waker is woken; in debug builds a length beyond the
    buffer panics before anything is pushed. *)
Theorem fixed_buffer_not_lost debug k f x x' f' p w :
  FixedFuture_poll debug k f x = Ok (x', f', p, w) ->
  match p with
  | Pending => fx_buffer f' = fx_buffer f /\ allocator x' = allocator x /\ w = None
  | Ready (ROk (n, b)) => b = fx_buffer f /\ fx_buffer f' = None /\ allocator x' = allocator x /\ w = None
  | Ready (RErr _) => fx_buffer f' = None /\
      buffers (allocator x') = buffers (allocator x) ++ option_list (fx_buffer f) /\
      (forall st q, acquire_queue (allocator x) = st :: q ->
        w = default None (lazy_states (allocator x) !! st) /\ acquire_queue (allocator x') = q)
  end /\
  (debug = true -> forall sqe, fx_sqe f = SqeStart sqe -> fx_len f <= Z.of_nat (buf_len (fx_buffer f))).
Proof.
  intros Hp. unfold FixedFuture_poll in Hp. inv_Ok. destruct a0 as [[x1 s1] p1].
  assert (Ha := sqe_poll_allocator _ _ _ _ _ _ H1). split.
  - destruct p1 as [[n|e]|].
    + inv_Ok. done.
    + destruct (FixedBuffer_drop _ _) as [al w0] eqn:Hd. inv_Ok. cbn. split; [done|].
      rewrite Ha in Hd. unfold FixedBuffer_drop, vec_push in Hd.
      split.
      * destruct (fx_buffer f); repeat case_match; injection Hd as <- <-; cbn; by rewrite ?app_nil_r.
      * intros st q Hq. destruct (fx_buffer f); cbn in Hd; rewrite Hq in Hd; by injection Hd as <- <-.
    + inv_Ok. done.
  - intros -> sqe Hs. rewrite Hs in H0. cbn in H0.
    destruct (Z.leb_spec (fx_len f) (Z.of_nat (buf_len (fx_buffer f)))); [done|discriminate].
Qed.

(** C37. A file operation, from its first poll to its result.  The first poll
    pushes exactly the operation's entry and waits; once a reactor poll finds the
    entry completed, the operation's waker is among those woken, and the next poll
    resolves with the kernel's number, or with its errno. *)
Theorem file_op_completes sqe k k' x x1 f1 p1 now x2 res :
  UringInv x -> Waited x -> user_data_counter x < 2 ^ 64 - 1 ->
  SqeFuture_poll k (SqeStart sqe) x = Ok (x1, f1, p1) ->
  poll_submit now x1 = Ok x2 -> (user_data_counter x, res) ∈ (ring_completion (ring x2)).2 ->
  ring_push sqe (user_data_counter x) (ring x) = Some (ring x1) /\
  f1 = SqeWait (next_handle x) /\ p1 = Pending /\
  exists x3 ks x4, poll_submit_and_completions now x1 = Ok (x3, ks) /\ clone_raw k ∈ ks /\
    SqeFuture_poll k' f1 x3 = Ok (x4, SqeDone, Ready (cqe_result res)).
Proof.
  intros HI HW Hlt Hp Hs Hin.
  assert (He : uring_event (UAwait sqe k) x = Ok x1 /\ f1 = SqeWait (next_handle x) /\ p1 = Pending /\
    ring_push sqe (user_data_counter x) (ring x) = Some (ring x1) /\
    completions x1 !! user_data_counter x = Some (next_handle x) /\
    hwaker (handle_at (next_handle x) x1) = Some (clone_raw k)).
  { cbn in Hp |- *. inv_Ok. destruct a as [y h]. rewrite H0. cbn.
    destruct (push_sqe_inv _ _ _ _ HI Hlt H0) as (_ & -> & Hnew & Hc & _).
    unfold WaitHandle_poll in *. rewrite Hnew in *. cbn in Hp. inv_Ok. cbn.
    unfold push_sqe in H0. inv_Ok. cbn. unfold handle_at. cbn. by rewrite !lookup_insert_eq. }
  destruct He as (He & -> & -> & Hpush & Hc & Hw). split; [done|]. split; [done|]. split; [done|].
  assert (HS := uring_event_safe (UAwait sqe k) _ HI HW ltac:(lia)). rewrite He in HS. destruct HS as (HI1 & HW1 & _).
  assert (HP := poll_drains now _ _ HI1 HW1 Hs). destruct (ring_completion _) as [r cqes]. cbn in Hin.
  destruct HP as (x3 & ks & Hp3 & [D1 _ _ _ _ _] & _). exists x3, ks.
  apply list_elem_of_lookup_1 in Hin as [i Hi]. destruct (D1 _ _ _ Hi) as (h & kk & Hu & Hwk & Hks & Hh).
  destruct (poll_submit_inv _ _ _ Hs HI1) as (_ & Hcm & Hhs). cbn in Hu. rewrite Hcm, Hc in Hu.
  injection Hu as <-. unfold handle_at in Hwk. cbn in Hwk. rewrite Hhs in Hwk.
  unfold handle_at in Hw. rewrite Hw in Hwk. injection Hwk as <-.
  eexists. split; [done|]. split; [by eapply list_elem_of_lookup_2|].
  cbn. unfold WaitHandle_poll. rewrite Hh. done.
Qed.
End op_facts.

(** ** Witnesses *)

Lemma sockaddr_roundtrip_witness :
  sockaddr_in_to_v4 true (sockaddr_in_from_v4 true (mkAddr [127; 0; 0; 1] 8080)) = mkAddr [127; 0; 0; 1] 8080 /\
  mem_bytes true 4 (s_addr (sockaddr_in_from_v4 true (mkAddr [127; 0; 0; 1] 8080))) = [127; 0; 0; 1].
Proof.
  destruct (sockaddr_roundtrip true (mkAddr [127; 0; 0; 1] 8080)) as (H1 & _ & H3).
  - reflexivity.
  - by repeat constructor.
  - by vm_compute.
  - done.
Defined.

(** A ring that takes entries of this module and completes each with 7. *)
#[export] Instance entry_ring : Ring Entry ListRing.t.
Proof.
  refine {| ring_push sqe := ListRing.push 7; ring_sq_len := ring_sq_len;
    ring_need_wakeup := ring_need_wakeup; ring_submit := ring_submit; ring_sync := ring_sync;
    ring_completion := ring_completion; ring_submit_and_wait := ring_submit_and_wait;
    ring_inflight := ring_inflight |}.
  - intros _ u r r' Hp. exact (ring_push_inflight 7 u r r' Hp).
  - exact ring_submit_inflight.
  - exact ring_sync_inflight.
  - exact ring_wait_inflight.
  - exact ring_completion_inflight.
Defined.

Definition io_demo_buffer : FixedBufferInner := mkBuf [0; 0] 1 0 0.
(** The operation of handle 0 failed with errno 5; task 9 waits for a buffer. *)
Definition io_demo_failed : IoUringReactor ListRing.t :=
  mkUring (ListRing.mk [] []) ∅ {[0%nat := mkHandleState None (Some (RErr 5))]} 1 1
    (mkAlloc [] [3%nat] {[3%nat := Some (mkWaker 9 TaskQueue)]} 4) 0 (mkParams 64 0 0 None) 1 None.
Definition io_demo_fixed : FixedFuture := mkFixed 2 (Some io_demo_buffer) (SqeWait 0).

Lemma fixed_buffer_not_lost_witness : exists x' f',
  FixedFuture_poll true (mkWaker 8 TaskQueue) io_demo_fixed io_demo_failed =
    Ok (x', f', Ready (RErr (OsError 5)), Some (mkWaker 9 TaskQueue)) /\
  buffers (allocator x') = [io_demo_buffer].
Proof.
  assert (Hp : exists x' f' w, FixedFuture_poll true (mkWaker 8 TaskQueue) io_demo_fixed io_demo_failed =
     Ok (x', f', Ready (RErr (OsError 5)), w)) by (do 3 eexists; reflexivity).
  destruct Hp as (x' & f' & w & Hp). rewrite Hp.
  destruct (fixed_buffer_not_lost _ _ _ _ _ _ _ _ Hp) as [(_ & Hb & Hq) _].
  destruct (Hq 3%nat [] eq_refl) as [-> _]. by exists x', f'.
Defined.

Lemma file_op_completes_witness : exists x1 x3 ks x4,
  SqeFuture_poll (mkWaker 8 TaskQueue) (DmaFile_read (mkFile 3) [0; 0] 16) demo_reactor =
    Ok (x1, SqeWait 0, Pending) /\
  poll_submit_and_completions 5 x1 = Ok (x3, ks) /\
  SqeFuture_poll (mkWaker 8 TaskQueue) (SqeWait 0) x3 = Ok (x4, SqeDone, Ready (ROk 7)).
Proof.
  destruct (@build_inv Entry ListRing.t entry_ring demo_os demo_builder None _ _ demo_rings demo_build_ok) as (HI & HW & H0 & _).
  assert (Hp : exists x1 x2, SqeFuture_poll (mkWaker 8 TaskQueue) (DmaFile_read (mkFile 3) [0; 0] 16) demo_reactor =
    Ok (x1, SqeWait 0, Pending) /\ poll_submit 5 x1 = Ok x2 /\ (ring_completion (ring x2)).2 = [(0, 7)])
    by (do 2 eexists; repeat split; vm_compute; reflexivity).
  destruct Hp as (x1 & x2 & Hp & Hs & Hc).
  destruct (file_op_completes (read_entry (mkFile 3) [0; 0] 16) (mkWaker 8 TaskQueue) (mkWaker 8 TaskQueue) demo_reactor x1
    (SqeWait 0) Pending 5 x2 7 HI HW) as
    (_ & _ & _ & x3 & ks & x4 & H3 & _ & H4).
  - rewrite H0. reflexivity.
  - exact Hp.
  - exact Hs.
  - rewrite Hc, H0. by left.
  - by exists x1, x3, ks, x4.
Defined.

(** A system whose state is the list of open descriptors; binding to port 0
    succeeds, to another port fails. *)
Definition fd_above (fds : list Z) : Z := foldr Z.max 2 fds + 1.

Lemma fd_above_fresh fds : fd_above fds ∉ (list_to_set fds : gset Z).
Proof.
  rewrite elem_of_list_to_set. unfold fd_above. intros Hin.
  assert (forall z, z ∈ fds -> z <= foldr Z.max 2 fds).
  { clear Hin. induction fds as [|f fds IH]; intros z Hz; [by apply elem_of_nil in Hz|].
    apply elem_of_cons in Hz as [->|Hz]; cbn; [lia|]. specialize (IH _ Hz). lia. }
  specialize (H _ Hin). lia.
Qed.

#[export] Instance list_os : SocketOs (list Z).
Proof.
  refine {| sys_socket _ _ _ s := (fd_above s :: s, fd_above s);
    sys_setsockopt _ _ _ _ s := (s, 0);
    sys_bind _ a s := (s, if sin_port a =? 0 then 0 else -1);
    sys_getsockname _ s := (s, 0, mkSin AF_INET 7 127);
    sys_close fd s := filter (fun z => z <> fd) s;
    sys_errno _ := 98; open_fds s := list_to_set s |}; try done.
  - intros _ _ _ s. split; [|intros _; apply fd_above_fresh].
    destruct (Z.ltb_spec (fd_above s) 0) as [Hlt|]; [|done]. exfalso. unfold fd_above in Hlt.
    assert (0 <= foldr Z.max 2 s) by (clear; induction s; cbn; lia). lia.
  - intros fd s. apply set_eq. intros z. rewrite elem_of_difference, !elem_of_list_to_set, list_elem_of_filter.
    set_solver.
Defined.

Lemma bind_owns_fd_witness :
  (exists u s, bind_with_reactor true (mkAddr [0; 0; 0; 0] 0) [4] = (s, ROk u) /\ ufd u = 5 /\
     open_fds s = {[5; 4]}) /\
  (exists s, bind_with_reactor true (mkAddr [0; 0; 0; 0] 80) [4] = (s, RErr (OsError 98)) /\
     open_fds s = {[4]}).
Proof.
  split.
  - pose proof (bind_owns_fd true (mkAddr [0; 0; 0; 0] 0) [4]) as Hb.
    assert (He : exists s u, bind_with_reactor true (mkAddr [0; 0; 0; 0] 0) [4] = (s, ROk u) /\ ufd u = 5)
      by (do 2 eexists; split; reflexivity).
    destruct He as (s & u & He & Hu). rewrite He in Hb. destruct Hb as (_ & Hs & _).
    exists u, s. split; [done|]. split; [done|]. rewrite Hs, Hu. set_solver.
  - pose proof (bind_owns_fd true (mkAddr [0; 0; 0; 0] 80) [4]) as Hb.
    assert (He : exists s, bind_with_reactor true (mkAddr [0; 0; 0; 0] 80) [4] = (s, RErr (OsError 98)))
      by (eexists; reflexivity).
    destruct He as (s & He). rewrite He in Hb. exists s. split; [done|]. rewrite Hb. set_solver.
Defined.
