(* ===== verification/RingWait.v ===== *)
(** * RingWait: the runtime and the io_uring reactor together
    ([pluvio_runtime/src/executor/mod.rs], [pluvio_uring/src/reactor.rs], [file.rs])

    [block_on] of a file operation on a runtime whose only reactor is the ring's.  By
    default the reactor reports [Stopped] until [wait_complete_timeout] has passed since
    the last submission, so the runtime must be patient enough: the clock passes that
    timeout within [W] readings.  With [PLUVIO_URING_ALWAYS_POLL] it is polled at once.
    What is asked of the kernel is the record [Kernel]. *)

From S2P Require Import Prelude Spsc Future Slab Task Executor ExecutorFacts Await UringAlloc UringReactor UringIo.
Local Open Scope nat_scope.

Record RingEnv (R : Type) : Type := mkRingEnv { rreactor : IoUringReactor R; rreads : nat }.
Arguments mkRingEnv {R} _ _.
Arguments rreactor {R} _.
Arguments rreads {R} _.

Section ring.
Context {R : Type} `{Ring Entry R} (now : nat -> Z) (always_poll : bool).
Implicit Types (e : RingEnv R) (x : IoUringReactor R) (k : Waker) (f : SqeFuture).

Definition ring_clock e : RingEnv R * Z := (mkRingEnv (rreactor e) (S (rreads e)), now (rreads e)).

(** [impl Reactor for IoUringReactor]. *)
Definition uring_dyn : DynReactor (RingEnv R) := {|
  dyn_poll e :=
    let (e, t) := ring_clock e in
    '(x, ks) ← poll_submit_and_completions t (rreactor e);
    mret (mkRingEnv x (rreads e), ks);
  dyn_status e := let (e, t) := ring_clock e in (e, uring_status always_poll t (rreactor e))
|}.

(** A dropped operation leaves its entry with the reactor. *)
Definition ring_client : Client (result Z Z) SqeFuture (RingEnv R) := {|
  cpoll k f e := '(x, f, p) ← SqeFuture_poll k f (rreactor e); mret (mkRingEnv x (rreads e), f, p);
  cdrop _ e := e;
  cclock := ring_clock;
  creactor := uring_dyn
|}.

(** ** The kernel *)

(** What a poll of the reactor does to the ring: submission, then the completions. *)
Definition ring_turn (p : IoUringParams) (thread : bool) (r : R) : option (R * list (Z * Z)) :=
  r ← (if Nat.eqb (ring_sq_len r) 0 then Some r
       else match sq_poll p with
            | Some _ => if ring_need_wakeup r then ring_submit r else Some r
            | None => if thread then Some (ring_sync r) else ring_submit r
            end);
  Some (ring_completion r).

(** The number the one entry in flight returns, when [n] polls see it complete. *)
Fixpoint answer_within (p : IoUringParams) (thread : bool) (n : nat) (r : R) : option Z :=
  match n with
  | O => None
  | S n =>
      match ring_turn p thread r with
      | Some (_, (_, res) :: _) => Some res
      | Some (r, []) => answer_within p thread n r
      | None => None
      end
  end.

(** A ring with nothing in flight is polled without an error, takes the entry, and
    completes it within [N] polls, with a number that [Answer] allows. *)
Record Kernel (p : IoUringParams) (thread : bool) (sqe : Entry) (N : nat) (Answer : Z -> Prop) : Prop := {
  ke_quiet r : ring_inflight r = [] -> is_Some (ring_turn p thread r);
  ke_push r u : ring_inflight r = [] -> exists r' res, ring_push sqe u r = Some r' /\
    answer_within p thread N r' = Some res /\ Answer res
}.

Definition threaded x : bool := match submit_thread x with Some _ => true | None => false end.

Lemma poll_submit_turn t x r cqes :
  ring_turn (io_uring_params x) (threaded x) (ring x) = Some (r, cqes) ->
  exists x1, poll_submit t x = Ok x1 /\ ring_completion (ring x1) = (r, cqes) /\
    io_uring_params x1 = io_uring_params x /\ threaded x1 = threaded x /\
    (last_submit_time x1 = t \/ last_submit_time x1 = last_submit_time x).
Proof.
  unfold ring_turn, poll_submit, threaded. destruct (Nat.eqb _ 0); cbn [negb andb].
  { intros Hr. exists x. assert (Hc : ring_completion (ring x) = (r, cqes)) by (by injection Hr). rewrite Hc.
    destruct (sq_poll (io_uring_params x)); cbn; auto 10. }
  destruct (sq_poll (io_uring_params x)).
  - destruct (ring_need_wakeup _); [destruct (ring_submit _) as [r1|]; [|done]|]; cbn; intros [= Hc]; eexists;
      (split; [done|]); cbn; auto.
  - destruct (submit_thread x) eqn:Hst; [|destruct (ring_submit _) as [r1|]; [|done]]; cbn; intros [= Hc]; eexists;
      (split; [done|]); cbn; rewrite ?Hst; auto.
Qed.

(** ** The states of the reactor *)

Context (p : IoUringParams) (thread : bool) (sqe : Entry) (N0 W : nat) (Answer : Z -> Prop).
Context (HK : Kernel p thread sqe N0 Answer).
Context (now_step : forall n, (now n <= now (S n))%Z).
Context (now_passes : forall n, (now n + wait_complete_timeout p <= now (n + W))%Z).

Lemma ring_now_mono n m : n <= m -> (now n <= now m)%Z.
Proof. induction 1 as [|m _ IH]; [done|]. assert (Hs := now_step m). lia. Qed.

(** The reactor was built with these parameters and its clock is that of the runtime. *)
Record Built e : Prop := {
  bu_inv : UringInv (rreactor e);
  bu_params : io_uring_params (rreactor e) = p;
  bu_thread : threaded (rreactor e) = thread;
  bu_last : (last_submit_time (rreactor e) <= now (rreads e))%Z
}.

(** Nothing is in flight. *)
Definition Quiet (room : Z) e : Prop :=
  Built e /\ completions (rreactor e) = ∅ /\ (user_data_counter (rreactor e) + room < 2 ^ 64)%Z.

(** The reactor will report [Running] after at most [l] more readings. *)
Definition Ripe (l : nat) e : Prop :=
  always_poll = true \/ (last_submit_time (rreactor e) + wait_complete_timeout p <= now (rreads e + l))%Z.

(** The operation of [f] is in flight, for at most [n] more polls. *)
Definition InRing (n : nat) k f e : Prop := exists h u res,
  f = SqeWait h /\ completions (rreactor e) = {[u := h]} /\
  handle_at h (rreactor e) = mkHandleState (Some k) None /\
  answer_within p thread n (ring (rreactor e)) = Some res /\ Answer res.

(** Its result lies in the handle. *)
Definition Answered f e : Prop := exists h res,
  f = SqeWait h /\ handle_at h (rreactor e) = mkHandleState None (Some (cqe_result res)) /\ Answer res.

Definition ring_looks : nat := if always_poll then 0 else W.

Lemma built_clock e : Built e -> Built (ring_clock e).1.
Proof. intros [? ? ? ?]. split; try done. cbn. assert (Hm := now_step (rreads e)). lia. Qed.

Lemma ripe_clock l e : Ripe l e -> Ripe l (ring_clock e).1.
Proof.
  intros [|Hr]; [by left|right]. cbn. assert (Hm := ring_now_mono (rreads e + l) (S (rreads e + l))). lia.
Qed.

Lemma quiet_inflight room e : Quiet room e -> ring_inflight (ring (rreactor e)) = [].
Proof.
  intros ([HI _ _ _] & Hc & _). assert (Hp := ui_inflight _ HI). rewrite Hc, map_to_list_empty in Hp.
  by apply Permutation_nil.
Qed.

(** ** One poll of the reactor *)

Lemma complete_loop_params cqes x x' ks : complete_loop cqes x = Ok (x', ks) ->
  io_uring_params x' = io_uring_params x /\ threaded x' = threaded x /\ last_submit_time x' = last_submit_time x.
Proof.
  revert x ks. induction cqes as [|[u res] cqes IH]; intros x ks Hl; cbn [complete_loop] in Hl; [by inv_Ok|].
  destruct (completions x !! u) as [h|]; [|done]. cbv zeta in Hl. destruct (hwaker _); [|done]. inv_Ok.
  destruct a as [x1 ks1]. inv_Ok. by apply IH in H0.
Qed.

Lemma built_turn e r cqes : Built e -> Waited (rreactor e) -> ring_turn p thread (ring (rreactor e)) = Some (r, cqes) ->
  exists x' ks, dyn_poll uring_dyn e = Ok (mkRingEnv x' (S (rreads e)), ks) /\ Built (mkRingEnv x' (S (rreads e))) /\
    ring x' = r /\ length ks = length cqes /\ NoDup cqes.*1 /\ user_data_counter x' = user_data_counter (rreactor e) /\
    (last_submit_time x' = now (rreads e) \/ last_submit_time x' = last_submit_time (rreactor e)) /\
    (forall i u res, cqes !! i = Some (u, res) -> exists h k, completions (rreactor e) !! u = Some h /\
       hwaker (handle_at h (rreactor e)) = Some k /\ ks !! i = Some k /\
       handle_at h x' = mkHandleState None (Some (cqe_result res))) /\
    (forall u, completions x' !! u = if decide (u ∈ cqes.*1) then None else completions (rreactor e) !! u) /\
    (forall h, (forall u, u ∈ cqes.*1 -> completions (rreactor e) !! u <> Some h) ->
       handle_at h x' = handle_at h (rreactor e)) /\
    next_handle x' = next_handle (rreactor e).
Proof.
  intros [HI Hp Ht Hl] HW Hr. rewrite <- Hp, <- Ht in Hr.
  destruct (poll_submit_turn (now (rreads e)) _ _ _ Hr) as (x1 & Hs & Hc & Hp1 & Ht1 & Hl1).
  assert (HP := poll_drains _ _ _ HI HW Hs). rewrite Hc in HP. destruct HP as (x' & ks & Hpo & HD & HI' & HW').
  assert (Hcl := Hpo). unfold poll_submit_and_completions in Hcl. rewrite Hs in Hcl. cbn in Hcl. rewrite Hc in Hcl.
  destruct (complete_loop_params _ _ _ _ Hcl) as (Hp2 & Ht2 & Hl2). cbn in Hp2, Ht2, Hl2.
  destruct (poll_submit_inv _ _ _ Hs HI) as (HI1 & Hcm & Hhs). assert (Hm := now_step (rreads e)).
  assert (Hu : user_data_counter x1 = user_data_counter (rreactor e)).
  { clear -Hs. unfold poll_submit in Hs. inv_Ok. destruct (sq_poll _); repeat case_match; inv_Ok; done. }
  assert (Hat : forall h, handle_at h (set_ring r x1) = handle_at h (rreactor e))
    by (intros h; unfold handle_at; cbn; by rewrite Hhs).
  assert (Hnx : next_handle x1 = next_handle (rreactor e)).
  { clear -Hs. unfold poll_submit in Hs. inv_Ok. destruct (sq_poll _); repeat case_match; inv_Ok; done. }
  destruct HD as [D1 D2 D3 D4 _ (D6 & D7 & D8)]. cbn in D3, D6, D7, D8. exists x', ks. cbn. rewrite Hpo. split; [done|].
  split; [split; cbn; try done; [congruence|unfold threaded in *; cbn in *; congruence|destruct Hl1; lia]|].
  assert (Hnd := inflight_nodup _ HI1). rewrite ring_completion_inflight, Hc in Hnd. apply NoDup_app in Hnd as [Hnd _].
  split; [done|]. split; [done|]. split; [done|]. split; [congruence|]. split; [destruct Hl1; [left|right]; congruence|].
  split; [|split; [|split; [|congruence]]].
  - intros i u res Hi. destruct (D1 i u res Hi) as (h & k & Hu1 & Hk & ? & ?). rewrite Hat in Hk. cbn in Hu1.
    rewrite Hcm in Hu1. by exists h, k.
  - intros u. by rewrite D3, Hcm.
  - intros h Hh. rewrite D4; [apply Hat|]. intros u res Hu1. cbn. rewrite Hcm. apply Hh, list_elem_of_fmap. by exists (u, res).
Qed.

Lemma quiet_waited room e : Quiet room e -> Waited (rreactor e).
Proof. intros (_ & Hc & _) u h. by rewrite Hc, lookup_empty. Qed.

(** With nothing in flight it finds nothing. *)
Lemma quiet_poll room e : Quiet room e -> exists e', dyn_poll uring_dyn e = Ok (e', []) /\ Quiet room e'.
Proof.
  intros HQ. assert (Hin := quiet_inflight _ _ HQ). assert (HW := quiet_waited _ _ HQ). destruct HQ as (HB & Hc & Hu).
  destruct (ke_quiet _ _ _ _ _ HK _ Hin) as [[r cqes] Hr].
  destruct (built_turn e r cqes HB HW Hr) as (x' & ks & Hp & HB' & _ & Hk & _ & Hu' & _ & Hd & Hcm & _).
  destruct cqes as [|[u res] cqes]; cycle 1.
  { destruct (Hd 0 u res eq_refl) as (h & k & Hh & _). by rewrite Hc, lookup_empty in Hh. }
  destruct ks; [|done]. eexists. split; [exact Hp|]. split; [done|]. cbn. split; [|by rewrite Hu'].
  apply map_eq. intros u. rewrite Hcm, Hc. by case_decide.
Qed.

Lemma in_ring_waited n k f e : InRing n k f e -> Waited (rreactor e).
Proof.
  intros (h & u & res & -> & Hc & Hh & _) u' h' Hu. rewrite Hc in Hu. apply lookup_singleton_Some in Hu as [<- <-].
  rewrite Hh. by eexists.
Qed.

(** The operation in flight completes, or its answer comes one poll closer. *)
Lemma in_ring_poll n k f e : Built e -> InRing n k f e ->
  exists e' ks, dyn_poll uring_dyn e = Ok (e', ks) /\ Built e' /\ rreads e' = S (rreads e) /\
    user_data_counter (rreactor e') = user_data_counter (rreactor e) /\
    ((ks = [] /\ (exists n', n' < n /\ InRing n' k f e') /\
      (last_submit_time (rreactor e') = now (rreads e) \/ last_submit_time (rreactor e') = last_submit_time (rreactor e))) \/
     (ks = [k] /\ Answered f e' /\ completions (rreactor e') = ∅)).
Proof.
  intros HB HR. assert (HW := in_ring_waited _ _ _ _ HR). destruct HR as (h & u & res & -> & Hc & Hh & Ha & HA).
  destruct n as [|n]; [done|]. cbn [answer_within] in Ha. destruct (ring_turn _ _ _) as [[r cqes]|] eqn:Hr; [|done].
  destruct (built_turn e r cqes HB HW Hr) as (x' & ks & Hp & HB' & Hx & Hk & Hnd & Hu & Hl & Hd & Hcm & Hh' & _).
  exists (mkRingEnv x' (S (rreads e))), ks. split; [done|]. split; [done|]. split; [done|]. split; [done|].
  destruct cqes as [|[u1 res1] cqes].
  - left. destruct ks; [|done]. split; [done|]. split; [|done]. exists n. split; [lia|]. exists h, u, res. cbn.
    rewrite Hh', Hx by (by intros v ?%elem_of_nil). split; [done|]. split; [|done]. apply map_eq. intros v.
    rewrite Hcm, Hc, decide_False; [done|apply not_elem_of_nil].
  - right. injection Ha as ->. destruct (Hd 0 u1 res eq_refl) as (h1 & k1 & Hu1 & Hk1 & Hks & Hh1).
    rewrite Hc in Hu1. apply lookup_singleton_Some in Hu1 as [<- <-]. rewrite Hh in Hk1. injection Hk1 as <-.
    assert (Hone : cqes = []).
    { destruct cqes as [|[u2 res2] cqes]; [done|]. destruct (Hd 1 u2 res2 eq_refl) as (h2 & k2 & Hu2 & _).
      rewrite Hc in Hu2. apply lookup_singleton_Some in Hu2 as [<- _].
      apply NoDup_cons in Hnd as [Hnd _]. exfalso. apply Hnd. by left. }
    subst cqes. destruct ks as [|k1 [|? ?]]; try done. cbn in Hks. injection Hks as ->. split; [done|]. split; [by exists h, res|].
    apply map_eq. intros v. rewrite Hcm, Hc, lookup_empty. case_decide as Hv; [done|].
    apply lookup_singleton_None. intros <-. apply Hv. by left.
Qed.

(** ** The polls of the future *)

Lemma first_poll more k e : (0 <= more)%Z -> Quiet (1 + more) e -> exists e' h,
  cpoll ring_client k (SqeStart sqe) e = Ok (e', SqeWait h, Pending) /\ Built e' /\ InRing N0 k (SqeWait h) e' /\
  rreads e' = rreads e /\ last_submit_time (rreactor e') = last_submit_time (rreactor e) /\
  (user_data_counter (rreactor e') + more < 2 ^ 64)%Z.
Proof.
  intros Hm HQ. assert (Hin := quiet_inflight _ _ HQ). destruct HQ as ([HI Hp Ht Hl] & Hc & Hu).
  set (x := rreactor e) in *. destruct (ke_push _ _ _ _ _ HK _ (user_data_counter x) Hin) as (r' & res & Hr & Ha & HA).
  assert (Hpush : exists x1, push_sqe sqe x = Ok (x1, next_handle x) /\ ring x1 = r' /\ io_uring_params x1 = p /\
    threaded x1 = thread /\ last_submit_time x1 = last_submit_time x /\ user_data_counter x1 = (user_data_counter x + 1)%Z).
  { unfold push_sqe. rewrite Hr. cbn. eexists. split; [done|]. cbn. do 4 (split; [done|]).
    apply wrap64_small. unfold in_u64. destruct HI. lia. }
  destruct Hpush as (x1 & Hpush & Hr1 & Hp1 & Ht1 & Hl1 & Hu1).
  destruct (push_sqe_inv _ _ _ _ HI ltac:(lia) Hpush) as (HI1 & _ & Hh1 & Hc1 & _).
  cbn [cpoll ring_client SqeFuture_poll]. fold x. rewrite Hpush. cbn [mbind outcome_bind].
  assert (HI2 := wait_poll_inv k (next_handle x) x1 HI1). unfold WaitHandle_poll in *. rewrite Hh1 in *. cbn in HI2 |- *.
  eexists _, (next_handle x). split; [done|]. cbn. split; [split; cbn; try done; by rewrite Hl1|].
  split; [|split; [done|split; [done|lia]]]. exists (next_handle x), (user_data_counter x), res. cbn.
  split; [done|]. rewrite Hc1, Hc. split; [done|]. unfold handle_at. cbn. rewrite lookup_insert_eq. destruct k.
  by rewrite Hr1.
Qed.

Lemma answered_poll k f e : Built e -> Answered f e -> completions (rreactor e) = ∅ ->
  exists e' f' res, cpoll ring_client k f e = Ok (e', f', Ready (cqe_result res)) /\ Answer res /\ Built e' /\
    completions (rreactor e') = ∅ /\ user_data_counter (rreactor e') = user_data_counter (rreactor e).
Proof.
  intros [HI Hp Ht Hl] (h & res & -> & Hh & HA) Hc. cbn [cpoll ring_client SqeFuture_poll].
  assert (HI1 := wait_poll_inv k h _ HI). unfold WaitHandle_poll in *. rewrite Hh in *. cbn in HI1 |- *.
  eexists _, SqeDone, res. split; [done|]. split; [done|]. by split; [split|].
Qed.

Lemma ripe_status l e : Built e -> has_pending_io (rreactor e) = true -> Ripe l e ->
  uring_status always_poll (now (rreads e)) (rreactor e) = Running \/
  (exists l', l = S l' /\ Ripe l' (ring_clock e).1).
Proof.
  intros [_ Hp _ _] Hio [Hr|Hr].
  { left. unfold uring_status. rewrite Hr, Hio. by rewrite orb_true_r. }
  destruct l as [|l]; cycle 1.
  { right. exists l. split; [done|]. right. cbn. by replace (S (rreads e + l)) with (rreads e + S l) by lia. }
  left. rewrite Nat.add_0_r in Hr. unfold uring_status. rewrite Hio, Hp. destruct always_poll; [by rewrite orb_true_r|].
  cbv zeta. rewrite (proj2 (Z.leb_le (wait_complete_timeout p) _)) by lia. cbn. rewrite orb_true_r.
  destruct (sq_poll p); [by destruct (_ && _)|done].
Qed.

Lemma in_ring_pending n k f e : Built e -> InRing n k f e -> has_pending_io (rreactor e) = true.
Proof.
  intros [HI _ _ _] (h & u & res & _ & Hc & _). unfold has_pending_io. assert (Hct := ui_count _ HI).
  rewrite Hc, map_size_singleton in Hct. lia.
Qed.

(** ** The promise *)

Context (more : Z) (Hmore : (0 <= more)%Z).

#[local] Program Instance ring_served : Served ring_client (SqeStart sqe) := {
  looks := ring_looks;
  Begin N e := N = N0 /\ Quiet (1 + more) e;
  Waiting n l k f e := Built e /\ InRing n k f e /\ Ripe l e /\ (user_data_counter (rreactor e) + more < 2 ^ 64)%Z;
  Due f e := Built e /\ Answered f e /\ completions (rreactor e) = ∅ /\ (user_data_counter (rreactor e) + more < 2 ^ 64)%Z;
  Finished v e := Quiet more e /\ exists res, v = cqe_result res /\ Answer res
}.
Next Obligation. intros N e (? & HB & ? & ?). split; [done|]. split; [by apply built_clock|done]. Qed.
Next Obligation. intros n l k f e (HB & HR & Hr & ?). split; [by apply built_clock|]. split; [done|]. split; [by apply ripe_clock|done]. Qed.
Next Obligation. intros f e (HB & ?). split; [by apply built_clock|done]. Qed.
Next Obligation. intros v e ((HB & ? & ?) & ?). split; [|done]. split; [by apply built_clock|done]. Qed.
Next Obligation. intros N e (? & HB & ? & ?). split; [done|]. split; [by apply built_clock|done]. Qed.
Next Obligation. intros N e (? & HQ). destruct (quiet_poll _ _ HQ) as (e' & Hp & HQ'). by exists e'. Qed.
Next Obligation.
  intros N k e (-> & HQ). right. destruct (first_poll more k e Hmore HQ) as (e' & h & Hp & HB & HR & Hrd & Hl & Hu).
  exists e', (SqeWait h), N0, ring_looks. split; [done|]. split; [|done]. split; [done|]. split; [done|]. split; [|done].
  unfold Ripe, ring_looks. destruct always_poll; [by left|right]. rewrite Hl, Hrd. destruct HQ as ([_ _ _ Hlast] & _).
  assert (Hp' := now_passes (rreads e)). lia.
Qed.
Next Obligation.
  intros n l k f e (HB & HR & Hr & Hu). cbn [dyn_status creactor ring_client uring_dyn ring_clock rreactor].
  destruct (ripe_status l e HB (in_ring_pending _ _ _ _ HB HR) Hr) as [->|(l' & -> & Hr')].
  - left. eexists. split; [done|]. split; [by apply (built_clock e)|]. split; [done|]. split; [by apply (ripe_clock l e)|done].
  - destruct (uring_status _ _ _).
    + left. eexists. split; [done|]. split; [by apply (built_clock e)|]. split; [done|]. split; [by apply (ripe_clock (S l') e)|done].
    + right. eexists _, l'. split; [done|]. split; [|lia]. split; [by apply (built_clock e)|done].
Qed.
Next Obligation.
  intros n l k f e (HB & HR & Hr & Hu). destruct (in_ring_poll n k f e HB HR) as
    (e' & ks & Hp & HB' & Hrd & Hu' & [(-> & (n' & Hn & HR') & Hl)|(-> & HA & Hc)]).
  - left. exists e', n', ring_looks. split; [done|]. split; [|done]. split; [done|]. split; [done|]. split; [|by rewrite Hu'].
    unfold Ripe, ring_looks. destruct always_poll; [by left|right].
    assert (Hp' := now_passes (rreads e)). assert (Hm := ring_now_mono (rreads e + W) (rreads e' + W) ltac:(lia)).
    destruct HB as [_ _ _ Hlast]. destruct Hl; lia.
  - right. exists e'. split; [done|]. split; [done|]. split; [done|]. by rewrite Hu'.
Qed.
Next Obligation.
  intros k f e (HB & HA & Hc & Hu). destruct (answered_poll k f e HB HA Hc) as (e' & f' & res & Hp & HA' & HB' & Hc' & Hu').
  exists e', f', (cqe_result res). split; [done|]. split; [|by exists res]. split; [done|]. cbn. by rewrite Hu'.
Qed.

(** ** The call *)

Context (genv : string -> option string).
Context (ho : forall X : Type, list (string * X) -> list (string * X)).
Context (ho_perm : forall X (l : list (string * X)), ho X l ≡ₚ l).
Context {C SL : Type} `{FifoChan C} `{Slab (option (Task (TaskFuture SqeFuture))) SL}.
Context (cfg : SchedulingConfig) (name : string) (Hcfg : ConfigOk (C := C) cfg).
#[local] Instance ring_program : Program (result Z Z) SqeFuture (RingEnv R) :=
  client_program ring_client (ROk 0%Z) genv ho ho_perm.
Implicit Types (w : World (result Z Z) (RingEnv R) C SL).

(** C23. A file operation ends.  On a runtime with the ring's reactor as its only one and
    nothing in flight, [block_on] of an operation returns, with a result the kernel may
    give, when the kernel takes the entry and completes it within [N0] polls, and the
    runtime is patient enough: the clock passes [wait_complete_timeout] within [W]
    readings (none with PLUVIO_URING_ALWAYS_POLL), and [PLUVIO_MAX_STUCK_ITERATIONS] is
    at least [W + 1] times the passes between two looks at the reactor.  Nothing is in
    flight afterwards, so that the next operation can start. *)
Theorem block_on_file_op nm (x : ReactorWrapper (RingEnv R)) fuel w :
  Idle ring_client cfg name (Quiet (1 + more)) x w ->
  (Z.of_nat (S ring_looks * S (patience cfg)) <= max_stuck_iterations)%Z ->
  S N0 * S ring_looks * S (patience cfg) < fuel -> (0 <= iteration_count (rt w))%Z ->
  (iteration_count (rt w) + Z.of_nat (S N0 * S ring_looks * S (patience cfg)) < u64_max)%Z ->
  exists w' (x' : ReactorWrapper (RingEnv R)) res, block_on_with_name_and_runtime fuel nm (SqeStart sqe) w = Ok (w', Some (cqe_result res)) /\
    Answer res /\ Idle ring_client cfg name (Quiet more) x' w'.
Proof.
  intros [I1 I2 I3 I4] Hstuck Hf Hi Hit.
  destruct (block_on_returns ring_client (ROk 0%Z) genv ho ho_perm cfg name (SqeStart sqe) Hcfg nm x fuel N0 w)
    as (w' & x' & v & Hb & [J1 J2 J3 [J4 (res & -> & Hres)]]); try done.
  by exists w', x', res.
Qed.
End ring.

(** ** Witness *)

Lemma demo_kernel thread sqe : Kernel (mkParams 64 50 100 None) thread sqe 1 (eq 7%Z) (R := ListRing.t).
Proof.
  assert (He : forall r : ListRing.t, ListRing.inflight r = [] -> r = ListRing.mk [] []).
  { intros [s q] Hr. unfold ListRing.inflight in Hr. cbn in Hr. rewrite fmap_app in Hr.
    apply app_nil in Hr as [Hq Hs]. apply fmap_nil_inv in Hq as ->. by apply fmap_nil_inv in Hs as ->. }
  split.
  - intros r ->%He. cbn. eauto.
  - intros r u ->%He. eexists _, 7%Z. split; [done|]. by destruct thread.
Qed.

(** Default configuration of the runtime and a reactor that waits for 100 nanoseconds,
    on a clock of one per reading: [read] of a file returns 7 bytes. *)
Lemma block_on_file_op_witness :
  let ho := fun X (l : list (string * X)) => l in
  let perm := fun X (l : list (string * X)) => Permutation_refl l in
  let read := DmaFile_read (mkFile 3) [0; 0]%Z 16 in
  exists (w w' : World (result Z Z) (RingEnv ListRing.t) (Inner nat) (gmap nat (option (Task (TaskFuture SqeFuture))))),
    fresh_world (ring_client Z.of_nat false) (ROk 0%Z) (fun _ => None) ho perm SchedulingConfig_default "uring"
      (mkRingEnv (mkUring (ListRing.mk [] []) ∅ ∅ 0 0 (mkAlloc [] [] ∅ 0) 0 (mkParams 64 50 100 None) 0 None) 0) = Ok w /\
    block_on_with_name_and_runtime (H := ring_program Z.of_nat false (fun _ => None) ho perm) 22019 "read" read w =
      Ok (w', Some (ROk 7%Z)).
Proof.
  intros ho perm read.
  destruct (fresh_idle (C := Inner nat) (SL := gmap nat (option (Task (TaskFuture SqeFuture)))) (ring_client Z.of_nat false)
    (ROk 0%Z) (fun _ => None) ho perm SchedulingConfig_default "uring" default_config_ok
    (Quiet Z.of_nat (mkParams 64 50 100 None) false (1 + 0))
    (mkRingEnv (mkUring (ListRing.mk [] []) ∅ ∅ 0 0 (mkAlloc [] [] ∅ 0) 0 (mkParams 64 50 100 None) 0 None) 0))
    as (w & x & Hw & HI & Hi).
  { split; [|done]. by split. }
  exists w. destruct (block_on_file_op Z.of_nat false (mkParams 64 50 100 None) false (read_entry (mkFile 3) [0; 0]%Z 16) 1 100
    (eq 7%Z) (demo_kernel _ _) ltac:(lia) ltac:(cbn; lia) 0 ltac:(lia) (fun _ => None) ho perm SchedulingConfig_default "uring"
    default_config_ok "read" x 22019 w HI) as (w' & x' & res & Hb & <- & _).
  - vm_compute. discriminate.
  - apply Nat.ltb_lt. by vm_compute.
  - by rewrite Hi.
  - rewrite Hi. vm_compute. done.
  - exists w'. by split.
Defined.

(** Patience is needed: the runtime counts passes and the reactor waits for time.  With
    PLUVIO_MAX_STUCK_ITERATIONS at 1000 and passes so short that the clock does not move
    in a thousand of them, [block_on] of an operation the kernel would complete at the
    first poll panics. *)
Example impatient_block_on_panics :
  let ho := fun X (l : list (string * X)) => l in
  let perm := fun X (l : list (string * X)) => Permutation_refl l in
  let genv := fun s => if String.eqb s "PLUVIO_MAX_STUCK_ITERATIONS" then Some "1000"%string else None in
  (w ← fresh_world (SL := gmap nat (option (Task (TaskFuture SqeFuture)))) (C := Inner nat)
         (ring_client (fun _ => 0%Z) false) (ROk 0%Z) genv ho perm SchedulingConfig_default "uring"
         (mkRingEnv (mkUring (ListRing.mk [] []) ∅ ∅ 0 0 (mkAlloc [] [] ∅ 0) 0 (mkParams 64 50 100 None) 0 None) 0);
   block_on_with_name_and_runtime (H := ring_program (fun _ => 0%Z) false genv ho perm) 2000 "read"
     (DmaFile_read (mkFile 3) [0; 0]%Z 16) w) = Panic "block_on deadlock detected".
Proof. vm_compute. reflexivity. Qed.
