(* ===== verification/UcxWorker.v ===== *)
(** * UcxWorker: the UCX reactor and its workers
    ([pluvio_ucx/src/reactor.rs], [worker/mod.rs], [am.rs], [endpoint.rs], [listener.rs])

    The crate [async_ucx] is not part of the repository: its futures are
    parameters.  What the repository adds around them is modelled: the state of
    each worker, the counter of workers that are not inactive, on which the
    reactor's status rests, and the operations that move both.  Workers are shared
    ([Rc]), so they live in a store and are named by their address. *)

From stdpp Require Import pretty.
From S2P Require Import Prelude Future Slab Executor.
Local Open Scope Z_scope.

(** ** State *)

Inductive WorkerState : Type := Active | WaitConnect | Inactive.
#[export] Instance WorkerState_eq_dec : EqDecision WorkerState.
Proof. solve_decision. Defined.

Record UcxWorker : Type := mkWorker {
  wid : nat;
  wstate : WorkerState;
  listener_ids : gset string;
  wait_connect_start : option Z
}.

(** [ReactorStats]: the rows written so far, and whether there is a writer. *)
Record ReactorStats : Type := mkRStats {
  last_ns : option Z;
  rcount : nat;
  csv : option (list Z)
}.

Record UCXReactor (SL : Type) : Type := mkUcx {
  uworkers : gmap nat UcxWorker;
  unext : nat;
  registered_workers : SL;
  active_or_waiting_count : Z;
  connection_timeout : Z;
  ustats : option ReactorStats;
  stats_enabled : bool
}.
Arguments mkUcx {SL} _ _ _ _ _ _ _.
Arguments uworkers {SL} _.
Arguments unext {SL} _.
Arguments registered_workers {SL} _.
Arguments active_or_waiting_count {SL} _.
Arguments connection_timeout {SL} _.
Arguments ustats {SL} _.
Arguments stats_enabled {SL} _.

Section ucx.
Context {SL : Type} `{Slab nat SL}.
Implicit Types (u : UCXReactor SL) (w : nat).

(** [PLUVIO_CONNECTION_TIMEOUT]: seconds; [parse] is the standard library's. *)
Definition UCXReactor_new (getenv : string -> option string) (parse : string -> option Z) : UCXReactor SL :=
  mkUcx ∅ 0 slab_new 0
    (default 30 (s ← getenv "PLUVIO_CONNECTION_TIMEOUT"%string; parse s)) None false.

(** [UCXReactor::current]: made at the first use on a thread. *)
Definition current (mk : UCXReactor SL) (cell : option (UCXReactor SL)) : UCXReactor SL :=
  match cell with Some u => u | None => mk end.

Definition with_workers (ws : gmap nat UcxWorker) u : UCXReactor SL :=
  mkUcx ws (unext u) (registered_workers u) (active_or_waiting_count u) (connection_timeout u) (ustats u)
    (stats_enabled u).
Definition with_count (n : Z) u : UCXReactor SL :=
  mkUcx (uworkers u) (unext u) (registered_workers u) n (connection_timeout u) (ustats u) (stats_enabled u).
Definition with_registered (s : SL) u : UCXReactor SL :=
  mkUcx (uworkers u) (unext u) s (active_or_waiting_count u) (connection_timeout u) (ustats u)
    (stats_enabled u).
Definition with_stats (s : option ReactorStats) (b : bool) u : UCXReactor SL :=
  mkUcx (uworkers u) (unext u) (registered_workers u) (active_or_waiting_count u) (connection_timeout u) s b.

(** [fetch_add] and [fetch_sub] wrap. *)
Definition increment_active_count u : UCXReactor SL := with_count (wrap64 (active_or_waiting_count u + 1)) u.
Definition decrement_active_count u : UCXReactor SL := with_count (wrap64 (active_or_waiting_count u - 1)) u.

Definition register_worker (w : nat) u : UCXReactor SL * nat :=
  let (s, id) := slab_insert w (registered_workers u) in (with_registered s u, id).
Definition unregister_worker (id : nat) u : outcome (UCXReactor SL) :=
  s ← slab_remove id (registered_workers u); mret (with_registered s u).

(** [Worker::new] makes an inactive worker, registers it, then records its id. *)
Definition Worker_new u : UCXReactor SL * nat :=
  let w := unext u in
  let u := mkUcx (<[w := mkWorker 0 Inactive ∅ None]> (uworkers u)) (S w) (registered_workers u)
             (active_or_waiting_count u) (connection_timeout u) (ustats u) (stats_enabled u) in
  let (u, id) := register_worker w u in
  (with_workers (<[w := mkWorker id Inactive ∅ None]> (uworkers u)) u, w).

(** [Context::create_worker]: [create] is what the UCX context returns. *)
Definition create_worker {E} (create : result unit E) u : UCXReactor SL * result nat E :=
  match create with
  | RErr e => (u, RErr e)
  | ROk _ => let (u, w) := Worker_new u in (u, ROk w)
  end.

(** Runs [f] on the worker at [w]; its address comes from an [Rc], so there is one. *)
Definition on_worker (w : nat) (f : UcxWorker -> UcxWorker) u : UCXReactor SL :=
  with_workers (alter f w (uworkers u)) u.
Definition worker_state w u : WorkerState :=
  match uworkers u !! w with Some x => wstate x | None => Inactive end.
Definition set_state (st : WorkerState) (x : UcxWorker) : UcxWorker :=
  mkWorker (wid x) st (listener_ids x) (wait_connect_start x).
Definition set_start (t : option Z) (x : UcxWorker) : UcxWorker :=
  mkWorker (wid x) (wstate x) (listener_ids x) t.
Definition set_ids (s : gset string) (x : UcxWorker) : UcxWorker :=
  mkWorker (wid x) (wstate x) s (wait_connect_start x).
Definition worker_ids w u : gset string :=
  match uworkers u !! w with Some x => listener_ids x | None => ∅ end.

(** [wait_connect_start.get().as_mut().take()] empties the [Option] that
    [as_mut] just made, not the cell: it leaves the state as it is. *)
Definition take_wait_connect_start w u : UCXReactor SL := u.

Definition activate w u : UCXReactor SL :=
  let old_state := worker_state w u in
  let u := on_worker w (set_state Active) u in
  let u := take_wait_connect_start w u in
  if decide (old_state = Inactive) then increment_active_count u else u.

Definition deactivate (now : Z) w u : UCXReactor SL :=
  let old_state := worker_state w u in
  if decide (worker_ids w u = ∅) then
    let u := on_worker w (set_state Inactive) u in
    let u := take_wait_connect_start w u in
    if decide (old_state = Inactive) then u else decrement_active_count u
  else on_worker w (set_start (Some now)) (on_worker w (set_state WaitConnect) u).

Definition wait_connect (now : Z) w u : UCXReactor SL :=
  let old_state := worker_state w u in
  let u := on_worker w (set_start (Some now)) (on_worker w (set_state WaitConnect) u) in
  if decide (old_state = Inactive) then increment_active_count u else u.

Definition wait_start_time w u : option Z := x ← uworkers u !! w; wait_connect_start x.

Definition add_id (id : string) w u : UCXReactor SL := on_worker w (fun x => set_ids ({[id]} ∪ listener_ids x) x) u.
Definition remove_id (id : string) w u : UCXReactor SL := on_worker w (fun x => set_ids (listener_ids x ∖ {[id]}) x) u.

(** ** Listeners and streams *)

Record Listener : Type := mkListener { lworker : nat; lid : string }.

(** [created] is what [async_ucx] returned. *)
Definition create_listener {E} (created : result unit E) (now : Z) (addr : string) w u :
    UCXReactor SL * result Listener E :=
  match created with
  | ROk _ =>
      let u := if decide (worker_state w u = Inactive) then wait_connect now w u else u in
      (add_id addr w u, ROk (mkListener w addr))
  | RErr e => (u, RErr e)
  end.
Definition Listener_drop (now : Z) (l : Listener) u : UCXReactor SL :=
  deactivate now (lworker l) (remove_id (lid l) (lworker l) u).

(** [AmStream] is [Clone]; a clone is the same pair. *)
Record AmStream : Type := mkStream { sworker : nat; sid : Z }.

Definition am_stream {E} (created : result unit E) (id : Z) w u : UCXReactor SL * result AmStream E :=
  match created with
  | ROk _ => (add_id (pretty id) w u, ROk (mkStream w id))
  | RErr e => (u, RErr e)
  end.
Definition AmStream_drop (now : Z) (s : AmStream) u : UCXReactor SL :=
  deactivate now (sworker s) (remove_id (pretty (sid s)) (sworker s) u).

(** ** Operations around a future of [async_ucx] *)

(** An [async fn] that runs [enter], awaits the future of [async_ucx], and runs
    [leave]: not started, waiting, finished. *)
Inductive OpStage : Type := OpStart | OpWait | OpDone.

Section bracket.
(** [L] is the state of the library. *)
Context {L I A : Type} (inner_poll : Waker -> I -> L -> L * I * Poll A).

Definition bracket_poll (enter leave : UCXReactor SL -> UCXReactor SL) (k : Waker) (st : OpStage) (i : I) (l : L) u :
    outcome (L * UCXReactor SL * OpStage * I * Poll A) :=
  match st with
  | OpDone => Panic "`async fn` resumed after completion"
  | _ =>
      let u := match st with OpStart => enter u | _ => u end in
      match inner_poll k i l with
      | (l, i, Ready a) => mret (l, leave u, OpDone, i, Ready a)
      | (l, i, Pending) => mret (l, u, OpWait, i, Pending)
      end
  end.

(** [connect_socket], [accept], [tag_recv], [tag_recv_mask], [tag_recv_vectored],
    [put], [get], [stream_send], [stream_recv], [tag_send], [tag_send_vectored]. *)
Definition worker_op_poll (now : Z) w (k : Waker) (st : OpStage) (i : I) (l : L) u :
    outcome (L * UCXReactor SL * OpStage * I * Poll A) :=
  bracket_poll (activate w) (deactivate now w) k st i l u.
(** [am_send] and [am_send_vectorized] leave the worker active. *)
Definition am_send_poll w (k : Waker) (st : OpStage) (i : I) (l : L) u :
    outcome (L * UCXReactor SL * OpStage * I * Poll A) :=
  bracket_poll (activate w) id k st i l u.
Definition wait_msg_poll (now : Z) (s : AmStream) (k : Waker) (st : OpStage) (i : I) (l : L) u :
    outcome (L * UCXReactor SL * OpStage * I * Poll A) :=
  bracket_poll (wait_connect now (sworker s)) (deactivate now (sworker s)) k st i l u.
End bracket.

(** [connect_addr] changes no state. *)
Definition connect_addr {E} (connected : result unit E) w : result nat E :=
  match connected with ROk _ => ROk w | RErr e => RErr e end.

(** ** The reactor *)

Definition ReactorStats_new (path : option string) : ReactorStats :=
  mkRStats None 0 (match path with Some _ => Some [] | None => None end).
(** [(now_ns - prev) / 1000]; the clock is monotonic. *)
Definition record (now_ns : Z) (s : ReactorStats) : ReactorStats :=
  mkRStats (Some now_ns) (S (rcount s))
    (match last_ns s, csv s with
     | Some prev, Some rows => Some (rows ++ [(now_ns - prev) / 1000])
     | _, rows => rows
     end).
(** [File::create] may fail; the reactor then keeps its old recorder. *)
Definition enable_stats {E} (path : option string) (file : result unit E) u : UCXReactor SL * result unit E :=
  match path, file with
  | Some _, RErr e => (u, RErr e)
  | _, _ => (with_stats (Some (ReactorStats_new path)) true u, ROk tt)
  end.
Definition disable_stats u : UCXReactor SL := with_stats (ustats u) false u.
Definition stats_len u : nat := match ustats u with Some s => rcount s | None => 0 end.

Definition ucx_status u : ReactorStatus := if 0 <? active_or_waiting_count u then Running else Stopped.

(** The workers whose [progress] is called, in order. *)
Definition ucx_poll (now_ns : Z) u : UCXReactor SL * list nat :=
  let u := if stats_enabled u
           then with_stats (record now_ns <$> ustats u) (stats_enabled u) u else u in
  (u, (slab_iter (registered_workers u)).*2).
End ucx.

(** ** Programs over the reactor *)

Inductive UcxEvent : Type :=
| UNew
| UActivate (w : nat)
| UDeactivate (w : nat) (now : Z)
| UWaitConnect (w : nat) (now : Z)
| UCreateListener (w : nat) (addr : string) (now : Z)
| UDropListener (l : Listener) (now : Z)
| UAmStream (w : nat) (id : Z)
| UDropStream (s : AmStream) (now : Z)
| UPoll (now_ns : Z).

Definition event_worker (e : UcxEvent) : option nat :=
  match e with
  | UActivate w | UDeactivate w _ | UWaitConnect w _ | UCreateListener w _ _ | UAmStream w _ => Some w
  | UDropListener l _ => Some (lworker l)
  | UDropStream s _ => Some (sworker s)
  | UNew | UPoll _ => None
  end.

Section run.
Context {SL : Type} `{Slab nat SL}.
Implicit Types (u : UCXReactor SL).

Definition ucx_event (e : UcxEvent) u : UCXReactor SL :=
  match e with
  | UNew => (Worker_new u).1
  | UActivate w => activate w u
  | UDeactivate w now => deactivate now w u
  | UWaitConnect w now => wait_connect now w u
  | UCreateListener w addr now => (create_listener (E := unit) (ROk tt) now addr w u).1
  | UDropListener l now => Listener_drop now l u
  | UAmStream w id => (am_stream (E := unit) (ROk tt) id w u).1
  | UDropStream s now => AmStream_drop now s u
  | UPoll now => (ucx_poll now u).1
  end.
Definition ucx_run (es : list UcxEvent) u : UCXReactor SL := foldl (flip ucx_event) u es.
End run.

(** * Facts *)

Definition counted (x : UcxWorker) : bool := bool_decide (wstate x <> Inactive).
(** The workers that are not inactive. *)
Definition busy (ws : gmap nat UcxWorker) : gmap nat UcxWorker := filter (fun p => counted p.2 = true) ws.

Lemma busy_insert ws w x y :
  ws !! w = Some x ->
  Z.of_nat (size (busy (<[w := y]> ws))) =
    Z.of_nat (size (busy ws)) + Z.b2z (counted y) - Z.b2z (counted x).
Proof.
  intros Hw. assert (Hb : forall z, Z.of_nat (size (busy (<[w := z]> (delete w ws)))) =
    Z.of_nat (size (busy (delete w ws))) + Z.b2z (counted z)).
  { intros z. unfold busy. rewrite map_filter_insert. cbn [snd]. case_decide as Hz.
    - rewrite map_size_insert_None by (rewrite map_lookup_filter_None; left; apply lookup_delete_eq).
      rewrite Hz. cbn. lia.
    - apply not_true_is_false in Hz. rewrite Hz, delete_delete_eq. cbn. lia. }
  rewrite <- (insert_delete_eq ws w y), Hb. rewrite <- (insert_delete_id ws w x) at 2 by done. rewrite Hb. lia.
Qed.

Lemma busy_insert_new ws w y :
  ws !! w = None -> Z.of_nat (size (busy (<[w := y]> ws))) = Z.of_nat (size (busy ws)) + Z.b2z (counted y).
Proof.
  intros Hw. unfold busy. rewrite map_filter_insert. cbn [snd]. case_decide as Hy.
  - rewrite map_size_insert_None by (rewrite map_lookup_filter_None; by left). rewrite Hy. cbn. lia.
  - apply not_true_is_false in Hy. rewrite Hy, delete_id by done. cbn. lia.
Qed.

Lemma busy_le ws : (size (busy ws) <= size ws)%nat.
Proof.
  rewrite <- !size_dom. apply subseteq_size. intros w Hw. apply elem_of_dom.
  apply elem_of_dom in Hw as [x Hx]. apply map_lookup_filter_Some in Hx as [Hx _]. eauto.
Qed.

Section facts.
Context {SL : Type} `{Slab nat SL}.
Implicit Types (u : UCXReactor SL) (w : nat).

(** The counter is the number of workers that are not inactive. *)
Record CountOk (bound : Z) u : Prop := {
  ck_count : active_or_waiting_count u = Z.of_nat (size (busy (uworkers u)));
  ck_size : Z.of_nat (size (uworkers u)) <= bound;
  ck_next w : is_Some (uworkers u !! w) -> (w < unext u)%nat
}.

Lemma ck_range bound u : CountOk bound u -> 0 <= active_or_waiting_count u <= bound.
Proof. intros HC. rewrite (ck_count _ _ HC). assert (Hl := busy_le (uworkers u)). assert (Hs := ck_size _ _ HC). lia. Qed.

(** A change of one worker, with the counter adjusted accordingly. *)
Lemma count_step bound u u' w x f d :
  CountOk bound u -> bound < 2 ^ 64 -> uworkers u !! w = Some x ->
  uworkers u' = alter f w (uworkers u) -> unext u' = unext u ->
  d = Z.b2z (counted (f x)) - Z.b2z (counted x) ->
  active_or_waiting_count u' = wrap64 (active_or_waiting_count u + d) -> CountOk bound u'.
Proof.
  intros HC Hb Hx Hw Hn -> Hc.
  assert (Ha : alter f w (uworkers u) = <[w := f x]> (uworkers u)).
  { rewrite <- (insert_id _ _ _ Hx) at 1. apply alter_insert_eq. }
  assert (Hs : Z.of_nat (size (busy (uworkers u'))) =
    Z.of_nat (size (busy (uworkers u))) + Z.b2z (counted (f x)) - Z.b2z (counted x)).
  { rewrite Hw, Ha. by apply busy_insert. }
  assert (Hsz : size (uworkers u') = size (uworkers u)).
  { rewrite Hw, Ha. apply map_size_insert_Some. eauto. }
  assert (Hl := busy_le (uworkers u')). destruct HC as [C1 C2 C3]. split.
  - rewrite Hc, C1, wrap64_small; [lia|]. unfold in_u64. lia.
  - lia.
  - intros v. rewrite Hw, Hn. rewrite lookup_alter_is_Some. apply C3.
Qed.

Lemma wrap_same bound u : CountOk bound u -> bound < 2 ^ 64 ->
  active_or_waiting_count u = wrap64 (active_or_waiting_count u + 0).
Proof. intros HC Hb. assert (Hr := ck_range _ _ HC). rewrite wrap64_small; [lia|]. unfold in_u64. lia. Qed.

(** Changes that touch no state keep the counter right. *)
Lemma count_quiet bound u w x f :
  CountOk bound u -> bound < 2 ^ 64 -> uworkers u !! w = Some x -> wstate (f x) = wstate x ->
  CountOk bound (on_worker w f u).
Proof.
  intros HC Hb Hx Hf. eapply (count_step _ u _ w x f 0); try done.
  - unfold counted. rewrite Hf. lia.
  - cbn. by eapply wrap_same.
Qed.

Lemma worker_state_at w u x : uworkers u !! w = Some x -> worker_state w u = wstate x.
Proof. intros Hx. unfold worker_state. by rewrite Hx. Qed.

Lemma activate_count bound u w : CountOk bound u -> bound < 2 ^ 64 -> is_Some (uworkers u !! w) ->
  CountOk bound (activate w u).
Proof.
  intros HC Hb [x Hx]. unfold activate, take_wait_connect_start. rewrite (worker_state_at _ _ _ Hx).
  destruct (decide (wstate x = Inactive)) as [Hs|Hs].
  - eapply (count_step _ u _ w x (set_state Active) 1); try done.
    unfold counted. cbn. by rewrite Hs.
  - eapply (count_step _ u _ w x (set_state Active) 0); try done; [|cbn; by eapply wrap_same].
    unfold counted. cbn. by rewrite !bool_decide_true by done.
Qed.

Lemma wait_connect_count bound now u w : CountOk bound u -> bound < 2 ^ 64 -> is_Some (uworkers u !! w) ->
  CountOk bound (wait_connect now w u).
Proof.
  intros HC Hb [x Hx]. unfold wait_connect. rewrite (worker_state_at _ _ _ Hx).
  assert (Ha : uworkers (on_worker w (set_start (Some now)) (on_worker w (set_state WaitConnect) u)) =
    alter (fun x => set_start (Some now) (set_state WaitConnect x)) w (uworkers u))
    by (apply alter_alter_eq).
  destruct (decide (wstate x = Inactive)) as [Hs|Hs].
  - eapply (count_step _ u _ w x _ 1); [done|done|done|exact Ha|done| |done].
    unfold counted. cbn. by rewrite Hs.
  - eapply (count_step _ u _ w x _ 0); [done|done|done|exact Ha|done| |cbn; by eapply wrap_same].
    unfold counted. cbn. by rewrite !bool_decide_true by done.
Qed.

(** An operation or a listener ends on a worker that is counted, or that has no
    listener left. *)
Definition ends_counted (w : nat) (u : UCXReactor SL) : Prop :=
  worker_state w u = Inactive -> worker_ids w u = ∅.

Lemma deactivate_count bound now u w : CountOk bound u -> bound < 2 ^ 64 -> is_Some (uworkers u !! w) ->
  ends_counted w u -> CountOk bound (deactivate now w u).
Proof.
  intros HC Hb [x Hx] He. unfold deactivate, take_wait_connect_start.
  unfold ends_counted in He. rewrite (worker_state_at _ _ _ Hx) in *.
  destruct (decide (worker_ids w u = ∅)) as [Hi|Hi].
  - destruct (decide (wstate x = Inactive)) as [Hs|Hs].
    + eapply (count_step _ u _ w x (set_state Inactive) 0); try done; [|cbn; by eapply wrap_same].
      unfold counted. cbn. by rewrite Hs.
    + eapply (count_step _ u _ w x (set_state Inactive) (-1)); try done.
      assert (counted x = true) as -> by by apply bool_decide_eq_true. done.
  - eapply (count_step _ u _ w x (fun x => set_start (Some now) (set_state WaitConnect x)) 0);
      [done|done|done|apply alter_alter_eq|done| |cbn; by eapply wrap_same].
    unfold counted. cbn. rewrite !bool_decide_true; [done| |done]. intros Hs. by apply Hi, He.
Qed.

Lemma new_count bound u : CountOk bound u -> CountOk (bound + 1) (Worker_new u).1.
Proof.
  intros [C1 C2 C3]. unfold Worker_new, register_worker. cbn. destruct (slab_insert _ _) as [s id]. cbn.
  assert (Hn : uworkers u !! unext u = None).
  { apply eq_None_not_Some. intros Hs. specialize (C3 _ Hs). lia. }
  rewrite insert_insert_eq. split; cbn.
  - rewrite C1, busy_insert_new by done. unfold counted. rewrite bool_decide_false by (cbn; tauto). cbn. lia.
  - rewrite map_size_insert_None by done. lia.
  - intros w. destruct (decide (w = unext u)) as [->|]; [lia|].
    rewrite lookup_insert_ne by done. intros Hs. specialize (C3 _ Hs). lia.
Qed.

Lemma worker_ids_state id w u :
  worker_state w (add_id id w u) = worker_state w u /\ worker_state w (remove_id id w u) = worker_state w u.
Proof.
  unfold worker_state, add_id, remove_id, on_worker. cbn. rewrite !lookup_alter_eq. by destruct (uworkers u !! w).
Qed.

(** What a well-behaved program does: it acts on workers there are, and never
    drops a listener or a stream of a worker that is inactive while another is left. *)
Definition event_ok (e : UcxEvent) (u : UCXReactor SL) : Prop :=
  (forall w, event_worker e = Some w -> is_Some (uworkers u !! w)) /\
  match e with
  | UDeactivate w _ => ends_counted w u
  | UDropListener l _ => ends_counted (lworker l) (remove_id (lid l) (lworker l) u)
  | UDropStream s _ => ends_counted (sworker s) (remove_id (pretty (sid s)) (sworker s) u)
  | _ => True
  end.
Fixpoint events_ok (es : list UcxEvent) (u : UCXReactor SL) : Prop :=
  match es with [] => True | e :: es => event_ok e u /\ events_ok es (ucx_event e u) end.

Lemma remove_id_count bound id u w : CountOk bound u -> bound < 2 ^ 64 -> is_Some (uworkers u !! w) ->
  CountOk bound (remove_id id w u) /\ is_Some (uworkers (remove_id id w u) !! w).
Proof.
  intros HC Hb [x Hx]. split; [by eapply count_quiet|]. unfold remove_id. cbn. by rewrite lookup_alter_eq, Hx.
Qed.

Lemma ucx_event_count bound e u : CountOk bound u -> bound + 1 < 2 ^ 64 -> event_ok e u ->
  CountOk (bound + 1) (ucx_event e u).
Proof.
  intros HC Hb [Hw He].
  assert (Hup : forall v, CountOk bound v -> CountOk (bound + 1) v) by (intros v [? ? ?]; split; [done|lia|done]).
  destruct e as [|w|w now|w now|w addr now|l now|w id|s now|now]; cbn [ucx_event] in *;
    try specialize (Hw _ eq_refl); [by apply new_count|apply Hup..].
  - by apply activate_count; [|lia|].
  - by apply deactivate_count; [|lia| |].
  - by apply wait_connect_count; [|lia|].
  - cbn. destruct (decide _); [|destruct Hw as [x Hx]; eapply count_quiet; [done|lia|done|done]].
    assert (HC' := wait_connect_count _ now _ _ HC ltac:(lia) Hw).
    assert (Hs : is_Some (uworkers (wait_connect now w u) !! w)).
    { destruct Hw as [x Hx]. unfold wait_connect. case_match; cbn; by rewrite !lookup_alter_eq, Hx. }
    destruct Hs as [y Hy]. eapply count_quiet; [done|lia|done|done].
  - destruct (remove_id_count bound (lid l) _ _ HC ltac:(lia) Hw). by apply deactivate_count; [|lia| |].
  - destruct Hw as [x Hx]. eapply count_quiet; [done|lia|done|done].
  - destruct (remove_id_count bound (pretty (sid s)) _ _ HC ltac:(lia) Hw). by apply deactivate_count; [|lia| |].
  - unfold ucx_poll. destruct HC as [C1 C2 C3]. destruct (stats_enabled u); by split.
Qed.

Lemma ucx_run_count bound es u : CountOk bound u -> bound + Z.of_nat (length es) < 2 ^ 64 -> events_ok es u ->
  CountOk (bound + Z.of_nat (length es)) (ucx_run es u).
Proof.
  revert bound u. induction es as [|e es IH]; intros bound u HC Hb He; cbn in *.
  - by rewrite Z.add_0_r.
  - destruct He as [He Hes]. replace (bound + _) with (bound + 1 + Z.of_nat (length es)) by lia.
    apply IH; [apply ucx_event_count; [done|lia|done]|lia|done].
Qed.

(** C17. The reactor is polled exactly while a worker needs it.  Through any
    well-behaved sequence of fewer than [2 ^ 64] operations on any number of
    workers, the counter equals the number of workers that are active or waiting for
    a connection, without wrapping, so the status, which reads only the counter, is
    Running exactly when there is such a worker. *)
Theorem ucx_counter_exact getenv parse es :
  let u := ucx_run es (UCXReactor_new getenv parse) in
  Z.of_nat (length es) < 2 ^ 64 -> events_ok es (UCXReactor_new getenv parse) ->
  active_or_waiting_count u = Z.of_nat (size (busy (uworkers u))) /\
  (ucx_status u = Running <-> exists w, worker_state w u <> Inactive).
Proof.
  cbv zeta. intros Hl He.
  assert (HC : CountOk 0 (UCXReactor_new getenv parse)) by (split; cbn; [done|done|by intros w [x ?]]).
  apply (ucx_run_count _ es) in HC; [|lia|done]. set (u := ucx_run _ _) in *.
  split; [apply HC|]. unfold ucx_status. rewrite (ck_count _ _ HC). split.
  - destruct (Z.ltb_spec 0 (Z.of_nat (size (busy (uworkers u))))) as [Hp|]; [|done]. intros _.
    destruct (map_choose (busy (uworkers u))) as (w & x & Hx).
    { intros Hb. rewrite Hb, map_size_empty in Hp. lia. }
    apply map_lookup_filter_Some in Hx as [Hx Hc]. exists w. rewrite (worker_state_at _ _ _ Hx).
    by apply bool_decide_eq_true in Hc.
  - intros [w Hw]. unfold worker_state in Hw. destruct (uworkers u !! w) as [x|] eqn:Hx; [|done].
    assert (Hb : busy (uworkers u) !! w = Some x).
    { apply map_lookup_filter_Some. split; [done|]. by apply bool_decide_eq_true. }
    destruct (Z.ltb_spec 0 (Z.of_nat (size (busy (uworkers u))))) as [|Hle]; [done|].
    assert (Hz : size (busy (uworkers u)) = 0%nat) by lia. apply map_size_empty_inv in Hz. by rewrite Hz in Hb.
Qed.

(** ** Any sequence of operations: how far the counter is off *)

(** The event ends on a worker that is inactive, so not counted, and has a listener or
    a stream left: [deactivate] moves it to [WaitConnect] without counting it. *)
Definition uncounted_at (w : nat) u : bool :=
  bool_decide (worker_state w u = Inactive) && negb (bool_decide (worker_ids w u = ∅)).
Definition uncounted (e : UcxEvent) u : bool :=
  match e with
  | UDeactivate w _ => uncounted_at w u
  | UDropListener l _ => uncounted_at (lworker l) (remove_id (lid l) (lworker l) u)
  | UDropStream s _ => uncounted_at (sworker s) (remove_id (pretty (sid s)) (sworker s) u)
  | _ => false
  end.
(** How many events of a sequence do. *)
Fixpoint uncounted_in (es : list UcxEvent) u : Z :=
  match es with [] => 0 | e :: es => Z.b2z (uncounted e u) + uncounted_in es (ucx_event e u) end.
(** The events act on workers there are. *)
Fixpoint events_there (es : list UcxEvent) u : Prop :=
  match es with
  | [] => True
  | e :: es => (forall w, event_worker e = Some w -> is_Some (uworkers u !! w)) /\ events_there es (ucx_event e u)
  end.

(** The counter is short of the busy workers by [k], modulo [2 ^ 64]; there are at most [b]. *)
Record Drift (b k : Z) u : Prop := {
  dr_count : active_or_waiting_count u = wrap64 (Z.of_nat (size (busy (uworkers u))) - k);
  dr_size : Z.of_nat (size (uworkers u)) <= b;
  dr_next w : is_Some (uworkers u !! w) -> (w < unext u)%nat
}.

(** A change of one worker that adds [d] to the counter and [k' - k] to the shortage. *)
Lemma drift_step b k k' u u' w x f d :
  Drift b k u -> uworkers u !! w = Some x -> uworkers u' = alter f w (uworkers u) -> unext u' = unext u ->
  k' - k = Z.b2z (counted (f x)) - Z.b2z (counted x) - d ->
  active_or_waiting_count u' = wrap64 (active_or_waiting_count u + d) -> Drift b k' u'.
Proof.
  intros [C1 C2 C3] Hx Hw Hn Hk Hc.
  assert (Ha : alter f w (uworkers u) = <[w := f x]> (uworkers u)).
  { rewrite <- (insert_id _ _ _ Hx) at 1. apply alter_insert_eq. }
  split.
  - rewrite Hc, C1, Hw, Ha, (busy_insert _ _ _ (f x) Hx). unfold wrap64. rewrite Zplus_mod_idemp_l. f_equal. lia.
  - rewrite Hw, Ha, map_size_insert_Some by eauto. done.
  - intros v. rewrite Hw, Hn. rewrite lookup_alter_is_Some. apply C3.
Qed.

Lemma drift_same b k u : Drift b k u -> active_or_waiting_count u = wrap64 (active_or_waiting_count u + 0).
Proof. intros [-> _ _]. unfold wrap64. by rewrite Z.add_0_r, Z.mod_mod. Qed.

(** What keeps the state of a worker keeps the shortage. *)
Lemma drift_quiet b k u w x f : Drift b k u -> uworkers u !! w = Some x -> wstate (f x) = wstate x ->
  Drift b k (on_worker w f u).
Proof.
  intros HC Hx Hf. eapply (drift_step b k k u _ w x f 0); try done; [|exact (drift_same _ _ _ HC)].
  unfold counted. rewrite Hf. lia.
Qed.

Lemma drift_activate b k u w : Drift b k u -> is_Some (uworkers u !! w) -> Drift b k (activate w u).
Proof.
  intros HC [x Hx]. unfold activate, take_wait_connect_start. rewrite (worker_state_at _ _ _ Hx).
  destruct (decide (wstate x = Inactive)) as [Hs|Hs].
  - eapply (drift_step b k k u _ w x (set_state Active) 1); try done. unfold counted. cbn. by rewrite Hs, Z.sub_diag.
  - eapply (drift_step b k k u _ w x (set_state Active) 0); try done; [|exact (drift_same _ _ _ HC)].
    unfold counted. cbn. rewrite !bool_decide_true by done. cbn. lia.
Qed.

Lemma drift_wait_connect b k now u w : Drift b k u -> is_Some (uworkers u !! w) -> Drift b k (wait_connect now w u).
Proof.
  intros HC [x Hx]. unfold wait_connect. rewrite (worker_state_at _ _ _ Hx).
  assert (Ha : uworkers (on_worker w (set_start (Some now)) (on_worker w (set_state WaitConnect) u)) =
    alter (fun x => set_start (Some now) (set_state WaitConnect x)) w (uworkers u)) by (apply alter_alter_eq).
  destruct (decide (wstate x = Inactive)) as [Hs|Hs].
  - eapply (drift_step b k k u _ w x _ 1); [done|done|exact Ha|done| |done]. unfold counted. cbn. by rewrite Hs, Z.sub_diag.
  - eapply (drift_step b k k u _ w x _ 0); [done|done|exact Ha|done| |exact (drift_same _ _ _ HC)].
    unfold counted. cbn. rewrite !bool_decide_true by done. cbn. lia.
Qed.

Lemma drift_deactivate b k now u w : Drift b k u -> is_Some (uworkers u !! w) ->
  Drift b (k + Z.b2z (uncounted_at w u)) (deactivate now w u).
Proof.
  intros HC [x Hx]. unfold deactivate, take_wait_connect_start, uncounted_at. rewrite (worker_state_at _ _ _ Hx).
  destruct (decide (worker_ids w u = ∅)) as [Hi|Hi].
  - rewrite (bool_decide_true (worker_ids w u = ∅)), andb_false_r, Z.add_0_r by done.
    destruct (decide (wstate x = Inactive)) as [Hs|Hs].
    + eapply (drift_step b k k u _ w x (set_state Inactive) 0); try done; [|exact (drift_same _ _ _ HC)].
      unfold counted. cbn. rewrite Hs. cbn. lia.
    + eapply (drift_step b k k u _ w x (set_state Inactive) (-1)); try done.
      assert (counted x = true) as -> by by apply bool_decide_eq_true. change (counted (set_state Inactive x)) with false. cbn. lia.
  - rewrite (bool_decide_false (worker_ids w u = ∅)), andb_true_r by done.
    eapply (drift_step b k _ u _ w x (fun x => set_start (Some now) (set_state WaitConnect x)) 0);
      [done|done|apply alter_alter_eq|done| |exact (drift_same _ _ _ HC)].
    change (counted (set_start (Some now) (set_state WaitConnect x))) with true. unfold counted.
    destruct (decide (wstate x = Inactive)) as [Hs|Hs].
    + rewrite (bool_decide_true (wstate x = Inactive)), bool_decide_false by tauto. cbn. lia.
    + rewrite (bool_decide_false (wstate x = Inactive)), bool_decide_true by done. cbn. lia.
Qed.

Lemma drift_new b k u : Drift b k u -> Drift (b + 1) k (Worker_new u).1.
Proof.
  intros [C1 C2 C3]. unfold Worker_new, register_worker. cbn. destruct (slab_insert _ _) as [s id]. cbn.
  assert (Hn : uworkers u !! unext u = None).
  { apply eq_None_not_Some. intros Hs. specialize (C3 _ Hs). lia. }
  rewrite insert_insert_eq. split; cbn.
  - rewrite C1, busy_insert_new by done. unfold counted. rewrite bool_decide_false by (cbn; tauto). cbn. f_equal. lia.
  - rewrite map_size_insert_None by done. lia.
  - intros w. destruct (decide (w = unext u)) as [->|]; [lia|].
    rewrite lookup_insert_ne by done. intros Hs. specialize (C3 _ Hs). lia.
Qed.

Lemma drift_event b k e u : Drift b k u -> (forall w, event_worker e = Some w -> is_Some (uworkers u !! w)) ->
  Drift (b + 1) (k + Z.b2z (uncounted e u)) (ucx_event e u).
Proof.
  intros HC Hw.
  assert (Hup : forall k' v, Drift b k' v -> Drift (b + 1) k' v) by (intros k' v [? ? ?]; split; [done|lia|done]).
  assert (Hrem : forall w id, is_Some (uworkers u !! w) ->
    Drift b k (remove_id id w u) /\ is_Some (uworkers (remove_id id w u) !! w)).
  { intros w id [x Hx]. split; [by eapply drift_quiet|]. unfold remove_id. cbn. by rewrite lookup_alter_eq, Hx. }
  destruct e as [|w|w now|w now|w addr now|l now|w id|s now|now]; cbn [ucx_event uncounted] in *;
    try specialize (Hw _ eq_refl); rewrite ?Z.add_0_r; [by apply drift_new|apply Hup..].
  - by apply drift_activate.
  - by apply drift_deactivate.
  - by apply drift_wait_connect.
  - cbn. assert (HC' : Drift b k (if decide (worker_state w u = Inactive) then wait_connect now w u else u) /\
      is_Some (uworkers (if decide (worker_state w u = Inactive) then wait_connect now w u else u) !! w)).
    { case_decide; [|done]. split; [by apply drift_wait_connect|]. destruct Hw as [x Hx].
      unfold wait_connect. case_match; cbn; by rewrite !lookup_alter_eq, Hx. }
    destruct HC' as [HC' [x Hx]]. by eapply drift_quiet.
  - destruct (Hrem _ (lid l) Hw). by apply drift_deactivate.
  - destruct Hw as [x Hx]. by eapply drift_quiet.
  - destruct (Hrem _ (pretty (sid s)) Hw). by apply drift_deactivate.
  - unfold ucx_poll. destruct HC as [C1 C2 C3]. destruct (stats_enabled u); by split.
Qed.

Lemma drift_run b k es u : Drift b k u -> events_there es u ->
  Drift (b + Z.of_nat (length es)) (k + uncounted_in es u) (ucx_run es u).
Proof.
  revert b k u. induction es as [|e es IH]; intros b k u HC He; cbn [length uncounted_in events_there] in *; [by rewrite !Z.add_0_r|].
  destruct He as [He Hes]. rewrite Z.add_assoc. replace (b + _) with (b + 1 + Z.of_nat (length es)) by lia.
  apply IH; [by apply drift_event|done].
Qed.

Lemma no_busy u : (forall w, worker_state w u = Inactive) -> size (busy (uworkers u)) = 0%nat.
Proof.
  intros Hi. apply map_size_empty_iff, map_empty. intros w. apply map_lookup_filter_None. right. intros x Hx Hc.
  specialize (Hi w). rewrite (worker_state_at _ _ _ Hx) in Hi. apply bool_decide_eq_true in Hc. by apply Hc.
Qed.

Lemma uncounted_in_bound es u : 0 <= uncounted_in es u <= Z.of_nat (length es).
Proof.
  revert u. induction es as [|e es IH]; intros u; cbn [uncounted_in length]; [lia|].
  specialize (IH (ucx_event e u)). destruct (uncounted e u); cbn [Z.b2z]; lia.
Qed.

(** C40. The counter on any program: how far it is off, and what that does to the reactor.
    Through any sequence of operations on workers there are, well-behaved or not, the
    counter is, modulo [2 ^ 64], the number of workers that are not inactive less the
    number of operations that ended on an inactive worker with a listener or a stream
    left, such as the drop of one of two streams nobody waited on.  For fewer than
    [2 ^ 63] operations the reactor is therefore polled exactly when the two numbers
    differ: one such drop stops it while its only worker waits for a connection, and
    when every worker is inactive again the counter is [2 ^ 64] less their number and
    the reactor runs for ever. *)
Theorem ucx_counter_drift getenv parse es :
  let u0 := UCXReactor_new (SL := SL) getenv parse in
  let u := ucx_run es u0 in
  let n := Z.of_nat (size (busy (uworkers u))) in
  let k := uncounted_in es u0 in
  Z.of_nat (length es) < 2 ^ 63 -> events_there es u0 ->
  active_or_waiting_count u = wrap64 (n - k) /\
  (ucx_status u = Running <-> n <> k) /\
  ((forall w, worker_state w u = Inactive) -> 0 < k -> active_or_waiting_count u = 2 ^ 64 - k).
Proof.
  cbv zeta. set (u0 := UCXReactor_new getenv parse). intros Hl He.
  assert (H0 : Drift 0 0 u0) by (split; [done|done|by intros w [x ?]]).
  assert (HD := drift_run _ _ _ _ H0 He). rewrite !Z.add_0_l in HD. assert (Hk := uncounted_in_bound es u0).
  destruct HD as [HC HS _]. set (u := ucx_run es u0) in *. assert (Hb := busy_le (uworkers u)).
  assert (Hcase : forall n k, 0 <= n < 2 ^ 63 -> 0 <= k < 2 ^ 63 ->
    wrap64 (n - k) = if decide (n < k) then 2 ^ 64 + n - k else n - k).
  { intros n k Hn' Hk'. unfold wrap64. case_decide; [|by apply Z.mod_small; lia].
    rewrite <- (Z.mod_small (2 ^ 64 + n - k) (2 ^ 64)) by lia. rewrite <- (Z_mod_plus_full (n - k) 1). f_equal. lia. }
  split; [done|]. unfold ucx_status. rewrite HC, Hcase by lia. split.
  - destruct (Z.ltb_spec 0 (if decide (Z.of_nat (size (busy (uworkers u))) < uncounted_in es u0)
      then 2 ^ 64 + Z.of_nat (size (busy (uworkers u))) - uncounted_in es u0
      else Z.of_nat (size (busy (uworkers u))) - uncounted_in es u0)) as [Hp|Hp]; case_decide; split; (done || lia).
  - intros Hi Hp. rewrite no_busy by done. rewrite decide_True by lia. lia.
Qed.

(** The events that may make a worker inactive. *)
Definition leaves (e : UcxEvent) : option nat :=
  match e with
  | UDeactivate w _ => Some w
  | UDropListener l _ => Some (lworker l)
  | UDropStream s _ => Some (sworker s)
  | _ => None
  end.

Lemma worker_state_on w w' f u :
  worker_state w (on_worker w' f u) =
    (if decide (w' = w) then match uworkers u !! w with Some x => wstate (f x) | None => Inactive end
     else worker_state w u).
Proof.
  unfold worker_state, on_worker. cbn. case_decide as Hw; subst.
  - rewrite lookup_alter_eq. by destruct (uworkers u !! w).
  - by rewrite lookup_alter_ne.
Qed.

Lemma worker_state_there w u : worker_state w u <> Inactive -> exists x, uworkers u !! w = Some x /\ worker_state w u = wstate x.
Proof. unfold worker_state. destruct (uworkers u !! w); [eauto|done]. Qed.

Lemma event_keeps_busy bound e u w : CountOk bound u -> leaves e <> Some w ->
  worker_state w u <> Inactive -> worker_state w (ucx_event e u) <> Inactive.
Proof.
  intros HC Hl Hw. destruct (worker_state_there _ _ Hw) as (x & Hx & Hs).
  assert (Hc : forall n (v : UCXReactor SL), worker_state w (with_count n v) = worker_state w v) by done.
  destruct e as [|w'|w' now|w' now|w' addr now|l now|w' id|s now|now]; cbn [ucx_event leaves] in *.
  - unfold Worker_new, register_worker. cbn. destruct (slab_insert _ _). cbn.
    assert (w <> unext u) by (assert (Hn := ck_next _ _ HC w (mk_is_Some _ _ Hx)); lia).
    unfold worker_state. cbn. rewrite !lookup_insert_ne by done. by rewrite Hx, <- Hs.
  - unfold activate, take_wait_connect_start, increment_active_count.
    destruct (decide (worker_state w' u = Inactive)); rewrite ?Hc, worker_state_on; case_decide; by rewrite ?Hx.
  - unfold deactivate, decrement_active_count, take_wait_connect_start.
    repeat case_match; rewrite ?Hc, !worker_state_on, !decide_False by congruence; done.
  - unfold wait_connect, increment_active_count.
    destruct (decide (worker_state w' u = Inactive)); rewrite ?Hc, !worker_state_on;
      case_decide; subst; cbn; by rewrite ?lookup_alter_eq, ?Hx.
  - cbn. unfold add_id. rewrite worker_state_on. case_decide; subst.
    + rewrite decide_False by congruence. by rewrite Hx; cbn; rewrite <- Hs.
    + unfold wait_connect, increment_active_count.
      destruct (decide (worker_state w' u = Inactive)); rewrite ?Hc, ?worker_state_on; by rewrite ?decide_False.
  - unfold Listener_drop, deactivate, decrement_active_count, take_wait_connect_start, remove_id.
    repeat case_match; rewrite ?Hc, !worker_state_on, !decide_False by congruence; done.
  - cbn. unfold add_id. rewrite worker_state_on. case_decide; [|done]. rewrite Hx. cbn. by rewrite <- Hs.
  - unfold AmStream_drop, deactivate, decrement_active_count, take_wait_connect_start, remove_id.
    repeat case_match; rewrite ?Hc, !worker_state_on, !decide_False by congruence; done.
  - unfold ucx_poll. by destruct (stats_enabled u).
Qed.

Lemma busy_runs bound u w : CountOk bound u -> worker_state w u <> Inactive -> ucx_status u = Running.
Proof.
  intros HC Hw. destruct (worker_state_there _ _ Hw) as (x & Hx & Hs). unfold ucx_status. rewrite (ck_count _ _ HC).
  assert (Hb : busy (uworkers u) !! w = Some x).
  { apply map_lookup_filter_Some. split; [done|]. apply bool_decide_eq_true. cbn; by rewrite <- Hs. }
  destruct (Z.ltb_spec 0 (Z.of_nat (size (busy (uworkers u))))) as [|Hle]; [done|].
  assert (Hz : size (busy (uworkers u)) = 0%nat) by lia. apply map_size_empty_inv in Hz. by rewrite Hz in Hb.
Qed.

Lemma activate_busy w u : is_Some (uworkers u !! w) -> worker_state w (activate w u) <> Inactive.
Proof.
  intros [x Hx]. unfold activate, take_wait_connect_start, increment_active_count.
  destruct (decide (worker_state w u = Inactive)); unfold worker_state; cbn; by rewrite lookup_alter_eq, Hx.
Qed.

(** An operation is progressed until it resolves.  From the moment an
    operation activates its worker, the reactor's status stays Running through any
    well-behaved sequence of operations on this and other workers, as long as no
    operation, listener or stream of this very worker ends. *)
Theorem pending_op_keeps_running bound u w es :
  CountOk bound u -> bound + Z.of_nat (length es) + 1 < 2 ^ 64 -> is_Some (uworkers u !! w) ->
  events_ok es (activate w u) -> Forall (fun e => leaves e <> Some w) es ->
  ucx_status (ucx_run es (activate w u)) = Running.
Proof.
  intros HC Hb Hw He Hl. assert (HC1 := activate_count _ _ _ HC ltac:(lia) Hw).
  assert (Hs := activate_busy w u Hw). clear HC Hw. revert He Hs HC1. generalize (activate w u). clear u.
  revert bound Hb. induction Hl as [|e es Hne _ IH]; intros bound Hb u He Hs HC; cbn in *.
  - by eapply busy_runs.
  - destruct He as [He Hes]. eapply (IH (bound + 1)); [lia|done| |].
    + by eapply event_keeps_busy.
    + apply ucx_event_count; [done|lia|done].
Qed.

(** An inner future that resolves at its [n + 1]st poll. *)
Definition countdown (k : Waker) (n : nat) (l : unit) : unit * nat * Poll unit :=
  match n with O => (l, O, Ready tt) | S n => (l, n, Pending) end.

(** Two operations that overlap on one worker stop the reactor under the
    second.  The state of a worker is not counted per operation: when the first of
    two pending operations resolves, it makes the worker inactive, so the reactor
    is stopped, and not polled, although the second still waits for progress. *)
Theorem overlapping_ops_stop_reactor (k : Waker) getenv parse now :
  let u := ucx_event UNew (UCXReactor_new (SL := SL) getenv parse) in
  exists u1 u2 u3,
    worker_op_poll countdown now 0 k OpStart 1%nat tt u = Ok (tt, u1, OpWait, 0%nat, Pending) /\
    worker_op_poll countdown now 0 k OpStart 9%nat tt u1 = Ok (tt, u2, OpWait, 8%nat, Pending) /\
    worker_op_poll countdown now 0 k OpWait 0%nat tt u2 = Ok (tt, u3, OpDone, 0%nat, Ready tt) /\
    ucx_status u2 = Running /\ worker_state 0 u3 = Inactive /\ ucx_status u3 = Stopped.
Proof.
  cbv zeta. unfold UCXReactor_new. set (timeout := default _ _). cbn [ucx_event].
  unfold Worker_new, register_worker. cbn [registered_workers unext].
  destruct (slab_insert 0%nat slab_new) as [s id]. do 3 eexists.
  split; [reflexivity|]. split; [reflexivity|]. split; [reflexivity|]. by vm_compute.
Qed.

(** [deactivate] leaves the time a wait began where it is: the [take] empties a
    temporary. *)
Lemma wait_start_stale now now' w u : is_Some (uworkers u !! w) -> worker_ids w u = ∅ ->
  wait_start_time w (deactivate now' w (wait_connect now w u)) = Some now.
Proof.
  intros [x Hx] Hi. assert (Hi' : worker_ids w (wait_connect now w u) = ∅).
  { unfold worker_ids in *. unfold wait_connect. rewrite Hx in Hi.
    destruct (decide (worker_state w u = Inactive)); cbn; rewrite !lookup_alter_eq, Hx; done. }
  unfold deactivate, take_wait_connect_start. rewrite decide_True by done. unfold wait_start_time.
  unfold wait_connect. destruct (decide (worker_state w u = Inactive)); cbn;
    case_decide; cbn; by rewrite !lookup_alter_eq, Hx.
Qed.
End facts.

(** ** Witnesses *)

Definition ucx_demo : UCXReactor (gmap nat nat) := UCXReactor_new (fun _ => None) (fun _ => None).
Definition ucx_demo_events : list UcxEvent :=
  [UNew; UNew; UActivate 0; UCreateListener 1 "[::]:7" 5; UDeactivate 0 6; UActivate 1].

Lemma ucx_demo_ok : events_ok ucx_demo_events ucx_demo.
Proof.
  repeat split; try (intros w [= <-]; eexists; vm_compute; reflexivity); try done; vm_compute; done.
Qed.

Lemma ucx_counter_exact_witness :
  active_or_waiting_count (ucx_run ucx_demo_events ucx_demo) =
    Z.of_nat (size (busy (uworkers (ucx_run ucx_demo_events ucx_demo)))) /\
  active_or_waiting_count (ucx_run ucx_demo_events ucx_demo) = 1.
Proof.
  split; [|reflexivity].
  exact (proj1 (ucx_counter_exact (fun _ => None) (fun _ => None) ucx_demo_events eq_refl ucx_demo_ok)).
Defined.

(** Two streams of a worker nobody waits on: after the drop of the first the worker waits
    and the reactor is stopped, after that of the second the counter has wrapped. *)
Definition ucx_streams : list UcxEvent := [UNew; UAmStream 0 1; UAmStream 0 2; UDropStream (mkStream 0 1) 5].

Lemma ucx_counter_drift_witness :
  let u := ucx_run ucx_streams ucx_demo in
  let u' := ucx_run (ucx_streams ++ [UDropStream (mkStream 0 2) 6]) ucx_demo in
  worker_state 0 u = WaitConnect /\ ucx_status u = Stopped /\
  active_or_waiting_count u' = 2 ^ 64 - 1 /\ ucx_status u' = Running.
Proof.
  assert (Ht : forall es, es = ucx_streams \/ es = ucx_streams ++ [UDropStream (mkStream 0 2) 6] -> events_there es ucx_demo).
  { intros es [->| ->]; repeat split; try (intros w [= <-]; eexists; vm_compute; reflexivity); done. }
  destruct (ucx_counter_drift (fun _ => None) (fun _ => None) ucx_streams eq_refl (Ht _ (or_introl eq_refl))) as (_ & H1 & _).
  destruct (ucx_counter_drift (fun _ => None) (fun _ => None) (ucx_streams ++ [UDropStream (mkStream 0 2) 6]) eq_refl
    (Ht _ (or_intror eq_refl))) as (H2 & H3 & _).
  cbv zeta. split; [reflexivity|]. split.
  - assert (Hs : forall st, st <> Running -> st = Stopped) by (intros []; done).
    apply Hs. intros Hr. by apply H1 in Hr.
  - split; [etransitivity; [exact H2|vm_compute; reflexivity]|]. apply H3. vm_compute. done.
Defined.

Lemma pending_op_keeps_running_witness :
  ucx_status (ucx_run [UNew; UActivate 1; UDeactivate 1 5] (activate 0 (ucx_run [UNew; UNew] ucx_demo))) = Running.
Proof.
  apply (pending_op_keeps_running 2).
  - assert (HC : CountOk 0 ucx_demo) by (split; cbn; [done|done|by intros w [x ?]]).
    apply (ucx_run_count 0 [UNew; UNew] ucx_demo HC eq_refl). by repeat split.
  - reflexivity.
  - eexists. vm_compute. reflexivity.
  - repeat split; try (intros w [= <-]; eexists; vm_compute; reflexivity); done.
  - by repeat constructor.
Defined.
