(* ===== verification/UcxWait.v ===== *)
(** * UcxWait: the runtime and the UCX reactor together
    ([pluvio_runtime/src/executor/mod.rs], [pluvio_ucx/src/reactor.rs], [worker/], [am.rs])

    [block_on] of an operation of a worker on a runtime whose only reactor is the UCX
    reactor: the operation activates its worker, which keeps the reactor [Running], so
    the runtime keeps progressing the workers until the operation resolves.  The crate
    [async_ucx] is a parameter: how an operation is polled and what [progress] of a
    worker does to the state of the library.  What is asked of it is [Library]. *)

From S2P Require Import Prelude Spsc Future Slab Task Executor ExecutorFacts Await UcxWorker.
Local Open Scope nat_scope.

Record UcxEnv (L RS : Type) : Type := mkUcxEnv { ulib : L; ureactor : UCXReactor RS; ureads : nat }.
Arguments mkUcxEnv {L RS} _ _ _.
Arguments ulib {L RS} _.
Arguments ureactor {L RS} _.
Arguments ureads {L RS} _.

(** [AmSend]: [am_send] and [am_send_vectorized], which leave the worker active. *)
Inductive UcxOpKind : Type := WorkerOp | AmSend.

(** An operation of a worker: how far it is, and the future of [async_ucx] it awaits. *)
Record UcxOp (I : Type) : Type := mkUcxOp { ostage : OpStage; oinner : I }.
Arguments mkUcxOp {I} _ _.
Arguments ostage {I} _.
Arguments oinner {I} _.

Section ucx.
Context {L RS I A : Type} `{Slab nat RS}.
Context (op_poll : Waker -> I -> L -> L * I * Poll A) (progress : nat -> L -> L * list Waker).
Context (now : nat -> Z) (kind : UcxOpKind) (wk : nat).
Implicit Types (e : UcxEnv L RS) (u : UCXReactor RS) (k : Waker) (f : UcxOp I).

Definition ucx_clock e : UcxEnv L RS * Z := (mkUcxEnv (ulib e) (ureactor e) (S (ureads e)), now (ureads e)).

(** [worker.inner().progress()] for each registered worker. *)
Fixpoint progress_all (ws : list nat) (l : L) : L * list Waker :=
  match ws with
  | [] => (l, [])
  | w :: ws => let (l, ks) := progress w l in let (l, ks') := progress_all ws l in (l, ks ++ ks')
  end.

(** [impl Reactor for UCXReactor]. *)
Definition ucx_dyn : DynReactor (UcxEnv L RS) := {|
  dyn_poll e :=
    let (e, t) := ucx_clock e in
    let (u, ws) := ucx_poll t (ureactor e) in
    let (l, ks) := progress_all ws (ulib e) in
    Ok (mkUcxEnv l u (ureads e), ks);
  dyn_status e := (e, ucx_status (ureactor e))
|}.

Definition ucx_op_poll (t : Z) k (st : OpStage) (i : I) (l : L) u :
    outcome (L * UCXReactor RS * OpStage * I * Poll A) :=
  match kind with
  | WorkerOp => worker_op_poll op_poll t wk k st i l u
  | AmSend => am_send_poll op_poll wk k st i l u
  end.

(** A dropped operation leaves its worker as it is. *)
Definition ucx_client : Client A (UcxOp I) (UcxEnv L RS) := {|
  cpoll k f e :=
    let (e, t) := ucx_clock e in
    '(l, u, st, i, p) ← ucx_op_poll t k (ostage f) (oinner f) (ulib e) (ureactor e);
    mret (mkUcxEnv l u (ureads e), mkUcxOp st i, p);
  cdrop _ e := e;
  cclock := ucx_clock;
  creactor := ucx_dyn
|}.

(** ** The library *)

(** [Calm]: nothing is outstanding in it.  The operation last polled as [i] with the waker
    [k] settles when one of the next [n] rounds of progress wakes [k] alone; its next
    poll is then ready with a value that [Answer] allows. *)
Fixpoint settles (ws : list nat) (Calm : L -> Prop) (Answer : A -> Prop) (n : nat) (k : Waker) (i : I) (l : L) : Prop :=
  match n with
  | O => False
  | S n =>
      let (l, ks) := progress_all ws l in
      (ks = [] /\ settles ws Calm Answer n k i l) \/
      (ks = [k] /\ forall k', exists l' i' a, op_poll k' i l = (l', i', Ready a) /\ Answer a /\ Calm l')
  end.

Record Library (ws : list nat) (i0 : I) (N : nat) (Calm : L -> Prop) (Answer : A -> Prop) : Prop := {
  li_progress l : Calm l -> exists l', progress_all ws l = (l', []) /\ Calm l';
  li_poll k l : Calm l ->
    (exists l' i a, op_poll k i0 l = (l', i, Ready a) /\ Answer a /\ Calm l') \/
    (exists l' i, op_poll k i0 l = (l', i, Pending) /\ settles ws Calm Answer N k i l')
}.

Context (ws : list nat) (i0 : I) (N0 : nat) (Calm : L -> Prop) (Answer : A -> Prop).
Context (HL : Library ws i0 N0 Calm Answer) (bound : Z) (Hbound : (bound < 2 ^ 64)%Z).

(** ** The states of the reactor *)

(** The worker exists and has no listener or stream, and the counter is right. *)
Record Sound u : Prop := {
  so_workers : (slab_iter (registered_workers u)).*2 = ws;
  so_count : CountOk bound u;
  so_worker : is_Some (uworkers u !! wk);
  so_ids : worker_ids wk u = ∅
}.

(** The state the operation leaves its worker in. *)
Definition left_state : WorkerState := match kind with WorkerOp => Inactive | AmSend => Active end.

Lemma sound_same u u' : registered_workers u' = registered_workers u -> uworkers u' = uworkers u ->
  unext u' = unext u -> active_or_waiting_count u' = active_or_waiting_count u -> Sound u -> Sound u'.
Proof.
  intros Hr Hw Hn Hc [S1 [C1 C2 C3] S3 S4]. split; [by rewrite Hr| |by rewrite Hw|].
  - split; rewrite ?Hc, ?Hw, ?Hn; done.
  - unfold worker_ids in *. by rewrite Hw.
Qed.

Lemma sound_poll t u : Sound u -> Sound (ucx_poll t u).1 /\ (ucx_poll t u).2 = ws /\
  forall w, worker_state w (ucx_poll t u).1 = worker_state w u.
Proof.
  intros HS. unfold ucx_poll. destruct (stats_enabled u); cbn [fst snd]; (split; [|split; [apply HS|done]]);
    by apply (sound_same u).
Qed.

Lemma sound_activate u : Sound u -> Sound (activate wk u) /\ worker_state wk (activate wk u) = Active.
Proof.
  intros [S1 S2 [x Hx] S4]. split; [split|].
  - by destruct (decide (worker_state wk u = Inactive)) as [Hd|Hd]; unfold activate, take_wait_connect_start;
      rewrite ?(decide_True _ _ Hd), ?(decide_False _ _ Hd).
  - apply activate_count; [done|done|by exists x].
  - unfold activate, take_wait_connect_start. case_decide; cbn; rewrite lookup_alter_eq, Hx; eauto.
  - unfold worker_ids in *. rewrite Hx in S4. unfold activate, take_wait_connect_start. case_decide; cbn; by rewrite lookup_alter_eq, Hx.
  - unfold activate, take_wait_connect_start. case_decide; unfold worker_state; cbn; by rewrite lookup_alter_eq, Hx.
Qed.

Lemma sound_deactivate t u : Sound u -> Sound (deactivate t wk u) /\ worker_state wk (deactivate t wk u) = Inactive.
Proof.
  intros HS. assert (HC := deactivate_count bound t u wk (so_count _ HS) Hbound (so_worker _ HS) (fun _ => so_ids _ HS)).
  destruct HS as [S1 S2 [x Hx] S4]. revert HC. unfold deactivate, take_wait_connect_start. rewrite decide_True by done.
  unfold worker_ids in S4. rewrite Hx in S4.
  case_decide; intros HC; (split; [split; [done|done|..]|]); unfold worker_ids, worker_state; cbn;
    rewrite lookup_alter_eq, Hx; cbn; by eauto.
Qed.

(** Nothing is outstanding. *)
Definition Rest e : Prop := Sound (ureactor e) /\ Calm (ulib e).
(** The operation [f] waits, for at most [n] more rounds of progress. *)
Definition Outstanding (n : nat) k f e : Prop := exists i, f = mkUcxOp OpWait i /\ Sound (ureactor e) /\
  worker_state wk (ureactor e) = Active /\ settles ws Calm Answer n k i (ulib e).
(** It has settled. *)
Definition Settled f e : Prop := exists i, f = mkUcxOp OpWait i /\ Sound (ureactor e) /\
  worker_state wk (ureactor e) = Active /\
  forall k', exists l' i' a, op_poll k' i (ulib e) = (l', i', Ready a) /\ Answer a /\ Calm l'.

(** What the polls of an operation do, by its kind. *)
Lemma leave_sound t u : Sound u -> worker_state wk u = Active ->
  let u' := match kind with WorkerOp => deactivate t wk u | AmSend => u end in
  Sound u' /\ worker_state wk u' = left_state.
Proof. intros HS Ha. unfold left_state. destruct kind; [by apply sound_deactivate|done]. Qed.

Lemma op_poll_ready k st i e l' i' a : st <> OpDone -> Sound (ureactor e) ->
  (st = OpWait -> worker_state wk (ureactor e) = Active) -> op_poll k i (ulib e) = (l', i', Ready a) -> Calm l' ->
  exists e' f', cpoll ucx_client k (mkUcxOp st i) e = Ok (e', f', Ready a) /\ Rest e' /\
    worker_state wk (ureactor e') = left_state.
Proof.
  intros Hd HS Ha Hp HC. set (u1 := match st with OpStart => activate wk (ureactor e) | _ => ureactor e end).
  assert (Hu1 : Sound u1 /\ worker_state wk u1 = Active).
  { unfold u1. destruct st; [by apply sound_activate|by auto|done]. }
  destruct Hu1 as [HS1 Ha1]. destruct (leave_sound (now (ureads e)) u1 HS1 Ha1) as [HS2 Ha2].
  exists (mkUcxEnv l' (match kind with WorkerOp => deactivate (now (ureads e)) wk u1 | AmSend => u1 end) (S (ureads e))),
    (mkUcxOp OpDone i'). split; [|by split].
  cbn. unfold ucx_op_poll, worker_op_poll, am_send_poll, bracket_poll. cbn.
  destruct kind, st; try done; by rewrite Hp.
Qed.

Lemma op_poll_pending k e l' i' : Rest e -> op_poll k i0 (ulib e) = (l', i', Pending) ->
  exists e', cpoll ucx_client k (mkUcxOp OpStart i0) e = Ok (e', mkUcxOp OpWait i', Pending) /\
    Sound (ureactor e') /\ worker_state wk (ureactor e') = Active /\ ulib e' = l'.
Proof.
  intros [HS _] Hp. destruct (sound_activate _ HS) as [HS1 Ha1].
  exists (mkUcxEnv l' (activate wk (ureactor e)) (S (ureads e))). split; [|done].
  cbn. unfold ucx_op_poll, worker_op_poll, am_send_poll, bracket_poll. cbn. destruct kind; by rewrite Hp.
Qed.

Lemma dyn_poll_sound e l ks : Sound (ureactor e) -> progress_all ws (ulib e) = (l, ks) ->
  exists e', dyn_poll ucx_dyn e = Ok (e', ks) /\ ulib e' = l /\ Sound (ureactor e') /\
    worker_state wk (ureactor e') = worker_state wk (ureactor e).
Proof.
  intros HS Hp. destruct (sound_poll (now (ureads e)) _ HS) as (HS1 & Hw & Hst).
  cbn [dyn_poll ucx_dyn ucx_clock ureactor ureads ulib].
  destruct (ucx_poll _ (ureactor e)) as [u1 ws1]. cbn in HS1, Hw, Hst. subst ws1. rewrite Hp. by eexists.
Qed.

(** ** The promise *)

#[local] Program Instance ucx_served : Served ucx_client (mkUcxOp OpStart i0) := {
  looks := 0;
  Begin N e := N = N0 /\ Rest e;
  Waiting n _ k f e := Outstanding n k f e;
  Due f e := Settled f e;
  Finished a e := Rest e /\ Answer a /\ worker_state wk (ureactor e) = left_state
}.
Next Obligation. done. Qed.
Next Obligation. done. Qed.
Next Obligation. done. Qed.
Next Obligation. done. Qed.
Next Obligation. done. Qed.
Next Obligation.
  intros N e (-> & HS & HC). destruct (li_progress _ _ _ _ _ HL _ HC) as (l' & Hp & HC').
  destruct (dyn_poll_sound e l' [] HS Hp) as (e' & Hd & <- & HS' & _). by exists e'.
Qed.
Next Obligation.
  intros N k e (-> & HS & HC). destruct (li_poll _ _ _ _ _ HL k _ HC) as [(l' & i & a & Hp & HA & HC')|(l' & i & Hp & Hs)].
  - left. destruct (op_poll_ready k OpStart i0 e l' i a) as (e' & f' & Hc & HR & Hst); try done. by exists e', f', a.
  - right. destruct (op_poll_pending k e l' i (conj HS HC) Hp) as (e' & Hc & HS' & Ha & Hl).
    exists e', (mkUcxOp OpWait i), N0, 0. split; [done|]. split; [|done]. exists i. by rewrite Hl.
Qed.
Next Obligation.
  intros n l k f e (i & -> & HS & Ha & Hs). left. exists e. split; [|by exists i]. cbn.
  by rewrite (busy_runs bound _ wk (so_count _ HS)) by by rewrite Ha.
Qed.
Next Obligation.
  intros n l k f e (i & -> & HS & Ha & Hs). destruct n as [|n]; [done|]. cbn [settles] in Hs.
  destruct (progress_all ws (ulib e)) as [l' ks] eqn:Hp.
  destruct (dyn_poll_sound e l' ks HS Hp) as (e' & Hd & <- & HS' & Ha'). rewrite Ha in Ha'.
  destruct Hs as [[-> Hs]|[-> Hr]]; [left|right].
  - exists e', n, 0. split; [done|]. split; [by exists i|lia].
  - exists e'. split; [done|]. by exists i.
Qed.
Next Obligation.
  intros k f e (i & -> & HS & Ha & Hr). destruct (Hr k) as (l' & i' & a & Hp & HA & HC).
  destruct (op_poll_ready k OpWait i e l' i' a) as (e' & f' & Hc & HR & Hst); try done. by exists e', f', a.
Qed.

(** ** The call *)

Context (dflt : A) (genv : string -> option string).
Context (ho : forall X : Type, list (string * X) -> list (string * X)).
Context (ho_perm : forall X (l : list (string * X)), ho X l ≡ₚ l).
Context {C SL : Type} `{FifoChan C} `{Slab (option (Task (TaskFuture (UcxOp I)))) SL}.
Context (cfg : SchedulingConfig) (name : string) (Hcfg : ConfigOk (C := C) cfg).
#[local] Instance ucx_program : Program A (UcxOp I) (UcxEnv L RS) :=
  client_program ucx_client dflt genv ho ho_perm.
Implicit Types (w : World A (UcxEnv L RS) C SL).

(** C25. A UCX operation ends.  On a runtime with the UCX reactor as its only one and
    nothing outstanding, [block_on] of an operation of a worker without listeners or
    streams returns, with a value the library may give, when the library settles it
    within [N0] rounds of progress.  An [am_send] leaves the worker active, every other
    operation leaves it inactive; the counter of the reactor is still right, and nothing
    is outstanding, so that the next operation can start. *)
Theorem block_on_ucx_op nm (x : ReactorWrapper (UcxEnv L RS)) fuel w :
  Idle ucx_client cfg name Rest x w -> (Z.of_nat (patience cfg) < max_stuck_iterations)%Z ->
  S N0 * S (patience cfg) < fuel -> (0 <= iteration_count (rt w))%Z ->
  (iteration_count (rt w) + Z.of_nat (S N0 * S (patience cfg)) < u64_max)%Z ->
  exists w' (x' : ReactorWrapper (UcxEnv L RS)) a,
    block_on_with_name_and_runtime fuel nm (mkUcxOp OpStart i0) w = Ok (w', Some a) /\
    Answer a /\ Idle ucx_client cfg name Rest x' w' /\ worker_state wk (ureactor (env w')) = left_state.
Proof.
  intros [I1 I2 I3 I4] Hstuck Hf Hi Hit.
  destruct (block_on_returns ucx_client dflt genv ho ho_perm cfg name (mkUcxOp OpStart i0) Hcfg nm x fuel N0 w)
    as (w' & x' & a & Hb & [J1 J2 J3 (J4 & HA & Hst)]); try done; cbn [looks ucx_served]; unfold passes; cbn [looks ucx_served];
    rewrite ?Nat.mul_1_l, ?Nat.mul_1_r; try done; [rewrite Nat2Z.inj_succ; by apply Zlt_le_succ|].
  by exists w', x', a.
Qed.
End ucx.

(** ** Witness *)

(** A library with one operation: it wakes the waker of its first poll in the second
    round of progress after it and returns 7. *)
Definition TwoRounds : Type := option (Waker * nat).
Definition two_poll (k : Waker) (i : unit) (l : TwoRounds) : TwoRounds * unit * Poll Z :=
  match l with
  | None => (Some (k, 2), i, Pending)
  | Some (_, O) => (None, i, Ready 7%Z)
  | Some _ => (l, i, Pending)
  end.
Definition two_progress (w : nat) (l : TwoRounds) : TwoRounds * list Waker :=
  match l with
  | Some (k, 1) => (Some (k, 0), [k])
  | Some (k, S n) => (Some (k, n), [])
  | _ => (l, [])
  end.
Definition two_reactor : UCXReactor (gmap nat nat) := (Worker_new (UCXReactor_new (fun _ => None) (fun _ => None))).1.

Lemma two_library : Library two_poll two_progress [0] tt 2 (eq None) (eq 7%Z).
Proof.
  split.
  - intros l <-. by exists None.
  - intros k l <-. right. eexists _, _. split; [done|]. cbn. left. split; [done|]. right. split; [done|].
    intros _. by eexists _, _, _.
Qed.

Lemma two_rest : Rest 0 [0] (eq None) 1 (mkUcxEnv (None : TwoRounds) two_reactor 0).
Proof.
  split; [|done]. assert (HC : CountOk 0 (SL := gmap nat nat) (UCXReactor_new (fun _ => None) (fun _ => None)))
    by (split; cbn; [done|done|by intros w [x ?]]).
  split; [done|exact (new_count 0 _ HC)|eexists; by vm_compute|by vm_compute].
Qed.

Lemma block_on_ucx_op_witness :
  let ho := fun X (l : list (string * X)) => l in
  let perm := fun X (l : list (string * X)) => Permutation_refl l in
  let cl := ucx_client two_poll two_progress Z.of_nat WorkerOp 0 in
  exists (w w' : World Z (UcxEnv TwoRounds (gmap nat nat)) (Inner nat) (gmap nat (option (Task (TaskFuture (UcxOp unit)))))),
    fresh_world cl 0%Z (fun _ => None) ho perm SchedulingConfig_default "ucx" (mkUcxEnv None two_reactor 0) = Ok w /\
    block_on_with_name_and_runtime (H := client_program cl 0%Z (fun _ => None) ho perm) 328 "tag_recv" (mkUcxOp OpStart tt) w =
      Ok (w', Some 7%Z) /\ worker_state 0 (ureactor (env w')) = Inactive.
Proof.
  intros ho perm cl.
  destruct (fresh_idle (C := Inner nat) (SL := gmap nat (option (Task (TaskFuture (UcxOp unit))))) cl 0%Z
    (fun _ => None) ho perm SchedulingConfig_default "ucx" default_config_ok _ _ two_rest) as (w & x & Hw & HI & Hi).
  exists w. destruct (block_on_ucx_op two_poll two_progress Z.of_nat WorkerOp 0 [0] tt 2 (eq None) (eq 7%Z) two_library 1
    eq_refl 0%Z (fun _ => None) ho perm SchedulingConfig_default "ucx" default_config_ok "tag_recv" x 328 w HI)
    as (w' & x' & a & Hb & <- & _ & Hst).
  - by vm_compute.
  - apply Nat.ltb_lt. by vm_compute.
  - by rewrite Hi.
  - rewrite Hi. by vm_compute.
  - by exists w'.
Defined.
