(* ===== verification/CollBase.v ===== *)
(** * CollBase: what the collectives share
    ([pluvio_collective/src/op.rs], [error.rs], [ucx_backend/tag.rs],
    [am_router.rs] (headers and keys), [communicator.rs])

    Reduction operators over machine integers and IEEE floats (as the Standard
    Library specifies them), the 64-bit tags and 8-byte headers that name a
    message, and the communicator of a rank. *)

From Stdlib Require Import SpecFloat.
From S2P Require Import Prelude.

(** ** Errors *)

Inductive CollectiveError : Type :=
| Mpi (code : Z)
| Ucx (msg : string)
| BadShape
| Bootstrap (msg : string)
| BadHeader (got expected : nat)
| Protocol (msg : string).

(** ** Reduction operators *)

Class Op (T : Type) := {
  op_apply : T -> T -> T;
  op_identity : T
}.

Section float.
Context (prec emax : Z).

(** The largest finite number: [f32::MAX], [f64::MAX]. *)
Definition float_max (neg : bool) : spec_float := S754_finite neg (Z.to_pos (2 ^ prec - 1)) (emax - prec).
Definition float_one : spec_float := S754_finite false (Z.to_pos (2 ^ (prec - 1))) (1 - prec).
(** [a > b]. *)
Definition float_gt (a b : spec_float) : bool := SFltb b a.

Definition Sum_float : Op spec_float := {| op_apply := SFadd prec emax; op_identity := S754_zero false |}.
Definition Max_float : Op spec_float :=
  {| op_apply a b := if float_gt a b then a else b; op_identity := float_max true |}.
Definition Min_float : Op spec_float :=
  {| op_apply a b := if SFltb a b then a else b; op_identity := float_max false |}.
Definition Prod_float : Op spec_float := {| op_apply := SFmul prec emax; op_identity := float_one |}.
End float.

(** [u32]. *)
Definition Sum_u32 : Op Z := {| op_apply a b := wrap32 (a + b); op_identity := 0%Z |}.
Definition BitXor_u32 : Op Z := {| op_apply := Z.lxor; op_identity := 0%Z |}.

Section reduce.
Context {T : Type} `{Op T}.

Definition LANES : nat := 8.
(** [chunks_exact]: the whole chunks and the remainder. *)
Definition chunks_exact {A} (m : nat) (l : list A) : list (list A) :=
  map (fun i => slice (i * m) m l) (seq 0 (length l / m)).
Definition chunks_remainder {A} (m : nat) (l : list A) : list A := drop (length l / m * m) l.

(** Zips two iterators and writes to the first. *)
Fixpoint zip_into {A B} (f : A -> B -> A) (dst : list A) (src : list B) : list A :=
  match dst, src with
  | d :: dst, s :: src => f d s :: zip_into f dst src
  | _, _ => dst
  end.

(** [for i in 0..LANES { d[i] = apply(d[i], s[i]) }]. *)
Definition reduce_lanes (d s : list T) : list T := zip_into op_apply d s.

(** The [debug_assert_eq!] of the lengths is left out: every call below has equal
    lengths. *)
Definition reduce_in_place (dst src : list T) : list T :=
  concat (zip_into reduce_lanes (chunks_exact LANES dst) (chunks_exact LANES src))
  ++ zip_into op_apply (chunks_remainder LANES dst) (chunks_remainder LANES src).

Lemma zip_into_zip_with {A B} (f : A -> B -> A) (dst : list A) (src : list B) :
  length dst = length src -> zip_into f dst src = zip_with f dst src.
Proof.
  revert src. induction dst as [|d dst IH]; intros [|s src] Hl; try done. cbn in *. f_equal. apply IH. lia.
Qed.

Lemma chunks_zip (k : nat) (dst src : list T) :
  length dst = k * LANES -> length src = k * LANES ->
  concat (zip_into reduce_lanes (map (fun i => slice (i * LANES) LANES dst) (seq 0 k))
    (map (fun i => slice (i * LANES) LANES src) (seq 0 k))) = zip_with op_apply dst src.
Proof.
  assert (Hshift : forall (l : list T) k, map (fun i => slice (i * LANES) LANES l) (seq 1 k) =
    map (fun i => slice (i * LANES) LANES (drop LANES l)) (seq 0 k)).
  { intros l k'. rewrite <- seq_shift, map_map. apply map_ext. intros i. unfold slice.
    by rewrite drop_drop. }
  revert dst src. induction k as [|k IH]; intros dst src Hd Hs.
  - destruct dst; [done|]. cbn in Hd. lia.
  - cbn [seq map]. rewrite !Hshift. cbn [zip_into concat]. rewrite IH by (rewrite length_drop; lia).
    unfold slice at 1 2. cbn [Nat.mul drop]. rewrite !drop_0. unfold reduce_lanes.
    rewrite zip_into_zip_with by (rewrite !length_take; lia).
    rewrite <- zip_with_app by (rewrite !length_take; lia). by rewrite !take_drop.
Qed.

Lemma zip_into_length {A B} (f : A -> B -> A) (dst : list A) (src : list B) :
  length (zip_into f dst src) = length dst.
Proof. revert src. induction dst as [|d dst IH]; intros [|s src]; cbn; [done..|]. by rewrite IH. Qed.

Lemma concat_zip_into_length (dss sss : list (list T)) :
  length (concat (zip_into reduce_lanes dss sss)) = length (concat dss).
Proof.
  revert sss. induction dss as [|d dss IH]; intros [|s sss]; cbn; [done..|].
  rewrite !length_app, IH. f_equal. apply zip_into_length.
Qed.

Lemma reduce_in_place_length (dst src : list T) : length (reduce_in_place dst src) = length dst.
Proof.
  unfold reduce_in_place. rewrite length_app, concat_zip_into_length, zip_into_length, <- length_app. f_equal.
  unfold chunks_exact, chunks_remainder. set (k := length dst / LANES).
  assert (Hk : k * LANES <= length dst) by (rewrite Nat.mul_comm; apply Nat.Div0.mul_div_le).
  assert (Ht : concat (map (fun i => slice (i * LANES) LANES dst) (seq 0 k)) = take (k * LANES) dst).
  { rewrite <- (concat_slices k LANES (take (k * LANES) dst)) by (rewrite length_take; lia). f_equal.
    apply map_ext_in. intros i Hi%in_seq. apply list_eq. intros j. destruct (decide (j < LANES)).
    - rewrite !slice_lookup by done. rewrite lookup_take_lt by nia. done.
    - unfold slice. rewrite !lookup_ge_None_2; [done| |]; rewrite length_take; lia. }
  by rewrite Ht, take_drop.
Qed.

(** The unrolled loop is the element-wise reduction. *)
Lemma reduce_in_place_zip (dst src : list T) :
  length dst = length src -> reduce_in_place dst src = zip_with op_apply dst src.
Proof.
  intros Hl. unfold reduce_in_place, chunks_exact, chunks_remainder. rewrite <- Hl.
  set (k := length dst / LANES). assert (Hk : k * LANES <= length dst).
  { rewrite Nat.mul_comm. by apply Nat.Div0.mul_div_le. }
  assert (Ht : forall l : list T, length l = length dst ->
    map (fun i => slice (i * LANES) LANES l) (seq 0 k) =
    map (fun i => slice (i * LANES) LANES (take (k * LANES) l)) (seq 0 k)).
  { intros l Hll. apply map_ext_in. intros i Hi%in_seq. apply list_eq. intros j.
    destruct (decide (j < LANES)).
    - rewrite !slice_lookup by done. rewrite lookup_take_lt by nia. done.
    - unfold slice. rewrite !lookup_ge_None_2; [done| |]; rewrite length_take; lia. }
  rewrite (Ht dst), (Ht src) by done.
  rewrite chunks_zip by (rewrite length_take; lia).
  rewrite zip_into_zip_with by (rewrite !length_drop; lia).
  rewrite <- zip_with_app by (rewrite !length_take; lia). by rewrite !take_drop.
Qed.
End reduce.

(** ** Tags *)

Local Open Scope Z_scope.

Definition encode_tag (src step phase micro_chunk : Z) : Z :=
  Z.lor (Z.lor (Z.lor (Z.land src 0xffff) (Z.shiftl step 16)) (Z.shiftl phase 32)) (Z.shiftl micro_chunk 40).

Lemma lor_shift_add a b k : 0 <= k -> 0 <= a < 2 ^ k -> Z.lor a (Z.shiftl b k) = a + b * 2 ^ k.
Proof.
  intros Hk Ha. rewrite Z.shiftl_mul_pow2 by done. rewrite <- Z.add_lor_land, Z.add_comm.
  assert (Hl : Z.land a (b * 2 ^ k) = 0); [|lia].
  apply Z.bits_inj'. intros i Hi. rewrite Z.land_spec, Z.bits_0. destruct (Z.ltb_spec i k).
  - rewrite Z.mul_pow2_bits_low by done. apply andb_false_r.
  - destruct (decide (a = 0)) as [->|]; [by rewrite Z.testbit_0_l|].
    rewrite (Z.bits_above_log2 a i); [done|lia|]. apply Z.log2_lt_pow2; [lia|].
    eapply Z.lt_le_trans; [apply Ha|]. apply Z.pow_le_mono_r; lia.
Qed.

Lemma encode_tag_sum src step phase micro :
  in_u16 step -> in_u8 phase -> in_u8 micro ->
  encode_tag src step phase micro = src mod 65536 + step * 2 ^ 16 + phase * 2 ^ 32 + micro * 2 ^ 40.
Proof.
  unfold in_u16, in_u8. intros Hs Hp Hm. unfold encode_tag.
  assert (H0 : Z.land src 0xffff = src mod 65536) by (apply (Z.land_ones src 16); lia).
  assert (Hr := Z.mod_pos_bound src 65536 ltac:(lia)).
  rewrite H0, (lor_shift_add _ step 16), (lor_shift_add _ phase 32), (lor_shift_add _ micro 40) by lia. lia.
Qed.

(** Which rank a tag names. *)
Definition tag_src (tag : Z) : nat := Z.to_nat (Z.land tag 0xffff).

Lemma tag_src_encode src step phase micro :
  in_u16 step -> in_u8 phase -> in_u8 micro -> (Z.of_nat src < 65536) ->
  tag_src (encode_tag (Z.of_nat src) step phase micro) = src.
Proof.
  intros Hs Hp Hm Hn. unfold tag_src. change 0xffff with (Z.ones 16).
  rewrite Z.land_ones, encode_tag_sum by (lia || done).
  rewrite (Z.mod_small (Z.of_nat src)) by lia.
  replace (_ + step * 2 ^ 16 + _ + _) with (Z.of_nat src + (step + phase * 2 ^ 16 + micro * 2 ^ 24) * 2 ^ 16) by lia.
  rewrite Z.mod_add, Z.mod_small by lia. lia.
Qed.

(** Two messages have the same tag only when rank (modulo [2 ^ 16]), step, phase and
    micro-chunk agree. *)
Lemma encode_tag_inj s1 t1 p1 m1 s2 t2 p2 m2 :
  in_u16 t1 -> in_u8 p1 -> in_u8 m1 -> in_u16 t2 -> in_u8 p2 -> in_u8 m2 ->
  encode_tag s1 t1 p1 m1 = encode_tag s2 t2 p2 m2 ->
  s1 mod 65536 = s2 mod 65536 /\ t1 = t2 /\ p1 = p2 /\ m1 = m2.
Proof.
  intros. rewrite !encode_tag_sum in * by done. unfold in_u16, in_u8 in *.
  assert (Hb1 := Z.mod_pos_bound s1 65536 ltac:(lia)). assert (Hb2 := Z.mod_pos_bound s2 65536 ltac:(lia)). lia.
Qed.

(** ** Headers *)

Record AmHeader : Type := mkHeader { hsrc : Z; hstep : Z; hphase : Z; hmicro : Z }.
Definition BYTES : nat := 8.

Definition header_encode (h : AmHeader) : list Z :=
  let out := repeat 0 BYTES in
  let out := splice 0 (le_bytes 2 (hsrc h)) out in
  let out := splice 2 (le_bytes 2 (hstep h)) out in
  let out := <[4%nat := hphase h]> out in
  <[5%nat := hmicro h]> out.

Definition header_decode (bytes : list Z) : result AmHeader CollectiveError :=
  if (length bytes <? BYTES)%nat then RErr (BadHeader (length bytes) BYTES)
  else ROk (mkHeader (of_le_bytes (slice 0 2 bytes)) (of_le_bytes (slice 2 2 bytes))
              (nth 4 bytes 0) (nth 5 bytes 0)).

Record RecvKey : Type := mkKey { ksrc : Z; kstep : Z; kphase : Z; kmicro : Z }.
#[export] Instance RecvKey_eq_dec : EqDecision RecvKey.
Proof. solve_decision. Defined.
#[export] Instance RecvKey_countable : Countable RecvKey.
Proof.
  apply (inj_countable' (fun k => (ksrc k, kstep k, kphase k, kmicro k))
    (fun '(a, b, c, d) => mkKey a b c d)). by intros [].
Defined.
Definition key_of (h : AmHeader) : RecvKey := mkKey (hsrc h) (hstep h) (hphase h) (hmicro h).

(** The rank and the micro-chunk a key names. *)
Definition key_src (k : RecvKey) : nat := Z.to_nat (ksrc k).
Definition key_row (k : RecvKey) : nat := Z.to_nat (kmicro k).

Lemma header_decode_encode h :
  in_u16 (hsrc h) -> in_u16 (hstep h) -> in_u8 (hphase h) -> in_u8 (hmicro h) ->
  header_decode (header_encode h) = ROk h.
Proof.
  unfold in_u16, in_u8. intros Hs Ht _ _. destruct h as [s t p m]. cbn [hsrc hstep hphase hmicro] in *.
  unfold header_decode, header_encode. cbn -[Z.add Z.mul Z.div Z.modulo].
  do 2 f_equal; rewrite ?Z.mul_0_r, ?Z.add_0_r.
  - rewrite (Z.mod_small (s / 256)); [|split; [apply Z.div_pos|apply Z.div_lt_upper_bound]; lia].
    rewrite Z.add_comm. symmetry. apply Z.div_mod. lia.
  - rewrite (Z.mod_small (t / 256)); [|split; [apply Z.div_pos|apply Z.div_lt_upper_bound]; lia].
    rewrite Z.add_comm. symmetry. apply Z.div_mod. lia.
Qed.

(** ** Communicators *)

(** An endpoint is the rank it reaches. *)
Record UcxCommunicator : Type := mkComm { crank : nat; csize : nat; endpoints : list (option nat) }.

Definition endpoint (c : UcxCommunicator) (r : nat) : option nat := e ← endpoints c !! r; e.

(** The communicator [bootstrap] builds: an endpoint to each other rank. *)
Record CommOk (n r : nat) (c : UcxCommunicator) : Prop := {
  co_rank : crank c = r;
  co_size : csize c = n;
  co_endpoint p : (p < n)%nat -> p <> r -> endpoint c p = Some p
}.

Definition full_comm (n r : nat) : UcxCommunicator :=
  mkComm r n (map (fun p => if decide (p = r) then None else Some p) (seq 0 n)).

Lemma full_comm_ok n r : CommOk n r (full_comm n r).
Proof.
  split; [done..|]. intros p Hp Hne. unfold endpoint, full_comm. cbn.
  rewrite list_lookup_fmap, lookup_seq_lt by done. cbn. by rewrite decide_False.
Qed.
