(* ===== verification/AmRouter.v ===== *)
(** * AmRouter: matching active messages to receives
    ([pluvio_collective/src/ucx_backend/am_router.rs])

    The router keeps one slot per key: a receive that waits, or the bytes of a
    message that came early.  A receive future shares its [done] flag and its
    target buffer with the slot (an [Rc] and a raw pointer), so both live in a
    store of cells named by the future's number. *)

From S2P Require Import Prelude Future CollBase.

(** ** State *)

Record RecvCell : Type := mkCell { cdone : bool; ctarget : list Z }.

Record PendingRecv : Type := mkPending { pcell : nat; plen : nat; pwaker : option Waker }.

Inductive Slot : Type :=
| SPending (p : PendingRecv)
| SEarly (bytes : list Z).

Record AmRouter : Type := mkRouter { slots : gmap RecvKey Slot; cells : gmap nat RecvCell }.
Definition AmRouter_new : AmRouter := mkRouter ∅ ∅.

Definition set_slots (s : gmap RecvKey Slot) (r : AmRouter) : AmRouter := mkRouter s (cells r).
Definition cell_at (c : nat) (r : AmRouter) : RecvCell := default (mkCell false []) (cells r !! c).
Definition set_cell (c : nat) (x : RecvCell) (r : AmRouter) : AmRouter := mkRouter (slots r) (<[c := x]> (cells r)).

(** ** Operations *)

Definition take_early (key : RecvKey) (r : AmRouter) : AmRouter * option (list Z) :=
  match slots r !! key with
  | Some (SEarly bytes) => (set_slots (delete key (slots r)) r, Some bytes)
  | _ => (r, None)
  end.

(** [debug]: whether debug assertions are compiled in. *)
Definition register_pending (debug : bool) (key : RecvKey) (p : PendingRecv) (r : AmRouter) : outcome AmRouter :=
  match slots r !! key with
  | Some _ => if debug then Panic "duplicate pending registration" else mret tt
  | None => mret tt
  end ;;
  mret (set_slots (<[key := SPending p]> (slots r)) r).

Definition update_waker (key : RecvKey) (k : Waker) (r : AmRouter) : AmRouter :=
  match slots r !! key with
  | Some (SPending p) => set_slots (<[key := SPending (mkPending (pcell p) (plen p) (Some k))]> (slots r)) r
  | _ => r
  end.

Definition cancel_pending (key : RecvKey) (r : AmRouter) : AmRouter := set_slots (delete key (slots r)) r.

(** [copy_nonoverlapping] of the first [min (length bytes) len] bytes. *)
Definition copy_bytes (len : nat) (bytes target : list Z) : list Z :=
  splice 0 (take (Nat.min (length bytes) len) bytes) target.

(** The router and the waker woken. *)
Definition deliver (key : RecvKey) (bytes : list Z) (r : AmRouter) : AmRouter * option Waker :=
  let slot := slots r !! key in
  let r := set_slots (delete key (slots r)) r in
  match slot with
  | Some (SPending p) =>
      let x := cell_at (pcell p) r in
      (set_cell (pcell p) (mkCell true (copy_bytes (plen p) bytes (ctarget x))) r, pwaker p)
  | None => (set_slots (<[key := SEarly bytes]> (slots r)) r, None)
  | Some (SEarly _) => (r, None)
  end.

Definition pending_count (r : AmRouter) : nat :=
  length (filter (fun kv => match kv.2 with SPending _ => true | SEarly _ => false end = true)
    (map_to_list (slots r))).

(** ** The dispatcher *)

(** A message: its header and what [recv_data_single] returns for its data. *)
Record AmMsg : Type := mkMsg { mheader : list Z; mdata : result (list Z) string }.

(** The loop over the messages of the stream, until it closes. *)
Fixpoint dispatcher_loop (stream : list AmMsg) (r : AmRouter) : AmRouter * list Waker :=
  match stream with
  | [] => (r, [])
  | msg :: stream =>
      match header_decode (mheader msg) with
      | RErr _ => dispatcher_loop stream r
      | ROk header =>
          match mdata msg with
          | RErr _ => dispatcher_loop stream r
          | ROk buf =>
              let (r, w) := deliver (key_of header) buf r in
              let (r, ws) := dispatcher_loop stream r in (r, option_list w ++ ws)
          end
      end
  end.

(** ** The receive future *)

Record RecvFuture : Type := mkRecv { rf_key : RecvKey; rf_cell : nat; rf_registered : bool; rf_len : nat }.

Definition RecvFuture_new (key : RecvKey) (cell : nat) (target : list Z) (r : AmRouter) : AmRouter * RecvFuture :=
  (set_cell cell (mkCell false target) r, mkRecv key cell false (length target)).

Definition RecvFuture_poll (debug : bool) (k : Waker) (f : RecvFuture) (r : AmRouter) :
    outcome (AmRouter * RecvFuture * Poll (result unit CollectiveError)) :=
  if cdone (cell_at (rf_cell f) r) then mret (r, f, Ready (ROk tt))
  else if negb (rf_registered f) then
    match take_early (rf_key f) r with
    | (r, Some bytes) =>
        let x := cell_at (rf_cell f) r in
        mret (set_cell (rf_cell f) (mkCell true (copy_bytes (rf_len f) bytes (ctarget x))) r, f, Ready (ROk tt))
    | (r, None) =>
        r ← register_pending debug (rf_key f) (mkPending (rf_cell f) (rf_len f) (Some (clone_raw k))) r;
        mret (r, mkRecv (rf_key f) (rf_cell f) true (rf_len f), Pending)
    end
  else mret (update_waker (rf_key f) (clone_raw k) r, f, Pending).

Definition RecvFuture_drop (f : RecvFuture) (r : AmRouter) : AmRouter :=
  if rf_registered f && negb (cdone (cell_at (rf_cell f) r)) then cancel_pending (rf_key f) r else r.

(** ** Runs: messages, polls and drops in any order *)

Inductive RouterEvent : Type :=
| EMsg (key : RecvKey) (bytes : list Z)
| EPollRecv (i : nat) (k : Waker)
| EDropRecv (i : nat).

(** The router and the receives in flight, by number (that of their cell). *)
Definition RouterSt : Type := (AmRouter * gmap nat RecvFuture)%type.

(** The wakers woken and the results of polls. *)
Definition router_event (debug : bool) (e : RouterEvent) (st : RouterSt) :
    outcome (RouterSt * option Waker * option (Poll (result unit CollectiveError))) :=
  let (r, fs) := st in
  match e with
  | EMsg key bytes => let (r, w) := deliver key bytes r in mret (r, fs, w, None)
  | EPollRecv i k =>
      match fs !! i with
      | Some f => '(r, f, p) ← RecvFuture_poll debug k f r; mret (r, <[i := f]> fs, None, Some p)
      | None => mret (st, None, None)
      end
  | EDropRecv i =>
      match fs !! i with
      | Some f => mret (RecvFuture_drop f r, delete i fs, None, None)
      | None => mret (st, None, None)
      end
  end.

Fixpoint router_run (debug : bool) (es : list RouterEvent) (st : RouterSt) : outcome RouterSt :=
  match es with
  | [] => mret st
  | e :: es => '(st, _, _) ← router_event debug e st; router_run debug es st
  end.

(** * Facts *)

(** Without debug assertions nothing here panics. *)
Lemma router_run_total es st : exists st', router_run false es st = Ok st'.
Proof.
  revert st. induction es as [|e es IH]; intros st; cbn; [by eexists|].
  assert (He : exists x, router_event false e st = Ok x).
  { destruct st as [r fs]. destruct e as [k b|j k|j]; cbn.
    - destruct (deliver k b r). by eexists.
    - destruct (fs !! j) as [f|]; [|by eexists]. unfold RecvFuture_poll. destruct (cdone _); [by eexists|].
      destruct (rf_registered f); [by eexists|]. cbn. destruct (take_early (rf_key f) r) as [r' [b|]]; [by eexists|].
      unfold register_pending. destruct (slots r' !! rf_key f); by eexists.
    - destruct (fs !! j); by eexists. }
  destruct He as [[[st' w] p] ->]. cbn. apply IH.
Qed.

Section facts.
Context (debug : bool) (key : RecvKey) (i : nat) (target bytes : list Z).

(** What happened so far to the message and the receive of [key]: nothing, the
    receive was posted (with the waker of its last poll), the message came first,
    or they met. *)
Inductive Met : Type := Neither | Posted (k : Waker) | Early | Delivered.

Definition received : list Z := copy_bytes (length target) bytes target.

Record Meeting (m : Met) (st : RouterSt) : Prop := {
  me_future : exists b, st.2 !! i = Some (mkRecv key i b (length target)) /\
    match m with Neither | Early => b = false | Posted _ => b = true | Delivered => True end;
  me_slot : slots st.1 !! key = match m with
    | Neither | Delivered => None
    | Posted k => Some (SPending (mkPending i (length target) (Some k)))
    | Early => Some (SEarly bytes)
    end;
  me_cell : cells st.1 !! i = Some (match m with
    | Delivered => mkCell true received
    | _ => mkCell false target
    end);
  me_others j f : st.2 !! j = Some f -> j <> i -> rf_key f <> key /\ rf_cell f = j;
  me_slots k p : slots st.1 !! k = Some (SPending p) -> k <> key -> pcell p <> i
}.

(** The event has nothing to do with the message of the key, and does not drop the
    receive; it may poll it. *)
Definition quiet_event (e : RouterEvent) : Prop :=
  match e with EMsg k _ => k <> key | EPollRecv _ _ => True | EDropRecv j => j <> i end.

(** The waker of the last poll of the receive. *)
Fixpoint last_poll (es : list RouterEvent) (w : option Waker) : option Waker :=
  match es with
  | [] => w
  | EPollRecv j k :: es => last_poll es (if decide (j = i) then Some (clone_raw k) else w)
  | _ :: es => last_poll es w
  end.

(** Steps that leave the key's slot and the receive alone. *)
Lemma meeting_frame m (st st' : RouterSt) :
  Meeting m st -> st'.2 !! i = st.2 !! i -> slots st'.1 !! key = slots st.1 !! key ->
  cells st'.1 !! i = cells st.1 !! i ->
  (forall j f, st'.2 !! j = Some f -> j <> i -> rf_key f <> key /\ rf_cell f = j) ->
  (forall k p, slots st'.1 !! k = Some (SPending p) -> k <> key -> pcell p <> i) ->
  Meeting m st'.
Proof. intros [M1 M2 M3 M4 M5] Hf Hs Hc Ho Hp. split; [by rewrite Hf|by rewrite Hs|by rewrite Hc|done|done]. Qed.

Lemma register_pending_Ok (k : RecvKey) p r r' :
  register_pending debug k p r = Ok r' -> r' = set_slots (<[k := SPending p]> (slots r)) r.
Proof. unfold register_pending. intros Hr. inv_Ok. done. Qed.

(** A poll of another receive. *)
Lemma poll_other k f r' f' p m st :
  Meeting m st -> rf_key f <> key -> rf_cell f <> i ->
  RecvFuture_poll debug k f st.1 = Ok (r', f', p) ->
  slots r' !! key = slots st.1 !! key /\ cells r' !! i = cells st.1 !! i /\
  rf_key f' = rf_key f /\ rf_cell f' = rf_cell f /\
  (forall k p, slots r' !! k = Some (SPending p) -> k <> key -> pcell p <> i).
Proof.
  intros HM Hk Hc Hp. assert (M5 := me_slots _ _ HM).
  assert (Hput : forall q c, pcell q <> i -> c !! i = cells st.1 !! i ->
    slots (mkRouter (<[rf_key f := SPending q]> (slots st.1)) c) !! key = slots st.1 !! key /\
    cells (mkRouter (<[rf_key f := SPending q]> (slots st.1)) c) !! i = cells st.1 !! i /\
    (forall k p, slots (mkRouter (<[rf_key f := SPending q]> (slots st.1)) c) !! k = Some (SPending p) ->
       k <> key -> pcell p <> i)).
  { intros q c Hq Hci. cbn. rewrite lookup_insert_ne by done. split; [done|]. split; [done|]. intros k' p'.
    destruct (decide (k' = rf_key f)) as [->|Hne].
    - rewrite lookup_insert_eq. by intros [= <-].
    - rewrite lookup_insert_ne by done. apply M5. }
  unfold RecvFuture_poll in Hp. destruct (cdone _); [inv_Ok; by repeat split|].
  destruct (rf_registered f); cbn [negb] in Hp.
  - inv_Ok. unfold update_waker. destruct (slots st.1 !! rf_key f') as [[q|]|] eqn:Hs; [|by repeat split..].
    destruct (Hput (mkPending (pcell q) (plen q) (Some (clone_raw k))) (cells st.1)) as (? & ? & ?); [|done|done].
    cbn. by eapply M5.
  - destruct (take_early (rf_key f) st.1) as [r1 [b|]] eqn:Ht; unfold take_early in Ht;
      (destruct (slots st.1 !! rf_key f) as [[q|b']|] eqn:Hs; injection Ht; intros; subst; try done); inv_Ok.
    + cbn. rewrite lookup_delete_ne, lookup_insert_ne by done. repeat split; try done. intros k' p' Hk'.
      apply lookup_delete_Some in Hk' as [_ Hk']. by apply M5.
    + apply register_pending_Ok in H as ->. cbn.
      destruct (Hput (mkPending (rf_cell f) (rf_len f) (Some (clone_raw k))) (cells st.1)) as (? & ? & ?); done.
    + apply register_pending_Ok in H as ->. cbn.
      destruct (Hput (mkPending (rf_cell f) (rf_len f) (Some (clone_raw k))) (cells st.1)) as (? & ? & ?); done.
Qed.

(** A message under another key. *)
Lemma deliver_other k b r' w m st :
  Meeting m st -> k <> key -> deliver k b st.1 = (r', w) ->
  slots r' !! key = slots st.1 !! key /\ cells r' !! i = cells st.1 !! i /\
  (forall k p, slots r' !! k = Some (SPending p) -> k <> key -> pcell p <> i).
Proof.
  intros HM Hk Hd. assert (M5 := me_slots _ _ HM). unfold deliver in Hd.
  assert (Hdel : forall k' p', delete k (slots st.1) !! k' = Some (SPending p') -> k' <> key -> pcell p' <> i).
  { intros k' p' Hk'. apply lookup_delete_Some in Hk' as [_ Hk']. by apply M5. }
  destruct (slots st.1 !! k) as [[q|b']|] eqn:Hs; injection Hd as <- <-; cbn.
  - assert (pcell q <> i) by by eapply M5. by rewrite lookup_delete_ne, lookup_insert_ne.
  - by rewrite lookup_delete_ne.
  - rewrite lookup_insert_ne, lookup_delete_ne by done. repeat split; try done. intros k' p'.
    destruct (decide (k' = k)) as [->|Hne]; [by rewrite lookup_insert_eq|]. rewrite lookup_insert_ne by done. apply Hdel.
Qed.

(** A drop of another receive. *)
Lemma drop_other f m st :
  Meeting m st -> rf_key f <> key ->
  slots (RecvFuture_drop f st.1) !! key = slots st.1 !! key /\
  cells (RecvFuture_drop f st.1) = cells st.1 /\
  (forall k p, slots (RecvFuture_drop f st.1) !! k = Some (SPending p) -> k <> key -> pcell p <> i).
Proof.
  intros HM Hk. assert (M5 := me_slots _ _ HM). unfold RecvFuture_drop, cancel_pending.
  destruct (_ && _); [|done]. cbn. rewrite lookup_delete_ne by done. repeat split; try done.
  intros k' p' Hk'. apply lookup_delete_Some in Hk' as [_ Hk']. by apply M5.
Qed.

(** The message of the key. *)
Lemma deliver_key m st :
  Meeting m st -> (m = Neither \/ exists w, m = Posted w) ->
  Meeting (match m with Neither => Early | _ => Delivered end) ((deliver key bytes st.1).1, st.2) /\
  (deliver key bytes st.1).2 = match m with Posted w => Some w | _ => None end.
Proof.
  intros [(b & M1 & Mb) M2 M3 M4 M5] Hm. unfold deliver. rewrite M2.
  assert (Hdel : forall k' p', delete key (slots st.1) !! k' = Some (SPending p') -> k' <> key -> pcell p' <> i).
  { intros k' p' Hk'. apply lookup_delete_Some in Hk' as [_ Hk']. by apply M5. }
  destruct Hm as [->|[w ->]]; cbn.
  - split; [|done]. split; cbn; [by exists b|by rewrite lookup_insert_eq|done|done|].
    intros k' p' Hk' Hne. rewrite lookup_insert_ne in Hk' by done. by eapply Hdel.
  - unfold cell_at. cbn. rewrite M3. cbn. split; [|done].
    split; cbn; [by exists b|by rewrite lookup_delete_eq|by rewrite lookup_insert_eq|done|done].
Qed.

(** A poll of the receive. *)
Lemma poll_key k m st :
  Meeting m st -> exists r' f',
    RecvFuture_poll debug k (default (mkRecv key i false 0) (st.2 !! i)) st.1 =
      Ok (r', f', match m with Early | Delivered => Ready (ROk tt) | _ => Pending end) /\
    Meeting (match m with Neither | Posted _ => Posted (clone_raw k) | _ => Delivered end) (r', <[i := f']> st.2).
Proof.
  intros [(b & M1 & Mb) M2 M3 M4 M5]. rewrite M1. unfold RecvFuture_poll, cell_at.
  cbn [default from_option id rf_cell rf_registered rf_key rf_len]. rewrite M3. cbn [default from_option id].
  assert (Hoth : forall f' j f, <[i := f']> st.2 !! j = Some f -> j <> i -> rf_key f <> key /\ rf_cell f = j).
  { intros f' j f Hj Hne. rewrite lookup_insert_ne in Hj by done. by apply M4. }
  assert (Hslot : forall q k' p', <[key := SPending q]> (slots st.1) !! k' = Some (SPending p') -> k' <> key -> pcell p' <> i).
  { intros q k' p' Hk' Hne. rewrite lookup_insert_ne in Hk' by done. by eapply M5. }
  destruct m as [|w| |]; cbn [cdone]; try subst b; cbn [negb].
  - unfold take_early, register_pending. rewrite !M2. cbn. do 2 eexists. split; [done|].
    split; cbn; [eexists; by rewrite lookup_insert_eq|by rewrite lookup_insert_eq|done|apply Hoth|apply Hslot].
  - unfold update_waker. rewrite M2. cbn. do 2 eexists. split; [done|].
    split; cbn; [eexists; by rewrite lookup_insert_eq|by rewrite lookup_insert_eq|done|apply Hoth|apply Hslot].
  - unfold take_early. rewrite M2. cbn. rewrite M3. cbn. do 2 eexists. split; [done|].
    split; cbn; [eexists; by rewrite lookup_insert_eq|by rewrite lookup_delete_eq|by rewrite lookup_insert_eq|apply Hoth|].
    intros k' p' Hk'. apply lookup_delete_Some in Hk' as [_ Hk']. by apply M5.
  - do 2 eexists. split; [done|]. split; cbn; [eexists; by rewrite lookup_insert_eq|done|done|apply Hoth|done].
Qed.

Lemma quiet_step e m st st' w p :
  Meeting m st -> quiet_event e -> router_event debug e st = Ok (st', w, p) ->
  Meeting (match e with
    | EPollRecv j k => if decide (j = i) then
        match m with Neither | Posted _ => Posted (clone_raw k) | _ => Delivered end else m
    | _ => m end) st'.
Proof.
  intros HM Hq He. destruct st as [r fs]. destruct e as [k b|j k|j]; cbn in *.
  - destruct (deliver k b r) as [r1 w1] eqn:Hd. inv_Ok.
    destruct (deliver_other _ _ _ _ _ _ HM Hq Hd) as (H1 & H2 & H3).
    eapply meeting_frame; [done|done|done|done|apply (me_others _ _ HM)|done].
  - destruct (fs !! j) as [f|] eqn:Hf.
    + destruct (RecvFuture_poll debug k f r) as [[[r1 f1] p1]|] eqn:Hp; cbn in He; [|done]. inv_Ok.
      destruct (decide (j = i)) as [->|Hne].
      * destruct (poll_key k _ _ HM) as (r2 & f2 & Hp2 & HM2). cbn in Hp2, HM2. rewrite Hf in Hp2. cbn in Hp2.
        rewrite Hp in Hp2. by injection Hp2 as -> -> ->.
      * destruct (me_others _ _ HM j f Hf Hne) as [Hk Hc].
        destruct (poll_other k f r1 f1 p1 _ _ HM Hk ltac:(congruence) Hp) as (H1 & H2 & H3 & H4 & H5).
        eapply meeting_frame; [done| |done|done| |done]; cbn.
        -- by rewrite lookup_insert_ne.
        -- intros j' f'. destruct (decide (j' = j)) as [->|].
           ++ rewrite lookup_insert_eq. intros [= <-] _. by rewrite H3, H4.
           ++ rewrite lookup_insert_ne by done. apply (me_others _ _ HM).
    + inv_Ok. case_decide as Hji; [|done]. subst. destruct (me_future _ _ HM) as (b & Hb & _). cbn in Hb. congruence.
  - destruct (fs !! j) as [f|] eqn:Hf; inv_Ok; [|done].
    destruct (me_others _ _ HM j f Hf Hq) as [Hk _].
    destruct (drop_other f _ _ HM Hk) as (H1 & H2 & H3).
    eapply meeting_frame; [done| |done| | |done]; cbn in *.
    + by rewrite lookup_delete_ne.
    + by rewrite H2.
    + intros j' f' Hj'. apply lookup_delete_Some in Hj' as [_ Hj']. by apply (me_others _ _ HM).
Qed.

(** The state of the meeting after the polls of [es]. *)
Definition met_after (es : list RouterEvent) (m : Met) : Met :=
  match m, last_poll es (match m with Posted k => Some k | _ => None end) with
  | Neither, Some k | Posted _, Some k => Posted k
  | Early, Some _ => Delivered
  | m, _ => m
  end.

Lemma last_poll_some es w : is_Some w -> is_Some (last_poll es w).
Proof.
  revert w. induction es as [|[k b|j k|j] es IH]; intros w Hw; cbn; try apply IH; try done. case_decide; [by eexists|done].
Qed.

Lemma quiet_run es m st st' :
  Meeting m st -> Forall quiet_event es -> router_run debug es st = Ok st' -> Meeting (met_after es m) st'.
Proof.
  intros HM Hq. revert m st HM. induction Hq as [|e es He _ IH]; intros m st HM Hr.
  - cbn in Hr. inv_Ok. by destruct m.
  - cbn [router_run] in Hr. destruct (router_event debug e st) as [[[st1 w] p]|] eqn:Hs; cbn in Hr; [|done].
    specialize (IH _ _ (quiet_step _ _ _ _ _ _ HM He Hs) Hr). clear Hr Hs.
    destruct e as [k b|j k|j]; cbn [met_after last_poll] in *; try done.
    unfold met_after in *. cbn [last_poll]. destruct (decide (j = i)) as [_|]; [|done].
    destruct m as [|w'| |]; cbn in IH |- *; try done.
    + destruct (last_poll es (Some (clone_raw k))) eqn:Hl; [done|].
      by destruct (last_poll_some es (Some (clone_raw k))) as [? ?]; [eexists|congruence].
    + destruct (last_poll es (Some (clone_raw k))) eqn:Hl; [done|].
      by destruct (last_poll_some es (Some (clone_raw k))) as [? ?]; [eexists|congruence].
    + destruct (last_poll es (Some (clone_raw k))) eqn:Hl.
      * by destruct (last_poll es None).
      * by destruct (last_poll_some es (Some (clone_raw k))) as [? ?]; [eexists|congruence].
Qed.

Lemma router_run_app es1 es2 st :
  router_run debug (es1 ++ es2) st = (st ← router_run debug es1 st; router_run debug es2 st).
Proof.
  revert st. induction es1 as [|e es1 IH]; intros st; cbn; [done|].
  destruct (router_event debug e st) as [[[st1 w] p]|]; cbn; [apply IH|done].
Qed.

(** C18. A message meets its receive, whichever comes first.  Take a receive whose
    key no other receive uses, and a run in which the message of that key comes
    once, among any messages, polls and drops of other receives, and any polls of
    this one.  Without debug assertions the run never panics.  If the receive was
    polled before the message came, its message wakes the waker of its last poll; and
    in any case the next poll after the run resolves, with the message's bytes copied
    to the front of the target. *)
Theorem message_meets_receive es1 es2 st k :
  Meeting Neither st -> Forall quiet_event es1 -> Forall quiet_event es2 ->
  (debug = false -> exists st', router_run debug (es1 ++ EMsg key bytes :: es2) st = Ok st') /\
  forall st', router_run debug (es1 ++ EMsg key bytes :: es2) st = Ok st' ->
  (exists st1 st2, router_run debug es1 st = Ok st1 /\
     router_event debug (EMsg key bytes) st1 = Ok (st2, last_poll es1 None, None)) /\
  exists st'', router_event debug (EPollRecv i k) st' = Ok (st'', None, Some (Ready (ROk tt))) /\
    cells st''.1 !! i = Some (mkCell true received).
Proof.
  intros HM Hq1 Hq2. split; [intros ->; apply router_run_total|]. intros st' Hr. rewrite router_run_app in Hr.
  destruct (router_run debug es1 st) as [st1|] eqn:H1; cbn in Hr; [|done].
  assert (HM1 := quiet_run _ _ _ _ HM Hq1 H1). unfold met_after in HM1.
  destruct st1 as [r1 fs1].
  assert (Hm : exists m, Meeting m (r1, fs1) /\ (m = Neither \/ exists w, m = Posted w) /\
    match m with Posted w => Some w | _ => None end = last_poll es1 None).
  { destruct (last_poll es1 None) as [w|]; [exists (Posted w)|exists Neither]; (split; [done|]); split; eauto. }
  destruct Hm as (m & HM' & Hm & Hw). destruct (deliver_key m _ HM' Hm) as [HM2 Hd]. cbn in HM2, Hd, Hr.
  destruct (deliver key bytes r1) as [r2 w] eqn:Hdl. cbn in *. split.
  { exists (r1, fs1), (r2, fs1). split; [done|]. cbn [router_event]. rewrite ?Hdl. cbn. by rewrite <- Hw, <- Hd. }
  assert (HM3 := quiet_run _ _ _ _ HM2 Hq2 Hr).
  assert (Hend : exists m', Meeting m' st' /\ (m' = Early \/ m' = Delivered)).
  { eexists. split; [exact HM3|]. unfold met_after.
    destruct Hm as [->|[? ->]]; destruct (last_poll es2 None); cbn; auto. }
  destruct Hend as (m' & HM4 & Hm'). destruct st' as [r' fs'].
  destruct (poll_key k _ _ HM4) as (r'' & f'' & Hp & HM5). destruct (me_future _ _ HM4) as (b & Hf & _).
  cbn in Hp, Hf, HM5 |- *. rewrite Hf in *. cbn in Hp. rewrite Hp. cbn. eexists. split.
  - by destruct Hm' as [-> | ->].
  - assert (Hc := me_cell _ _ HM5). cbn in Hc |- *. rewrite Hc. by destruct Hm' as [-> | ->].
Qed.
End facts.

(** A second message under a key destroys the first.  When two messages of the
    same key come before the receive is posted (two broadcasts in a row from the
    same root, say), the second is dropped and takes the buffered first with it: the
    slot is empty, and receives posted afterwards stay pending until further
    messages come. *)
Theorem duplicate_early_loses_both debug key b1 b2 target c k r :
  slots r !! key = None ->
  let r1 := (deliver key b1 r).1 in
  let r2 := (deliver key b2 r1).1 in
  slots r1 !! key = Some (SEarly b1) /\ slots r2 !! key = None /\
  let (r3, f) := RecvFuture_new key c target r2 in
  exists r4 f', RecvFuture_poll debug k f r3 = Ok (r4, f', Pending) /\
    RecvFuture_poll debug k f' r4 = Ok (r4, f', Pending).
Proof.
  intros Hk. cbv zeta. unfold deliver. rewrite Hk. cbn. rewrite !lookup_insert_eq. cbn.
  rewrite lookup_delete_eq. split; [done|]. split; [done|].
  unfold RecvFuture_poll, cell_at, take_early, register_pending. cbn.
  rewrite !lookup_insert_eq. cbn. rewrite !lookup_delete_eq. cbn. rewrite lookup_delete_eq. cbn.
  do 2 eexists. split; [done|]. cbn. rewrite lookup_insert_eq. cbn. unfold update_waker. cbn.
  rewrite lookup_insert_eq. cbn. unfold set_slots. cbn. by rewrite insert_insert_eq.
Qed.

(** Names of messages are faithful.  A header decodes to what was encoded, a
    header shorter than 8 bytes is refused, and two tags (two keys) are equal only
    when sender, step, phase and micro-chunk are, ranks below [2 ^ 16] given. *)
Theorem message_names_faithful h :
  in_u16 (hsrc h) -> in_u16 (hstep h) -> in_u8 (hphase h) -> in_u8 (hmicro h) ->
  header_decode (header_encode h) = ROk h /\
  (forall bs, length bs < BYTES -> header_decode bs = RErr (BadHeader (length bs) BYTES)) /\
  (forall h', in_u16 (hsrc h') -> in_u16 (hstep h') -> in_u8 (hphase h') -> in_u8 (hmicro h') ->
     (encode_tag (hsrc h) (hstep h) (hphase h) (hmicro h) = encode_tag (hsrc h') (hstep h') (hphase h') (hmicro h')
       \/ key_of h = key_of h') -> h = h').
Proof.
  intros Hs Ht Hp Hm. split; [by apply header_decode_encode|]. split.
  - intros bs Hb. unfold header_decode. by destruct (Nat.ltb_spec (length bs) BYTES); [|lia].
  - intros h' Hs' Ht' Hp' Hm' [He|He].
    + destruct (encode_tag_inj _ _ _ _ _ _ _ _ Ht Hp Hm Ht' Hp' Hm' He) as (E1 & E2 & E3 & E4).
      unfold in_u16 in *. rewrite !Z.mod_small in E1 by lia. destruct h, h'; cbn in *. congruence.
    + destruct h, h'. unfold key_of in He. cbn in He. congruence.
Qed.

(** ** Witnesses *)

Definition demo_key : RecvKey := mkKey 0 0 5 0.
Definition demo_recv : RouterSt :=
  let (r, f) := RecvFuture_new demo_key 3 [0; 0; 0]%Z AmRouter_new in (r, {[3 := f]}).

Lemma demo_recv_meeting : Meeting demo_key 3 [0; 0; 0]%Z [7; 8]%Z Neither demo_recv.
Proof.
  split; cbn.
  - by exists false.
  - done.
  - done.
  - intros j f Hj Hne. rewrite lookup_singleton_ne in Hj by done. done.
  - intros k p Hk. by rewrite lookup_empty in Hk.
Qed.

Lemma message_meets_receive_witness : exists st' st'',
  router_run true [EPollRecv 3 (mkWaker 5 TaskQueue); EMsg demo_key [7; 8]%Z; EMsg (mkKey 1 0 5 0) [9]%Z] demo_recv = Ok st' /\
  router_event true (EPollRecv 3 (mkWaker 6 TaskQueue)) st' = Ok (st'', None, Some (Ready (ROk tt))) /\
  cells st''.1 !! 3 = Some (mkCell true [7; 8; 0]%Z).
Proof.
  assert (Hr : exists st', router_run true
    ([EPollRecv 3 (mkWaker 5 TaskQueue)] ++ EMsg demo_key [7; 8]%Z :: [EMsg (mkKey 1 0 5 0) [9]%Z]) demo_recv = Ok st')
    by (eexists; vm_compute; reflexivity).
  destruct Hr as [st' Hr]. exists st'.
  destruct (message_meets_receive true demo_key 3 [0; 0; 0]%Z [7; 8]%Z
    [EPollRecv 3 (mkWaker 5 TaskQueue)] [EMsg (mkKey 1 0 5 0) [9]%Z] _ (mkWaker 6 TaskQueue)
    demo_recv_meeting ltac:(by repeat constructor) ltac:(by repeat constructor)) as [_ Hmeet].
  destruct (Hmeet _ Hr) as [_ (st'' & Hp & Hc)].
  by exists st''.
Defined.

Lemma duplicate_early_loses_both_witness :
  slots (deliver demo_key [8]%Z (deliver demo_key [7]%Z AmRouter_new).1).1 !! demo_key = None.
Proof.
  pose proof (duplicate_early_loses_both true demo_key [7]%Z [8]%Z [0]%Z 3 (mkWaker 5 TaskQueue) AmRouter_new
    eq_refl) as Hd.
  exact (proj1 (proj2 Hd)).
Defined.

Lemma message_names_faithful_witness :
  header_decode (header_encode (mkHeader 7 300 1 9)) = ROk (mkHeader 7 300 1 9).
Proof. apply (message_names_faithful (mkHeader 7 300 1 9)); by vm_compute. Defined.
