(* ===== verification/Spmd.v ===== *)
(** * Spmd: programs of one rank, their network, and why every schedule agrees

    The collectives of [pluvio_collective] run one [async fn] per rank; the ranks
    meet only through messages.  A rank's function becomes a [Prog]: it sends a
    message to a rank under a key, receives the next message under a key, or
    returns.  The network keeps, for each destination and key, the messages in
    order.  A run of all ranks is any interleaving of their steps.

    Keys name their sender, so a queue has one writer and one reader: steps of
    different ranks commute, and when one schedule brings every rank to its result
    every schedule does, without deadlock and in as many steps ([Completes]).  The
    theorems of the collectives therefore only follow the schedule that runs in
    rounds ([round_steps]). *)

From stdpp Require Export relations.
From S2P Require Import Prelude.

(** ** Programs *)

Section prog.
Context {K D : Type}.

Inductive Prog (A : Type) : Type :=
| Ret (a : A)
| Send (dst : nat) (key : K) (data : D) (cont : result unit string -> Prog A)
| Recv (key : K) (cont : result D string -> Prog A).
Arguments Ret {A} a.
Arguments Send {A} dst key data cont.
Arguments Recv {A} key cont.
End prog.
Arguments Prog K D A : clear implicits.
Arguments Ret {K D A} a.
Arguments Send {K D A} dst key data cont.
Arguments Recv {K D A} key cont.

(** ** Labelled steps that commute *)

Section schedules.
Context {W L : Type} `{EqDecision L} (lstep : L -> W -> option W) (Inv : W -> Prop).

Definition any_step (w w' : W) : Prop := exists l, lstep l w = Some w'.

Context (Inv_step : forall l w w', Inv w -> lstep l w = Some w' -> Inv w').
Context (diamond : forall l l' w a b, Inv w -> l <> l' -> lstep l w = Some a -> lstep l' w = Some b ->
  exists c, lstep l' a = Some c /\ lstep l b = Some c).

(** A step taken early only shortens the run that is left. *)
Lemma strip n w u t :
  Inv w -> nsteps any_step n w t -> (forall t', ~ any_step t t') -> any_step w u ->
  exists n', n = S n' /\ nsteps any_step n' u t.
Proof.
  revert w u. induction n as [|n IH]; intros w u Ho Hn Ht Hu.
  - inversion Hn; subst. by destruct (Ht u).
  - inversion Hn as [|? ? v ? Hv Hvt]; subst. exists n. split; [done|].
    destruct Hv as [i Hi], Hu as [j Hj]. destruct (decide (i = j)) as [->|Hij].
    { rewrite Hi in Hj. by injection Hj as <-. }
    destruct (diamond i j w v u Ho Hij Hi Hj) as (c & Hvc & Huc).
    destruct (IH v c) as (n' & -> & Hc); [by eapply Inv_step|done|done|by exists j|].
    eapply nsteps_l; [by exists i|done].
Qed.

Lemma strips m n w u t :
  Inv w -> nsteps any_step n w t -> (forall t', ~ any_step t t') -> nsteps any_step m w u ->
  exists k, n = m + k /\ nsteps any_step k u t.
Proof.
  intros Ho Hn Ht Hm. revert n Ho Hn. induction Hm as [w|m w v u Hv _ IH]; intros n Ho Hn.
  - by exists n.
  - destruct (strip _ _ _ _ Ho Hn Ht Hv) as (n' & -> & Hn'). destruct Hv as [i Hi].
    destruct (IH n') as (k & -> & Hk); [by eapply Inv_step|done|]. by exists k.
Qed.

(** When one schedule ends in [t], every schedule does. *)
Lemma all_schedules w t :
  Inv w -> rtc any_step w t -> (forall t', ~ any_step t t') ->
  (exists N, forall m u, nsteps any_step m w u -> m <= N) /\
  (forall u, rtc any_step w u -> (forall u', ~ any_step u u') -> u = t).
Proof.
  intros Ho Hs Ht. apply rtc_nsteps in Hs as [n Hn]. split.
  - exists n. intros m u Hm. destruct (strips _ _ _ _ _ Ho Hn Ht Hm) as (k & -> & _). lia.
  - intros u Hu Hst. apply rtc_nsteps in Hu as [m Hm].
    destruct (strips _ _ _ _ _ Ho Hn Ht Hm) as (k & _ & Hk). inversion Hk as [|? ? v ? Hv]; [done|].
    by destruct (Hst v).
Qed.
End schedules.

(** ** The network and the runs *)

Section spmd.
Context {K D A : Type} `{Countable K}.
Implicit Types (p : Prog K D A) (ps : list (Prog K D A)).

Abbreviation Net := (gmap (nat * K) (list D)).
Abbreviation SpmdWorld := (list (Prog K D A) * Net)%type.

Definition net_send (dst : nat) (key : K) (data : D) (net : Net) : Net :=
  <[(dst, key) := default [] (net !! (dst, key)) ++ [data]]> net.

Definition net_recv (me : nat) (key : K) (net : Net) : option (D * Net) :=
  match net !! (me, key) with
  | Some (d :: ds) =>
      Some (d, match ds with [] => delete (me, key) net | _ => <[(me, key) := ds]> net end)
  | _ => None
  end.

(** One step of rank [i]; a rank that waits for a message has none. *)
Definition rank_step (i : nat) (w : SpmdWorld) : option SpmdWorld :=
  match w.1 !! i with
  | Some (Send dst key data cont) => Some (<[i := cont (ROk tt)]> w.1, net_send dst key data w.2)
  | Some (Recv key cont) =>
      '(d, net) ← net_recv i key w.2; Some (<[i := cont (ROk d)]> w.1, net)
  | _ => None
  end.

Definition spmd_step : SpmdWorld -> SpmdWorld -> Prop := any_step rank_step.

(** Every execution is finite and ends with the results [fin]. *)
Record Completes ps (fin : list A) : Prop := {
  cm_bound : exists N, forall m w, nsteps spmd_step m (ps, ∅) w -> m <= N;
  cm_done w : rtc spmd_step (ps, ∅) w -> (forall w', ~ spmd_step w w') -> w = (Ret <$> fin, ∅)
}.

(** ** Confluence *)

Context (src_of : K -> nat).

(** The keys a rank sends under name it. *)
Fixpoint owns (i : nat) p : Prop :=
  match p with
  | Ret _ => True
  | Send _ key _ cont => src_of key = i /\ forall r, owns i (cont r)
  | Recv _ cont => forall r, owns i (cont r)
  end.
Definition owned (w : SpmdWorld) : Prop := forall i p, w.1 !! i = Some p -> owns i p.

Lemma owned_step i w w' : owned w -> rank_step i w = Some w' -> owned w'.
Proof.
  intros Ho Hs j p Hj. unfold rank_step in Hs. destruct (w.1 !! i) as [q|] eqn:Hq; [|done].
  specialize (Ho i q Hq) as Hi. assert (Hlt := lookup_lt_Some _ _ _ Hq).
  assert (Hpj : forall p', w'.1 = <[i := p']> w.1 -> owns i p' -> owns j p).
  { intros p' Hw Hp'. rewrite Hw in Hj. apply list_lookup_insert_Some in Hj as [(-> & -> & _)|[_ Hj]]; [done|].
    by apply (Ho j). }
  destruct q as [a|dst key d c|key c]; cbn in *; [done| |].
  - destruct Hi as [_ Hi]. injection Hs as <-. by eapply Hpj.
  - destruct (net_recv i key w.2) as [[d net]|]; cbn in Hs; [|done]. injection Hs as <-. by eapply Hpj.
Qed.

Lemma send_send_comm k k' d d' (a b : nat) net :
  (a, k) <> (b, k') -> net_send a k d (net_send b k' d' net) = net_send b k' d' (net_send a k d net).
Proof. intros Hne. unfold net_send. rewrite !lookup_insert_ne by done. by apply insert_insert_ne. Qed.

Lemma send_recv_comm dst k d me k' d' net net' :
  net_recv me k' net = Some (d', net') ->
  net_recv me k' (net_send dst k d net) = Some (d', net_send dst k d net').
Proof.
  unfold net_recv, net_send. destruct (net !! (me, k')) as [[|x xs]|] eqn:Hm; try done.
  intros [= -> <-]. destruct (decide ((dst, k) = (me, k'))) as [Heq|Hne].
  - rewrite Heq, Hm, lookup_insert_eq. cbn. destruct xs as [|y ys]; cbn; f_equal; f_equal.
    + by rewrite lookup_delete_eq, insert_delete_eq, insert_insert_eq.
    + by rewrite lookup_insert_eq, !insert_insert_eq.
  - rewrite lookup_insert_ne, Hm by done. f_equal. f_equal. destruct xs as [|y ys].
    + rewrite lookup_delete_ne by done. by apply delete_insert_ne.
    + rewrite lookup_insert_ne by done. by apply insert_insert_ne.
Qed.

Lemma recv_recv_comm me k d net net1 me' k' d' net2 :
  (me, k) <> (me', k') -> net_recv me k net = Some (d, net1) -> net_recv me' k' net = Some (d', net2) ->
  exists net3, net_recv me' k' net1 = Some (d', net3) /\ net_recv me k net2 = Some (d, net3).
Proof.
  intros Hk. unfold net_recv.
  destruct (net !! (me, k)) as [[|x xs]|] eqn:H1; try done. intros [= -> <-].
  destruct (net !! (me', k')) as [[|y ys]|] eqn:H2; try done. intros [= -> <-].
  destruct xs, ys; rewrite ?lookup_delete_ne, ?lookup_insert_ne, ?H1, ?H2 by done;
    (eexists; split; [done|]); f_equal; f_equal;
    first [apply delete_delete | by apply insert_insert_ne | by apply delete_insert_ne
          | symmetry; by apply delete_insert_ne].
Qed.

Lemma rank_step_diamond i j w a b :
  owned w -> i <> j -> rank_step i w = Some a -> rank_step j w = Some b ->
  exists c, rank_step j a = Some c /\ rank_step i b = Some c.
Proof.
  intros Ho Hij Hi Hj. unfold rank_step in *.
  destruct (w.1 !! i) as [p|] eqn:Hp; [|done]. destruct (w.1 !! j) as [q|] eqn:Hq; [|done].
  assert (Op := Ho _ _ Hp). assert (Oq := Ho _ _ Hq).
  destruct p as [x|dst k d c|k c], q as [y|dst' k' d' c'|k' c']; cbn in *; try done.
  - injection Hi as <-. injection Hj as <-. cbn. rewrite !list_lookup_insert_ne, Hp, Hq by done.
    eexists. split; [done|]. f_equal. f_equal; [by apply list_insert_insert_ne|].
    apply send_send_comm. destruct Op, Oq. congruence.
  - injection Hi as <-. destruct (net_recv j k' w.2) as [[e net]|] eqn:Hr; cbn in *; [|done].
    injection Hj as <-. cbn. rewrite !list_lookup_insert_ne, Hp, Hq by done.
    rewrite (send_recv_comm _ _ _ _ _ _ _ _ Hr). cbn. eexists. split; [done|].
    f_equal. f_equal. by apply list_insert_insert_ne.
  - injection Hj as <-. destruct (net_recv i k w.2) as [[e net]|] eqn:Hr; cbn in *; [|done].
    injection Hi as <-. cbn. rewrite !list_lookup_insert_ne, Hp, Hq by done.
    rewrite (send_recv_comm _ _ _ _ _ _ _ _ Hr). cbn. eexists. split; [done|].
    f_equal. f_equal. by apply list_insert_insert_ne.
  - destruct (net_recv i k w.2) as [[e net]|] eqn:Hr; cbn in *; [|done].
    destruct (net_recv j k' w.2) as [[e' net']|] eqn:Hr'; cbn in *; [|done].
    injection Hi as <-. injection Hj as <-. cbn. rewrite !list_lookup_insert_ne, Hp, Hq by done.
    destruct (recv_recv_comm _ _ _ _ _ _ _ _ _ (ltac:(congruence) : (i, k) <> (j, k')) Hr Hr') as (net3 & -> & ->). cbn.
    eexists. split; [done|]. f_equal. f_equal. by apply list_insert_insert_ne.
Qed.

Lemma done_stuck (fin : list A) net w : ~ spmd_step (Ret <$> fin, net) w.
Proof.
  intros [i Hi]. unfold rank_step in Hi. cbn in Hi. rewrite list_lookup_fmap in Hi.
  by destruct (fin !! i).
Qed.

(** One complete schedule is enough. *)
Lemma completes_any ps fin : owned (ps, ∅) -> rtc spmd_step (ps, ∅) (Ret <$> fin, ∅) -> Completes ps fin.
Proof.
  intros Ho Hs. destruct (all_schedules rank_step owned owned_step rank_step_diamond _ _ Ho Hs) as [Hb Hd].
  - intros t'. apply done_stuck.
  - by split.
Qed.
End spmd.

(** * Rounds *)

Section rounds.
Context {K D A : Type} `{Countable K}.
Implicit Types (p q : Prog K D A) (l : list (nat * K * D)) (net : gmap (nat * K) (list D)).

(** [sends_to p l q]: [p] sends the messages of [l] in order and goes on as [q]. *)
Inductive sends_to : Prog K D A -> list (nat * K * D) -> Prog K D A -> Prop :=
| st_nil p : sends_to p [] p
| st_cons dst key d cont l q : sends_to (cont (ROk tt)) l q -> sends_to (Send dst key d cont) ((dst, key, d) :: l) q.

(** [gets p o q]: [p] receives the message [o], if any, and goes on as [q]. *)
Definition gets p (o : option (K * D)) q : Prop :=
  match o with
  | None => p = q
  | Some (key, d) => exists cont, p = Recv key cont /\ q = cont (ROk d)
  end.

Definition net_sends l net : gmap (nat * K) (list D) :=
  foldl (fun net '(dst, key, d) => net_send dst key d net) net l.

Lemma sends_steps i p l q ps net :
  ps !! i = Some p -> sends_to p l q ->
  rtc spmd_step (ps, net) (<[i := q]> ps, net_sends l net).
Proof.
  intros Hi Hs. revert ps net Hi. induction Hs as [p|dst key d cont l q _ IH]; intros ps net Hi.
  - rewrite list_insert_id by done. apply rtc_refl.
  - eapply rtc_l.
    + exists i. unfold rank_step. cbn. rewrite Hi. done.
    + assert (Hlt := lookup_lt_Some _ _ _ Hi). cbn.
      specialize (IH (<[i := cont (ROk tt)]> ps) (net_send dst key d net)).
      rewrite list_insert_insert_eq in IH. apply IH. by apply list_lookup_insert_eq.
Qed.

(** Messages under fresh, distinct keys. *)
Lemma net_sends_lookup l net a b :
  NoDup (l.*1) -> (forall x, x ∈ l.*1 -> net !! x = None) ->
  net_sends l net !! (a, b) =
    match list_find (fun x => x.1 = (a, b)) l with
    | Some (_, x) => Some [x.2]
    | None => net !! (a, b)
    end.
Proof.
  unfold net_sends. revert net. induction l as [|[[dst key] d] l IH]; intros net Hnd Hf; [done|].
  inversion Hnd as [|? ? Hnin Hnd']; subst. cbn [foldl list_find fst snd]. rewrite IH; [|done|].
  - unfold net_send. assert (Hk : net !! (dst, key) = None) by (apply Hf; by left). rewrite Hk. cbn.
    destruct (decide ((dst, key) = (a, b))) as [[= -> ->]|Hne].
    + destruct (list_find _ l) as [[j x]|] eqn:Hl; cbn; [|by rewrite lookup_insert_eq].
      apply list_find_Some in Hl as (Hj & Hx & _). exfalso. apply Hnin. apply list_elem_of_fmap.
      exists x. split; [done|]. by eapply list_elem_of_lookup_2.
    + destruct (list_find _ l) as [[j x]|]; cbn; [done|]. by rewrite lookup_insert_ne.
  - intros x Hx. unfold net_send. rewrite lookup_insert_ne; [apply Hf; by right|].
    intros <-. by apply Hnin.
Qed.

Lemma net_sends_elem l x d : NoDup (l.*1) -> (x, d) ∈ l -> net_sends l ∅ !! x = Some [d].
Proof.
  intros Hnd Hin. destruct x as [a b]. rewrite net_sends_lookup by done.
  destruct (list_find _ l) as [[j [y e]]|] eqn:Hl.
  - apply list_find_Some in Hl as (Hj & Hy & _). cbn in *. subst y. f_equal. f_equal.
    apply list_elem_of_lookup_1 in Hin as [i Hi].
    assert (i = j) as ->.
    { eapply NoDup_lookup; [done|rewrite list_lookup_fmap, Hi; done|rewrite list_lookup_fmap, Hj; done]. }
    rewrite Hi in Hj. by injection Hj as ->.
  - exfalso. apply list_find_None in Hl. rewrite Forall_forall in Hl. by apply (Hl _ Hin).
Qed.

Lemma net_sends_dom l x : NoDup (l.*1) -> is_Some (net_sends l ∅ !! x) -> exists d, (x, d) ∈ l.
Proof.
  intros Hnd Hs. destruct x as [a b]. rewrite net_sends_lookup in Hs by done.
  destruct (list_find _ l) as [[j [y e]]|] eqn:Hl; [|rewrite lookup_empty in Hs; by destruct Hs].
  apply list_find_Some in Hl as (Hj & Hy & _). cbn in Hy. subst. exists e. by eapply list_elem_of_lookup_2.
Qed.

Lemma net_sends_app l1 l2 net : net_sends (l1 ++ l2) net = net_sends l2 (net_sends l1 net).
Proof. unfold net_sends. by rewrite foldl_app. Qed.

Context (n : nat) (P Q : nat -> Prog K D A) (S' : nat -> list (nat * K * D)) (G : nat -> option (K * D)).
Context (mid : nat -> Prog K D A).

(** All the messages of the round. *)
Definition round_msgs (m : nat) : list (nat * K * D) := concat (map S' (seq 0 m)).
Definition ranks (F : nat -> Prog K D A) : list (Prog K D A) := map F (seq 0 n).

Lemma ranks_lookup F i : i < n -> ranks F !! i = Some (F i).
Proof. intros. unfold ranks. rewrite list_lookup_fmap, lookup_seq_lt by done. done. Qed.

Lemma ranks_insert F F' i : i < n -> (forall j, j < n -> F' j = if decide (j = i) then F' i else F j) ->
  <[i := F' i]> (ranks F) = ranks F'.
Proof.
  intros Hi HF. apply list_eq. intros j. destruct (decide (j < n)) as [Hj|Hj].
  - rewrite (ranks_lookup F' j Hj), (HF j Hj). case_decide as Hij; subst.
    + apply list_lookup_insert_eq. unfold ranks. by rewrite length_map, length_seq.
    + rewrite list_lookup_insert_ne by done. by apply ranks_lookup.
  - rewrite !lookup_ge_None_2; [done| |]; unfold ranks; rewrite ?length_insert, length_map, length_seq; lia.
Qed.

Lemma round_msgs_S m : round_msgs (S m) = round_msgs m ++ S' m.
Proof. unfold round_msgs. rewrite seq_S, map_app, concat_app. cbn. by rewrite app_nil_r. Qed.

Lemma ranks_ext F F' : (forall i, i < n -> F i = F' i) -> ranks F = ranks F'.
Proof.
  intros HF. unfold ranks. apply map_ext_in. intros i Hi%in_seq. apply HF. lia.
Qed.

Lemma send_phase m net :
  (forall i, i < n -> sends_to (P i) (S' i) (mid i)) -> m <= n ->
  rtc spmd_step (ranks P, net) (ranks (fun i => if decide (i < m) then mid i else P i), net_sends (round_msgs m) net).
Proof.
  intros HS. induction m as [|m IH]; intros Hm; [apply rtc_refl|].
  etrans; [apply IH; lia|]. rewrite round_msgs_S, net_sends_app.
  rewrite <- (ranks_insert (fun i => if decide (i < m) then mid i else P i)
    (fun i => if decide (i < S m) then mid i else P i) m) by
    (try lia; intros j Hj; repeat case_decide; subst; done || lia).
  apply sends_steps with (p := P m).
  - rewrite ranks_lookup by lia. by rewrite decide_False by lia.
  - rewrite decide_True by lia. apply HS. lia.
Qed.

(** The messages still in the network when ranks below [m] have received. *)
Definition left_for (m : nat) net : gmap (nat * K) (list D) := filter (fun e => m <= e.1.1) net.

Lemma recv_phase m net :
  (forall i key d, i < n -> G i = Some (key, d) -> net !! (i, key) = Some [d]) ->
  (forall i key ds, i < n -> net !! (i, key) = Some ds -> exists d, G i = Some (key, d)) ->
  (forall i, i < n -> gets (mid i) (G i) (Q i)) -> m <= n ->
  rtc spmd_step (ranks mid, net) (ranks (fun i => if decide (i < m) then Q i else mid i), left_for m net).
Proof.
  intros Hn Hn' HG. induction m as [|m IH]; intros Hm.
  { unfold left_for. rewrite map_filter_id; [apply rtc_refl|]. intros; lia. }
  etrans; [apply IH; lia|].
  assert (HQ := ranks_insert (fun i => if decide (i < m) then Q i else mid i)
    (fun i => if decide (i < S m) then Q i else mid i) m ltac:(lia)
    ltac:(intros j Hj; repeat case_decide; subst; done || lia)).
  cbv beta in HQ. rewrite decide_True in HQ by lia. specialize (HG m ltac:(lia)).
  assert (Hl : ranks (fun i => if decide (i < m) then Q i else mid i) !! m = Some (mid m)).
  { rewrite ranks_lookup by lia. by rewrite decide_False by lia. }
  destruct (G m) as [[key d]|] eqn:Hg; cbn in HG.
  - destruct HG as (cont & Hmid & Hq). apply rtc_once. exists m. unfold rank_step. cbn. rewrite Hl, Hmid.
    unfold net_recv. assert (Hk : left_for m net !! (m, key) = Some [d]).
    { apply map_lookup_filter_Some. split; [apply Hn; [lia|done]|]. cbn. lia. }
    rewrite Hk. cbn. rewrite <- Hq, HQ. f_equal. f_equal. apply map_eq. intros [a b].
    destruct (decide ((a, b) = (m, key))) as [[= -> ->]|Hne].
    + rewrite lookup_delete_eq. symmetry. apply map_lookup_filter_None. right. intros x _. cbn. lia.
    + rewrite lookup_delete_ne by done. unfold left_for. rewrite !map_lookup_filter.
      destruct (net !! (a, b)) as [ds|] eqn:Hab; [|done]. cbn.
      destruct (decide (a = m)) as [->|].
      * exfalso. destruct (Hn' m b ds ltac:(lia) Hab) as [d' Hd']. rewrite Hg in Hd'. injection Hd' as <- <-. done.
      * destruct (decide (m <= a)), (decide (S m <= a)); rewrite ?option_guard_True, ?option_guard_False by lia; done || lia.
  - rewrite <- HQ, <- HG, list_insert_id by done.
    assert (left_for m net = left_for (S m) net) as <-; [|apply rtc_refl].
    apply map_eq. intros [a b]. unfold left_for. rewrite !map_lookup_filter.
    destruct (net !! (a, b)) as [ds|] eqn:Hab; [|done]. cbn.
    destruct (decide (a = m)) as [->|].
    + destruct (Hn' m b ds ltac:(lia) Hab) as [d' Hd']. by rewrite Hg in Hd'.
    + destruct (decide (m <= a)), (decide (S m <= a)); rewrite ?option_guard_True, ?option_guard_False by lia; done || lia.
Qed.

(** A round of all ranks: each sends its messages, then receives the one meant for
    it, if any; what is sent is exactly what is received. *)
Lemma round_steps :
  (forall i, i < n -> sends_to (P i) (S' i) (mid i)) ->
  (forall i, i < n -> gets (mid i) (G i) (Q i)) ->
  NoDup ((round_msgs n).*1) ->
  (forall a key d, (a, key, d) ∈ round_msgs n -> a < n /\ G a = Some (key, d)) ->
  (forall i key d, i < n -> G i = Some (key, d) -> (i, key, d) ∈ round_msgs n) ->
  rtc spmd_step (ranks P, ∅) (ranks Q, ∅).
Proof.
  intros HS HG Hnd Hto Hfrom.
  etrans; [apply (send_phase n ∅ HS); lia|].
  rewrite (ranks_ext _ mid) by (intros i Hi; by rewrite decide_True).
  set (net := net_sends (round_msgs n) ∅).
  etrans; [apply (recv_phase n net); [| |done|lia]|].
  - intros i key d Hi Hg. apply net_sends_elem; [done|]. by apply Hfrom.
  - intros i key ds Hi Hl. destruct (net_sends_dom (round_msgs n) (i, key) Hnd) as [d Hd]; [by exists ds|].
    exists d. by apply Hto.
  - rewrite (ranks_ext _ Q) by (intros i Hi; by rewrite decide_True).
    assert (left_for n net = ∅) as ->; [|apply rtc_refl].
    apply map_empty. intros [a b]. apply map_lookup_filter_None.
    destruct (net !! (a, b)) as [ds|] eqn:Hab; [right|by left]. intros x [= <-]. cbn.
    destruct (net_sends_dom (round_msgs n) (a, b) Hnd) as [d Hd]; [by exists ds|].
    apply Hto in Hd as [? _]. lia.
Qed.
End rounds.

(** ** Loops and exchanges *)

Section loops.
Context {K D A St E : Type} `{Countable K}.
Abbreviation P := (Prog K D A).

(** [for step in start..start + cnt { body?; }]: [body] is in continuation-passing
    style, as what follows an [.await]. *)
Fixpoint for_range (start cnt : nat) (body : nat -> St -> (St * result unit E -> P) -> P) (s : St)
    (k : St * result unit E -> P) : P :=
  match cnt with
  | O => k (s, ROk tt)
  | S cnt =>
      body start s (fun '(s, r) =>
        match r with
        | ROk _ => for_range (S start) cnt body s k
        | RErr e => k (s, RErr e)
        end)
  end.

Lemma owns_for_range_lt (src_of : K -> nat) i start cnt m body s k :
  start + cnt <= m ->
  (forall t s k, t < m -> (forall r, owns src_of i (k r)) -> owns src_of i (body t s k)) ->
  (forall r, owns src_of i (k r)) -> owns src_of i (for_range start cnt body s k).
Proof.
  intros Hm Hb Hk. revert start s Hm. induction cnt as [|cnt IH]; intros start s Hm; cbn; [apply Hk|].
  apply Hb; [lia|]. intros [s' [u|e]]; [apply IH; lia|apply Hk].
Qed.

Lemma owns_for_range (src_of : K -> nat) i start cnt body s k :
  (forall t s k, (forall r, owns src_of i (k r)) -> owns src_of i (body t s k)) ->
  (forall r, owns src_of i (k r)) -> owns src_of i (for_range start cnt body s k).
Proof.
  intros Hb Hk. revert start s. induction cnt as [|cnt IH]; intros start s; cbn; [apply Hk|].
  apply Hb. intros [s' [u|e]]; [apply IH|apply Hk].
Qed.

(** The ranks run their loops in lockstep. *)
Lemma for_range_steps n start cnt (body : nat -> nat -> St -> (St * result unit E -> P) -> P)
    (st : nat -> nat -> St) (k : nat -> St * result unit E -> P) :
  (forall t k', start <= t < start + cnt ->
    rtc spmd_step (ranks n (fun i => body i t (st t i) (k' i)), ∅)
      (ranks n (fun i => k' i (st (S t) i, ROk tt)), ∅)) ->
  rtc spmd_step (ranks n (fun i => for_range start cnt (body i) (st start i) (k i)), ∅)
    (ranks n (fun i => k i (st (start + cnt) i, ROk tt)), ∅).
Proof.
  revert start. induction cnt as [|cnt IH]; intros start Hb; cbn [for_range].
  - rewrite Nat.add_0_r. apply rtc_refl.
  - etrans; [apply (Hb start (fun i '(s, r) => match r with
      | ROk _ => for_range (S start) cnt (body i) s (k i) | RErr e => k i (s, RErr e) end)); lia|].
    rewrite <- Nat.add_succ_comm. apply IH. intros t k' Ht. apply Hb. lia.
Qed.

(** Each rank sends one message and receives one: rank [i] sends to [to i] and
    receives from [from i]. *)
Lemma exchange_steps n (F Q : nat -> P) (to from : nat -> nat) (stag : nat -> K) (data : nat -> D) :
  (forall i, i < n -> to i < n /\ from i < n /\ from (to i) = i /\ to (from i) = i) ->
  (forall i, i < n -> exists c c', F i = Send (to i) (stag i) (data i) c /\
    c (ROk tt) = Recv (stag (from i)) c' /\ Q i = c' (ROk (data (from i)))) ->
  rtc spmd_step (ranks n F, ∅) (ranks n Q, ∅).
Proof.
  intros Hp HF.
  set (mid i := match F i with Send _ _ _ c => c (ROk tt) | p => p end).
  set (msgs i := [(to i, stag i, data i)]).
  assert (Hmsgs : round_msgs msgs n = map (fun i => (to i, stag i, data i)) (seq 0 n)).
  { unfold round_msgs, msgs. induction (seq 0 n) as [|x l IH]; cbn; [done|]. by rewrite IH. }
  apply (round_steps n F Q msgs (fun i => Some (stag (from i), data (from i))) mid).
  - intros i Hi. destruct (HF i Hi) as (c & c' & Hs & _). unfold mid, msgs. rewrite Hs. by repeat constructor.
  - intros i Hi. destruct (HF i Hi) as (c & c' & Hs & Hr & Hq). unfold mid. rewrite Hs. cbn. by exists c'.
  - rewrite Hmsgs, map_map. cbn. apply NoDup_fmap_2_strong; [|apply NoDup_ListNoDup, seq_NoDup].
    intros i j Hi%list_elem_of_In%in_seq Hj%list_elem_of_In%in_seq [= Ht _].
    destruct (Hp i ltac:(lia)) as (_ & _ & Hi' & _), (Hp j ltac:(lia)) as (_ & _ & Hj' & _). congruence.
  - intros a key d Hin. rewrite Hmsgs in Hin. apply list_elem_of_fmap in Hin as (i & [= -> -> ->] & Hi%list_elem_of_In%in_seq).
    destruct (Hp i ltac:(lia)) as (Hlt & _ & -> & _). done.
  - intros i key d Hi [= <- <-]. rewrite Hmsgs. apply list_elem_of_fmap. destruct (Hp i Hi) as (_ & Hlt & _ & Ht).
    exists (from i). rewrite Ht. split; [done|]. apply list_elem_of_In, in_seq. lia.
Qed.
End loops.

Lemma round_msgs_elem {K D} (S' : nat -> list (nat * K * D)) n x :
  x ∈ round_msgs S' n <-> exists i, i < n /\ x ∈ S' i.
Proof.
  induction n as [|n IH]; [split; [by intros ?%elem_of_nil|intros (? & ? & _); lia]|].
  rewrite round_msgs_S, elem_of_app, IH. split.
  - intros [(i & Hi & Hx)|Hx]; [exists i|exists n]; (split; [lia|done]).
  - intros (i & Hi & Hx). destruct (decide (i = n)) as [->|]; [by right|left; exists i; split; [lia|done]].
Qed.

(** Keys that name their sender are distinct across the ranks. *)
Lemma round_msgs_nodup {K D} (src_of : K -> nat) (S' : nat -> list (nat * K * D)) n :
  (forall i, i < n -> NoDup ((S' i).*1)) ->
  (forall i x, i < n -> x ∈ S' i -> src_of x.1.2 = i) -> NoDup ((round_msgs S' n).*1).
Proof.
  induction n as [|n IH]; intros Hnd Hsrc; [constructor|].
  rewrite round_msgs_S, fmap_app. apply NoDup_app. split; [|split].
  - apply IH; intros; [apply Hnd; lia|apply Hsrc; [lia|done]].
  - intros y Hy Hy'. apply list_elem_of_fmap in Hy as (x & -> & Hx), Hy' as (x' & He & Hx').
    apply round_msgs_elem in Hx as (i & Hi & Hx). apply Hsrc in Hx; [|lia]. apply Hsrc in Hx'; [|lia].
    rewrite He in Hx. lia.
  - apply Hnd. lia.
Qed.

(** The ranks' programs from one complete schedule. *)
Lemma completes_ranks {K D A} `{Countable K} (src_of : K -> nat) n (F : nat -> Prog K D A) (fin : nat -> A) :
  (forall i, i < n -> owns src_of i (F i)) ->
  rtc spmd_step (ranks n F, ∅) (ranks n (fun i => Ret (fin i)), ∅) ->
  Completes (ranks n F) (map fin (seq 0 n)).
Proof.
  intros Ho Hs. apply (completes_any src_of).
  - intros i p Hi. unfold ranks in Hi. cbn [fst] in Hi. rewrite list_lookup_fmap in Hi.
    destruct (decide (i < n)); [rewrite lookup_seq_lt in Hi by done|rewrite lookup_seq_ge in Hi by lia; done].
    cbn in Hi. injection Hi as <-. by apply Ho.
  - assert (Ret <$> map fin (seq 0 n) = ranks n (fun i => Ret (fin i)) :> list (Prog K D A)) as ->; [|done].
    unfold ranks. apply map_map.
Qed.
