(* ===== verification/Ring.v ===== *)
(** * Ring: the ring allreduce ([pluvio_collective/src/ucx_backend/ring.rs])

    The buffer is cut into one chunk per rank.  In [n - 1] steps of reduce-scatter
    each chunk travels round the ring and picks up every rank's contribution; in
    [n - 1] steps of allgather the finished chunks travel round once more.  What
    follows an [.await] is a continuation.  A transport error ends the function with
    the buffer as it is; the runs of [Spmd] deliver every message. *)

From S2P Require Import Prelude CollBase Spmd.

(** Keys are tags, messages are slices of elements (their bytes). *)
Definition RankResult (T : Type) : Type := (list T * result unit CollectiveError)%type.

Section ring.
Context {T : Type} `{Op T} (T_default : T).
Abbreviation P := (Prog Z (list T) (RankResult T)).

(** A receive copies into the front of its buffer. *)
Definition fill (target d : list T) : list T := splice 0 (take (length target) d) target.

(** Both halves run under one [join]; the send's error comes first. *)
Definition run_send_recv (dst : nat) (send_tag : Z) (send : list T) (recv_tag : Z) (target : list T)
    (k : list T * result unit CollectiveError -> P) : P :=
  Send dst send_tag send (fun send_res =>
    Recv recv_tag (fun recv_res =>
      k (match recv_res with ROk d => fill target d | RErr _ => target end,
         match send_res, recv_res with
         | RErr e, _ => RErr (Ucx ("tag_send: " ++ e))
         | ROk _, RErr e => RErr (Ucx ("tag_recv: " ++ e))
         | ROk _, ROk _ => ROk tt
         end))).

Definition ring_tag (rank step : nat) (phase : Z) : Z :=
  encode_tag (Z.of_nat rank) (wrap16 (Z.of_nat step)) phase 0.

(** One step of reduce-scatter; the state is [buf] and [tmp]. *)
Definition reduce_scatter_step (n rank next_ep prev chunk step : nat) (s : list T * list T)
    (k : (list T * list T) * result unit CollectiveError -> P) : P :=
  let (buf, tmp) := s in
  let send_idx := (rank + n - step) mod n in
  let recv_idx := (rank + n - step - 1) mod n in
  run_send_recv next_ep (ring_tag rank step 0) (slice (send_idx * chunk) chunk buf) (ring_tag prev step 0) tmp
    (fun '(tmp, r) =>
       match r with
       | RErr e => k ((buf, tmp), RErr e)
       | ROk _ =>
           let dst := slice (recv_idx * chunk) chunk buf in
           k ((splice (recv_idx * chunk) (reduce_in_place dst tmp) buf, tmp), ROk tt)
       end).

(** One step of allgather: the message is received in place. *)
Definition allgather_step (n rank next_ep prev chunk step : nat) (buf : list T)
    (k : list T * result unit CollectiveError -> P) : P :=
  let send_idx := (rank + n - step + 1) mod n in
  let recv_idx := (rank + n - step) mod n in
  run_send_recv next_ep (ring_tag rank step 1) (slice (send_idx * chunk) chunk buf) (ring_tag prev step 1)
    (slice (recv_idx * chunk) chunk buf)
    (fun '(got, r) => k (splice (recv_idx * chunk) got buf, r)).

Definition ring_allreduce (c : UcxCommunicator) (buf : list T) (k : RankResult T -> P) : P :=
  let n := csize c in
  let rank := crank c in
  if n <=? 1 then k (buf, ROk tt)
  else if negb (length buf mod n =? 0) then k (buf, RErr BadShape)
  else
    let chunk := length buf / n in
    let next := (rank + 1) mod n in
    let prev := (rank + n - 1) mod n in
    match endpoint c next with
    | None => k (buf, RErr (Protocol "no endpoint to next rank"))
    | Some next_ep =>
        for_range 0 (n - 1) (reduce_scatter_step n rank next_ep prev chunk) (buf, replicate chunk T_default)
          (fun '((buf, _), r) =>
             match r with
             | RErr e => k (buf, RErr e)
             | ROk _ => for_range 0 (n - 1) (allgather_step n rank next_ep prev chunk) buf k
             end)
    end.
End ring.

(** * Facts *)

Lemma wrap16_in z : in_u16 (wrap16 z).
Proof. apply Z.mod_pos_bound. lia. Qed.

(** ** The ring as a cycle *)

Definition next_of (n i : nat) : nat := (i + 1) mod n.
Definition prev_of (n i : nat) : nat := (i + n - 1) mod n.
(** How far rank [i] is after chunk [c], and after the owner of the finished chunk. *)
Definition dist (n i c : nat) : nat := (i + n - c) mod n.
Definition dist' (n i c : nat) : nat := (i + n + 1 - c) mod n.

Lemma ring_cycle n i : 2 <= n -> i < n ->
  next_of n i < n /\ prev_of n i < n /\ prev_of n (next_of n i) = i /\ next_of n (prev_of n i) = i.
Proof. intros. unfold next_of, prev_of. repeat split; mod_cases. Qed.

Lemma send_idx_prev n i s : 2 <= n -> i < n -> s < n - 1 ->
  (prev_of n i + n - s) mod n = (i + n - s - 1) mod n.
Proof. intros. unfold prev_of. mod_cases. Qed.

Lemma dist_send n i s : s < n -> i < n -> dist n i ((i + n - s) mod n) = s.
Proof. intros. unfold dist. mod_cases. Qed.

Lemma dist_inj n i c : i < n -> c < n -> c = (i + n - dist n i c) mod n.
Proof. intros. unfold dist. mod_cases. Qed.

Lemma dist_prev n i s : 2 <= n -> i < n -> s < n - 1 ->
  dist n (prev_of n i) ((i + n - s - 1) mod n) = s /\ dist n i ((i + n - s - 1) mod n) = S s.
Proof. intros. unfold dist, prev_of. split; mod_cases. Qed.

Lemma dist_next n i c d : i < n -> c < n -> dist n i c = S d -> (c + S d) mod n = i.
Proof. unfold dist. intros Hi Hc Hd. revert Hd. destruct (decide (c <= i)).
  - rewrite (mod_wrap n (i + n - c)) by lia. intros. rewrite Nat.mod_small; lia.
  - rewrite (Nat.mod_small (i + n - c)) by lia. intros. rewrite mod_wrap; lia.
Qed.

Lemma dist'_eq n i c : 2 <= n -> i < n -> c < n ->
  dist' n i c = if decide (c <= i + 1) then (if decide (i + 1 - c = n) then 0 else i + 1 - c) else i + n + 1 - c.
Proof.
  intros. unfold dist'. repeat case_decide.
  - replace (i + n + 1 - c) with (2 * n) by lia. apply Nat.Div0.mod_mul.
  - rewrite mod_wrap; lia.
  - apply Nat.mod_small. lia.
Qed.

Lemma dist'_inj n i c s : 2 <= n -> i < n -> c < n -> s < n - 1 -> dist' n i c = S s -> c = (i + n - s) mod n.
Proof. intros ????. rewrite dist'_eq by done. repeat case_decide; intros; try lia; mod_cases. Qed.

Lemma dist'_prev n i s : 2 <= n -> i < n -> s < n - 1 ->
  (prev_of n i + n - s + 1) mod n = (i + n - s) mod n /\
  dist' n (prev_of n i) ((i + n - s) mod n) = s /\ dist' n i ((i + n - s) mod n) = S s.
Proof.
  intros. assert (Hp : prev_of n i < n) by (apply Nat.mod_upper_bound; lia).
  assert (Hc : (i + n - s) mod n < n) by (apply Nat.mod_upper_bound; lia).
  rewrite (dist'_eq n (prev_of n i)), (dist'_eq n i) by done. clear Hp Hc. unfold prev_of. destruct (decide (i = 0)) as [->|].
  - rewrite !(Nat.mod_small (0 + n - 1)) by lia. repeat split; mod_cases; repeat case_decide; lia.
  - rewrite !(mod_wrap n (i + n - 1)) by lia. repeat split; mod_cases; repeat case_decide; lia.
Qed.

Lemma dist'_zero n i c : 2 <= n -> i < n -> c < n -> dist' n i c = 0 -> dist n i c = n - 1.
Proof. intros ???. rewrite dist'_eq by done. unfold dist. repeat case_decide; intros; try lia; mod_cases. Qed.

Lemma fill_same {T} (target d : list T) : length d = length target -> fill target d = d.
Proof.
  intros Hl. unfold fill. rewrite take_ge by lia. unfold splice. cbn. rewrite Hl, drop_all. apply app_nil_r.
Qed.

Lemma ring_tag_src n i s p : i < n -> (Z.of_nat n <= 65536)%Z -> in_u8 p -> tag_src (ring_tag i s p) = i.
Proof. intros. apply tag_src_encode; [apply wrap16_in|done|done|lia]. Qed.

Section ring_facts.
Context {T : Type} `{Op T} (T_default : T).
Context (n chunk : nat) (comm : nat -> UcxCommunicator) (bufs : nat -> list T).
Context (Hn : 2 <= n) (Hcomm : forall i, i < n -> CommOk n i (comm i)).
Context (Hlen : forall i, i < n -> length (bufs i) = n * chunk).
Abbreviation P := (Prog Z (list T) (RankResult T)).
Abbreviation chunk_of c l := (slice (c * chunk) chunk l).

Lemma chunk_fits c (l : list T) : c < n -> length l = n * chunk -> c * chunk + chunk <= length l.
Proof. intros. nia. Qed.

Lemma chunk_splice c c' xs (l : list T) :
  c < n -> c' < n -> length l = n * chunk -> length xs = chunk ->
  chunk_of c (splice (c' * chunk) xs l) = if decide (c = c') then xs else chunk_of c l.
Proof.
  intros Hc Hc' Hl Hx. assert (Hf := chunk_fits c' l Hc' Hl). destruct (decide (c = c')) as [->|Hcc].
  - rewrite <- Hx at 2. apply slice_splice_eq. lia.
  - apply slice_splice_ne; [lia|]. rewrite Hx. nia.
Qed.

(** ** Reduce-scatter *)

Definition rs_send (s i : nat) (l : list T) : list T := chunk_of ((i + n - s) mod n) l.
(** [buf] and [tmp] of rank [i] after [s] steps. *)
Fixpoint rs_state (s : nat) : nat -> list T * list T :=
  match s with
  | O => fun i => (bufs i, replicate chunk T_default)
  | S s => fun i =>
      let (buf, tmp) := rs_state s i in
      let tmp := fill tmp (rs_send s (prev_of n i) (rs_state s (prev_of n i)).1) in
      let recv_idx := (i + n - s - 1) mod n in
      (splice (recv_idx * chunk) (reduce_in_place (chunk_of recv_idx buf) tmp) buf, tmp)
  end.

(** Chunk [c] after it visited the [d] ranks after rank [c]. *)
Fixpoint partial (c d : nat) : list T :=
  match d with
  | O => chunk_of c (bufs c)
  | S d => zip_with op_apply (chunk_of c (bufs ((c + S d) mod n))) (partial c d)
  end.

Lemma partial_length c d : c < n -> length (partial c d) = chunk.
Proof.
  intros Hc. induction d as [|d IH]; cbn.
  - apply slice_length. apply chunk_fits; auto.
  - rewrite length_zip_with, IH, slice_length; [lia|]. apply chunk_fits; [done|]. apply Hlen.
    apply Nat.mod_upper_bound. lia.
Qed.

Record RsInv (s i : nat) (st : list T * list T) : Prop := {
  rs_len : length st.1 = n * chunk;
  rs_tmp : length st.2 = chunk;
  rs_chunk c : c < n -> chunk_of c st.1 = if decide (dist n i c <= s) then partial c (dist n i c) else chunk_of c (bufs i)
}.

Lemma rs_inv s i : s <= n - 1 -> i < n -> RsInv s i (rs_state s i).
Proof.
  revert i. induction s as [|s IH]; intros i Hs Hi.
  - split; cbn; [by apply Hlen|apply length_replicate|]. intros c Hc. case_decide as Hd; [|done].
    assert (c = i) as ->; [|].
    { rewrite (dist_inj n i c) by done. replace (dist n i c) with 0 by lia. mod_cases. }
    by replace (dist n i i) with 0 by lia.
  - assert (IHi := IH i ltac:(lia) Hi). destruct (ring_cycle n i Hn Hi) as (_ & Hp & _ & _).
    assert (IHp := IH (prev_of n i) ltac:(lia) Hp). clear IH.
    destruct (dist_prev n i s Hn Hi ltac:(lia)) as [Hd1 Hd2].
    set (rc := (i + n - s - 1) mod n) in *. assert (Hrc : rc < n) by (apply Nat.mod_upper_bound; lia).
    assert (Hmsg : rs_send s (prev_of n i) (rs_state s (prev_of n i)).1 = partial rc s).
    { unfold rs_send. rewrite send_idx_prev by lia. fold rc. rewrite (rs_chunk _ _ _ IHp) by done.
      rewrite Hd1. by rewrite decide_True by lia. }
    cbn [rs_state]. destruct (rs_state s i) as [buf tmp]. destruct IHi as [L1 L2 L3]. cbn [fst snd] in *.
    rewrite Hmsg, fill_same by (rewrite partial_length; done). fold rc.
    assert (Hchunk : chunk_of rc buf = chunk_of rc (bufs i)) by (rewrite L3, decide_False by lia; done).
    assert (Hl : length (chunk_of rc buf) = chunk) by (apply slice_length, chunk_fits; done).
    rewrite reduce_in_place_zip by (rewrite partial_length; done).
    assert (Hnew : length (zip_with op_apply (chunk_of rc buf) (partial rc s)) = chunk).
    { rewrite length_zip_with, Hl, partial_length by done. lia. }
    split; cbn [fst snd].
    + rewrite splice_length; [done|]. rewrite Hnew. by apply chunk_fits.
    + by apply partial_length.
    + intros c Hc. rewrite chunk_splice by done. case_decide as Hcc.
      * subst c. rewrite Hd2, decide_True by lia. cbn [partial]. rewrite Hchunk.
        by rewrite (dist_next n i rc s Hi Hrc Hd2).
      * rewrite L3 by done. assert (dist n i c <> S s).
        { intros Hd. apply Hcc. rewrite (dist_inj n i c), Hd by done. unfold rc. f_equal. lia. }
        destruct (decide (dist n i c <= s)), (decide (dist n i c <= S s)); done || lia.
Qed.

(** ** Allgather *)

Definition ag_send (s i : nat) (l : list T) : list T := chunk_of ((i + n - s + 1) mod n) l.
Fixpoint ag_state (s : nat) : nat -> list T :=
  match s with
  | O => fun i => (rs_state (n - 1) i).1
  | S s => fun i =>
      let buf := ag_state s i in
      let recv_idx := (i + n - s) mod n in
      splice (recv_idx * chunk) (fill (chunk_of recv_idx buf) (ag_send s (prev_of n i) (ag_state s (prev_of n i)))) buf
  end.

Definition finished (c : nat) : list T := partial c (n - 1).

Lemma ag_inv s i : s <= n - 1 -> i < n ->
  length (ag_state s i) = n * chunk /\
  forall c, c < n -> dist' n i c <= s -> chunk_of c (ag_state s i) = finished c.
Proof.
  revert i. induction s as [|s IH]; intros i Hs Hi.
  - destruct (rs_inv (n - 1) i ltac:(lia) Hi) as [L1 _ L3]. split; [done|]. intros c Hc Hd. cbn.
    rewrite L3, (dist'_zero n i c) by lia. by rewrite decide_True by lia.
  - destruct (IH i ltac:(lia) Hi) as [L1 L2]. destruct (ring_cycle n i Hn Hi) as (_ & Hp & _ & _).
    destruct (IH (prev_of n i) ltac:(lia) Hp) as [M1 M2]. clear IH.
    destruct (dist'_prev n i s Hn Hi ltac:(lia)) as (Hsend & Hd1 & Hd2). cbn [ag_state].
    set (rc := (i + n - s) mod n) in *. assert (Hrc : rc < n) by (apply Nat.mod_upper_bound; lia).
    assert (Hmsg : ag_send s (prev_of n i) (ag_state s (prev_of n i)) = finished rc).
    { unfold ag_send. rewrite Hsend. apply M2; [done|lia]. }
    rewrite Hmsg. assert (Hl : length (chunk_of rc (ag_state s i)) = chunk) by (apply slice_length, chunk_fits; done).
    assert (Hf : length (finished rc) = chunk) by by apply partial_length.
    rewrite fill_same by lia. split.
    + rewrite splice_length; [done|]. rewrite Hf. by apply chunk_fits.
    + intros c Hc Hd. rewrite chunk_splice by done. case_decide as Hcc; [by rewrite Hcc|].
      apply L2; [done|]. assert (dist' n i c <> S s); [|lia].
      intros Hd'. apply Hcc. by apply dist'_inj.
Qed.

(** What every rank ends with. *)
Definition ring_result : list T := concat (map finished (seq 0 n)).

Lemma ag_final i : i < n -> ag_state (n - 1) i = ring_result.
Proof.
  intros Hi. destruct (ag_inv (n - 1) i ltac:(lia) Hi) as [L1 L2].
  rewrite <- (concat_slices n chunk (ag_state (n - 1) i)) by done. unfold ring_result. f_equal.
  apply map_ext_in. intros c Hc%in_seq. apply L2; [lia|].
  assert (dist' n i c < n) by (apply Nat.mod_upper_bound; lia). lia.
Qed.

(** ** The runs *)

Abbreviation rs_body i := (reduce_scatter_step n i (next_of n i) (prev_of n i) chunk).
Abbreviation ag_body i := (allgather_step n i (next_of n i) (prev_of n i) chunk).

Lemma next_ne i : i < n -> next_of n i <> i.
Proof. unfold next_of. intros. mod_cases. Qed.

Lemma ring_unfold i k : i < n -> ring_allreduce T_default (comm i) (bufs i) k =
  for_range 0 (n - 1) (rs_body i) (rs_state 0 i)
    (fun '((buf, _), r) => match r with
       | RErr e => k (buf, RErr e)
       | ROk _ => for_range 0 (n - 1) (ag_body i) buf k
       end).
Proof.
  intros Hi. destruct (Hcomm i Hi) as [Hr Hs He]. destruct (ring_cycle n i Hn Hi) as (Hlt & _).
  assert (Hx := He _ Hlt (next_ne i Hi)). unfold ring_allreduce. rewrite Hr, Hs, Hlen by done.
  destruct (Nat.leb_spec n 1) as [|_]; [lia|]. rewrite Nat.mul_comm, Nat.Div0.mod_mul, Nat.eqb_refl. cbn [negb].
  rewrite Nat.div_mul by lia. unfold next_of in Hx. cbv zeta. rewrite Hx. done.
Qed.

Lemma rs_step_steps s (k : nat -> (list T * list T) * result unit CollectiveError -> P) :
  rtc spmd_step (ranks n (fun i => rs_body i s (rs_state s i) (k i)), ∅)
    (ranks n (fun i => k i (rs_state (S s) i, ROk tt)), ∅).
Proof.
  apply (exchange_steps n _ _ (next_of n) (prev_of n) (fun i => ring_tag i s 0)
    (fun i => rs_send s i (rs_state s i).1)).
  - intros i Hi. destruct (ring_cycle n i Hn Hi) as (? & ? & ? & ?). done.
  - intros i Hi. cbn [rs_state]. destruct (rs_state s i) as [buf tmp]. unfold reduce_scatter_step, run_send_recv.
    do 2 eexists. split; [done|]. split; done.
Qed.

Lemma ag_step_steps s (k : nat -> list T * result unit CollectiveError -> P) :
  rtc spmd_step (ranks n (fun i => ag_body i s (ag_state s i) (k i)), ∅)
    (ranks n (fun i => k i (ag_state (S s) i, ROk tt)), ∅).
Proof.
  apply (exchange_steps n _ _ (next_of n) (prev_of n) (fun i => ring_tag i s 1)
    (fun i => ag_send s i (ag_state s i))).
  - intros i Hi. destruct (ring_cycle n i Hn Hi) as (? & ? & ? & ?). done.
  - intros i Hi. do 2 eexists. split; [done|]. split; done.
Qed.

(** The ring may run inside a larger program: every rank reaches its continuation. *)
Lemma ring_steps (k : nat -> RankResult T -> P) :
  rtc spmd_step (ranks n (fun i => ring_allreduce T_default (comm i) (bufs i) (k i)), ∅)
    (ranks n (fun i => k i (ring_result, ROk tt)), ∅).
Proof.
  rewrite (ranks_ext n _ _ (fun i Hi => ring_unfold i (k i) Hi)).
  etrans; [apply (for_range_steps n 0 (n - 1) (fun i => rs_body i) rs_state); intros t k' _; apply rs_step_steps|].
  rewrite (ranks_ext n _ (fun i => for_range 0 (n - 1) (ag_body i) (ag_state 0 i) (k i)))
    by (intros i _; cbn [Nat.add ag_state]; by destruct (rs_state (n - 1) i)).
  etrans; [apply (for_range_steps n 0 (n - 1) (fun i => ag_body i) ag_state); intros t k' _; apply ag_step_steps|].
  rewrite (ranks_ext n _ (fun i => k i (ring_result, ROk tt))) by (intros i Hi; cbn [Nat.add]; by rewrite ag_final).
  apply rtc_refl.
Qed.

Lemma ring_owned i k : i < n -> (Z.of_nat n <= 65536)%Z -> (forall r, owns tag_src i (k r)) ->
  owns tag_src i (ring_allreduce T_default (comm i) (bufs i) k).
Proof.
  intros Hi H16 Hk. rewrite ring_unfold by done.
  assert (Hsr : forall dst s p data rt target (k' : list T * result unit CollectiveError -> P), in_u8 p ->
    (forall r, owns tag_src i (k' r)) -> owns tag_src i (run_send_recv dst (ring_tag i s p) data rt target k')).
  { intros. cbn. split; [by apply (ring_tag_src n)|]. done. }
  apply owns_for_range.
  - intros t [buf tmp] k' Hk'. apply Hsr; [done|]. by intros [tmp' [|]].
  - intros [[buf tmp] [|e]]; [|apply Hk]. apply owns_for_range; [|done].
    intros t b k' Hk'. apply Hsr; [done|]. by intros [got r].
Qed.
End ring_facts.

(** Only the buffers of the ranks matter. *)
Lemma rs_state_ext {T} `{Op T} (T_default : T) n chunk bufs bufs' s i :
  2 <= n -> (forall j, j < n -> bufs j = bufs' j) -> i < n ->
  rs_state T_default n chunk bufs s i = rs_state T_default n chunk bufs' s i.
Proof.
  intros Hn Hb. revert i. induction s as [|s IH]; intros i Hi; cbn [rs_state]; [by rewrite Hb|].
  destruct (ring_cycle n i Hn Hi) as (_ & Hp & _). by rewrite !IH.
Qed.

(** ** Folds over all ranks *)

Section folds.
Context {A : Type} (f : A -> A -> A) {HA : Assoc (=) f} {HC : Comm (=) f}.

Definition fold1 (l : list A) : option A :=
  match l with [] => None | x :: l => Some (foldl f x l) end.
Definition lift2 (a b : option A) : option A :=
  match a, b with Some x, Some y => Some (f x y) | None, b => b | a, None => a end.

Lemma foldl_lift x l : lift2 (Some x) (foldr (fun y o => lift2 (Some y) o) None l) = Some (foldl f x l).
Proof.
  revert x. induction l as [|y l IH]; intros x; [done|]. cbn [foldl foldr]. rewrite <- (IH (f x y)).
  destruct (foldr _ None l); cbn; [|done]. by rewrite (assoc_L f).
Qed.

Lemma fold1_lift l : fold1 l = foldr (fun y o => lift2 (Some y) o) None l.
Proof. destruct l as [|x l]; [done|]. cbn [fold1 foldr]. by rewrite foldl_lift. Qed.

(** The order of the operands does not matter to an associative and commutative
    operator. *)
Lemma fold1_perm l l' : l ≡ₚ l' -> fold1 l = fold1 l'.
Proof.
  intros Hp. rewrite !fold1_lift. apply (foldr_permutation (=)); [by intros x ? ? ->| |done].
  intros j1 a1 j2 a2 b _ _ _. destruct b as [b|]; cbn; [|by rewrite (comm_L f)].
  by rewrite (assoc_L f), (comm_L f a1 a2), <- (assoc_L f).
Qed.
End folds.

Lemma fold1_snoc {A} (f : A -> A -> A) l x y : fold1 f l = Some x -> fold1 f (l ++ [y]) = Some (f x y).
Proof. destruct l as [|z l]; [done|]. cbn. intros [= <-]. by rewrite foldl_app. Qed.

Lemma rotate_perm n c : c < n -> map (fun j => (c + j) mod n) (seq 0 n) ≡ₚ seq 0 n.
Proof.
  intros Hc. apply NoDup_Permutation; [|apply NoDup_ListNoDup, seq_NoDup|].
  - apply NoDup_fmap_2_strong; [|apply NoDup_ListNoDup, seq_NoDup].
    intros i j Hi%list_elem_of_In%in_seq Hj%list_elem_of_In%in_seq. mod_cases.
  - intros i. rewrite list_elem_of_fmap, (list_elem_of_In (seq 0 n) i), in_seq. split.
    + intros (j & -> & Hj%list_elem_of_In%in_seq). split; [lia|]. apply Nat.mod_upper_bound. lia.
    + intros Hi. exists ((i + n - c) mod n). split; [mod_cases|].
      apply list_elem_of_In, in_seq. assert ((i + n - c) mod n < n) by (apply Nat.mod_upper_bound; lia). lia.
Qed.

#[export] Instance zip_with_assoc {A} (f : A -> A -> A) `{!Assoc (=) f} : Assoc (=) (zip_with f).
Proof.
  intros x. induction x as [|a x IH]; intros [|b y] [|c z]; cbn; try done. by rewrite (assoc_L f), IH.
Qed.
#[export] Instance zip_with_comm_op {A} (f : A -> A -> A) `{!Comm (=) f} : Comm (=) (zip_with f).
Proof.
  intros x. induction x as [|a x IH]; intros [|b y]; cbn; try done. by rewrite (comm_L f a), IH.
Qed.

Section reduce_all.
Context {T : Type} `{Op T} {HA : Assoc (=) op_apply} {HC : Comm (=) op_apply}.

Lemma slice_zip off len (x y : list T) :
  slice off len (zip_with op_apply x y) = zip_with op_apply (slice off len x) (slice off len y).
Proof. unfold slice. by rewrite zip_with_drop, zip_with_take. Qed.

Lemma slice_fold off len (x : list T) l :
  slice off len (foldl (zip_with op_apply) x l) =
    foldl (zip_with op_apply) (slice off len x) (map (slice off len) l).
Proof. revert x. induction l as [|y l IH]; intros x; cbn; [done|]. by rewrite IH, slice_zip. Qed.

(** The element-wise reduction of the buffers of all ranks, in rank order. *)
Definition reduce_all (n : nat) (bufs : nat -> list T) : list T :=
  foldl (zip_with op_apply) (bufs 0) (map bufs (seq 1 (n - 1))).

Lemma partial_fold1 n chunk bufs c d :
  c < n -> d < n -> Some (partial n chunk bufs c d) =
    fold1 (zip_with op_apply) (map (fun j => slice (c * chunk) chunk (bufs ((c + j) mod n))) (seq 0 (S d))).
Proof.
  intros Hc. induction d as [|d IH]; intros Hd.
  - cbn. by rewrite Nat.add_0_r, Nat.mod_small.
  - rewrite seq_S, map_app. cbn [map]. rewrite (fold1_snoc _ _ (partial n chunk bufs c d)).
    + cbn [partial]. by rewrite (comm_L (zip_with op_apply)).
    + symmetry. apply IH. lia.
Qed.

Lemma fold_length (m : nat) (x : list T) l : length x = m -> Forall (fun y => length y = m) l ->
  length (foldl (zip_with op_apply) x l) = m.
Proof.
  intros Hx Hl. revert x Hx. induction Hl as [|y l Hy _ IH]; intros x Hx; cbn; [done|].
  apply IH. rewrite length_zip_with. lia.
Qed.

Lemma ring_result_all n chunk bufs :
  2 <= n -> (forall i, i < n -> length (bufs i) = n * chunk) ->
  ring_result n chunk bufs = reduce_all n bufs.
Proof.
  intros Hn Hlen. rewrite <- (concat_slices n chunk (reduce_all n bufs)).
  - unfold ring_result. f_equal. apply map_ext_in. intros c Hc%in_seq.
    assert (Hs : Some (finished n chunk bufs c) = Some (slice (c * chunk) chunk (reduce_all n bufs))); [|by injection Hs].
    unfold finished. rewrite partial_fold1 by lia. replace (S (n - 1)) with n by lia.
    rewrite <- (map_map (fun j => (c + j) mod n) (fun i => slice (c * chunk) chunk (bufs i))).
    rewrite (fold1_perm _ _ (map (fun i => slice (c * chunk) chunk (bufs i)) (seq 0 n)))
      by (apply fmap_Permutation, rotate_perm; lia).
    destruct n as [|n]; [lia|]. cbn [seq map fold1]. unfold reduce_all. rewrite slice_fold, map_map.
    by replace (S n - 1) with n by lia.
  - unfold reduce_all. apply fold_length; [apply Hlen; lia|].
    apply Forall_forall. intros y Hy. apply list_elem_of_fmap in Hy as (i & -> & Hi%list_elem_of_In%in_seq).
    apply Hlen. lia.
Qed.
End reduce_all.

Lemma ring_completes {T} `{Op T} (T_default : T) n chunk (comm : nat -> UcxCommunicator) (bufs : nat -> list T) :
  2 <= n -> (Z.of_nat n <= 65536)%Z -> (forall i, i < n -> CommOk n i (comm i)) ->
  (forall i, i < n -> length (bufs i) = n * chunk) ->
  Completes (ranks n (fun i => ring_allreduce T_default (comm i) (bufs i) Ret))
    (map (fun _ => (ring_result n chunk bufs, ROk tt)) (seq 0 n)).
Proof.
  intros Hn H16 Hcomm Hlen. apply (completes_ranks tag_src).
  - intros i Hi. by eapply ring_owned.
  - by apply (ring_steps T_default n chunk comm bufs Hn Hcomm Hlen (fun _ => Ret)).
Qed.

(** C3. The ring allreduce reduces, on every schedule.  For 2 to 65536 ranks whose
    buffers have the same length, a multiple of their number, every interleaving of
    the ranks' sends and receives ends, without deadlock, with every rank returning
    [Ok] and holding the same buffer, whatever the operator (a float sum is the same
    on all ranks, bit for bit).  When the operator is associative and commutative
    that buffer is the element-wise reduction of all the buffers in rank order. *)
Theorem ring_allreduce_correct {T} `{Op T} (T_default : T) n chunk (comm : nat -> UcxCommunicator)
    (bufs : nat -> list T) :
  2 <= n -> (Z.of_nat n <= 65536)%Z -> (forall i, i < n -> CommOk n i (comm i)) ->
  (forall i, i < n -> length (bufs i) = n * chunk) ->
  Completes (ranks n (fun i => ring_allreduce T_default (comm i) (bufs i) Ret))
    (map (fun _ => (ring_result n chunk bufs, ROk tt)) (seq 0 n)) /\
  (Assoc (=) op_apply -> Comm (=) op_apply -> ring_result n chunk bufs = reduce_all n bufs).
Proof.
  intros Hn H16 Hcomm Hlen. split; [by apply ring_completes|intros ? ?; by apply ring_result_all].
Qed.

(** ** Witness *)

#[export] Instance xor_assoc : Assoc (=) (op_apply (Op := BitXor_u32)).
Proof. intros a b c. symmetry. apply Z.lxor_assoc. Qed.
#[export] Instance xor_comm : Comm (=) (op_apply (Op := BitXor_u32)).
Proof. intros a b. apply Z.lxor_comm. Qed.

Definition demo_bufs (i : nat) : list Z := map (fun j => Z.of_nat (10 * i + j)) (seq 0 6).

Lemma ring_allreduce_correct_witness :
  Completes (ranks 3 (fun i => ring_allreduce (H := BitXor_u32) 0%Z (full_comm 3 i) (demo_bufs i) Ret))
    (map (fun _ => ([30; 31; 24; 25; 18; 19]%Z, ROk tt)) (seq 0 3)).
Proof.
  destruct (ring_allreduce_correct (H := BitXor_u32) 0%Z 3 2 (full_comm 3) demo_bufs) as [Hc Hr].
  - lia.
  - lia.
  - intros i _. apply full_comm_ok.
  - reflexivity.
  - rewrite (Hr _ _) in Hc. exact Hc.
Defined.
