(* ===== verification/RecDouble.v ===== *)
(** * RecDouble: the recursive-doubling allreduce
    ([pluvio_collective/src/ucx_backend/recursive_doubling.rs])

    For [n = 2 ^ k] ranks, [k] rounds: in round [r] a rank exchanges its whole
    buffer with the rank whose number differs in bit [r], and reduces.  For other
    [n] the ring runs instead. *)

From S2P Require Import Prelude CollBase Spmd Ring.

Definition is_power_of_two (n : nat) : bool := negb (n =? 0) && (2 ^ Nat.log2 n =? n).

(** [usize::trailing_zeros]. *)
Fixpoint trailing_zeros_fuel (fuel n : nat) : nat :=
  match fuel with
  | O => 0
  | S fuel => if Nat.odd n then 0 else S (trailing_zeros_fuel fuel (n / 2))
  end.
Definition trailing_zeros (n : nat) : nat := trailing_zeros_fuel 64 n.

Section rd.
Context {T : Type} `{Op T} (T_default : T).
Abbreviation P := (Prog Z (list T) (RankResult T)).

Definition PHASE_RD : Z := 3.

Definition rd_step (c : UcxCommunicator) (r : nat) (s : list T * list T)
    (k : (list T * list T) * result unit CollectiveError -> P) : P :=
  let (buf, tmp) := s in
  let rank := crank c in
  let peer := Nat.lxor rank (2 ^ r) in
  match endpoint c peer with
  | None => k (s, RErr (Protocol "rd: missing endpoint to peer"))
  | Some peer_ep =>
      run_send_recv peer_ep (ring_tag rank r PHASE_RD) buf (ring_tag peer r PHASE_RD) tmp
        (fun '(tmp, res) =>
           match res with
           | RErr e => k ((buf, tmp), RErr e)
           | ROk _ => k ((reduce_in_place buf tmp, tmp), ROk tt)
           end)
  end.

Definition recursive_doubling (c : UcxCommunicator) (buf : list T) (k : RankResult T -> P) : P :=
  let n := csize c in
  if n <=? 1 then k (buf, ROk tt)
  else if negb (is_power_of_two n) then ring_allreduce T_default c buf k
  else
    for_range 0 (trailing_zeros n) (rd_step c) (buf, replicate (length buf) T_default)
      (fun '((buf, _), r) => k (buf, r)).
End rd.

(** * Facts *)

Lemma lxor_1 h b : Nat.lxor (2 * h + Nat.b2n b) 1 = 2 * h + Nat.b2n (negb b).
Proof.
  apply Nat.bits_inj. intros [|i]; rewrite Nat.lxor_spec.
  - rewrite !Nat.testbit_0_r. by destruct b.
  - rewrite !Nat.testbit_succ_r.
    assert (Nat.testbit 1 (S i) = false) as -> by (by rewrite <- (Nat.bits_0 i), <- (Nat.testbit_succ_r 0 true i)).
    apply xorb_false_r.
Qed.

Lemma lxor_div i j r : Nat.lxor i j / 2 ^ r = Nat.lxor (i / 2 ^ r) (j / 2 ^ r).
Proof. apply Nat.bits_inj. intros m. by rewrite Nat.lxor_spec, !Nat.div_pow2_bits, Nat.lxor_spec. Qed.

Lemma lxor_bound i r k : i < 2 ^ k -> r < k -> Nat.lxor i (2 ^ r) < 2 ^ k.
Proof.
  intros Hi Hr. assert (2 ^ k <> 0) by (apply Nat.pow_nonzero; lia).
  apply Nat.div_small_iff; [done|]. rewrite lxor_div, (Nat.div_small i) by done.
  rewrite Nat.div_small; [done|]. apply Nat.pow_lt_mono_r; lia.
Qed.

Lemma lxor_invol i j : Nat.lxor (Nat.lxor i j) j = i.
Proof. by rewrite Nat.lxor_assoc, Nat.lxor_nilpotent, Nat.lxor_0_r. Qed.

Lemma lxor_ne i r : Nat.lxor i (2 ^ r) <> i.
Proof.
  intros He. assert (Hx : Nat.lxor i (Nat.lxor i (2 ^ r)) = 2 ^ r).
  { by rewrite <- Nat.lxor_assoc, Nat.lxor_nilpotent, Nat.lxor_0_l. }
  rewrite He, Nat.lxor_nilpotent in Hx. assert (2 ^ r <> 0) by (apply Nat.pow_nonzero; lia). lia.
Qed.

Lemma trailing_zeros_pow2 k : k < 64 -> trailing_zeros (2 ^ k) = k.
Proof.
  unfold trailing_zeros. generalize 64. induction k as [|k IH]; intros fuel Hk; (destruct fuel as [|fuel]; [lia|]).
  - done.
  - cbn [trailing_zeros_fuel]. rewrite Nat.pow_succ_r', Nat.odd_mul. cbn [Nat.odd Nat.even negb andb].
    rewrite Nat.mul_comm, Nat.div_mul by lia. rewrite IH by lia. done.
Qed.

Lemma pow2_is_power k : is_power_of_two (2 ^ k) = true.
Proof.
  unfold is_power_of_two. rewrite Nat.log2_pow2 by lia. rewrite Nat.eqb_refl, andb_true_r.
  apply negb_true_iff, Nat.eqb_neq, Nat.pow_nonzero. lia.
Qed.

Section rd_facts.
Context {T : Type} `{Op T} (T_default : T).
Context (k len : nat) (comm : nat -> UcxCommunicator) (bufs : nat -> list T).
Abbreviation n := (2 ^ k).
Abbreviation P := (Prog Z (list T) (RankResult T)).
Context (Hk : 1 <= k) (Hk16 : k <= 16) (Hcomm : forall i, i < n -> CommOk n i (comm i)).
Context (Hlen : forall i, i < n -> length (bufs i) = len).
Context {HC : Comm (=) op_apply}.

(** The reduction of the [2 ^ r] buffers of block [b], as a balanced tree. *)
Fixpoint tree (r b : nat) : list T :=
  match r with
  | O => bufs b
  | S r => zip_with op_apply (tree r (2 * b)) (tree r (2 * b + 1))
  end.

Lemma tree_length r b : (b + 1) * 2 ^ r <= n -> length (tree r b) = len.
Proof.
  revert b. induction r as [|r IH]; intros b Hb; cbn [tree].
  - apply Hlen. rewrite Nat.pow_0_r in Hb. lia.
  - rewrite Nat.pow_succ_r' in Hb. rewrite length_zip_with, !IH by nia. lia.
Qed.

Definition peer (r i : nat) : nat := Nat.lxor i (2 ^ r).

(** [buf] and [tmp] of rank [i] after [r] rounds. *)
Fixpoint rd_state (r : nat) : nat -> list T * list T :=
  match r with
  | O => fun i => (bufs i, replicate (length (bufs i)) T_default)
  | S r => fun i =>
      let (buf, tmp) := rd_state r i in
      let tmp := fill tmp (rd_state r (peer r i)).1 in
      (reduce_in_place buf tmp, tmp)
  end.

Lemma block_bound r i : i < n -> r <= k -> (i / 2 ^ r + 1) * 2 ^ r <= n.
Proof.
  intros Hi Hr. assert (Hp : 2 ^ k = 2 ^ (k - r) * 2 ^ r) by (rewrite <- Nat.pow_add_r; f_equal; lia).
  assert (i / 2 ^ r < 2 ^ (k - r)); [|nia].
  apply Nat.Div0.div_lt_upper_bound. lia.
Qed.

Lemma rd_inv r i : r <= k -> i < n ->
  (rd_state r i).1 = tree r (i / 2 ^ r) /\ length (rd_state r i).2 = len.
Proof.
  revert i. induction r as [|r IH]; intros i Hr Hi.
  - cbn [rd_state tree fst snd]. rewrite Nat.pow_0_r, Nat.div_1_r, length_replicate. by auto.
  - assert (Hp : peer r i < n) by (apply lxor_bound; [done|lia]).
    destruct (IH i ltac:(lia) Hi) as [L1 L2], (IH (peer r i) ltac:(lia) Hp) as [M1 _]. clear IH.
    cbn [rd_state]. rewrite M1. destruct (rd_state r i) as [buf tmp]. cbn [fst snd] in *. subst buf.
    assert (Hlp : length (tree r (peer r i / 2 ^ r)) = len) by (apply tree_length, block_bound; [done|lia]).
    assert (Hli : length (tree r (i / 2 ^ r)) = len) by (apply tree_length, block_bound; [done|lia]).
    rewrite fill_same by lia. split; [|done]. rewrite reduce_in_place_zip by lia.
    unfold peer. rewrite lxor_div, Nat.div_same by (apply Nat.pow_nonzero; lia).
    rewrite Nat.pow_succ_r', (Nat.mul_comm 2), <- Nat.Div0.div_div. set (q := i / 2 ^ r).
    destruct (Nat.exists_div2 q) as (h & b & Hq). rewrite Hq, lxor_1.
    replace ((2 * h + Nat.b2n b) / 2) with h by (apply (Nat.div_unique _ 2 h (Nat.b2n b)); destruct b; cbn; lia).
    cbn [tree]. destruct b; cbn [Nat.b2n negb]; rewrite ?Nat.add_0_r; [|done].
    apply (comm_L (zip_with op_apply)).
Qed.

(** ** The runs *)

Lemma n_ge : 2 <= n.
Proof. change 2 with (2 ^ 1) at 1. apply Nat.pow_le_mono_r; lia. Qed.

Lemma rd_unfold i kont : i < n -> recursive_doubling T_default (comm i) (bufs i) kont =
  for_range 0 k (rd_step (comm i)) (rd_state 0 i) (fun '((buf, _), r) => kont (buf, r)).
Proof.
  intros Hi. destruct (Hcomm i Hi) as [Hr Hs He]. unfold recursive_doubling. rewrite Hs.
  assert (Hn := n_ge). destruct (Nat.leb_spec n 1); [lia|].
  rewrite pow2_is_power, trailing_zeros_pow2 by lia. done.
Qed.

Lemma rd_step_run i r s kont : i < n -> r < k -> rd_step (comm i) r s kont =
  run_send_recv (peer r i) (ring_tag i r PHASE_RD) s.1 (ring_tag (peer r i) r PHASE_RD) s.2
    (fun '(tmp, res) => match res with
       | RErr e => kont ((s.1, tmp), RErr e)
       | ROk _ => kont ((reduce_in_place s.1 tmp, tmp), ROk tt)
       end).
Proof.
  intros Hi Hr. destruct (Hcomm i Hi) as [Hc Hs He]. destruct s as [buf tmp]. unfold rd_step. rewrite Hc.
  assert (Hx := He (Nat.lxor i (2 ^ r)) (lxor_bound _ _ _ Hi Hr) (lxor_ne i r)). cbv zeta. by rewrite Hx.
Qed.

Lemma rd_step_steps r (kont : nat -> (list T * list T) * result unit CollectiveError -> P) :
  r < k ->
  rtc spmd_step (ranks n (fun i => rd_step (comm i) r (rd_state r i) (kont i)), ∅)
    (ranks n (fun i => kont i (rd_state (S r) i, ROk tt)), ∅).
Proof.
  intros Hr. apply (exchange_steps n _ _ (peer r) (peer r) (fun i => ring_tag i r PHASE_RD)
    (fun i => (rd_state r i).1)).
  - intros i Hi. assert (peer r i < n) by by apply lxor_bound. unfold peer in *. rewrite lxor_invol. done.
  - intros i Hi. rewrite rd_step_run by done. cbn [rd_state]. destruct (rd_state r i) as [buf tmp].
    do 2 eexists. split; [done|]. split; done.
Qed.

Lemma rd_steps : rtc spmd_step (ranks n (fun i => recursive_doubling T_default (comm i) (bufs i) Ret), ∅)
  (ranks n (fun i => Ret (tree k 0, ROk tt)), ∅).
Proof.
  rewrite (ranks_ext n _ _ (fun i Hi => rd_unfold i Ret Hi)).
  etrans; [apply (for_range_steps n 0 k (fun i => rd_step (comm i)) rd_state);
    intros t k' Ht; apply rd_step_steps; lia|].
  apply reflexive_eq. f_equal. apply ranks_ext.
  intros i Hi. cbn [Nat.add]. destruct (rd_inv k i ltac:(lia) Hi) as [L1 _].
  destruct (rd_state k i) as [buf tmp]. cbn in L1. rewrite L1, Nat.div_small; done.
Qed.

Lemma rd_owned i : i < n -> owns tag_src i (recursive_doubling T_default (comm i) (bufs i) Ret).
Proof.
  intros Hi. rewrite rd_unfold by done. apply owns_for_range_lt with (m := k); [done| |by intros [[? ?] ?]].
  intros r s kont Hr Hk'. rewrite rd_step_run by (done || lia). cbn. split.
  - apply (ring_tag_src n); [lia| |done]. change 65536%Z with (2 ^ 16)%Z.
    rewrite Nat2Z.inj_pow. apply Z.pow_le_mono_r; lia.
  - intros sr rr. destruct sr, rr; apply Hk'.
Qed.
End rd_facts.

Lemma fold1_app {A} (f : A -> A -> A) {HA : Assoc (=) f} l1 l2 x y :
  fold1 f l1 = Some x -> fold1 f l2 = Some y -> fold1 f (l1 ++ l2) = Some (f x y).
Proof.
  assert (Hf : forall l a b, foldl f (f a b) l = f a (foldl f b l)).
  { intros l. induction l as [|c l IH]; intros a b; cbn; [done|]. by rewrite <- (assoc_L f), IH. }
  destruct l1 as [|a l1], l2 as [|b l2]; try done. cbn. intros [= <-] [= <-].
  rewrite foldl_app. cbn. by rewrite Hf.
Qed.

Lemma tree_fold1 {T} `{Op T} {HA : Assoc (=) op_apply} (bufs : nat -> list T) r b :
  fold1 (zip_with op_apply) (map bufs (seq (b * 2 ^ r) (2 ^ r))) = Some (tree bufs r b).
Proof.
  revert b. induction r as [|r IH]; intros b.
  - cbn. by rewrite Nat.mul_1_r.
  - rewrite Nat.pow_succ_r'. replace (2 * 2 ^ r) with (2 ^ r + 2 ^ r) by lia.
    rewrite seq_app, map_app. cbn [tree].
    apply (fold1_app (zip_with op_apply)).
    + rewrite <- (IH (2 * b)). do 3 f_equal. lia.
    + rewrite <- (IH (2 * b + 1)). do 3 f_equal. lia.
Qed.

Lemma rd_completes {T} `{Op T} (T_default : T) k len (comm : nat -> UcxCommunicator) (bufs : nat -> list T) :
  1 <= k -> k <= 16 -> (forall i, i < 2 ^ k -> CommOk (2 ^ k) i (comm i)) ->
  (forall i, i < 2 ^ k -> length (bufs i) = len) -> Comm (=) op_apply ->
  Completes (ranks (2 ^ k) (fun i => recursive_doubling T_default (comm i) (bufs i) Ret))
    (map (fun _ => (tree bufs k 0, ROk tt)) (seq 0 (2 ^ k))).
Proof.
  intros Hk H16 Hcomm Hlen HC. apply (completes_ranks tag_src).
  - intros i Hi. by eapply rd_owned.
  - by eapply rd_steps.
Qed.

Lemma tree_reduce_all {T} `{Op T} k (bufs : nat -> list T) :
  Comm (=) op_apply -> Assoc (=) op_apply -> tree bufs k 0 = reduce_all (2 ^ k) bufs.
Proof.
  intros HC HA. assert (Ht := tree_fold1 bufs k 0). cbn [Nat.mul] in Ht.
  assert (Hp : 2 ^ k = S (2 ^ k - 1)) by (assert (2 ^ k <> 0) by (apply Nat.pow_nonzero; lia); lia).
  rewrite Hp in Ht at 1. cbn [seq map fold1] in Ht. unfold reduce_all. by injection Ht.
Qed.

(** Recursive doubling reduces, on every schedule.  For [2 ^ k] ranks, [k] from
    1 to 16, with buffers of one length and a commutative operator, every
    interleaving ends, without deadlock, with every rank returning [Ok] and the same
    buffer, the balanced-tree reduction; when the operator is associative too, that
    is the element-wise reduction of all the buffers in rank order, the same buffer
    the ring computes. *)
Theorem recursive_doubling_correct {T} `{Op T} (T_default : T) k len (comm : nat -> UcxCommunicator)
    (bufs : nat -> list T) :
  1 <= k -> k <= 16 -> (forall i, i < 2 ^ k -> CommOk (2 ^ k) i (comm i)) ->
  (forall i, i < 2 ^ k -> length (bufs i) = len) -> Comm (=) op_apply ->
  Completes (ranks (2 ^ k) (fun i => recursive_doubling T_default (comm i) (bufs i) Ret))
    (map (fun _ => (tree bufs k 0, ROk tt)) (seq 0 (2 ^ k))) /\
  (Assoc (=) op_apply -> tree bufs k 0 = reduce_all (2 ^ k) bufs).
Proof.
  intros Hk H16 Hcomm Hlen HC. split; [by eapply rd_completes|intros HA; by apply tree_reduce_all].
Qed.

Lemma recursive_doubling_correct_witness :
  Completes (ranks 4 (fun i => recursive_doubling (H := BitXor_u32) 0%Z (full_comm 4 i) (demo_bufs i) Ret))
    (map (fun _ => ([0; 0; 56; 56; 48; 48]%Z, ROk tt)) (seq 0 4)).
Proof.
  destruct (recursive_doubling_correct (H := BitXor_u32) 0%Z 2 6 (full_comm 4) demo_bufs) as [Hc _].
  - lia.
  - lia.
  - intros i _. apply full_comm_ok.
  - reflexivity.
  - apply _.
  - exact Hc.
Defined.
