(* ===== verification/Bruck.v ===== *)
(** * Bruck: the Bruck allgather ([pluvio_collective/src/ucx_backend/bruck.rs])

    The working set lies in modular layout at the start of the receive buffer: slot
    [k] of rank [i] is for the contribution of rank [i + k].  Each round doubles the
    slots that are filled; a local rotation ends it.  The messages are active
    messages under the keys of [CollBase] ([AmRouter] matches them to receives). *)

From S2P Require Import Prelude CollBase Spmd Ring.

(** ** Active messages *)

(** [rank as u16] and the like. *)
Definition am_key (rank step : nat) (phase : Z) : RecvKey :=
  key_of (mkHeader (wrap16 (Z.of_nat rank)) (wrap16 (Z.of_nat step)) phase 0).

Lemma key_src_am i step phase : (Z.of_nat i < 65536)%Z -> key_src (am_key i step phase) = i.
Proof. intros Hi. unfold key_src. cbn. unfold wrap16. rewrite Z.mod_small by lia. lia. Qed.

Section bruck.
Context {T : Type}.
Abbreviation P := (Prog RecvKey (list T) (outcome (RankResult T))).
Abbreviation Kont := (outcome (RankResult T) -> P).

Definition PHASE_BRUCK : Z := 4.

(** [while count < n]; the count grows in each turn, so [n] turns are enough. *)
Fixpoint bruck_loop (c : UcxCommunicator) (l fuel count round : nat) (recv_buf : list T)
    (k : outcome (list T * result unit CollectiveError) -> P) : P :=
  let n := csize c in
  let rank := crank c in
  if count <? n then
    match fuel with
    | O => k (Panic "out of fuel")
    | S fuel =>
        let to_send := Nat.min count (n - count) in
        let send_peer := (rank + n - count) mod n in
        let recv_peer := (rank + count) mod n in
        let send := slice 0 (to_send * l) recv_buf in
        let target := slice (count * l) (to_send * l) recv_buf in
        match endpoint c send_peer with
        | None => k (Ok (recv_buf, RErr (Protocol "bruck: missing endpoint")))
        | Some send_ep =>
            Send send_ep (am_key rank round PHASE_BRUCK) send (fun sr =>
              Recv (am_key recv_peer round PHASE_BRUCK) (fun rr =>
                let recv_buf := match rr with
                                | ROk d => splice (count * l) (fill target d) recv_buf
                                | RErr _ => recv_buf
                                end in
                match sr, rr with
                | RErr e, _ => k (Ok (recv_buf, RErr (Ucx ("am_send: " ++ e))))
                | ROk _, RErr e => k (Ok (recv_buf, RErr (Ucx e)))
                | ROk _, ROk _ => bruck_loop c l fuel (count + to_send) (round + 1) recv_buf k
                end))
        end
    end
  else k (Ok (recv_buf, ROk tt)).

(** The final rotation, into [rotated]. *)
Definition rotate (n rank l : nat) (recv_buf rotated : list T) : list T :=
  foldl (fun rotated k => splice ((rank + k) mod n * l) (slice (k * l) l recv_buf) rotated) rotated (seq 0 n).

Definition bruck_allgather (c : UcxCommunicator) (send_buf recv_buf : list T) (k : Kont) : P :=
  let n := csize c in
  let l := length send_buf in
  if negb (length recv_buf =? l * n) then k (Ok (recv_buf, RErr BadShape))
  else if n =? 1 then k (Ok (send_buf, ROk tt))
  else
    bruck_loop c l n 1 0 (splice 0 send_buf recv_buf) (fun r =>
      match r with
      | Panic m => k (Panic m)
      | Ok (recv_buf, RErr e) => k (Ok (recv_buf, RErr e))
      | Ok (recv_buf, ROk _) =>
          match send_buf with
          | [] => k (Panic "index out of bounds: the len is 0 but the index is 0")
          | x :: _ => k (Ok (rotate n (crank c) l recv_buf (replicate (length recv_buf) x), ROk tt))
          end
      end).
End bruck.

(** * Facts *)

Section facts.
Context {T : Type}.
Context (n l : nat) (comm : nat -> UcxCommunicator) (sends recvs : nat -> list T).
Abbreviation P := (Prog RecvKey (list T) (outcome (RankResult T))).
Context (Hn : 2 <= n) (H16 : (Z.of_nat n <= 65536)%Z) (Hcomm : forall i, i < n -> CommOk n i (comm i)).
Context (Hsend : forall i, i < n -> length (sends i) = l) (Hrecv : forall i, i < n -> length (recvs i) = l * n).

(** The first [count] slots of rank [i] are filled. *)
Definition Filled (count i : nat) (b : list T) : Prop :=
  length b = l * n /\ forall k, k < count -> slice (k * l) l b = sends ((i + k) mod n).

Definition send_peer_of (count i : nat) : nat := (i + n - count) mod n.
Definition recv_peer_of (count i : nat) : nat := (i + count) mod n.

Lemma bruck_cycle count i : 1 <= count -> count < n -> i < n ->
  send_peer_of count i < n /\ recv_peer_of count i < n /\
  recv_peer_of count (send_peer_of count i) = i /\ send_peer_of count (recv_peer_of count i) = i /\
  send_peer_of count i <> i.
Proof. intros. unfold send_peer_of, recv_peer_of. repeat split; mod_cases. Qed.

Lemma filled_step count i (st : nat -> list T) :
  1 <= count -> count < n -> i < n -> (forall j, j < n -> Filled count j (st j)) ->
  let to_send := Nat.min count (n - count) in
  let msg := slice 0 (to_send * l) (st (recv_peer_of count i)) in
  length msg = to_send * l /\
  Filled (count + to_send) i
    (splice (count * l) (fill (slice (count * l) (to_send * l) (st i)) msg) (st i)).
Proof.
  intros Hc Hcn Hi Hst. cbv zeta. set (t := Nat.min count (n - count)).
  destruct (bruck_cycle count i Hc Hcn Hi) as (_ & Hj & _). set (j := recv_peer_of count i) in *.
  destruct (Hst i Hi) as [Li Fi], (Hst j Hj) as [Lj Fj]. assert (count + t <= n) by lia.
  assert (Hmsg : length (slice 0 (t * l) (st j)) = t * l) by (apply slice_length; nia). split; [done|].
  rewrite fill_same by (rewrite Hmsg, slice_length; nia). split.
  - rewrite splice_length; [done|]. rewrite Hmsg. nia.
  - intros k Hk. destruct (decide (k < count)).
    + rewrite slice_splice_ne by (rewrite ?Hmsg; nia). by apply Fi.
    + rewrite slice_splice_in by (rewrite ?Hmsg; nia). rewrite slice_slice by nia. cbn [Nat.add].
      rewrite <- Nat.mul_sub_distr_r, Fj by lia. f_equal. unfold j, recv_peer_of.
      rewrite Nat.Div0.add_mod_idemp_l. f_equal. lia.
Qed.

(** ** The runs *)

Lemma loop_round fuel count round (st : nat -> list T) (k : nat -> outcome (RankResult T) -> P) :
  1 <= count -> count < n -> (forall j, j < n -> Filled count j (st j)) ->
  exists st', (forall j, j < n -> Filled (count + Nat.min count (n - count)) j (st' j)) /\
  rtc spmd_step (ranks n (fun i => bruck_loop (comm i) l (S fuel) count round (st i) (k i)), ∅)
    (ranks n (fun i => bruck_loop (comm i) l fuel (count + Nat.min count (n - count)) (round + 1) (st' i) (k i)), ∅).
Proof.
  intros Hc Hcn Hst. set (t := Nat.min count (n - count)).
  exists (fun i => splice (count * l) (fill (slice (count * l) (t * l) (st i))
    (slice 0 (t * l) (st (recv_peer_of count i)))) (st i)).
  split; [intros j Hj; by apply filled_step|].
  apply (exchange_steps n _ _ (send_peer_of count) (recv_peer_of count) (fun i => am_key i round PHASE_BRUCK)
    (fun i => slice 0 (t * l) (st i))).
  - intros i Hi. destruct (bruck_cycle count i Hc Hcn Hi) as (? & ? & ? & ? & _). done.
  - intros i Hi. destruct (Hcomm i Hi) as [Hr Hs He].
    destruct (bruck_cycle count i Hc Hcn Hi) as (Hp & _ & _ & _ & Hne).
    assert (Hx := He _ Hp Hne). cbn [bruck_loop]. rewrite Hr, Hs. destruct (Nat.ltb_spec count n); [|lia].
    unfold send_peer_of in *. rewrite Hx. do 2 eexists. split; [done|]. split; [done|].
    cbn. done.
Qed.

Lemma loop_steps fuel count round (st : nat -> list T) (k : nat -> outcome (RankResult T) -> P) :
  1 <= count -> n - count <= fuel -> count <= n -> (forall j, j < n -> Filled count j (st j)) ->
  exists st', (forall j, j < n -> Filled n j (st' j)) /\
  rtc spmd_step (ranks n (fun i => bruck_loop (comm i) l fuel count round (st i) (k i)), ∅)
    (ranks n (fun i => k i (Ok (st' i, ROk tt))), ∅).
Proof.
  revert count round st. induction fuel as [|fuel IH]; intros count round st Hc Hf Hcn Hst.
  - assert (count = n) as -> by lia. exists st. split; [done|]. apply reflexive_eq. f_equal. apply ranks_ext.
    intros i Hi. cbn [bruck_loop]. rewrite (co_size _ _ _ (Hcomm i Hi)). by rewrite Nat.ltb_irrefl.
  - destruct (decide (count = n)) as [->|Hne].
    + exists st. split; [done|]. apply reflexive_eq. f_equal. apply ranks_ext.
      intros i Hi. cbn [bruck_loop]. rewrite (co_size _ _ _ (Hcomm i Hi)). by rewrite Nat.ltb_irrefl.
    + destruct (loop_round fuel count round st k Hc ltac:(lia) Hst) as (st1 & Hst1 & Hs1).
      destruct (IH (count + Nat.min count (n - count)) (round + 1) st1) as (st' & Hst' & Hs'); [lia..|done|].
      exists st'. split; [done|]. by etrans.
Qed.

(** ** The rotation *)

Definition gathered : list T := concat (map sends (seq 0 n)).

Lemma rotate_spec i (b r : list T) : i < n -> Filled n i b -> length r = l * n -> rotate n i l b r = gathered.
Proof.
  intros Hi [Lb Fb] Hr.
  set (g m := foldl (fun r k => splice ((i + k) mod n * l) (slice (k * l) l b) r) r (seq 0 m)).
  assert (Hg : forall m, m <= n -> length (g m) = l * n /\
    forall k, k < m -> slice ((i + k) mod n * l) l (g m) = sends ((i + k) mod n)).
  { induction m as [|m IH]; intros Hm; [by split; [|lia]|].
    destruct (IH ltac:(lia)) as [Lg Fg]. unfold g in *. rewrite seq_S, foldl_app. cbn [foldl Nat.add].
    assert (Hlt : (i + m) mod n < n) by (apply Nat.mod_upper_bound; lia).
    assert (Hs : length (slice (m * l) l b) = l) by (apply slice_length; nia). split.
    - rewrite splice_length; [done|]. rewrite Hs. nia.
    - intros k Hk. destruct (decide (k = m)) as [->|Hkm].
      + rewrite <- Hs at 2. rewrite slice_splice_eq by (rewrite Hs; nia). apply Fb. lia.
      + assert (Hne : (i + k) mod n <> (i + m) mod n) by (clear -Hi Hk Hm Hkm Hn; mod_cases).
        assert (Hltk : (i + k) mod n < n) by (apply Nat.mod_upper_bound; lia).
        rewrite slice_splice_ne; [apply Fg; lia|rewrite Hs; nia|rewrite Hs; nia]. }
  destruct (Hg n ltac:(lia)) as [Lg Fg]. unfold rotate. fold (g n).
  rewrite <- (concat_slices n l (g n)) by lia. unfold gathered. f_equal. apply map_ext_in. intros c Hc%in_seq.
  assert (Hcc : (i + (c + n - i) mod n) mod n = c) by (clear -Hi Hc Hn; mod_cases).
  rewrite <- Hcc at 1 2. apply Fg. apply Nat.mod_upper_bound. lia.
Qed.

Lemma bruck_start i : i < n -> Filled 1 i (splice 0 (sends i) (recvs i)).
Proof.
  intros Hi. assert (Hs := Hsend i Hi). assert (Hr := Hrecv i Hi). split.
  - rewrite splice_length; [done|]. nia.
  - intros k Hk. assert (k = 0) as -> by lia. cbn [Nat.mul]. rewrite <- Hs, slice_splice_eq by nia.
    by rewrite Nat.add_0_r, Nat.mod_small.
Qed.

Lemma bruck_steps (Q : outcome (RankResult T)) :
  (if decide (l = 0) then Q = Panic "index out of bounds: the len is 0 but the index is 0"
   else Q = Ok (gathered, ROk tt)) ->
  rtc spmd_step (ranks n (fun i => bruck_allgather (comm i) (sends i) (recvs i) Ret), ∅)
    (ranks n (fun _ => Ret Q), ∅).
Proof.
  intros HQ.
  destruct (loop_steps n 1 0 (fun i => splice 0 (sends i) (recvs i)) (fun i r =>
    match r with
    | Panic m => Ret (Panic m)
    | Ok (recv_buf, RErr e) => Ret (Ok (recv_buf, RErr e))
    | Ok (recv_buf, ROk _) =>
        match sends i with
        | [] => Ret (Panic "index out of bounds: the len is 0 but the index is 0")
        | x :: _ => Ret (Ok (rotate n i l recv_buf (replicate (length recv_buf) x), ROk tt))
        end
    end)) as (st' & Hst' & Hs); [lia|lia|lia|intros j Hj; by apply bruck_start|].
  etrans; [|etrans; [exact Hs|]]; apply reflexive_eq; f_equal; apply ranks_ext; intros i Hi.
  - destruct (Hcomm i Hi) as [Hr Hz He]. unfold bruck_allgather. rewrite Hr, Hz, Hsend, Hrecv by done.
    rewrite Nat.eqb_refl. destruct (Nat.eqb_spec n 1); [lia|]. done.
  - destruct (Hst' i Hi) as [L F]. assert (Hl := Hsend i Hi). destruct (sends i) as [|x xs] eqn:Hx; cbn in Hl.
    + rewrite decide_True in HQ by done. by rewrite HQ.
    + rewrite decide_False in HQ by lia. rewrite HQ. rewrite rotate_spec; [done|done|by split|].
      rewrite length_replicate. done.
Qed.

Lemma bruck_owned i : i < n -> owns key_src i (bruck_allgather (comm i) (sends i) (recvs i) Ret).
Proof.
  intros Hi. destruct (Hcomm i Hi) as [Hr Hz He]. unfold bruck_allgather. rewrite Hz.
  destruct (negb _); [done|]. destruct (n =? 1); [done|].
  assert (Hloop : forall fuel count round b (k : outcome (RankResult T) -> P), (forall r, owns key_src i (k r)) ->
    owns key_src i (bruck_loop (comm i) (length (sends i)) fuel count round b k)).
  { induction fuel as [|fuel IH]; intros count round b k Hk; cbn [bruck_loop]; (destruct (_ <? _); [|apply Hk]);
      [apply Hk|]. destruct (endpoint _ _); [|apply Hk]. rewrite Hr. cbn [owns].
    split; [apply key_src_am; lia|]. intros sr rr. destruct sr, rr; try apply Hk. by apply IH. }
  apply Hloop. intros [[b [u|e]]|m]; [|done|done]. by destruct (sends i).
Qed.

Lemma bruck_completes :
  Completes (ranks n (fun i => bruck_allgather (comm i) (sends i) (recvs i) Ret))
    (map (fun _ => if decide (l = 0) then Panic "index out of bounds: the len is 0 but the index is 0"
                   else Ok (gathered, ROk tt)) (seq 0 n)).
Proof. apply (completes_ranks key_src); [apply bruck_owned|]. apply bruck_steps. by case_decide. Qed.
End facts.

(** The Bruck allgather gathers, on every schedule.  For 2 to 65536 ranks with
    contributions of one length and receive buffers [n] times as long, every
    interleaving ends, without deadlock: when the contributions are not empty, every
    rank returns [Ok] with the contributions of all ranks in rank order.  With empty
    contributions, though, every rank panics after its last exchange, on
    [send_buf[0]]. *)
Theorem bruck_allgather_correct {T} n l (comm : nat -> UcxCommunicator) (sends recvs : nat -> list T) :
  2 <= n -> (Z.of_nat n <= 65536)%Z -> (forall i, i < n -> CommOk n i (comm i)) ->
  (forall i, i < n -> length (sends i) = l) -> (forall i, i < n -> length (recvs i) = l * n) ->
  Completes (ranks n (fun i => bruck_allgather (comm i) (sends i) (recvs i) Ret))
    (map (fun _ => if decide (l = 0) then Panic "index out of bounds: the len is 0 but the index is 0"
                   else Ok (concat (map sends (seq 0 n)), ROk tt)) (seq 0 n)).
Proof. intros. by apply bruck_completes. Qed.

Lemma bruck_allgather_correct_witness :
  Completes (ranks 3 (fun i => bruck_allgather (full_comm 3 i) [i; 10 + i] (replicate 6 7) Ret))
    (map (fun _ => Ok ([0; 10; 1; 11; 2; 12], ROk tt)) (seq 0 3)).
Proof.
  apply (bruck_allgather_correct 3 2 (full_comm 3) (fun i => [i; 10 + i]) (fun _ => replicate 6 7)).
  - lia.
  - lia.
  - intros i _. apply full_comm_ok.
  - done.
  - done.
Defined.
