(* ===== verification/Bcast.v ===== *)
(** * Bcast: broadcast and scatter
    ([pluvio_collective/src/ucx_backend/broadcast.rs], [scatter.rs])

    The broadcast follows a binomial tree over the ranks counted from the root: in
    round [r] the ranks below [2 ^ r] send to the rank [2 ^ r] above them.  The
    scatter is one round: the root sends each rank its chunk. *)

From S2P Require Import Prelude CollBase Spmd Ring Bruck.

Section defs.
Context {T : Type}.
Abbreviation P := (Prog RecvKey (list T) (RankResult T)).

(** ** Broadcast *)

Definition PHASE_BCAST : Z := 5.

(** [usize::BITS - x.leading_zeros()]. *)
Definition bit_length (x : nat) : nat := if x =? 0 then 0 else S (Nat.log2 x).
Definition logical_highest_bit (x : nat) : nat := Nat.log2 x.

(** One round; the state is [buf] and [have_data]. *)
Definition broadcast_round (c : UcxCommunicator) (root round : nat) (s : list T * bool)
    (k : (list T * bool) * result unit CollectiveError -> P) : P :=
  let n := csize c in
  let rank := crank c in
  let (buf, have_data) := s in
  let logical := (rank + n - root) mod n in
  let mask := 2 ^ round in
  if have_data then
    let peer_logical := Nat.lor logical mask in
    if negb (peer_logical =? logical) && (peer_logical <? n) then
      let peer := (peer_logical + root) mod n in
      match endpoint c peer with
      | None => k (s, RErr (Protocol "bcast: missing endpoint"))
      | Some ep =>
          Send ep (am_key rank round PHASE_BCAST) buf (fun r =>
            match r with
            | ROk _ => k (s, ROk tt)
            | RErr e => k (s, RErr (Ucx ("am_send: " ++ e)))
            end)
      end
    else k (s, ROk tt)
  else
    if round =? logical_highest_bit logical then
      let parent_logical := Nat.ldiff logical (2 ^ round) in
      let parent := (parent_logical + root) mod n in
      Recv (am_key parent round PHASE_BCAST) (fun r =>
        match r with
        | ROk d => k ((fill buf d, true), ROk tt)
        | RErr e => k (s, RErr (Ucx e))
        end)
    else k (s, ROk tt).

Definition broadcast (c : UcxCommunicator) (buf : list T) (root : nat) (k : RankResult T -> P) : P :=
  let n := csize c in
  if n =? 1 then k (buf, ROk tt)
  else if n <=? root then k (buf, RErr (Protocol "broadcast: root out of range"))
  else
    let logical := (crank c + n - root) mod n in
    let rounds := Nat.max (bit_length (n - 1)) 1 in
    for_range 0 rounds (broadcast_round c root) (buf, logical =? 0) (fun '((buf, _), r) => k (buf, r)).

(** ** Scatter *)

Definition PHASE_SCATTER : Z := 2.

(** [join_all] of the sends: the results in order. *)
Fixpoint send_all (key : RecvKey) (sends : list (nat * list T)) (k : list (result unit string) -> P) : P :=
  match sends with
  | [] => k []
  | (ep, d) :: sends => Send ep key d (fun r => send_all key sends (fun rs => k (r :: rs)))
  end.
Fixpoint first_error (rs : list (result unit string)) : result unit CollectiveError :=
  match rs with
  | [] => ROk tt
  | ROk _ :: rs => first_error rs
  | RErr e :: _ => RErr (Ucx ("am_send: " ++ e))
  end.

(** The sends of the root; [None] when an endpoint is missing. *)
Fixpoint scatter_sends (c : UcxCommunicator) (root chunk : nat) (sb : list T) (rs : list nat) :
    option (list (nat * list T)) :=
  match rs with
  | [] => Some []
  | r :: rs =>
      if r =? root then scatter_sends c root chunk sb rs
      else ep ← endpoint c r; l ← scatter_sends c root chunk sb rs;
           Some ((ep, slice (r * chunk) chunk sb) :: l)
  end.

Definition scatter (c : UcxCommunicator) (send_buf : option (list T)) (recv_buf : list T) (root : nat)
    (k : RankResult T -> P) : P :=
  let n := csize c in
  let rank := crank c in
  let chunk := length recv_buf in
  if n <=? root then k (recv_buf, RErr (Protocol "scatter: root out of range"))
  else if n =? 1 then
    match send_buf with
    | None => k (recv_buf, RErr (Protocol "scatter: send_buf required at root"))
    | Some sb => if negb (length sb =? chunk) then k (recv_buf, RErr BadShape) else k (sb, ROk tt)
    end
  else if rank =? root then
    match send_buf with
    | None => k (recv_buf, RErr (Protocol "scatter: send_buf required at root"))
    | Some sb =>
        if negb (length sb =? chunk * n) then k (recv_buf, RErr BadShape)
        else
          let recv_buf := slice (rank * chunk) chunk sb in
          match scatter_sends c root chunk sb (seq 0 n) with
          | None => k (recv_buf, RErr (Protocol "scatter: missing endpoint"))
          | Some sends => send_all (am_key root root PHASE_SCATTER) sends (fun rs => k (recv_buf, first_error rs))
          end
    end
  else
    Recv (am_key root root PHASE_SCATTER) (fun r =>
      match r with
      | ROk d => k (fill recv_buf d, ROk tt)
      | RErr e => k (recv_buf, RErr (Ucx e))
      end).
End defs.

(** * Facts: broadcast *)

Lemma lor_pow2 L r : L < 2 ^ r -> Nat.lor L (2 ^ r) = L + 2 ^ r.
Proof.
  intros HL. assert (Hl : Nat.land L (2 ^ r) = 0).
  { apply Nat.bits_inj_0. intros m. rewrite Nat.land_spec, Nat.pow2_bits_eqb.
    destruct (Nat.eqb_spec r m) as [<-|]; [|apply andb_false_r].
    rewrite andb_true_r, <- (Nat.mod_small L (2 ^ r)) by done. by apply Nat.mod_pow2_bits_high. }
  by rewrite Nat.add_nocarry_lxor, Nat.lxor_lor.
Qed.

Lemma log2_range L r : 2 ^ r <= L -> L < 2 ^ S r -> Nat.log2 L = r.
Proof. intros. by apply Nat.log2_unique; [lia|]. Qed.

Lemma ldiff_pow2 L r : 2 ^ r <= L -> L < 2 ^ S r -> Nat.ldiff L (2 ^ r) = L - 2 ^ r.
Proof.
  intros H1 H2. symmetry. apply Nat.sub_nocarry_ldiff. apply Nat.bits_inj_0. intros m.
  rewrite Nat.ldiff_spec, Nat.pow2_bits_eqb. destruct (Nat.eqb_spec r m) as [<-|]; [|done].
  rewrite <- (log2_range L r) at 1 by done. rewrite Nat.bit_log2; [done|].
  assert (2 ^ r <> 0) by (apply Nat.pow_nonzero; lia). lia.
Qed.

Lemma rounds_enough n : 2 <= n -> n <= 2 ^ Nat.max (bit_length (n - 1)) 1.
Proof.
  intros Hn. unfold bit_length. destruct (Nat.eqb_spec (n - 1) 0); [lia|].
  rewrite Nat.max_l by lia. assert (Hs := Nat.log2_spec (n - 1) ltac:(lia)). lia.
Qed.

Lemma pow2_pos r : 0 < 2 ^ r.
Proof. assert (2 ^ r <> 0) by (apply Nat.pow_nonzero; lia). lia. Qed.

Section bcast_facts.
Context {T : Type}.
Context (n root len : nat) (comm : nat -> UcxCommunicator) (bufs : nat -> list T).
Abbreviation P := (Prog RecvKey (list T) (RankResult T)).
Context (Hn : 2 <= n) (H16 : (Z.of_nat n <= 65536)%Z) (Hroot : root < n).
Context (Hcomm : forall i, i < n -> CommOk n i (comm i)) (Hlen : forall i, i < n -> length (bufs i) = len).

(** The rank counted from the root, and back. *)
Definition logical_of (i : nat) : nat := (i + n - root) mod n.
Definition rank_of (L : nat) : nat := (L + root) mod n.

Lemma logical_bound i : logical_of i < n.
Proof. apply Nat.mod_upper_bound. lia. Qed.
Lemma rank_bound L : rank_of L < n.
Proof. apply Nat.mod_upper_bound. lia. Qed.
Lemma rank_logical i : i < n -> rank_of (logical_of i) = i.
Proof. unfold rank_of, logical_of. intros. mod_cases. Qed.
Lemma logical_rank L : L < n -> logical_of (rank_of L) = L.
Proof. unfold rank_of, logical_of. intros. mod_cases. Qed.
Lemma logical_root i : i < n -> logical_of i = 0 <-> i = root.
Proof. unfold logical_of. intros. split; [mod_cases|intros ->; mod_cases]. Qed.

(** [buf] and [have_data] after [r] rounds: the ranks below [2 ^ r] have the data. *)
Definition bc_state (r i : nat) : list T * bool :=
  (if decide (logical_of i < 2 ^ r) then bufs root else bufs i, bool_decide (logical_of i < 2 ^ r)).

Definition bc_sends (r i : nat) : list (nat * RecvKey * list T) :=
  if decide (logical_of i < 2 ^ r /\ logical_of i + 2 ^ r < n)
  then [(rank_of (logical_of i + 2 ^ r), am_key i r PHASE_BCAST, bufs root)] else [].
Definition bc_gets (r i : nat) : option (RecvKey * list T) :=
  if decide (2 ^ r <= logical_of i /\ logical_of i < 2 ^ S r)
  then Some (am_key (rank_of (logical_of i - 2 ^ r)) r PHASE_BCAST, bufs root) else None.

Lemma bc_round_sender i r (k : (list T * bool) * result unit CollectiveError -> P) :
  i < n -> logical_of i < 2 ^ r ->
  sends_to (broadcast_round (comm i) root r (bc_state r i) k) (bc_sends r i) (k (bc_state (S r) i, ROk tt)).
Proof.
  intros Hi HL. destruct (Hcomm i Hi) as [Hr Hs He]. assert (Hp := pow2_pos r).
  assert (Hst : bc_state (S r) i = bc_state r i).
  { unfold bc_state. rewrite Nat.pow_succ_r'. rewrite !decide_True by lia.
    by rewrite !bool_decide_true by lia. }
  rewrite Hst. unfold broadcast_round, bc_sends. rewrite Hr, Hs. cbv zeta.
  assert (Hl : (i + n - root) mod n = logical_of i) by done. rewrite Hl, lor_pow2 by done.
  unfold bc_state. rewrite decide_True, bool_decide_true by done.
  destruct (Nat.eqb_spec (logical_of i + 2 ^ r) (logical_of i)); [lia|]. cbn [negb andb].
  destruct (Nat.ltb_spec (logical_of i + 2 ^ r) n).
  - rewrite decide_True by done. assert (Hne : rank_of (logical_of i + 2 ^ r) <> i).
    { intros Heq. apply (f_equal logical_of) in Heq. rewrite logical_rank in Heq by done. lia. }
    assert (Hx := He _ (rank_bound _) Hne). unfold rank_of in *. rewrite Hx. by repeat constructor.
  - rewrite decide_False by lia. constructor.
Qed.

Lemma bc_round_receiver i r (k : (list T * bool) * result unit CollectiveError -> P) :
  i < n -> 2 ^ r <= logical_of i ->
  gets (broadcast_round (comm i) root r (bc_state r i) k) (bc_gets r i) (k (bc_state (S r) i, ROk tt)).
Proof.
  intros Hi HL. destruct (Hcomm i Hi) as [Hr Hs He]. unfold broadcast_round, bc_gets. rewrite Hr, Hs. cbv zeta.
  assert (Hl : (i + n - root) mod n = logical_of i) by done. rewrite Hl.
  unfold bc_state at 1. rewrite decide_False, bool_decide_false by lia. unfold logical_highest_bit.
  destruct (decide (logical_of i < 2 ^ S r)) as [Hlt|Hge].
  - rewrite decide_True by done. rewrite (log2_range _ r), Nat.eqb_refl by done. rewrite (ldiff_pow2 _ r) by done. cbn [gets].
    eexists. split; [done|]. cbn beta iota. unfold bc_state. rewrite decide_True, bool_decide_true by done.
    rewrite fill_same; [done|]. by rewrite !Hlen.
  - rewrite decide_False by lia. cbn [gets]. destruct (Nat.eqb_spec r (Nat.log2 (logical_of i))) as [Heq|_].
    + exfalso. assert (Hp := pow2_pos r). destruct (Nat.log2_spec (logical_of i)) as [_ H2]; [lia|].
      rewrite <- Heq in H2. lia.
    + f_equal. f_equal. unfold bc_state. rewrite !decide_False, !bool_decide_false by lia. done.
Qed.

Lemma bc_round_steps r (k : nat -> (list T * bool) * result unit CollectiveError -> P) :
  rtc spmd_step (ranks n (fun i => broadcast_round (comm i) root r (bc_state r i) (k i)), ∅)
    (ranks n (fun i => k i (bc_state (S r) i, ROk tt)), ∅).
Proof.
  assert (Hp := pow2_pos r).
  apply (round_steps n _ _ (bc_sends r) (bc_gets r)
    (fun i => if decide (logical_of i < 2 ^ r) then k i (bc_state (S r) i, ROk tt)
              else broadcast_round (comm i) root r (bc_state r i) (k i))).
  - intros i Hi. destruct (decide (logical_of i < 2 ^ r)).
    + by apply bc_round_sender.
    + unfold bc_sends. rewrite decide_False by lia. constructor.
  - intros i Hi. destruct (decide (logical_of i < 2 ^ r)).
    + unfold bc_gets. by rewrite decide_False by lia.
    + apply bc_round_receiver; [done|lia].
  - apply (round_msgs_nodup key_src).
    + intros i Hi. unfold bc_sends. case_decide; [apply NoDup_singleton|constructor].
    + intros i x Hi Hx. unfold bc_sends in Hx. case_decide; [|by apply elem_of_nil in Hx].
      apply list_elem_of_singleton in Hx as ->. cbn [fst snd]. apply key_src_am. lia.
  - intros a key d Hin. apply round_msgs_elem in Hin as (i & Hi & Hx). unfold bc_sends in Hx.
    case_decide as Hd; [|by apply elem_of_nil in Hx]. apply list_elem_of_singleton in Hx as [= -> -> ->].
    split; [apply rank_bound|]. unfold bc_gets. rewrite logical_rank by lia.
    rewrite decide_True by (rewrite Nat.pow_succ_r'; lia). rewrite Nat.add_sub, rank_logical by done. done.
  - intros i key d Hi Hg. unfold bc_gets in Hg. case_decide as Hd; [|done]. injection Hg as <- <-.
    assert (Hb := logical_bound i). rewrite Nat.pow_succ_r' in Hd.
    apply round_msgs_elem. exists (rank_of (logical_of i - 2 ^ r)). split; [apply rank_bound|].
    unfold bc_sends. rewrite logical_rank by lia. rewrite decide_True by lia.
    rewrite Nat.sub_add, rank_logical by lia. by left.
Qed.

Lemma bcast_unfold i (k : RankResult T -> P) : i < n ->
  broadcast (comm i) (bufs i) root k =
  for_range 0 (Nat.max (bit_length (n - 1)) 1) (broadcast_round (comm i) root) (bc_state 0 i)
    (fun '((buf, _), r) => k (buf, r)).
Proof.
  intros Hi. destruct (Hcomm i Hi) as [Hr Hs He]. unfold broadcast. rewrite Hr, Hs.
  destruct (Nat.eqb_spec n 1); [lia|]. destruct (Nat.leb_spec n root); [lia|]. cbv zeta. f_equal.
  unfold bc_state. cbn [Nat.pow]. assert (Hl : (i + n - root) mod n = logical_of i) by done. rewrite Hl.
  destruct (Nat.eqb_spec (logical_of i) 0) as [H0|H0].
  - rewrite decide_True, bool_decide_true by lia. apply logical_root in H0 as ->; done.
  - by rewrite decide_False, bool_decide_false by lia.
Qed.

Lemma bcast_steps : rtc spmd_step (ranks n (fun i => broadcast (comm i) (bufs i) root Ret), ∅)
  (ranks n (fun i => Ret (bufs root, ROk tt)), ∅).
Proof.
  rewrite (ranks_ext n _ _ (fun i Hi => bcast_unfold i Ret Hi)).
  etrans; [apply (for_range_steps n 0 _ (fun i => broadcast_round (comm i) root) bc_state);
    intros t k' _; apply bc_round_steps|].
  apply reflexive_eq. f_equal. apply ranks_ext. intros i Hi. unfold bc_state.
  assert (Hb := logical_bound i). assert (Hr := rounds_enough n Hn). by rewrite decide_True by (cbn [Nat.add]; lia).
Qed.

Lemma bcast_owned i : i < n -> owns key_src i (broadcast (comm i) (bufs i) root Ret).
Proof.
  intros Hi. destruct (Hcomm i Hi) as [Hr Hs He]. rewrite bcast_unfold by done.
  apply owns_for_range; [|by intros [[? ?] ?]]. intros r [b h] k Hk. unfold broadcast_round. rewrite Hr.
  destruct h.
  - destruct (_ && _); [|apply Hk]. destruct (endpoint _ _); [|apply Hk]. cbn [owns].
    split; [apply key_src_am; lia|]. intros [|]; apply Hk.
  - destruct (r =? _); [|apply Hk]. cbn [owns]. intros [|]; apply Hk.
Qed.

Lemma bcast_completes : Completes (ranks n (fun i => broadcast (comm i) (bufs i) root Ret))
  (map (fun _ => (bufs root, ROk tt)) (seq 0 n)).
Proof. apply (completes_ranks key_src); [apply bcast_owned|apply bcast_steps]. Qed.
End bcast_facts.

(** The binomial broadcast reaches every rank, on every schedule.  For 2 to 65536
    ranks, any root and buffers of one length, every interleaving ends, without
    deadlock, with [Ok] and the root's buffer at every rank. *)
Theorem broadcast_correct {T} n root len (comm : nat -> UcxCommunicator) (bufs : nat -> list T) :
  2 <= n -> (Z.of_nat n <= 65536)%Z -> root < n -> (forall i, i < n -> CommOk n i (comm i)) ->
  (forall i, i < n -> length (bufs i) = len) ->
  Completes (ranks n (fun i => broadcast (comm i) (bufs i) root Ret))
    (map (fun _ => (bufs root, ROk tt)) (seq 0 n)).
Proof. intros. by eapply bcast_completes. Qed.

Lemma broadcast_correct_witness :
  Completes (ranks 5 (fun i => broadcast (full_comm 5 i) [i; i] 3 Ret))
    (map (fun _ => ([3; 3], ROk tt)) (seq 0 5)).
Proof.
  apply (broadcast_correct 5 3 2 (full_comm 5) (fun i => [i; i])).
  - lia.
  - lia.
  - lia.
  - intros i _. apply full_comm_ok.
  - done.
Defined.

(** * Facts: scatter *)

Lemma send_all_sends {T} (key : RecvKey) (sends : list (nat * list T)) (k : list (result unit string) -> Prog RecvKey (list T) (RankResult T)) :
  sends_to (send_all key sends k) (map (fun s => (s.1, key, s.2)) sends) (k (map (fun _ => ROk tt) sends)).
Proof.
  revert k. induction sends as [|[ep d] sends IH]; intros k; cbn; [constructor|].
  constructor. apply (IH (fun rs => k (ROk tt :: rs))).
Qed.

Lemma send_all_owned {T} i key (sends : list (nat * list T)) (k : list (result unit string) -> Prog RecvKey (list T) (RankResult T)) :
  key_src key = i -> (forall rs, owns key_src i (k rs)) -> owns key_src i (send_all key sends k).
Proof.
  intros Hkey. revert k. induction sends as [|[ep d] sends IH]; intros k Hk; cbn [send_all owns]; [apply Hk|].
  split; [done|]. intros r. apply IH. intros rs. apply Hk.
Qed.

Lemma first_error_ok {A} (l : list A) : first_error (map (fun _ => ROk tt) l) = ROk tt.
Proof. by induction l. Qed.

Section scatter_facts.
Context {T : Type}.
Context (n root chunk : nat) (comm : nat -> UcxCommunicator) (sb : list T) (bufs : nat -> list T).
Abbreviation P := (Prog RecvKey (list T) (RankResult T)).
Context (Hn : 2 <= n) (H16 : (Z.of_nat n <= 65536)%Z) (Hroot : root < n).
Context (Hcomm : forall i, i < n -> CommOk n i (comm i)) (Hlen : forall i, i < n -> length (bufs i) = chunk).
Context (Hsb : length sb = chunk * n).

Definition chunk_of (i : nat) : list T := slice (i * chunk) chunk sb.
Definition others : list nat := filter (.≠ root) (seq 0 n).

Lemma others_elem i : i ∈ others <-> i < n /\ i <> root.
Proof.
  unfold others. rewrite list_elem_of_filter, list_elem_of_In, in_seq. split; [intros [? ?]|intros [? ?]]; split; lia || done.
Qed.

Lemma scatter_sends_all rs : (forall r, r ∈ rs -> r < n) ->
  scatter_sends (comm root) root chunk sb rs = Some (map (fun r => (r, chunk_of r)) (filter (.≠ root) rs)).
Proof.
  destruct (Hcomm root Hroot) as [_ _ He]. induction rs as [|r rs IH]; intros Hrs; cbn [scatter_sends]; [done|].
  rewrite filter_cons, IH by (intros; apply Hrs; by right).
  destruct (Nat.eqb_spec r root) as [->|Hne]; [by rewrite decide_False by naive_solver|].
  rewrite decide_True by done. rewrite He; [done| |done]. apply Hrs. by left.
Qed.

Definition scatter_buf (i : nat) : option (list T) := if decide (i = root) then Some sb else None.

Lemma scatter_steps : rtc spmd_step
  (ranks n (fun i => scatter (comm i) (scatter_buf i) (bufs i) root Ret), ∅)
  (ranks n (fun i => Ret (chunk_of i, ROk tt)), ∅).
Proof.
  set (msgs := map (fun r => (r, am_key root root PHASE_SCATTER, chunk_of r)) others).
  assert (Hfst : msgs.*1 = map (fun r => (r, am_key root root PHASE_SCATTER)) others) by apply map_map.
  assert (Hroot_run : forall i, i < n -> i = root ->
    sends_to (scatter (comm i) (scatter_buf i) (bufs i) root Ret) msgs (Ret (chunk_of i, ROk tt) : P)).
  { intros i Hi ->. destruct (Hcomm root Hi) as [Hr Hs He]. unfold scatter, scatter_buf. rewrite Hr, Hs, Hlen by done.
    destruct (Nat.leb_spec n root); [lia|]. destruct (Nat.eqb_spec n 1); [lia|].
    rewrite Nat.eqb_refl, decide_True, Hsb, Nat.eqb_refl by done. cbn [negb]. cbv zeta.
    rewrite scatter_sends_all by (intros r ?%list_elem_of_In%in_seq; lia).
    set (sends := map (fun r => (r, chunk_of r)) (filter (.≠ root) (seq 0 n))).
    assert (msgs = map (fun s => (s.1, am_key root root PHASE_SCATTER, s.2)) sends) as ->
      by (unfold msgs, sends; by rewrite map_map).
    assert (Hss := send_all_sends (am_key root root PHASE_SCATTER) sends
      (fun rs => Ret (slice (root * chunk) chunk sb, first_error rs))).
    cbv beta in Hss. by rewrite first_error_ok in Hss. }
  apply (round_steps n _ _ (fun i => if decide (i = root) then msgs else [])
    (fun i => if decide (i = root) then None else Some (am_key root root PHASE_SCATTER, chunk_of i))
    (fun i => if decide (i = root) then Ret (chunk_of i, ROk tt)
              else scatter (comm i) (scatter_buf i) (bufs i) root Ret)).
  - intros i Hi. case_decide; [by apply Hroot_run|constructor].
  - intros i Hi. case_decide as Hd; [done|]. destruct (Hcomm i Hi) as [Hr Hs He]. unfold scatter. rewrite Hr, Hs.
    destruct (Nat.leb_spec n root); [lia|]. destruct (Nat.eqb_spec n 1); [lia|].
    destruct (Nat.eqb_spec i root); [lia|]. cbn [gets]. eexists. split; [done|]. cbn beta iota.
    rewrite fill_same; [done|]. unfold chunk_of. rewrite Hlen, slice_length by (done || nia). done.
  - apply (round_msgs_nodup key_src).
    + intros i Hi. case_decide; [|constructor]. rewrite Hfst. apply NoDup_fmap_2_strong; [by intros ? ? _ _ [=]|].
      apply NoDup_filter, NoDup_ListNoDup, seq_NoDup.
    + intros i x Hi Hx. case_decide as Hd; [|by apply elem_of_nil in Hx].
      apply list_elem_of_fmap in Hx as (r & -> & _). cbn [fst snd]. rewrite Hd. apply key_src_am. lia.
  - intros a key d Hin. apply round_msgs_elem in Hin as (i & Hi & Hx). cbv beta in Hx.
    case_decide as Hd; [|by apply elem_of_nil in Hx].
    apply list_elem_of_fmap in Hx as (r & [= -> -> ->] & Hr%others_elem). split; [lia|]. by rewrite decide_False by lia.
  - intros i key d Hi Hg. case_decide as Hd; [done|]. injection Hg as <- <-.
    apply round_msgs_elem. exists root. split; [done|]. rewrite decide_True by done.
    apply list_elem_of_fmap. exists i. split; [done|]. by apply others_elem.
Qed.

Lemma scatter_owned i : i < n -> owns key_src i (scatter (comm i) (scatter_buf i) (bufs i) root Ret).
Proof.
  intros Hi. destruct (Hcomm i Hi) as [Hr Hs He]. unfold scatter. rewrite Hr, Hs.
  destruct (n <=? root); [done|]. destruct (n =? 1); [destruct (scatter_buf i); [destruct (negb _)|]; done|].
  destruct (Nat.eqb_spec i root) as [Hd|]; [|by intros [|]].
  destruct (scatter_buf i) as [b|]; [|done]. destruct (negb _); [done|].
  destruct (scatter_sends _ _ _ _ _) as [sends|]; [|done].
  apply send_all_owned; [rewrite <- Hd; apply key_src_am; lia|done].
Qed.

Lemma scatter_completes : Completes (ranks n (fun i => scatter (comm i) (scatter_buf i) (bufs i) root Ret))
  (map (fun i => (chunk_of i, ROk tt)) (seq 0 n)).
Proof. apply (completes_ranks key_src); [apply scatter_owned|apply scatter_steps]. Qed.
End scatter_facts.

(** The scatter hands out the root's buffer, on every schedule.  For 2 to 65536
    ranks, any root with a buffer of [n] chunks and receive buffers of one chunk,
    every interleaving ends, without deadlock, with [Ok] and the [i]-th chunk at rank
    [i], the root included. *)
Theorem scatter_correct {T} n root chunk (comm : nat -> UcxCommunicator) (sb : list T) (bufs : nat -> list T) :
  2 <= n -> (Z.of_nat n <= 65536)%Z -> root < n -> (forall i, i < n -> CommOk n i (comm i)) ->
  (forall i, i < n -> length (bufs i) = chunk) -> length sb = chunk * n ->
  Completes (ranks n (fun i => scatter (comm i) (if decide (i = root) then Some sb else None) (bufs i) root Ret))
    (map (fun i => (slice (i * chunk) chunk sb, ROk tt)) (seq 0 n)).
Proof. intros. by apply scatter_completes. Qed.

Lemma scatter_correct_witness :
  Completes (ranks 3 (fun i => scatter (full_comm 3 i) (if decide (i = 1) then Some [10; 11; 20; 21; 30; 31] else None)
      [i; i] 1 Ret))
    (map (fun i => (slice (i * 2) 2 [10; 11; 20; 21; 30; 31], ROk tt)) (seq 0 3)).
Proof.
  apply (scatter_correct 3 1 2 (full_comm 3) [10; 11; 20; 21; 30; 31] (fun i => [i; i])).
  - lia.
  - lia.
  - lia.
  - intros i _. apply full_comm_ok.
  - done.
  - done.
Defined.
