(* ===== verification/AmNet.v ===== *)
(** * AmNet: ranks that receive through their routers

    In [Spmd] a receive takes its message from the network.  In the program the
    message is an active message: the sender encodes its header, the dispatcher of
    the receiver decodes it and delivers the bytes to the router, and the rank awaits
    a [RecvFuture] ([AmRouter]), sleeping until the router wakes it.  Here the ranks'
    programs run over routers, and the refinement theorem says that for programs
    that use each key once nothing changes: what every schedule of [Spmd] ends with,
    every schedule of these ranks ends with, without a lost wake-up, a panic or a
    message left over. *)

From S2P Require Import Prelude Future CollBase AmRouter Spmd.

Section amnet.
Context {A : Type} (debug : bool) (n : nat).
(** The bytes in the buffer a rank receives the message of a key into. *)
Context (target : nat -> RecvKey -> list Z).
Abbreviation P := (Prog RecvKey (list Z) A).

(** ** Ranks *)

(** [am_cell] numbers the next future; [am_runnable]: the rank's task is queued. *)
Record AmRank : Type := mkAmRank {
  am_prog : P;
  am_router : AmRouter;
  am_recv : option RecvFuture;
  am_cell : nat;
  am_runnable : bool
}.

(** The messages on their way, with their destinations. *)
Abbreviation AmWorld := (list AmRank * list (nat * AmMsg))%type.

Definition am_start (p : P) : AmRank := mkAmRank p AmRouter_new None 0 true.
Definition am_init (ps : list P) : AmWorld := (map am_start ps, []).

Definition header_of (k : RecvKey) : AmHeader := mkHeader (ksrc k) (kstep k) (kphase k) (kmicro k).
Definition msg_of (k : RecvKey) (d : list Z) : AmMsg := mkMsg (header_encode (header_of k)) (ROk d).
Definition am_waker (i : nat) : Waker := mkWaker i TaskQueue.

(** ** Steps *)

(** The task of rank [i] runs to its next send or poll. *)
Definition am_do (i : nat) (w : AmWorld) : option AmWorld :=
  r ← w.1 !! i;
  if negb (am_runnable r) then None
  else
    match am_prog r with
    | Ret _ => None
    | Send dst key d cont =>
        Some (<[i := mkAmRank (cont (ROk tt)) (am_router r) (am_recv r) (am_cell r) true]> w.1,
              w.2 ++ [(dst, msg_of key d)])
    | Recv key cont =>
        let '(router, f) := match am_recv r with
                            | Some f => (am_router r, f)
                            | None => RecvFuture_new key (am_cell r) (target i key) (am_router r)
                            end in
        match RecvFuture_poll debug (am_waker i) f router with
        | Panic _ => None
        | Ok (router, f, Pending) => Some (<[i := mkAmRank (am_prog r) router (Some f) (S (am_cell r)) false]> w.1, w.2)
        | Ok (router, f, Ready res) =>
            let res := match res with
                       | ROk _ => ROk (ctarget (cell_at (rf_cell f) router))
                       | RErr _ => RErr "recv"
                       end in
            Some (<[i := mkAmRank (cont res) (RecvFuture_drop f router) None (S (am_cell r)) true]> w.1, w.2)
        end
    end.

(** The dispatcher of its destination takes the [j]-th message. *)
Definition am_deliver (j : nat) (w : AmWorld) : option AmWorld :=
  '(dst, msg) ← w.2 !! j;
  r ← w.1 !! dst;
  let (router, ws) := dispatcher_loop [msg] (am_router r) in
  Some (<[dst := mkAmRank (am_prog r) router (am_recv r) (am_cell r)
                   (am_runnable r || bool_decide (am_waker dst ∈ ws))]> w.1, delete j w.2).

Inductive AmLabel : Type := ADo (i : nat) | ADeliver (j : nat).
Definition am_lstep (l : AmLabel) : AmWorld -> option AmWorld :=
  match l with ADo i => am_do i | ADeliver j => am_deliver j end.
Definition am_step (a a' : AmWorld) : Prop := exists l, am_lstep l a = Some a'.

(** Every execution is finite and ends with the results [fin], nothing on its way
    and nothing in the routers. *)
Record AmCompletes (ps : list P) (fin : list A) : Prop := {
  amc_bound : exists N, forall m a, nsteps am_step m (am_init ps) a -> m <= N;
  amc_done a : rtc am_step (am_init ps) a -> (forall a', ~ am_step a a') ->
    map am_prog a.1 = map Ret fin /\ a.2 = [] /\ Forall (fun r => slots (am_router r) = ∅) a.1
}.

(** ** Programs that use each key once *)

Definition key_ok (k : RecvKey) : Prop := in_u16 (ksrc k) /\ in_u16 (kstep k) /\ in_u8 (kphase k) /\ in_u8 (kmicro k).

(** [used]: the destinations and keys of the messages the rank has sent. *)
Fixpoint proper (i : nat) (used : gset (nat * RecvKey)) (p : P) : Prop :=
  match p with
  | Ret _ => True
  | Send dst key d cont =>
      key_src key = i /\ key_ok key /\ dst < n /\ length d = length (target dst key) /\ ((dst, key) ∉ used) /\
      proper i ({[(dst, key)]} ∪ used) (cont (ROk tt))
  | Recv key cont => forall d, length d = length (target i key) -> proper i used (cont (ROk d))
  end.

(** * Facts *)

(** ** Routers: the first poll of a receive, and a message *)

Lemma copy_all (d t : list Z) : length d = length t -> copy_bytes (length t) d t = d.
Proof.
  intros Hl. unfold copy_bytes, splice. rewrite Hl, Nat.min_id, <- Hl, firstn_all. cbn.
  by rewrite Hl, drop_all, app_nil_r.
Qed.

Lemma poll_early (ro : AmRouter) key c t b k : slots ro !! key = Some (SEarly b) -> length b = length t ->
  exists ro' f, RecvFuture_poll debug k (RecvFuture_new key c t ro).2 (RecvFuture_new key c t ro).1 = Ok (ro', f, Ready (ROk tt)) /\
    slots (RecvFuture_drop f ro') = delete key (slots ro) /\
    (forall c', c' <> c -> cells (RecvFuture_drop f ro') !! c' = cells ro !! c') /\ ctarget (cell_at (rf_cell f) ro') = b.
Proof.
  intros Hk Hl. unfold RecvFuture_poll, take_early, cell_at. cbn. rewrite !lookup_insert_eq. cbn. rewrite Hk. cbn.
  rewrite lookup_insert_eq. cbn. eexists _, _. split; [done|]. cbn. split; [done|]. split.
  - intros c' Hc'. by rewrite !lookup_insert_ne.
  - rewrite lookup_insert_eq. cbn. by apply copy_all.
Qed.

Lemma poll_posts (ro : AmRouter) key c t k : slots ro !! key = None ->
  RecvFuture_poll debug k (RecvFuture_new key c t ro).2 (RecvFuture_new key c t ro).1 =
    Ok (mkRouter (<[key := SPending (mkPending c (length t) (Some (clone_raw k)))]> (slots ro))
          (<[c := mkCell false t]> (cells ro)), mkRecv key c true (length t), Pending).
Proof.
  intros Hk. unfold RecvFuture_poll, take_early, register_pending, cell_at. cbn. rewrite lookup_insert_eq. cbn.
  rewrite Hk. cbn. rewrite Hk. done.
Qed.

(** ** The messages a network entry stands for *)

Definition on_wire (l : list (nat * RecvKey * list Z)) (dst : nat) (key : RecvKey) : list (list Z) :=
  (filter (fun m => m.1 = (dst, key)) l).*2.

Definition early (r : AmRank) (key : RecvKey) : list (list Z) :=
  match slots (am_router r) !! key with Some (SEarly b) => [b] | _ => [] end.
Definition arrived (r : AmRank) (key : RecvKey) : list (list Z) :=
  match am_recv r with
  | Some f => if decide (rf_key f = key) then
                let x := cell_at (rf_cell f) (am_router r) in if cdone x then [ctarget x] else []
              else []
  | None => []
  end.
Definition held (ranks : list AmRank) (l : list (nat * RecvKey * list Z)) (dst : nat) (key : RecvKey) : list (list Z) :=
  on_wire l dst key ++ match ranks !! dst with Some r => early r key ++ arrived r key | None => [] end.

(** Every slot but that of [except] holds an early message of the right length. *)
Definition early_slots (i : nat) (except : option RecvKey) (r : AmRank) : Prop :=
  forall k x, slots (am_router r) !! k = Some x -> Some k <> except ->
    exists b, x = SEarly b /\ length b = length (target i k).

(** A rank does not receive, waits asleep, or was woken and has its message. *)
Inductive RankOk (i : nat) (r : AmRank) : Prop :=
| ok_idle : am_recv r = None -> am_runnable r = true -> early_slots i None r -> RankOk i r
| ok_wait key cont c :
    am_prog r = Recv key cont -> am_recv r = Some (mkRecv key c true (length (target i key))) -> am_runnable r = false ->
    slots (am_router r) !! key = Some (SPending (mkPending c (length (target i key)) (Some (am_waker i)))) ->
    cells (am_router r) !! c = Some (mkCell false (target i key)) -> early_slots i (Some key) r -> RankOk i r
| ok_got key cont c d :
    am_prog r = Recv key cont -> am_recv r = Some (mkRecv key c true (length (target i key))) -> am_runnable r = true ->
    cells (am_router r) !! c = Some (mkCell true d) -> length d = length (target i key) ->
    early_slots i None r -> RankOk i r.

(** ** The simulation *)

Abbreviation SWorld := (list P * gmap (nat * RecvKey) (list (list Z)))%type.

Record Sim (a : AmWorld) (w : SWorld) (l : list (nat * RecvKey * list Z)) (used : nat -> gset (nat * RecvKey)) : Prop := {
  sim_progs : map am_prog a.1 = w.1;
  sim_len : length a.1 = n;
  sim_wire : a.2 = map (fun m => (m.1.1, msg_of m.1.2 m.2)) l;
  sim_msgs m : m ∈ l -> m.1.1 < n /\ key_ok m.1.2 /\ length m.2 = length (target m.1.1 m.1.2);
  sim_rank i r : a.1 !! i = Some r -> RankOk i r;
  sim_net dst key : dst < n -> held a.1 l dst key = default [] (w.2 !! (dst, key));
  sim_some x ds : w.2 !! x = Some ds -> x.1 < n /\ x ∈ used (key_src x.2) /\ length ds = 1;
  sim_used i p : w.1 !! i = Some p -> proper i (used i) p
}.

Implicit Types (a : AmWorld) (r : AmRank) (w : SWorld).

Lemma held_length a w l used dst key : Sim a w l used -> dst < n -> length (held a.1 l dst key) <= 1.
Proof.
  intros HS Hd. rewrite (sim_net _ _ _ _ HS dst key Hd). destruct (w.2 !! (dst, key)) as [ds|] eqn:Hk; cbn; [|lia].
  apply (sim_some _ _ _ _ HS) in Hk as (_ & _ & ->). done.
Qed.

(** Only the entries of the rank that changed can change. *)
Lemma held_insert ranks l l' i r r' dst key : ranks !! i = Some r -> on_wire l' dst key = on_wire l dst key ->
  (dst = i -> early r' key ++ arrived r' key = early r key ++ arrived r key) ->
  held (<[i := r']> ranks) l' dst key = held ranks l dst key.
Proof.
  intros Hi Hl Hr. unfold held. rewrite Hl. f_equal. destruct (decide (dst = i)) as [->|Hne].
  - rewrite list_lookup_insert_eq by (by eapply lookup_lt_Some). rewrite Hi. by apply Hr.
  - by rewrite list_lookup_insert_ne.
Qed.

Lemma held_at ranks l i r key : ranks !! i = Some r -> held ranks l i key = on_wire l i key ++ early r key ++ arrived r key.
Proof. intros Hi. unfold held. by rewrite Hi. Qed.

Lemma held_insert_at ranks l i r r' key : ranks !! i = Some r ->
  held (<[i := r']> ranks) l i key = on_wire l i key ++ early r' key ++ arrived r' key.
Proof. intros Hi. apply held_at. apply list_lookup_insert_eq. by eapply lookup_lt_Some. Qed.

Lemma on_wire_snoc l m dst key :
  on_wire (l ++ [m]) dst key = on_wire l dst key ++ (if decide (m.1 = (dst, key)) then [m.2] else []).
Proof.
  unfold on_wire. rewrite filter_app, fmap_app. f_equal. rewrite filter_cons. by case_decide.
Qed.

Lemma on_wire_delete l j m : l !! j = Some m ->
  (on_wire l m.1.1 m.1.2 ≡ₚ m.2 :: on_wire (delete j l) m.1.1 m.1.2) /\
  (forall dst key, (dst, key) <> m.1 -> on_wire (delete j l) dst key = on_wire l dst key).
Proof.
  intros Hj. rewrite delete_take_drop. rewrite <- (take_drop_middle l j m Hj) at 1. unfold on_wire. split.
  - rewrite !filter_app, filter_cons. rewrite decide_True by by destruct m as [[] ]. rewrite !fmap_app. cbn.
    by rewrite Permutation_middle.
  - intros dst key Hne. rewrite <- (take_drop_middle l j m Hj) at 3. rewrite !filter_app, filter_cons.
    rewrite decide_False by done. done.
Qed.

Lemma dispatch_one key d (ro : AmRouter) : key_ok key ->
  dispatcher_loop [msg_of key d] ro = ((deliver key d ro).1, option_list (deliver key d ro).2).
Proof.
  intros (K1 & K2 & K3 & K4). cbn [dispatcher_loop msg_of mheader mdata].
  rewrite header_decode_encode by done.
  replace (key_of (header_of key)) with key by by destruct key.
  destruct (deliver key d ro) as [ro' o]. cbn. by rewrite app_nil_r.
Qed.

(** ** How a step shows in the relation *)

Lemma sim_bound a w l used i r : Sim a w l used -> a.1 !! i = Some r -> i < n.
Proof. intros HS Hi. rewrite <- (sim_len _ _ _ _ HS). by eapply lookup_lt_Some. Qed.

Lemma sim_prog a w l used i r : Sim a w l used -> a.1 !! i = Some r -> w.1 !! i = Some (am_prog r).
Proof. intros HS Hi. rewrite <- (sim_progs _ _ _ _ HS), list_lookup_fmap, Hi. done. Qed.

Lemma map_prog_insert (ranks : list AmRank) i r' : map am_prog (<[i := r']> ranks) = <[i := am_prog r']> (map am_prog ranks).
Proof. apply (list_fmap_insert am_prog). Qed.

Lemma rank_ok_insert (ranks : list AmRank) i r' : (forall j r, ranks !! j = Some r -> RankOk j r) -> RankOk i r' ->
  forall j r, <[i := r']> ranks !! j = Some r -> RankOk j r.
Proof. intros Hr Hr' j r [(-> & -> & _)|[_ Hj]]%list_lookup_insert_Some; [done|by apply Hr]. Qed.

Abbreviation wire_of l := (map (fun m => (m.1.1, msg_of m.1.2 m.2)) l : list (nat * AmMsg)).

(** The rank does not move. *)
Lemma sim_stutter a w l used i r r' l' : Sim a w l used -> a.1 !! i = Some r -> am_prog r' = am_prog r -> RankOk i r' ->
  (forall m, m ∈ l' -> m ∈ l) ->
  (forall dst key, dst < n -> held (<[i := r']> a.1) l' dst key = held a.1 l dst key) ->
  Sim (<[i := r']> a.1, wire_of l') w l' used.
Proof.
  intros HS Hi Hp Hr Hl Hh. destruct HS as [S1 S2 S3 S4 S5 S6 S7 S8]. split; cbn; try done.
  - rewrite map_prog_insert, S1, Hp. apply list_insert_id. rewrite <- S1, list_lookup_fmap, Hi. done.
  - by rewrite length_insert.
  - intros m Hm. by apply S4, Hl.
  - by apply rank_ok_insert.
  - intros dst key Hd. by rewrite Hh, S6.
Qed.

(** The rank takes the message held for it. *)
Lemma sim_recv a w l used i r r' key cont d : Sim a w l used -> a.1 !! i = Some r ->
  am_prog r = Recv key cont -> am_prog r' = cont (ROk d) -> RankOk i r' -> length d = length (target i key) ->
  held a.1 l i key = [d] -> held (<[i := r']> a.1) l i key = [] ->
  (forall dst key', dst < n -> (dst, key') <> (i, key) -> held (<[i := r']> a.1) l dst key' = held a.1 l dst key') ->
  exists w', spmd_step w w' /\ Sim (<[i := r']> a.1, a.2) w' l used.
Proof.
  intros HS Hi Hp Hp' Hr Hd Hh Hh' Ho. assert (Hw := sim_prog _ _ _ _ _ _ HS Hi). rewrite Hp in Hw.
  assert (Hlt := sim_bound _ _ _ _ _ _ HS Hi). destruct HS as [S1 S2 S3 S4 S5 S6 S7 S8].
  assert (Hnet : w.2 !! (i, key) = Some [d]).
  { rewrite S6 in Hh by done. destruct (w.2 !! (i, key)) as [ds|]; [|done]. cbn in Hh. by rewrite Hh. }
  exists (<[i := cont (ROk d)]> w.1, delete (i, key) w.2). split.
  { exists i. unfold rank_step, net_recv. by rewrite Hw, Hnet. }
  split; cbn; try done.
  - by rewrite map_prog_insert, S1, Hp'.
  - by rewrite length_insert.
  - by apply rank_ok_insert.
  - intros dst key' Hdst. destruct (decide ((dst, key') = (i, key))) as [[= -> ->]|Hne].
    + by rewrite Hh', lookup_delete_eq.
    + rewrite lookup_delete_ne by done. by rewrite Ho, S6.
  - intros x ds [Hne Hx]%lookup_delete_Some. by apply S7.
  - intros j p [(-> & <- & _)|[_ Hj]]%list_lookup_insert_Some; [|by apply S8].
    specialize (S8 _ _ Hw). cbn in S8. by apply S8.
Qed.

(** The rank sends. *)
Lemma sim_send a w l used i r r' dst key d cont : Sim a w l used -> a.1 !! i = Some r ->
  am_prog r = Send dst key d cont -> am_prog r' = cont (ROk tt) -> RankOk i r' ->
  (forall k, early r' k ++ arrived r' k = early r k ++ arrived r k) ->
  exists w' used', spmd_step w w' /\
    Sim (<[i := r']> a.1, a.2 ++ [(dst, msg_of key d)]) w' (l ++ [(dst, key, d)]) used'.
Proof.
  intros HS Hi Hp Hp' Hr He. assert (Hw := sim_prog _ _ _ _ _ _ HS Hi). rewrite Hp in Hw.
  destruct HS as [S1 S2 S3 S4 S5 S6 S7 S8]. assert (HP := S8 _ _ Hw). cbn in HP.
  destruct HP as (P1 & P2 & P3 & P4 & P5 & P6).
  assert (Hnone : w.2 !! (dst, key) = None).
  { destruct (w.2 !! (dst, key)) as [ds|] eqn:Hk; [|done]. apply S7 in Hk as (_ & Hk & _). cbn in Hk. rewrite P1 in Hk. done. }
  exists (<[i := cont (ROk tt)]> w.1, net_send dst key d w.2),
    (fun j => if decide (j = i) then {[(dst, key)]} ∪ used i else used j). split.
  { exists i. unfold rank_step. by rewrite Hw. }
  unfold net_send. rewrite Hnone. cbn. split; cbn.
  - by rewrite map_prog_insert, S1, Hp'.
  - by rewrite length_insert.
  - by rewrite S3, map_app.
  - intros m [Hm| ->%list_elem_of_singleton]%elem_of_app; [by apply S4|done].
  - by apply rank_ok_insert.
  - intros dst' key' Hd. assert (Hold := S6 dst' key' Hd).
    assert (Hheld : held (<[i := r']> a.1) (l ++ [(dst, key, d)]) dst' key' =
      on_wire l dst' key' ++ (if decide ((dst, key) = (dst', key')) then [d] else []) ++
        match a.1 !! dst' with Some r0 => early r0 key' ++ arrived r0 key' | None => [] end).
    { unfold held. rewrite on_wire_snoc, <- app_assoc. do 2 f_equal. destruct (decide (dst' = i)) as [->|Hne].
      - rewrite list_lookup_insert_eq by (by eapply lookup_lt_Some). by rewrite Hi, He.
      - by rewrite list_lookup_insert_ne. }
    rewrite Hheld. unfold held in Hold. case_decide as Hk.
    + injection Hk as <- <-. rewrite lookup_insert_eq, Hnone in *. cbn in *.
      apply app_eq_nil in Hold as [-> ->]. done.
    + rewrite lookup_insert_ne by done. by rewrite <- Hold.
  - intros x ds. rewrite lookup_insert. case_decide as Hx.
    + intros [= <-]. subst x. cbn. rewrite P1, decide_True by done. set_solver.
    + intros Hs. destruct (S7 _ _ Hs) as (? & ? & ?). split; [done|]. split; [|done]. case_decide as Hj; [|done].
      rewrite <- Hj. set_solver.
  - intros j p [(-> & <- & _)|[Hne Hj]]%list_lookup_insert_Some.
    + by rewrite decide_True.
    + rewrite decide_False by done. by apply S8.
Qed.

(** ** Each step *)

(** Twice the messages on their way, plus the ranks that can run. *)
Definition runnable_count (ranks : list AmRank) : nat := list_sum (map (fun r => Nat.b2n (am_runnable r)) ranks).
Definition potential a : nat := 2 * length a.2 + runnable_count a.1.

Lemma runnable_insert (ranks : list AmRank) i r r' : ranks !! i = Some r ->
  runnable_count (<[i := r']> ranks) + Nat.b2n (am_runnable r) = runnable_count ranks + Nat.b2n (am_runnable r').
Proof.
  intros Hi. unfold runnable_count. rewrite insert_take_drop by (by eapply lookup_lt_Some).
  rewrite <- (take_drop_middle ranks i r Hi) at 3. rewrite !map_app, !list_sum_app. cbn. lia.
Qed.

(** What a step of the ranks is in the network: a step, or nothing and progress of
    its own. *)
Definition simulated a a' w : Prop := exists w' l' used',
  Sim a' w' l' used' /\ ((spmd_step w w' /\ potential a' <= potential a + 2) \/ (w' = w /\ potential a' < potential a)).

(** A rank that has its message and takes it. *)
Lemma sim_take a w l used i r key cont d ro c : Sim a w l used -> a.1 !! i = Some r ->
  am_prog r = Recv key cont -> am_runnable r = true -> length d = length (target i key) ->
  early r key ++ arrived r key = [d] ->
  (forall k x, slots ro !! k = Some x -> exists b, x = SEarly b /\ length b = length (target i k)) ->
  (forall k, k <> key -> arrived r k = []) ->
  (forall k, early (mkAmRank (cont (ROk d)) ro None c true) k = if decide (k = key) then [] else early r k) ->
  simulated a (<[i := mkAmRank (cont (ROk d)) ro None c true]> a.1, a.2) w.
Proof.
  intros HS Hi Hp Hrun Hd Hhas Hs Ha He. set (r' := mkAmRank _ _ _ _ _) in *.
  assert (Hlt := sim_bound _ _ _ _ _ _ HS Hi). assert (Hlen := held_length _ _ _ _ i key HS Hlt).
  rewrite (held_at _ _ _ _ _ Hi), Hhas in Hlen.
  assert (Hw : on_wire l i key = []) by (destruct (on_wire l i key); [done|rewrite length_app in Hlen; cbn in Hlen; lia]).
  destruct (sim_recv a w l used i r r' key cont d HS Hi Hp eq_refl) as (w' & Hst & HS').
  - apply ok_idle; [done|done|]. intros k x Hk _. by apply Hs.
  - done.
  - by rewrite (held_at _ _ _ _ _ Hi), Hhas, Hw.
  - rewrite (held_insert_at _ _ _ r) by done. rewrite Hw, He, decide_True by done. done.
  - intros dst k Hdst Hne. apply (held_insert _ _ _ _ r); [done|done|]. intros ->.
    rewrite He, decide_False by congruence. rewrite Ha by congruence. done.
  - exists w', l, used. split; [done|]. left. split; [done|]. unfold potential. cbn [fst snd].
    assert (Hc := runnable_insert _ _ _ r' Hi). cbn in Hc. rewrite Hrun in Hc. cbn in Hc. lia.
Qed.

(** A rank that posts its receive and sleeps. *)
Lemma sim_post a w l used i r key cont : Sim a w l used -> a.1 !! i = Some r -> am_prog r = Recv key cont ->
  am_recv r = None -> am_runnable r = true -> early_slots i None r -> slots (am_router r) !! key = None ->
  simulated a (<[i := mkAmRank (am_prog r)
      (mkRouter (<[key := SPending (mkPending (am_cell r) (length (target i key)) (Some (am_waker i)))]> (slots (am_router r)))
         (<[am_cell r := mkCell false (target i key)]> (cells (am_router r))))
      (Some (mkRecv key (am_cell r) true (length (target i key)))) (S (am_cell r)) false]> a.1, a.2) w.
Proof.
  intros HS Hi Hp Hn Hrun He Hk. set (r' := mkAmRank _ _ _ _ _).
  assert (Hsame : forall k, early r' k ++ arrived r' k = early r k ++ arrived r k).
  { intros k. unfold early, arrived, r'. cbn. rewrite Hn. unfold cell_at. cbn. rewrite lookup_insert_eq.
    rewrite lookup_insert. case_decide as Hkk; [subst; by rewrite Hk|]. done. }
  exists w, l, used. split.
  - rewrite (sim_wire _ _ _ _ HS). apply (sim_stutter a w l used i r); try done.
    + apply (ok_wait i r' key cont (am_cell r)); try done; cbn; [apply lookup_insert_eq|apply lookup_insert_eq|].
      intros k x Hx Hne. cbn in Hx. rewrite lookup_insert_ne in Hx by congruence. by eapply He.
    + intros dst k Hd. by apply (held_insert _ _ _ _ r).
  - right. split; [done|]. unfold potential. cbn [fst snd]. assert (Hc := runnable_insert _ _ _ r' Hi).
    rewrite Hrun in Hc. cbn in Hc. lia.
Qed.

Lemma do_simulated a a' w l used i : Sim a w l used -> am_do i a = Some a' -> simulated a a' w.
Proof.
  intros HS Hdo. unfold am_do in Hdo. destruct (a.1 !! i) as [r|] eqn:Hi; [|done]. cbn [mbind option_bind] in Hdo.
  destruct (am_runnable r) eqn:Hrun; [|done]. cbn [negb] in Hdo.
  destruct (am_prog r) as [x|dst key d cont|key cont] eqn:Hp; [done| |].
  - injection Hdo as <-. destruct (sim_rank _ _ _ _ HS _ _ Hi) as [Hn Hr He|? ? ? Hp' ? ?|? ? ? ? Hp']; [|congruence..].
    set (r' := mkAmRank _ _ _ _ _).
    destruct (sim_send a w l used i r r' dst key d cont HS Hi Hp eq_refl) as (w' & used' & Hst & HS').
    + by apply ok_idle.
    + done.
    + exists w', (l ++ [(dst, key, d)]), used'. split; [done|]. left. split; [done|]. unfold potential. cbn [fst snd].
      rewrite length_app. cbn [length]. assert (Hc := runnable_insert _ _ _ r' Hi). cbn in Hc. rewrite Hrun in Hc. cbn in Hc. lia.
  - destruct (sim_rank _ _ _ _ HS _ _ Hi) as [Hn Hr He|? ? ? ? ? ? |key' cont' c d Hp' Hf Hr Hc Hd He]; [|congruence|].
    + rewrite Hn in Hdo. rewrite (surjective_pairing (RecvFuture_new _ _ _ _)) in Hdo. assert (Hlt := sim_bound _ _ _ _ _ _ HS Hi).
      destruct (slots (am_router r) !! key) as [x|] eqn:Hk.
      * destruct (He _ _ Hk) as (b & -> & Hb); [done|].
        destruct (poll_early (am_router r) key (am_cell r) (target i key) b (am_waker i) Hk Hb) as (ro & f & Hpoll & Hsl & _ & Hct).
        rewrite Hpoll in Hdo. injection Hdo as <-. rewrite Hct.
        apply (sim_take a w l used i r key cont b _ _ HS Hi Hp Hrun Hb).
        -- unfold early, arrived. by rewrite Hk, Hn.
        -- intros k x. rewrite Hsl. intros [_ Hx]%lookup_delete_Some. by eapply He.
        -- intros k _. unfold arrived. by rewrite Hn.
        -- intros k. unfold early. cbn [am_router]. rewrite Hsl. case_decide as Hkk; [subst; by rewrite lookup_delete_eq|].
           by rewrite lookup_delete_ne.
      * rewrite poll_posts in Hdo by done. injection Hdo as <-. cbn [length]. rewrite <- Hp. by eapply sim_post.
    + rewrite Hp in Hp'. injection Hp' as <- <-. rewrite Hf in Hdo. unfold RecvFuture_poll, cell_at in Hdo. cbn [rf_cell] in Hdo.
      rewrite Hc in Hdo. cbn in Hdo. unfold RecvFuture_drop, cell_at in Hdo. cbn in Hdo. rewrite Hc in Hdo. cbn in Hdo.
      injection Hdo as <-.
      assert (Har : arrived r key = [d]) by (unfold arrived, cell_at; rewrite Hf; cbn; rewrite decide_True, Hc by done; done).
      assert (Hlt := sim_bound _ _ _ _ _ _ HS Hi). assert (Hlen := held_length _ _ _ _ i key HS Hlt).
      rewrite (held_at _ _ _ _ _ Hi), Har in Hlen. rewrite !length_app in Hlen. cbn in Hlen.
      assert (Hea : early r key = []) by (destruct (early r key); [done|cbn in Hlen; lia]).
      apply (sim_take a w l used i r key cont d _ _ HS Hi Hp Hrun Hd).
      * by rewrite Hea, Har.
      * intros k x Hx. by eapply He.
      * intros k Hk. unfold arrived. rewrite Hf. cbn. by rewrite decide_False.
      * intros k. unfold early. cbn. case_decide as Hk; [|done]. subst. exact Hea.
Qed.

(** A message for a key that the rank does not wait for is kept. *)
Lemma deliver_keeps (ro : AmRouter) key d : slots ro !! key = None ->
  deliver key d ro = (mkRouter (<[key := SEarly d]> (slots ro)) (cells ro), None).
Proof. intros Hk. unfold deliver. rewrite Hk. cbn. by rewrite delete_id. Qed.

Lemma deliver_meets (ro : AmRouter) key c len t k d :
  slots ro !! key = Some (SPending (mkPending c len (Some k))) -> cells ro !! c = Some (mkCell false t) ->
  deliver key d ro = (mkRouter (delete key (slots ro)) (<[c := mkCell true (copy_bytes len d t)]> (cells ro)), Some k).
Proof. intros Hk Hc. unfold deliver. rewrite Hk. cbn. unfold cell_at. cbn. by rewrite Hc. Qed.

Lemma early_slots_insert i r r' ex key d : early_slots i ex r -> length d = length (target i key) ->
  slots (am_router r') = <[key := SEarly d]> (slots (am_router r)) -> early_slots i ex r'.
Proof.
  intros He Hd Hs k x. rewrite Hs, lookup_insert. case_decide as Hk; [|by apply He].
  intros [= <-] _. subst. by exists d.
Qed.

(** What the destination is afterwards: as before with the message kept, or awake
    with the message. *)
Lemma deliver_rank i r key d ro o : RankOk i r -> length d = length (target i key) ->
  early r key ++ arrived r key = [] -> deliver key d (am_router r) = (ro, o) ->
  let r' := mkAmRank (am_prog r) ro (am_recv r) (am_cell r) (am_runnable r || bool_decide (am_waker i ∈ option_list o)) in
  RankOk i r' /\ early r' key ++ arrived r' key = [d] /\
  forall k, k <> key -> early r' k ++ arrived r' k = early r k ++ arrived r k.
Proof.
  intros Hr Hd Hno Hdl. apply app_eq_nil in Hno as [Hne Hna].
  assert (Hkeep : slots (am_router r) !! key = None -> am_recv r = None \/ am_runnable r = true \/
      (exists f, am_recv r = Some f /\ rf_key f <> key) ->
    ro = mkRouter (<[key := SEarly d]> (slots (am_router r))) (cells (am_router r)) /\ o = None /\
    forall b, let r' := mkAmRank (am_prog r) ro (am_recv r) (am_cell r) b in
      early r' key ++ arrived r' key = [d] /\
      forall k, k <> key -> early r' k ++ arrived r' k = early r k ++ arrived r k).
  { intros Hs _. rewrite (deliver_keeps _ _ _ Hs) in Hdl. injection Hdl as <- <-. split; [done|]. split; [done|].
    intros b. cbn zeta. unfold early, arrived in *. cbn. rewrite lookup_insert_eq. split.
    - unfold cell_at in *. cbn in *. by rewrite Hna.
    - intros k Hk. by rewrite lookup_insert_ne. }
  destruct Hr as [Hn Hrun He|key' cont c Hp Hf Hrun Hs Hc He|key' cont c d' Hp Hf Hrun Hc Hl He].
  - assert (Hsn : slots (am_router r) !! key = None).
    { destruct (slots (am_router r) !! key) as [x|] eqn:Hs; [|done]. destruct (He _ _ Hs) as (b & -> & _); [done|].
      unfold early in Hne. by rewrite Hs in Hne. }
    destruct (Hkeep Hsn (or_introl Hn)) as (-> & -> & Hh). rewrite Hrun. cbn [orb]. split; [|apply Hh].
    apply ok_idle; [done|done|]. by eapply (early_slots_insert i r).
  - destruct (decide (key' = key)) as [->|Hkk].
    + rewrite (deliver_meets _ _ _ _ _ _ _ Hs Hc) in Hdl. injection Hdl as <- <-.
      rewrite (copy_all d) by done. split; [|split].
      * apply (ok_got i _ key cont c d); try done; cbn; [rewrite bool_decide_true by (by left); apply orb_true_r|apply lookup_insert_eq|].
        intros k x Hx _. cbn in Hx. apply lookup_delete_Some in Hx as [Hkk Hx]. apply (He k x Hx). congruence.
      * unfold early, arrived, cell_at. cbn. rewrite Hf. cbn. by rewrite lookup_delete_eq, decide_True, lookup_insert_eq.
      * intros k Hk. unfold early, arrived, cell_at. cbn. rewrite Hf. cbn. rewrite lookup_delete_ne by done.
        by rewrite !(decide_False (P := key = k)) by done.
    + assert (Hsn : slots (am_router r) !! key = None).
      { destruct (slots (am_router r) !! key) as [x|] eqn:Hsk; [|done]. destruct (He _ _ Hsk) as (b & -> & _); [congruence|].
        unfold early in Hne. by rewrite Hsk in Hne. }
      destruct (Hkeep Hsn) as (-> & -> & Hh); [right; right; by eexists|]. rewrite Hrun. cbn. split; [|apply Hh].
      apply (ok_wait i _ key' cont c); try done; cbn; [by rewrite lookup_insert_ne|]. by eapply (early_slots_insert i r).
  - assert (Hsn : slots (am_router r) !! key = None).
    { destruct (slots (am_router r) !! key) as [x|] eqn:Hs; [|done]. destruct (He _ _ Hs) as (b & -> & _); [done|].
      unfold early in Hne. by rewrite Hs in Hne. }
    destruct (Hkeep Hsn) as (-> & -> & Hh); [by right; left|]. rewrite Hrun. cbn [orb]. split; [|apply Hh].
    apply (ok_got i _ key' cont c d'); try done. by eapply (early_slots_insert i r).
Qed.

Lemma deliver_simulated a a' w l used j : Sim a w l used -> am_deliver j a = Some a' -> simulated a a' w.
Proof.
  intros HS Hdo. unfold am_deliver in Hdo. rewrite (sim_wire _ _ _ _ HS), list_lookup_fmap in Hdo.
  destruct (l !! j) as [[[dst key] d]|] eqn:Hj; [|done]. cbn [fmap option_fmap option_map mbind option_bind fst snd] in Hdo.
  destruct (a.1 !! dst) as [r|] eqn:Hi; [|done]. cbn [mbind option_bind] in Hdo.
  destruct (sim_msgs _ _ _ _ HS _ (list_elem_of_lookup_2 _ _ _ Hj)) as (Hlt & Hkey & Hlen). cbn in Hlt, Hkey, Hlen.
  rewrite dispatch_one in Hdo by done. destruct (deliver key d (am_router r)) as [ro o] eqn:Hdl. injection Hdo as <-. cbn [fst snd].
  destruct (on_wire_delete l j _ Hj) as [Hw Hwo]. cbn in Hw.
  assert (Hle := held_length _ _ _ _ dst key HS Hlt). rewrite (held_at _ _ _ _ _ Hi), length_app, Hw in Hle. cbn in Hle.
  assert (Hno : early r key ++ arrived r key = []) by (destruct (early r key ++ arrived r key); [done|cbn in Hle; lia]).
  assert (Hwl : on_wire (delete j l) dst key = []) by (destruct (on_wire (delete j l) dst key); [done|cbn in Hle; lia]).
  assert (Hwd : on_wire l dst key = [d]) by (rewrite Hwl in Hw; by apply Permutation_singleton_r in Hw).
  destruct (deliver_rank dst r key d ro o (sim_rank _ _ _ _ HS _ _ Hi) Hlen Hno Hdl) as (Hr' & He' & Hk').
  set (r' := mkAmRank _ _ _ _ _) in *. exists w, (delete j l), used.
  assert (Hwire : delete j (wire_of l) = wire_of (delete j l)) by (symmetry; apply list_fmap_delete). split.
  - rewrite Hwire. apply (sim_stutter a w l used dst r); try done.
    + intros m. apply list_elem_of_delete_inv.
    + intros dst' key' Hd'. destruct (decide ((dst', key') = (dst, key))) as [[= -> ->]|Hne].
      * by rewrite (held_insert_at _ _ _ _ _ _ Hi), (held_at _ _ _ _ _ Hi), Hwl, Hwd, He', Hno.
      * apply (held_insert _ _ _ _ r); [done|by apply Hwo|]. intros ->. apply Hk'. congruence.
  - right. split; [done|]. unfold potential. cbn [fst snd]. rewrite (sim_wire _ _ _ _ HS).
    rewrite Hwire, !length_map, length_delete by by eexists.
    assert (Hc := runnable_insert _ _ _ r' Hi). assert (Hb1 : Nat.b2n (am_runnable r') <= 1) by (destruct (am_runnable r'); cbn; lia).
    assert (Hl0 : 0 < length l) by (apply lookup_lt_Some in Hj; lia). clear -Hc Hb1 Hl0. lia.
Qed.

Lemma step_simulated a a' w l used : Sim a w l used -> am_step a a' -> simulated a a' w.
Proof. intros HS [[i|j] Hl]; [by eapply do_simulated|by eapply deliver_simulated]. Qed.

(** ** Whole runs *)

Lemma sim_init ps : length ps = n -> (forall i p, ps !! i = Some p -> proper i ∅ p) ->
  Sim (am_init ps) (ps, ∅) [] (fun _ => ∅).
Proof.
  intros Hl Hp. unfold am_init. split; cbn.
  - rewrite map_map. apply map_id.
  - by rewrite length_map.
  - done.
  - by intros m ?%elem_of_nil.
  - intros i r Hi. apply list_lookup_fmap_Some in Hi as (p & -> & _). by apply ok_idle.
  - intros dst key _. unfold held, on_wire. cbn. rewrite list_lookup_fmap, lookup_empty. by destruct (ps !! dst).
  - intros x ds Hx. by rewrite lookup_empty in Hx.
  - intros i p Hi. by apply Hp.
Qed.

Lemma run_simulated m a a0 w0 l0 used0 : Sim a0 w0 l0 used0 -> nsteps am_step m a0 a ->
  exists k w l used, Sim a w l used /\ nsteps spmd_step k w0 w /\ m + potential a <= 3 * k + potential a0.
Proof.
  intros HS Hm. revert w0 l0 used0 HS. induction Hm as [a|m a a1 a2 Hs _ IH]; intros w0 l0 used0 HS.
  - exists 0, w0, l0, used0. split; [done|]. split; [constructor|lia].
  - destruct (step_simulated _ _ _ _ _ HS Hs) as (w1 & l1 & used1 & HS1 & Hcase).
    destruct (IH _ _ _ HS1) as (k & w & l & used & HS2 & Hk & Hpot).
    destruct Hcase as [[Hst Hp]|[-> Hp]].
    + exists (S k), w, l, used. split; [done|]. split; [by eapply nsteps_l|lia].
    + exists k, w, l, used. split; [done|]. split; [done|lia].
Qed.

Lemma can_do a w l used i r : Sim a w l used -> a.1 !! i = Some r -> am_runnable r = true ->
  (forall x, am_prog r <> Ret x) -> exists a', am_do i a = Some a'.
Proof.
  intros HS Hi Hrun Hne. unfold am_do. rewrite Hi. cbn [mbind option_bind]. rewrite Hrun. cbn [negb].
  destruct (am_prog r) as [x|dst key d cont|key cont] eqn:Hp; [by destruct (Hne x)|by eexists|].
  destruct (sim_rank _ _ _ _ HS _ _ Hi) as [Hn _ He|? ? ? ? ? ? |key' cont' c d Hp' Hf Hr Hc Hd He]; [|congruence|].
  - rewrite Hn, (surjective_pairing (RecvFuture_new _ _ _ _)). destruct (slots (am_router r) !! key) as [x|] eqn:Hk.
    + destruct (He _ _ Hk) as (b & -> & Hb); [done|].
      destruct (poll_early (am_router r) key (am_cell r) (target i key) b (am_waker i) Hk Hb) as (ro & f & -> & _). by eexists.
    + rewrite poll_posts by done. by eexists.
  - rewrite Hf. unfold RecvFuture_poll, cell_at. cbn [rf_cell]. rewrite Hc. cbn. by eexists.
Qed.

Lemma stuck_wire a w l used : Sim a w l used -> (forall a', ~ am_step a a') -> l = [].
Proof.
  intros HS Hst. destruct l as [|[[dst key] d] l]; [done|exfalso].
  destruct (sim_msgs _ _ _ _ HS (dst, key, d)) as (Hlt & Hkey & _); [by left|]. cbn in Hlt, Hkey.
  rewrite <- (sim_len _ _ _ _ HS) in Hlt. apply lookup_lt_is_Some in Hlt as [r Hr].
  destruct (am_deliver 0 a) as [a'|] eqn:Hd; [by apply (Hst a'); exists (ADeliver 0)|].
  unfold am_deliver in Hd. rewrite (sim_wire _ _ _ _ HS) in Hd. cbn [map lookup list_lookup mbind option_bind fst snd] in Hd.
  rewrite Hr in Hd. cbn [mbind option_bind] in Hd. by rewrite dispatch_one in Hd.
Qed.

(** Ranks that are stuck are stuck in the network. *)
Lemma stuck_simulated a w l used : Sim a w l used -> (forall a', ~ am_step a a') -> forall w', ~ spmd_step w w'.
Proof.
  intros HS Hst w' [i Hs]. assert (Hl := stuck_wire _ _ _ _ HS Hst). subst l. unfold rank_step in Hs.
  destruct (w.1 !! i) as [p|] eqn:Hp; [|done]. assert (Hp' := Hp). rewrite <- (sim_progs _ _ _ _ HS) in Hp'.
  apply list_lookup_fmap_Some in Hp' as (r & Hpr & Hr).
  assert (Hsleep : am_runnable r = false).
  { destruct (am_runnable r) eqn:Hrun; [|done]. destruct (can_do _ _ _ _ _ _ HS Hr Hrun) as [a' Ha'].
    - intros x Hx. rewrite Hpr, Hx in Hs. done.
    - exfalso. apply (Hst a'). by exists (ADo i). }
  assert (Hlt := sim_bound _ _ _ _ _ _ HS Hr).
  destruct (sim_rank _ _ _ _ HS _ _ Hr) as [? ? ?|key cont c Hp' Hf _ Hsl Hc He|? ? ? ? ? ? ?]; [congruence| |congruence].
  rewrite Hp' in Hpr. subst p. unfold net_recv in Hs.
  assert (Hn := sim_net _ _ _ _ HS i key Hlt). rewrite (held_at _ _ _ _ _ Hr) in Hn. unfold early, arrived, cell_at in Hn.
  rewrite Hsl, Hf in Hn. cbn in Hn. rewrite decide_True, Hc in Hn by done. cbn in Hn.
  destruct (w.2 !! (i, key)) as [[|]|]; done.
Qed.

Lemma refines ps fin : length ps = n -> (forall i p, ps !! i = Some p -> proper i ∅ p) ->
  Completes ps fin -> AmCompletes ps fin.
Proof.
  intros Hlen Hp [[N HN] HD]. assert (HS := sim_init ps Hlen Hp). split.
  - exists (3 * N + potential (am_init ps)). intros m a Hm.
    destruct (run_simulated _ _ _ _ _ _ HS Hm) as (k & w & l & used & _ & Hk & Hpot). apply HN in Hk. lia.
  - intros a Hr Hst. apply rtc_nsteps in Hr as [m Hm].
    destruct (run_simulated _ _ _ _ _ _ HS Hm) as (k & w & l & used & HS' & Hk & _).
    assert (Hw : w = (Ret <$> fin, ∅)) by (apply HD; [by eapply rtc_nsteps_2|by eapply stuck_simulated]).
    assert (Hl := stuck_wire _ _ _ _ HS' Hst). subst w l. split; [|split].
    + exact (sim_progs _ _ _ _ HS').
    + exact (sim_wire _ _ _ _ HS').
    + apply Forall_lookup. intros i r Hi. assert (Hlt := sim_bound _ _ _ _ _ _ HS' Hi). apply map_empty. intros key.
      assert (Hpr := sim_prog _ _ _ _ _ _ HS' Hi). cbn in Hpr. apply list_lookup_fmap_Some in Hpr as (x & Hx & _).
      destruct (sim_rank _ _ _ _ HS' _ _ Hi) as [Hn _ He|? ? ? ? ? ?|? ? ? ? ? ? ?]; [|congruence..].
      destruct (slots (am_router r) !! key) as [y|] eqn:Hsl; [|done]. destruct (He _ _ Hsl) as (b & -> & _); [done|].
      assert (Hnet := sim_net _ _ _ _ HS' i key Hlt). cbn [snd] in Hnet. rewrite lookup_empty, (held_at _ _ _ _ _ Hi) in Hnet.
      unfold early in Hnet. rewrite Hsl in Hnet. by apply app_eq_nil in Hnet as [_ [=]].
Qed.
End amnet.
Arguments AmRank : clear implicits.

(** C19. Routers refine the network.  For programs that use each key once and send
    messages of the length the receiver has room for, whatever every schedule of the
    abstract network ends with, every schedule of ranks with routers ends with: the
    schedule may delay and reorder messages and run dispatchers at any time.  Each
    execution is finite; when nothing can move any more all ranks have returned, so no
    wake-up is lost and no poll panicked; and no message is left on its way or in a
    router. *)
Theorem router_refines_network {A} debug n target (ps : list (Prog RecvKey (list Z) A)) fin :
  length ps = n -> (forall i p, ps !! i = Some p -> proper n target i ∅ p) ->
  Completes ps fin -> AmCompletes debug target ps fin.
Proof. apply refines. Qed.

(** Two ranks that exchange a message. *)
Definition swap_key (i : nat) : RecvKey := mkKey (Z.of_nat i) 0 0 0.
Definition swap_prog (i : nat) : Prog RecvKey (list Z) (result (list Z) string) :=
  Send (1 - i) (swap_key i) [Z.of_nat i] (fun _ => Recv (swap_key (1 - i)) Ret).

Lemma swap_completes : Completes [swap_prog 0; swap_prog 1] [ROk [1%Z]; ROk [0%Z]].
Proof.
  apply (completes_any key_src).
  - intros [|[|i]] p [= <-]; cbn; by repeat split.
  - eapply rtc_l; [by exists 0|]. eapply rtc_l; [by exists 1|]. eapply rtc_l; [by exists 0|].
    eapply rtc_l; [by exists 1|]. apply rtc_refl.
Qed.

Lemma router_refines_network_witness :
  AmCompletes true (fun _ _ => [7%Z]) [swap_prog 0; swap_prog 1] [ROk [1%Z]; ROk [0%Z]].
Proof.
  apply (router_refines_network true 2); [done| |exact swap_completes].
  intros [|[|i]] p [= <-]; cbn; (split; [done|]); (split; [by repeat split|]); (split; [lia|]); (split; [done|]);
    (split; [by intros ?%elem_of_empty|done]).
Defined.
