(* ===== verification/AmColl.v ===== *)
(** * AmColl: the collectives over the routers

    Broadcast, scatter and allgather receive active messages.  Their programs use
    each key once and send messages of the length the receiver has room for, so the
    refinement theorem of [AmNet] carries their theorems over to ranks that receive
    through [AmRouter]s and sleep in between.  The buffers are bytes. *)

From S2P Require Import Prelude Future CollBase AmRouter Spmd Ring Bruck Bcast AmNet.

(** ** Keys *)

Lemma am_key_ok i t ph : in_u8 ph -> key_ok (am_key i t ph).
Proof.
  intros Hp. unfold key_ok, am_key, key_of, in_u16, wrap16. cbn.
  repeat split; try apply Z.mod_pos_bound; try lia; apply Hp.
Qed.

Lemma am_key_step i t ph : (Z.of_nat t < 65536)%Z -> kstep (am_key i t ph) = Z.of_nat t.
Proof. intros Ht. unfold am_key. cbn. unfold wrap16. apply Z.mod_small. lia. Qed.

(** Every key used so far belongs to an earlier round. *)
Definition before (t : nat) (used : gset (nat * RecvKey)) : Prop := forall x, x ∈ used -> (kstep x.2 < Z.of_nat t)%Z.

Lemma before_mono t used : before t used -> before (S t) used.
Proof. intros Hb x Hx. specialize (Hb x Hx). lia. Qed.

Lemma before_add t used dst i ph : (Z.of_nat t < 65536)%Z -> before t used ->
  ((dst, am_key i t ph) ∉ used) /\ before (S t) ({[(dst, am_key i t ph)]} ∪ used).
Proof.
  intros Ht Hb. split.
  - intros Hx%Hb. cbn [snd] in Hx. rewrite am_key_step in Hx by done. lia.
  - intros x [->%elem_of_singleton|Hx%Hb]%elem_of_union; [cbn [snd]; rewrite am_key_step by done|]; lia.
Qed.

Lemma before_empty : before 0 ∅.
Proof. by intros x ?%elem_of_empty. Qed.

Section proper.
Context (n : nat) (comm : nat -> UcxCommunicator) (target : nat -> RecvKey -> list Z).
Context (Hn : 2 <= n) (H16 : (Z.of_nat n <= 65536)%Z) (Hcomm : forall i, i < n -> CommOk n i (comm i)).

(** A send of round [t] to another rank. *)
Lemma proper_send {A} i p t ph d used (cont : result unit string -> Prog RecvKey (list Z) A) :
  i < n -> p < n -> t < n -> in_u8 ph -> length d = length (target p (am_key i t ph)) -> before t used ->
  (forall used', before (S t) used' -> proper n target i used' (cont (ROk tt))) ->
  proper n target i used (Send p (am_key i t ph) d cont).
Proof.
  intros Hi Hp Ht Hph Hd Hb Hc. destruct (before_add t used p i ph ltac:(lia) Hb) as [Hx Hb']. cbn [proper].
  split; [apply key_src_am; lia|]. split; [by apply am_key_ok|]. split; [done|]. split; [done|]. split; [done|]. by apply Hc.
Qed.

(** ** Broadcast *)

Section bcast.
Context (root len : nat) (bufs : nat -> list Z) (Hroot : root < n) (Hlen : forall i, i < n -> length (bufs i) = len).
Context (Htarget : forall i key, length (target i key) = len).

Lemma bcast_rounds_proper i cnt start buf have used : i < n -> start + cnt <= n -> length buf = len -> before start used ->
  proper n target i used (for_range start cnt (broadcast_round (comm i) root) (buf, have)
    (fun '((buf, _), r) => Ret (buf, r))).
Proof.
  intros Hi. destruct (Hcomm i Hi) as [Hr Hs He]. revert start buf have used.
  induction cnt as [|cnt IH]; intros start buf have used Hc Hb Hu; cbn [for_range]; [done|].
  match goal with |- proper _ _ _ _ (broadcast_round _ _ _ _ ?k) => set (K := k) end.
  assert (HK : forall buf' have' used', length buf' = len -> before (S start) used' ->
    proper n target i used' (K ((buf', have'), ROk tt))) by (intros; apply IH; [lia|done..]).
  assert (Hu' := before_mono _ _ Hu). unfold broadcast_round. rewrite Hr, Hs. cbv zeta. destruct have.
  - destruct (negb _) eqn:Hne; cbn [andb]; [|by apply HK].
    destruct (Nat.ltb_spec (Nat.lor ((i + n - root) mod n) (2 ^ start)) n) as [Hp|]; [|by apply HK].
    set (L := Nat.lor _ _) in *. assert (Hpeer : (L + root) mod n < n) by (apply Nat.mod_upper_bound; lia).
    assert (Hpi : (L + root) mod n <> i).
    { intros Heq. assert (HL := logical_rank n root Hn Hroot L Hp). unfold rank_of, logical_of in HL.
      rewrite Heq in HL. by rewrite HL, Nat.eqb_refl in Hne. }
    rewrite (He _ Hpeer Hpi). apply proper_send; try done; [lia|by rewrite Htarget|].
    intros used' Hb'. by apply HK.
  - destruct (_ =? _); [|by apply HK]. cbn [proper]. intros d Hd. rewrite Htarget in Hd.
    apply HK; [|done]. rewrite fill_same; congruence.
Qed.

Lemma bcast_proper i : i < n -> proper n target i ∅ (broadcast (comm i) (bufs i) root Ret).
Proof.
  intros Hi. rewrite (bcast_unfold n root comm bufs Hn Hroot Hcomm) by done. unfold bc_state.
  apply bcast_rounds_proper; [done| |case_decide; by apply Hlen|apply before_empty].
  unfold bit_length. destruct (Nat.eqb_spec (n - 1) 0); [lia|].
  assert (Nat.log2 (n - 1) < n - 1) by (apply Nat.log2_lt_lin; lia). lia.
Qed.
End bcast.

(** ** Scatter *)

Section scatter.
Context (root chunk : nat) (sb : list Z) (bufs : nat -> list Z) (Hroot : root < n).
Context (Hlen : forall i, i < n -> length (bufs i) = chunk) (Hsb : length sb = chunk * n).
Context (Htarget : forall i key, length (target i key) = chunk).

Lemma send_all_proper i key (sends : list (nat * list Z)) used k : key_src key = i -> key_ok key ->
  Forall (fun s => s.1 < n /\ length s.2 = chunk /\ (s.1, key) ∉ used) sends -> NoDup (sends.*1) ->
  (forall rs used', proper n target i used' (k rs)) -> proper n target i used (send_all (T := Z) key sends k).
Proof.
  intros Hsrc Hok. revert used k. induction sends as [|[p d] sends IH]; intros used k Hf Hnd Hk; cbn [send_all]; [apply Hk|].
  apply Forall_cons in Hf as [(Hp & Hd & Hu) Hf]. apply NoDup_cons in Hnd as [Hnin Hnd]. cbn [fst snd] in *.
  cbn [proper]. split; [done|]. split; [done|]. split; [done|]. split; [by rewrite Htarget|]. split; [done|].
  apply IH; [|done|intros; apply Hk]. rewrite Forall_forall in *. intros s Hs. destruct (Hf s Hs) as (? & ? & ?).
  split; [done|]. split; [done|]. intros [[= Heq]%elem_of_singleton|]%elem_of_union; [|done].
  apply Hnin. apply list_elem_of_fmap. by exists s.
Qed.

Lemma scatter_proper i : i < n ->
  proper n target i ∅ (scatter (comm i) (scatter_buf root sb i) (bufs i) root Ret).
Proof.
  intros Hi. destruct (Hcomm i Hi) as [Hr Hs He]. unfold scatter. rewrite Hr, Hs, Hlen by done.
  destruct (n <=? root); [done|]. destruct (n =? 1); [destruct (scatter_buf root sb i); [destruct (negb _)|]; done|].
  destruct (Nat.eqb_spec i root) as [Hd|]; [|done]. subst i. unfold scatter_buf. rewrite decide_True by done.
  rewrite Hsb, Nat.eqb_refl. cbn [negb]. cbv zeta.
  rewrite (scatter_sends_all n root chunk comm sb Hroot Hcomm) by (intros r ?%list_elem_of_In%in_seq; lia).
  apply send_all_proper; [apply key_src_am; lia|by apply am_key_ok| | |done].
  - apply Forall_fmap, Forall_forall. intros r [_ Hx%list_elem_of_In%in_seq]%list_elem_of_filter. unfold compose; cbn [fst snd].
    split; [lia|].
    split; [unfold chunk_of; apply slice_length; nia|]. by intros ?%elem_of_empty.
  - rewrite <- list_fmap_compose. cbn. rewrite list_fmap_id. apply NoDup_filter, NoDup_ListNoDup, seq_NoDup.
Qed.
End scatter.

(** ** Allgather *)

Section allgather.
Context (l : nat) (sends recvs : nat -> list Z).
Context (Hsend : forall i, i < n -> length (sends i) = l) (Hrecv : forall i, i < n -> length (recvs i) = l * n).

(** The slots exchanged in round [t]. *)
Definition round_slots (t : nat) : nat := Nat.min (2 ^ t) (n - 2 ^ t).
Context (Htarget : forall i key, length (target i key) = round_slots (Z.to_nat (kstep key)) * l).

Lemma bruck_loop_proper i fuel round b used (k : outcome (list Z * result unit CollectiveError) -> Prog RecvKey (list Z) (outcome (RankResult Z))) :
  i < n -> length b = l * n -> before round used -> (forall r used', proper n target i used' (k r)) ->
  proper n target i used (bruck_loop (comm i) l fuel (Nat.min (2 ^ round) n) round b k).
Proof.
  intros Hi. destruct (Hcomm i Hi) as [Hr Hs He]. revert round b used.
  induction fuel as [|fuel IH]; intros round b used Hb Hu Hk; cbn [bruck_loop]; rewrite Hs;
    (destruct (Nat.ltb_spec (Nat.min (2 ^ round) n) n) as [Hlt|]; [|apply Hk]); [apply Hk|].
  assert (Hp : 2 ^ round < n) by lia. assert (Hp1 := pow2_pos round).
  assert (Hrn : round < n) by (assert (round < 2 ^ round) by (apply Nat.pow_gt_lin_r; lia); lia).
  replace (Nat.min (2 ^ round) n) with (2 ^ round) by lia. fold (round_slots round). rewrite Hr.
  destruct (bruck_cycle n Hn (2 ^ round) i Hp1 Hp Hi) as (Hpeer & _ & _ & _ & Hne). unfold send_peer_of in *.
  rewrite (He _ Hpeer Hne).
  assert (Hst : forall j, Z.to_nat (kstep (am_key j round PHASE_BRUCK)) = round) by (intros j; rewrite am_key_step by lia; lia).
  assert (Hslots : round_slots round <= n - 2 ^ round) by (unfold round_slots; lia).
  apply proper_send; try done.
  - rewrite Htarget, Hst. apply slice_length. rewrite Hb. nia.
  - intros used' Hu'. cbn [proper]. intros d Hd. rewrite Htarget, Hst in Hd.
    replace (2 ^ round + round_slots round) with (Nat.min (2 ^ (round + 1)) n)
      by (rewrite Nat.add_1_r, Nat.pow_succ_r'; unfold round_slots; lia).
    rewrite Nat.add_1_r. apply IH; [|done|done].
    rewrite fill_same by (rewrite Hd, slice_length; [done|rewrite Hb; nia]). rewrite splice_length; [done|]. rewrite Hd, Hb. nia.
Qed.

Lemma bruck_proper i : i < n -> proper n target i ∅ (bruck_allgather (comm i) (sends i) (recvs i) Ret).
Proof.
  intros Hi. destruct (Hcomm i Hi) as [Hr Hs He]. unfold bruck_allgather. rewrite Hs.
  destruct (negb _); [done|]. destruct (n =? 1); [done|]. rewrite Hsend by done.
  replace 1 with (Nat.min (2 ^ 0) n) by (change (2 ^ 0) with 1; lia). apply bruck_loop_proper; [done| |apply before_empty|].
  - rewrite splice_length; [by apply Hrecv|]. rewrite Hrecv, Hsend by done. nia.
  - intros [[b [u|e]]|m] used'; [|done|done]. by destruct (sends i).
Qed.
End allgather.

Lemma refines_ranks {A} debug (F : nat -> Prog RecvKey (list Z) A) fin :
  (forall i, i < n -> proper n target i ∅ (F i)) -> Completes (ranks n F) fin -> AmCompletes debug target (ranks n F) fin.
Proof.
  intros HF. apply (refines debug n).
  - unfold ranks. by rewrite length_map, length_seq.
  - intros i p Hi. assert (i < n) by (apply lookup_lt_Some in Hi; unfold ranks in Hi; by rewrite length_map, length_seq in Hi).
    rewrite ranks_lookup in Hi by done. injection Hi as <-. by apply HF.
Qed.
End proper.

(** * Properties *)

(** C20. Broadcast, scatter and allgather work over the routers.  For 2 to 65536 ranks
    that receive through their own router, over a network that delivers the active
    messages in any order, every execution is finite, never panics, loses no wake-up
    and leaves no message on its way or in a router; it ends with [Ok] and: the
    root's buffer at every rank (broadcast); the [i]-th chunk of the root's buffer at
    rank [i] (scatter); all contributions in rank order at every rank (allgather,
    contributions not empty). *)
Theorem collectives_over_routers debug n comm :
  2 <= n -> (Z.of_nat n <= 65536)%Z -> (forall i, i < n -> CommOk n i (comm i)) ->
  (forall root len (bufs : nat -> list Z) target, root < n ->
     (forall i, i < n -> length (bufs i) = len) -> (forall i key, length (target i key) = len) ->
     AmCompletes debug target (ranks n (fun i => broadcast (comm i) (bufs i) root Ret))
       (map (fun _ => (bufs root, ROk tt)) (seq 0 n))) /\
  (forall root chunk (sb : list Z) (bufs : nat -> list Z) target, root < n ->
     (forall i, i < n -> length (bufs i) = chunk) -> length sb = chunk * n -> (forall i key, length (target i key) = chunk) ->
     AmCompletes debug target
       (ranks n (fun i => scatter (comm i) (if decide (i = root) then Some sb else None) (bufs i) root Ret))
       (map (fun i => (slice (i * chunk) chunk sb, ROk tt)) (seq 0 n))) /\
  (forall l (sends recvs : nat -> list Z) target, 1 <= l ->
     (forall i, i < n -> length (sends i) = l) -> (forall i, i < n -> length (recvs i) = l * n) ->
     (forall i key, length (target i key) = round_slots n (Z.to_nat (kstep key)) * l) ->
     AmCompletes debug target (ranks n (fun i => bruck_allgather (comm i) (sends i) (recvs i) Ret))
       (map (fun _ => Ok (concat (map sends (seq 0 n)), ROk tt)) (seq 0 n))).
Proof.
  intros Hn H16 Hcomm. split; [|split].
  - intros root len bufs target Hroot Hlen Ht. apply refines_ranks; [|by eapply bcast_completes].
    intros i Hi. by eapply bcast_proper.
  - intros root chunk sb bufs target Hroot Hlen Hsb Ht. apply refines_ranks; [|by apply scatter_completes].
    intros i Hi. by eapply scatter_proper.
  - intros l sends recvs target Hl Hs Hr Ht. apply refines_ranks.
    + intros i Hi. by eapply bruck_proper.
    + assert (Hc := bruck_completes n l comm sends recvs Hn H16 Hcomm Hs Hr). by rewrite decide_False in Hc by lia.
Qed.

Lemma collectives_over_routers_witness :
  AmCompletes true (fun _ _ => [0; 0]%Z) (ranks 5 (fun i => broadcast (full_comm 5 i) [Z.of_nat i; 9%Z] 3 Ret))
    (map (fun _ => ([3; 9]%Z, ROk tt)) (seq 0 5)).
Proof.
  destruct (collectives_over_routers true 5 (full_comm 5)) as [Hb _]; [lia|lia|intros i _; apply full_comm_ok|].
  apply (Hb 3 2 (fun i => [Z.of_nat i; 9%Z])); [lia|done|done].
Defined.
