(* ===== verification/Pool.v ===== *)
(** * Pool: a rank that drives several futures over one buffer

    [pipelined_ring] pushes its chains into a [FuturesUnordered] and awaits their
    results.  A [Chain] sends slices of the rank's buffer and receives into slices of
    it; a [Main] pushes chains and awaits the next result.  The chains of a rank
    share its buffer ([prbuf]) and finish in any order.

    A step of a run is a step of some rank's main or of one of its chains, so chains
    may also move while the main is pushing, which [FuturesUnordered] does not do:
    the runs include those of the program.  When the chains of a rank use disjoint
    slots of the buffer and keys of their own ([tame]), all these steps commute, and
    one schedule is enough again. *)

From S2P Require Import Prelude Spmd.

Section pool.
Context {K T R : Type} `{Countable K}.
Abbreviation Net := (gmap (nat * K) (list (list T))).

(** ** Chains, mains and ranks *)

(** A chain reads and writes slices of the rank's buffer, given by offset and length;
    [upd] is what the code does with a message before it awaits again. *)
Inductive Chain : Type :=
| CRet (r : R)
| CSend (dst : nat) (key : K) (off len : nat) (cont : result unit string -> Chain)
| CRecv (key : K) (off len : nat) (upd : result (list T) string -> list T -> list T)
    (cont : result (list T) string -> Chain).

(** [MPush m c k]: push the chain [c], here named [m].  [MNext k]: await [next()]. *)
Inductive Main : Type :=
| MRet (r : R)
| MPush (m : nat) (c : Chain) (k : Main)
| MNext (k : option R -> Main).

(** [prready] are the results not yet taken, in the order the chains finished. *)
Record PoolRank : Type := mkRank {
  prbuf : list T;
  prmain : Main;
  prpool : gmap nat Chain;
  prready : list R
}.

(** ** Steps *)

(** What a step wants of the network; who steps is [None] for the main, [Some m] for
    the chain [m].  No operation: it has to wait. *)
Inductive NetOp : Type :=
| ONone
| OSend (dst : nat) (key : K) (d : list T)
| ORecv (key : K).

Definition chain_op (b : list T) (c : Chain) : NetOp :=
  match c with
  | CRet _ => ONone
  | CSend dst key off len _ => OSend dst key (slice off len b)
  | CRecv key _ _ _ _ => ORecv key
  end.

Definition op_of (a : option nat) (r : PoolRank) : option NetOp :=
  match a with
  | None =>
      match prmain r with
      | MRet _ => None
      | MPush _ _ _ => Some ONone
      | MNext _ => if decide (prready r = [] /\ prpool r <> ∅) then None else Some ONone
      end
  | Some m =>
      match prmain r with
      | MRet _ => None
      | _ => c ← prpool r !! m; Some (chain_op (prbuf r) c)
      end
  end.

(** The rank after the step; [d] is the message received. *)
Definition after (a : option nat) (r : PoolRank) (d : list T) : PoolRank :=
  match a with
  | None =>
      match prmain r with
      | MRet _ => r
      | MPush m c k => mkRank (prbuf r) k (<[m := c]> (prpool r)) (prready r)
      | MNext k =>
          match prready r with
          | x :: rs => mkRank (prbuf r) (k (Some x)) (prpool r) rs
          | [] => mkRank (prbuf r) (k None) (prpool r) []
          end
      end
  | Some m =>
      match prpool r !! m with
      | Some (CRet x) => mkRank (prbuf r) (prmain r) (delete m (prpool r)) (prready r ++ [x])
      | Some (CSend _ _ _ _ cont) =>
          mkRank (prbuf r) (prmain r) (<[m := cont (ROk tt)]> (prpool r)) (prready r)
      | Some (CRecv _ off len upd cont) =>
          mkRank (splice off (upd (ROk d) (slice off len (prbuf r))) (prbuf r)) (prmain r)
            (<[m := cont (ROk d)]> (prpool r)) (prready r)
      | None => r
      end
  end.

Definition net_do (me : nat) (o : NetOp) (net : Net) : option (list T * Net) :=
  match o with
  | ONone => Some ([], net)
  | OSend dst key d => Some ([], net_send dst key d net)
  | ORecv key => net_recv me key net
  end.

Abbreviation PoolWorld := (list PoolRank * Net)%type.

Definition pool_step (l : nat * option nat) (w : PoolWorld) : option PoolWorld :=
  r ← w.1 !! l.1; o ← op_of l.2 r; '(d, net) ← net_do l.1 o w.2;
  Some (<[l.1 := after l.2 r d]> w.1, net).

Definition pool_steps : PoolWorld -> PoolWorld -> Prop := any_step pool_step.

(** A rank that has returned. *)
Definition returned (b : list T) (x : R) : PoolRank := mkRank b (MRet x) ∅ [].

(** Every execution is finite and ends with the buffers and results [fin]. *)
Record PoolCompletes (rs : list PoolRank) (fin : list (list T * R)) : Prop := {
  pc_bound : exists N, forall m w, nsteps pool_steps m (rs, ∅) w -> m <= N;
  pc_done w : rtc pool_steps (rs, ∅) w -> (forall w', ~ pool_steps w w') ->
    w = (map (fun f => returned f.1 f.2) fin, ∅)
}.

(** ** Tame programs *)

Context (src_of row_of : K -> nat) (slot_in : nat -> nat -> nat -> Prop) (blen : nat) (good : R).

(** A chain of rank [i] that keeps to row [m]. *)
Fixpoint tame (i m : nat) (c : Chain) : Prop :=
  match c with
  | CRet r => r = good
  | CSend _ key off len cont => src_of key = i /\ row_of key = m /\ slot_in m off len /\ tame i m (cont (ROk tt))
  | CRecv key off len upd cont =>
      row_of key = m /\ slot_in m off len /\
      forall d, (forall x, length (upd (ROk d) x) = length x) /\ tame i m (cont (ROk d))
  end.

(** A main whose live chains have rows in [used] and that still has [out] results to
    take: it returns only when it took them all. *)
Fixpoint tame_main (i : nat) (used : gset nat) (out : nat) (k : Main) : Prop :=
  match k with
  | MRet _ => out = 0
  | MPush m c k => (m ∉ used) /\ tame i m c /\ tame_main i ({[m]} ∪ used) (S out) k
  | MNext k =>
      match out with
      | O => tame_main i ∅ 0 (k None)
      | S out => tame_main i used out (k (Some good))
      end
  end.

Record TameRank (i : nat) (r : PoolRank) : Prop := {
  tr_main : exists used, (forall m, is_Some (prpool r !! m) -> m ∈ used) /\
    tame_main i used (size (prpool r) + length (prready r)) (prmain r);
  tr_pool m c : prpool r !! m = Some c -> tame i m c;
  tr_ready : Forall (fun x => x = good) (prready r);
  tr_size : length (prbuf r) = blen
}.

Definition tame_world (w : PoolWorld) : Prop := forall i r, w.1 !! i = Some r -> TameRank i r.

Context (slot_fits : forall m off len, slot_in m off len -> off + len <= blen).
Context (slot_apart : forall m m' off len off' len', slot_in m off len -> slot_in m' off' len' -> m <> m' ->
  off + len <= off' \/ off' + len' <= off).

Lemma op_chain m r o : op_of (Some m) r = Some o <->
  exists c, prpool r !! m = Some c /\ o = chain_op (prbuf r) c /\ forall x, prmain r <> MRet x.
Proof.
  cbn. split.
  - intros Ho. destruct (prpool r !! m) as [c|]; [|by destruct (prmain r)].
    exists c. destruct (prmain r); [done|by injection Ho as <-|by injection Ho as <-].
  - intros (c & -> & -> & Hm). destruct (prmain r) as [x| |]; [by destruct (Hm x)|done|done].
Qed.

Lemma after_tame i a r o d : TameRank i r -> op_of a r = Some o -> TameRank i (after a r d).
Proof.
  intros [(used & Hu & Hm) Hp Hr Hs] Ho. destruct a as [m|]; cbn [after].
  - apply op_chain in Ho as (c & Hc & _ & _). rewrite Hc. assert (Ht := Hp _ _ Hc).
    assert (Hins : forall c', TameRank i (mkRank (prbuf r) (prmain r) (<[m := c']> (prpool r)) (prready r)) <-> tame i m c').
    { intros c'. split; [intros [_ Hp' _ _]; by apply Hp', lookup_insert_eq|]. intros Hc'. split; cbn; [|intros m' c1|done|done].
      - exists used. split; [|by rewrite map_size_insert, Hc].
        intros m'. rewrite lookup_insert. case_decide as Hd; [intros _; apply Hu; rewrite <- Hd; by eexists|apply Hu].
      - rewrite lookup_insert. case_decide as Hd; [intros [= <-]; by rewrite <- Hd|apply Hp]. }
    destruct c as [x|dst key off len cont|key off len upd cont]; cbn in Ht.
    + split; cbn; [|intros m' c' [_ Hc']%lookup_delete_Some; by apply Hp| |done].
      * exists used. split; [intros m' [c' [_ Hc']%lookup_delete_Some]; apply Hu; by eexists|].
        rewrite map_size_delete, Hc, length_app. cbn.
        assert (size (prpool r) <> 0) by (intros He%map_size_empty_inv; by rewrite He, lookup_empty in Hc).
        by replace (Nat.pred _ + (length (prready r) + 1)) with (size (prpool r) + length (prready r)) by lia.
      * apply Forall_app. split; [done|]. by repeat constructor.
    + apply Hins. apply Ht.
    + destruct Ht as (_ & Hsl & Hd). specialize (Hd d) as [Hl Hd]. apply Hins in Hd as [D1 D2 D3 _].
      split; cbn; [done..|]. rewrite splice_length; [done|]. rewrite Hl, slice_length, Hs; apply slot_fits in Hsl; lia.
  - cbn in Ho. destruct (prmain r) as [x|m c k|k] eqn:Hk; [done| |].
    + destruct Hm as (Hnu & Ht & Hm).
      assert (Hnone : prpool r !! m = None) by (apply eq_None_not_Some; by intros Hx%Hu).
      split; cbn; [|intros m' c'|done|done].
      * exists ({[m]} ∪ used). split; [|by rewrite map_size_insert, Hnone]. intros m'. rewrite lookup_insert.
        case_decide as Hd; [intros _; apply elem_of_union_l; rewrite Hd; by apply elem_of_singleton|].
        intros Hm'. apply elem_of_union_r. by apply Hu.
      * rewrite lookup_insert. case_decide as Hd; [intros [= <-]; by rewrite <- Hd|apply Hp].
    + cbn in Hm. destruct (prready r) as [|x rs] eqn:Hrr.
      * case_decide as Hd; [done|].
        assert (He : prpool r = ∅) by (destruct (decide (prpool r = ∅)); [done|]; exfalso; by apply Hd).
        rewrite He in *. rewrite map_size_empty in Hm. cbn in Hm.
        split; cbn; [|done|done|done]. exists ∅. split; [|by rewrite map_size_empty]. intros m [c Hc].
        by rewrite lookup_empty in Hc.
      * cbn [length] in Hm. rewrite Nat.add_succ_r in Hm. inversion Hr as [|? ? -> Hr']; subst. split; cbn; [by exists used|done|done|done].
Qed.

Lemma tame_step l w w' : tame_world w -> pool_step l w = Some w' -> tame_world w'.
Proof.
  intros Ht Hs j r Hj. destruct l as [i a]. unfold pool_step in Hs. cbn in Hs.
  destruct (w.1 !! i) as [ri|] eqn:Hi; cbn in Hs; [|done].
  destruct (op_of a ri) as [o|] eqn:Ho; cbn in Hs; [|done].
  destruct (net_do i o w.2) as [[d net]|]; cbn in Hs; [|done]. injection Hs as <-. cbn in Hj.
  apply list_lookup_insert_Some in Hj as [(-> & <- & _)|[_ Hj]]; [|by apply Ht].
  eapply after_tame; [by apply Ht|done].
Qed.

(** ** Steps commute *)

Definition compat (i : nat) (o : NetOp) (j : nat) (o' : NetOp) : Prop :=
  match o, o' with
  | OSend a k _, OSend b k' _ => (a, k) <> (b, k')
  | ORecv k, ORecv k' => (i, k) <> (j, k')
  | _, _ => True
  end.

Lemma net_do_comm i j o o' net d d' net1 net2 :
  compat i o j o' -> net_do i o net = Some (d, net1) -> net_do j o' net = Some (d', net2) ->
  exists net3, net_do j o' net1 = Some (d', net3) /\ net_do i o net2 = Some (d, net3).
Proof.
  intros Hc H1 H2.
  destruct o as [|a k x|k], o' as [|b k' x'|k']; cbn in *;
    repeat match goal with He : Some _ = Some _ |- _ => injection He as <- <- end; try by eauto.
  - eexists. split; [done|]. f_equal. f_equal. by apply send_send_comm.
  - rewrite (send_recv_comm _ _ _ _ _ _ _ _ H2). eauto.
  - rewrite (send_recv_comm _ _ _ _ _ _ _ _ H1). eauto.
  - by eapply recv_recv_comm.
Qed.

(** The operations of two different steps do not meet. *)
Lemma op_row i m r o : TameRank i r -> op_of (Some m) r = Some o ->
  match o with
  | ONone => True
  | OSend _ k _ => src_of k = i /\ row_of k = m
  | ORecv k => row_of k = m
  end.
Proof.
  intros Hr (c & Hc & -> & _)%op_chain. assert (Ht := tr_pool _ _ Hr _ _ Hc).
  destruct c; cbn in *; by destruct_and? Ht.
Qed.

Lemma op_main r o : op_of None r = Some o -> o = ONone.
Proof. cbn. destruct (prmain r); [done|by intros [= <-]|]. case_decide; by intros [= <-]. Qed.

Lemma ops_compat i j a b ri rj o o' :
  TameRank i ri -> TameRank j rj -> (i, a) <> (j, b) -> op_of a ri = Some o -> op_of b rj = Some o' ->
  compat i o j o'.
Proof.
  intros Hi Hj Hne Ho Ho'.
  destruct a as [m|]; [|by rewrite (op_main _ _ Ho)].
  destruct b as [m'|]; [|rewrite (op_main _ _ Ho'); by destruct o].
  apply (op_row i) in Ho; [|done]. apply (op_row j) in Ho'; [|done].
  destruct o, o'; cbn in *; try done; destruct_and?; intros [= ? ?]; apply Hne; congruence.
Qed.

Lemma splice_comm off xs off' xs' (l : list T) :
  off + length xs <= length l -> off' + length xs' <= length l ->
  off + length xs <= off' \/ off' + length xs' <= off ->
  splice off xs (splice off' xs' l) = splice off' xs' (splice off xs l).
Proof.
  intros H1 H2 Hd. apply list_eq. intros p.
  rewrite !splice_lookup by (rewrite ?splice_length; lia). repeat case_decide; done || lia.
Qed.

(** A slot of one row does not see what is written to a slot of another. *)
Lemma slot_read m m' off len off' len' xs (b : list T) :
  slot_in m off len -> slot_in m' off' len' -> m <> m' -> length xs = len -> length b = blen ->
  slice off' len' (splice off xs b) = slice off' len' b.
Proof.
  intros Hs Hs' Hne Hx Hb. assert (Hf := slot_fits _ _ _ Hs). assert (Hf' := slot_fits _ _ _ Hs').
  destruct (slot_apart _ _ _ _ _ _ Hs Hs' Hne); apply slice_splice_ne; lia.
Qed.

Lemma upd_length i m key off len upd cont d (b : list T) :
  tame i m (CRecv key off len upd cont) -> length b = blen -> length (upd (ROk d) (slice off len b)) = len.
Proof.
  intros (_ & Hs & Hd) Hb. destruct (Hd d) as [Hl _]. apply slot_fits in Hs. rewrite Hl. apply slice_length. lia.
Qed.

Lemma after_comm_chains i m m' r d d' o o' :
  TameRank i r -> m <> m' -> op_of (Some m) r = Some o -> op_of (Some m') r = Some o' ->
  op_of (Some m') (after (Some m) r d) = Some o' /\
  after (Some m') (after (Some m) r d) d' = after (Some m) (after (Some m') r d') d.
Proof.
  intros Hr Hne (c & Hc & -> & _)%op_chain (c' & Hc' & -> & Hlive)%op_chain.
  assert (Ht := tr_pool _ _ Hr _ _ Hc). assert (Ht' := tr_pool _ _ Hr _ _ Hc'). assert (Hs := tr_size _ _ Hr).
  destruct c as [x|dst key off len cont|key off len upd cont], c' as [x'|dst' key' off' len' cont'|key' off' len' upd' cont'];
    cbn -[splice slice]; rewrite ?Hc, ?Hc'; cbn -[splice slice];
    rewrite ?lookup_insert_ne, ?lookup_delete_ne, ?Hc, ?Hc' by done; cbn -[splice slice];
    try (assert (Hl := upd_length i m _ _ _ _ _ d (prbuf r) Ht Hs));
    try (assert (Hl' := upd_length i m' _ _ _ _ _ d' (prbuf r) Ht' Hs));
    cbn in Ht, Ht';
    rewrite ?(slot_read m m' off len off' len'), ?(slot_read m' m off' len' off len) by (done || apply Ht || apply Ht');
    (split; [by destruct (prmain r) as [x0| |]; [destruct (Hlive x0)| |]|]); f_equal;
    try first [apply delete_delete | by apply insert_insert_ne | by apply delete_insert_ne
              | symmetry; by apply delete_insert_ne].
  - by rewrite Ht, Ht'.
  - assert (Hf := slot_fits _ _ _ (proj1 (proj2 Ht))). assert (Hf' := slot_fits _ _ _ (proj1 (proj2 Ht'))).
    apply splice_comm; try lia.
    destruct (slot_apart _ _ _ _ _ _ (proj1 (proj2 Ht)) (proj1 (proj2 Ht')) Hne); lia.
Qed.

(** The main does not return while a chain is live. *)
Lemma main_alive i m r d c : TameRank i r -> prpool r !! m = Some c -> (exists o, op_of None r = Some o) ->
  forall x, prmain (after None r d) <> MRet x.
Proof.
  intros Hr Hc [o Ho] x Hx. destruct (tr_main _ _ (after_tame i None r o d Hr Ho)) as (used & _ & Hm).
  rewrite Hx in Hm. cbn [tame_main] in Hm.
  assert (He : prpool (after None r d) = ∅) by (apply map_size_empty_iff; lia).
  cbn in He, Ho. destruct (prmain r); [done| |].
  - cbn in He. by apply insert_non_empty in He.
  - destruct (prready r); cbn in He; by rewrite He, lookup_empty in Hc.
Qed.

Lemma after_comm_main i m r d d' o o' :
  TameRank i r -> op_of None r = Some o -> op_of (Some m) r = Some o' ->
  op_of (Some m) (after None r d) = Some o' /\ op_of None (after (Some m) r d') = Some o /\
  after (Some m) (after None r d) d' = after None (after (Some m) r d') d.
Proof.
  intros Hr Ho (c & Hc & -> & Hlive)%op_chain.
  assert (Halive := main_alive i m r d c Hr Hc ltac:(by exists o)).
  assert (Hop := op_main _ _ Ho). subst o. destruct (tr_main _ _ Hr) as (used & Hu & Hm). cbn in Ho.
  destruct (prmain r) as [x|m1 c1 k|k] eqn:Hk; [done| |].
  - destruct Hm as (Hnu & _ & _). assert (m1 <> m) by (intros ->; apply Hnu, Hu; by eexists).
    split; [|split].
    + apply op_chain. exists c. cbn in *. rewrite Hk in *. cbn. by rewrite lookup_insert_ne.
    + cbn. rewrite Hc. by destruct c; cbn; rewrite Hk.
    + cbn. rewrite Hk. cbn. rewrite lookup_insert_ne, Hc by done.
      destruct c; cbn; rewrite ?Hk; cbn; f_equal; first [by apply insert_insert_ne | by apply delete_insert_ne].
  - destruct (prready r) as [|y ys] eqn:Hy.
    { exfalso. case_decide as Hd; [done|]. apply Hd. split; [done|]. intros He. by rewrite He, lookup_empty in Hc. }
    split; [|split].
    + apply op_chain. exists c. cbn in *. rewrite Hk, Hy in *. by cbn.
    + cbn. rewrite Hc. destruct c; cbn; rewrite Hk, ?Hy; cbn; case_decide as Hd; try done; by destruct Hd.
    + cbn. rewrite Hk, Hy. cbn. rewrite Hc. by destruct c; cbn; rewrite ?Hk, ?Hy.
Qed.

Lemma pool_step_diamond l l' w a b :
  tame_world w -> l <> l' -> pool_step l w = Some a -> pool_step l' w = Some b ->
  exists c, pool_step l' a = Some c /\ pool_step l b = Some c.
Proof.
  intros Hw Hne Ha Hb. destruct l as [i x], l' as [j y]. unfold pool_step in Ha, Hb. cbn [fst snd] in Ha, Hb.
  destruct (w.1 !! i) as [ri|] eqn:Hi; cbn in Ha; [|done]. destruct (w.1 !! j) as [rj|] eqn:Hj; cbn in Hb; [|done].
  destruct (op_of x ri) as [o|] eqn:Ho; cbn in Ha; [|done]. destruct (op_of y rj) as [o'|] eqn:Ho'; cbn in Hb; [|done].
  destruct (net_do i o w.2) as [[d net1]|] eqn:Hn; cbn in Ha; [|done].
  destruct (net_do j o' w.2) as [[d' net2]|] eqn:Hn'; cbn in Hb; [|done].
  injection Ha as <-. injection Hb as <-.
  assert (Hc := ops_compat _ _ _ _ _ _ _ _ (Hw _ _ Hi) (Hw _ _ Hj) Hne Ho Ho').
  destruct (net_do_comm _ _ _ _ _ _ _ _ _ Hc Hn Hn') as (net3 & Hn3 & Hn3').
  unfold pool_step. cbn [fst snd]. destruct (decide (i = j)) as [<-|Hij].
  - rewrite Hi in Hj. injection Hj as <-. assert (Hr := Hw _ _ Hi). assert (Hlt := lookup_lt_Some _ _ _ Hi).
    rewrite !list_lookup_insert_eq by done. cbn [mbind option_bind].
    assert (Hb2 : op_of y (after x ri d) = Some o' /\ op_of x (after y ri d') = Some o /\
      after y (after x ri d) d' = after x (after y ri d') d).
    { destruct x as [m|], y as [m'|]; [| | |done].
      - assert (Hmm : m <> m') by congruence.
        destruct (after_comm_chains i m m' ri d d' o o' Hr Hmm Ho Ho') as [? He]. split; [done|].
        split; [|done]. by apply (after_comm_chains i m' m ri d' d o' o Hr (not_eq_sym Hmm) Ho' Ho).
      - destruct (after_comm_main i m ri d' d o' o Hr Ho' Ho) as (? & ? & ?). done.
      - by apply (after_comm_main i). }
    destruct Hb2 as (-> & -> & Hab). cbn [mbind option_bind]. rewrite Hn3, Hn3'. cbn [mbind option_bind].
    rewrite !list_insert_insert_eq, Hab. eauto.
  - rewrite !list_lookup_insert_ne, Hi, Hj by done. cbn [mbind option_bind]. rewrite Ho, Ho'. cbn [mbind option_bind].
    rewrite Hn3, Hn3'. cbn [mbind option_bind]. eexists. split; [done|]. f_equal. f_equal. by apply list_insert_insert_ne.
Qed.

Lemma returned_stuck (fin : list (list T * R)) net w :
  ~ pool_steps (map (fun f => returned f.1 f.2) fin, net) w.
Proof.
  intros [[i a] Hs]. unfold pool_step in Hs. cbn in Hs. rewrite list_lookup_fmap in Hs.
  destruct (fin !! i) as [f|]; [|done]. by destruct a.
Qed.

(** One complete schedule is enough. *)
Lemma pool_completes rs fin :
  tame_world (rs, ∅) -> rtc pool_steps (rs, ∅) (map (fun f => returned f.1 f.2) fin, ∅) -> PoolCompletes rs fin.
Proof.
  intros Hw Hs.
  destruct (all_schedules pool_step tame_world tame_step pool_step_diamond _ _ Hw Hs) as [Hb Hd].
  - intros t'. apply returned_stuck.
  - by split.
Qed.
End pool.

(** * The schedule in which every rank runs the same chain *)

Section lockstep.
Context {K T R : Type} `{Countable K}.
Abbreviation Prog_ := (Prog K (list T) (list T * R)).

(** A chain alone on its buffer is a program of [Spmd]. *)
Fixpoint alone (c : Chain (K := K)) (b : list T) : Prog_ :=
  match c with
  | CRet x => Ret (b, x)
  | CSend dst key off len cont => Send dst key (slice off len b) (fun r => alone (cont r) b)
  | CRecv key off len upd cont =>
      Recv key (fun r => alone (cont r) (splice off (upd r (slice off len b)) b))
  end.

Context (n : nat).
Definition pranks (F : nat -> PoolRank (K := K) (T := T) (R := R)) : list PoolRank := map F (seq 0 n).

Lemma pranks_lookup F i : i < n -> pranks F !! i = Some (F i).
Proof. intros. unfold pranks. by rewrite list_lookup_fmap, lookup_seq_lt. Qed.

Lemma pranks_ext F F' : (forall i, i < n -> F i = F' i) -> pranks F = pranks F'.
Proof. intros HF. unfold pranks. apply map_ext_in. intros i Hi%in_seq. apply HF. lia. Qed.

Lemma pranks_insert F i r : i < n -> <[i := r]> (pranks F) = pranks (fun j => if decide (j = i) then r else F j).
Proof.
  intros Hi. apply list_eq. intros j. destruct (decide (j < n)) as [Hj|Hj].
  - rewrite (pranks_lookup _ j Hj). case_decide as Hij.
    + rewrite Hij. apply list_lookup_insert_eq. unfold pranks. by rewrite length_map, length_seq.
    + rewrite list_lookup_insert_ne by done. by apply pranks_lookup.
  - rewrite !lookup_ge_None_2; [done| |]; unfold pranks; rewrite ?length_insert, length_map, length_seq; lia.
Qed.

(** Every rank takes a step that does not touch the network. *)
Lemma all_local a F G net :
  (forall i, i < n -> op_of a (F i) = Some ONone /\ after a (F i) [] = G i) ->
  rtc pool_steps (pranks F, net) (pranks G, net).
Proof.
  intros HF. assert (Hm : forall m, m <= n ->
    rtc pool_steps (pranks F, net) (pranks (fun i => if decide (i < m) then G i else F i), net)).
  { induction m as [|m IH]; intros Hm.
    - apply rtc_refl.
    - etrans; [apply IH; lia|]. destruct (HF m ltac:(lia)) as [Ho Ha]. apply rtc_once. exists (m, a).
      unfold pool_step. cbn [fst snd]. rewrite pranks_lookup by lia. cbn [mbind option_bind].
      rewrite decide_False by lia. rewrite Ho. cbn [mbind option_bind net_do]. rewrite Ha.
      rewrite pranks_insert by lia. f_equal. f_equal. apply pranks_ext. intros i Hi.
      destruct (decide (i = m)) as [->|]; [by rewrite decide_True by lia|].
      destruct (decide (i < m)), (decide (i < S m)); done || lia. }
  etrans; [by apply (Hm n)|]. apply reflexive_eq. f_equal. apply pranks_ext. intros i Hi. by rewrite decide_True.
Qed.

Context (m : nat) (mains : nat -> Main (K := K) (T := T) (R := R)) (readys : nat -> list R).
Context (Hlive : forall i x, mains i <> MRet x).

Definition one_chain (cs : nat -> Chain) (bs : nat -> list T) : list PoolRank :=
  pranks (fun i => mkRank (bs i) (mains i) {[m := cs i]} (readys i)).

Lemma alone_step cs bs net w :
  spmd_step (ranks n (fun i => alone (cs i) (bs i)), net) w ->
  exists cs' bs', w.1 = ranks n (fun i => alone (cs' i) (bs' i)) /\
    pool_steps (one_chain cs bs, net) (one_chain cs' bs', w.2).
Proof.
  intros [i Hs]. unfold rank_step in Hs. cbn [fst snd] in Hs.
  destruct (decide (i < n)) as [Hi|Hi]; cycle 1.
  { by rewrite lookup_ge_None_2 in Hs by (unfold ranks; rewrite length_map, length_seq; lia). }
  rewrite ranks_lookup in Hs by done.
  assert (Hgo : forall c' b' d o net', op_of (Some m) (mkRank (bs i) (mains i) {[m := cs i]} (readys i)) = Some o ->
    net_do i o net = Some (d, net') ->
    after (Some m) (mkRank (bs i) (mains i) {[m := cs i]} (readys i)) d = mkRank b' (mains i) {[m := c']} (readys i) ->
    exists cs' bs', (<[i := alone c' b']> (ranks n (fun i => alone (cs i) (bs i))), net').1 =
        ranks n (fun i => alone (cs' i) (bs' i)) /\
      pool_steps (one_chain cs bs, net) (one_chain cs' bs', net')).
  { intros c' b' d o net' Ho Hn Ha.
    exists (fun j => if decide (j = i) then c' else cs j), (fun j => if decide (j = i) then b' else bs j). split.
    - cbn. rewrite <- (ranks_insert n (fun i => alone (cs i) (bs i))
        (fun j => alone (if decide (j = i) then c' else cs j) (if decide (j = i) then b' else bs j)) i Hi);
        [by rewrite !decide_True by done|]. intros j _. by destruct (decide (j = i)) as [->|]; rewrite ?decide_True.
    - exists (i, Some m). unfold pool_step, one_chain. cbn [fst snd]. rewrite pranks_lookup by done. cbn [mbind option_bind].
      rewrite Ho. cbn [mbind option_bind]. rewrite Hn. cbn [mbind option_bind]. rewrite Ha, pranks_insert by done.
      f_equal. f_equal. apply pranks_ext. intros j _. by destruct (decide (j = i)) as [->|]. }
  assert (Hop : op_of (Some m) (mkRank (bs i) (mains i) {[m := cs i]} (readys i)) = Some (chain_op (bs i) (cs i))).
  { apply op_chain. exists (cs i). cbn. rewrite lookup_singleton_eq. split; [done|]. split; [done|]. apply Hlive. }
  assert (Haf : forall d, after (Some m) (mkRank (bs i) (mains i) {[m := cs i]} (readys i)) d =
    match cs i with
    | CRet x => mkRank (bs i) (mains i) (delete m {[m := cs i]}) (readys i ++ [x])
    | CSend _ _ _ _ cont => mkRank (bs i) (mains i) {[m := cont (ROk tt)]} (readys i)
    | CRecv _ off len upd cont =>
        mkRank (splice off (upd (ROk d) (slice off len (bs i))) (bs i)) (mains i) {[m := cont (ROk d)]} (readys i)
    end).
  { intros d. cbn. rewrite lookup_singleton_eq. destruct (cs i); [done| |]; by rewrite insert_singleton_eq. }
  destruct (cs i) as [x|dst key off len cont|key off len upd cont] eqn:Hc; cbn [alone] in Hs; [done| |].
  - injection Hs as <-. eapply Hgo; [done|cbn; done|]. by rewrite Haf.
  - destruct (net_recv i key net) as [[d net']|] eqn:Hr; cbn in Hs; [|done]. injection Hs as <-.
    eapply Hgo; [done|exact Hr|]. by rewrite Haf.
Qed.

(** When the chains alone reach their results, the pool does, and the chains finish. *)
Lemma chains_steps (cs : nat -> Chain) bs bs' x :
  rtc spmd_step (ranks n (fun i => alone (cs i) (bs i)), ∅) (ranks n (fun i => Ret (bs' i, x)), ∅) ->
  rtc pool_steps (one_chain cs bs, ∅)
    (pranks (fun i => mkRank (bs' i) (mains i) ∅ (readys i ++ [x])), ∅).
Proof.
  intros Hs. assert (Hsim : forall w w', rtc spmd_step w w' -> forall cs bs, w.1 = ranks n (fun i => alone (cs i) (bs i)) ->
    exists cs' bs', w'.1 = ranks n (fun i => alone (cs' i) (bs' i)) /\
      rtc pool_steps (one_chain cs bs, w.2) (one_chain cs' bs', w'.2)).
  { clear Hs. induction 1 as [w|w w1 w' Hs _ IH]; intros cs0 bs0 Hw; [by exists cs0, bs0; split; [|apply rtc_refl]|].
    destruct w as [ps net]. cbn in Hw. subst ps. destruct (alone_step _ _ _ _ Hs) as (cs1 & bs1 & Hw1 & Hp).
    destruct (IH cs1 bs1 Hw1) as (cs' & bs'0 & Hw' & Hr). exists cs', bs'0. split; [done|].
    eapply rtc_l; [exact Hp|exact Hr]. }
  destruct (Hsim _ _ Hs cs bs eq_refl) as (cs' & bs1 & Hw & Hr). cbn in Hw, Hr. etrans; [exact Hr|].
  assert (Hend : forall i, i < n -> cs' i = CRet x /\ bs1 i = bs' i).
  { intros i Hi. assert (Hl := f_equal (fun l => l !! i) Hw). cbn in Hl. rewrite !ranks_lookup in Hl by done.
    injection Hl as Hl. destruct (cs' i); cbn in Hl; [|done..]. by injection Hl as -> ->. }
  apply (all_local (Some m)). intros i Hi. destruct (Hend i Hi) as [Hc Hb]. split.
  - apply op_chain. exists (cs' i). cbn. rewrite lookup_singleton_eq, Hc. split; [done|]. split; [done|]. apply Hlive.
  - cbn. rewrite lookup_singleton_eq, Hc. cbn. by rewrite Hb, delete_singleton_eq.
Qed.
End lockstep.
