(* ===== verification/PipeRing.v ===== *)
(** * PipeRing: the pipelined ring allreduce
    ([pluvio_collective/src/ucx_backend/pipelined_ring.rs])

    Each chunk of the ring is cut into [micro_chunks] slots; the slots with the same
    number form a row, and each row goes round the ring in a chain of its own.  The
    chains of a rank share its buffer and run concurrently under a
    [FuturesUnordered] ([Pool]); [max_in_flight] delays the pushes.  The theorem: on
    every schedule the result is that of the plain ring ([Ring]), operand order
    included. *)

From S2P Require Import Prelude CollBase Spmd Ring Pool.

(** ** Configuration *)

(** [Proto]: the crate's [AmProto], only passed on to the send. *)
Record PipelineConfig {Proto : Type} : Type := mkPipeline {
  micro_chunks : nat;
  max_in_flight : nat;
  proto : option Proto
}.
Arguments PipelineConfig : clear implicits.

Definition PipelineConfig_default {Proto} : PipelineConfig Proto := mkPipeline Proto 4 8 None.

(** ** Keys: rank, step, phase and micro-chunk *)

Definition pipe_key (rank step : nat) (phase : Z) (m : nat) : RecvKey :=
  key_of (mkHeader (wrap16 (Z.of_nat rank)) (wrap16 (Z.of_nat step)) phase (wrap8 (Z.of_nat m))).

Section defs.
Context {T : Type} `{Op T} (T_default : T).
Abbreviation Res := (outcome (result unit CollectiveError)).
Abbreviation C := (Chain (K := RecvKey) (T := T) (R := Res)).
Abbreviation M := (Main (K := RecvKey) (T := T) (R := Res)).

(** The flat table of slots, as offset and length. *)
Definition slots_table (n micro_chunks chunk micro_size : nat) : list (nat * nat) :=
  map (fun i =>
    let chunk_idx := i / micro_chunks in
    let m := i mod micro_chunks in
    (chunk_idx * chunk + m * micro_size, micro_size)) (seq 0 (n * micro_chunks)).

(** One exchange of a chain, send and receive under one [join]; the send's error comes
    first.  [upd] is what happens to the slot on a message before the chain awaits
    again. *)
Definition chain_exchange (next_ep : nat) (send_key recv_key : RecvKey) (send_slot recv_slot : nat * nat)
    (upd : result unit string -> list T -> list T -> list T) (k : option (list T) * result unit CollectiveError -> C) : C :=
  CSend next_ep send_key send_slot.1 send_slot.2 (fun sr =>
    CRecv recv_key recv_slot.1 recv_slot.2
      (fun rr x => match rr with ROk d => upd sr d x | RErr _ => x end)
      (fun rr =>
         let got := match rr with ROk d => Some d | RErr _ => None end in
         match sr, rr with
         | RErr e, _ => k (got, RErr (Ucx ("am_send: " ++ e)))
         | ROk _, RErr e => k (got, RErr (Ucx e))
         | ROk _, ROk _ => k (got, ROk tt)
         end)).

(** [for step in start..start + cnt]. *)
Fixpoint reduce_scatter_chain (next_ep : nat) (slots : list (nat * nat)) (micro_chunks m : nat)
    (tmp : list T) (rank prev n : nat) (start cnt : nat) : C :=
  match cnt with
  | O => CRet (Ok (ROk tt))
  | S cnt =>
      let step := start in
      let send_idx := (rank + n - step) mod n in
      let recv_idx := (rank + n - step - 1) mod n in
      match slots !! (send_idx * micro_chunks + m), slots !! (recv_idx * micro_chunks + m) with
      | Some send_slot, Some recv_slot =>
          chain_exchange next_ep (pipe_key rank step 0 m) (pipe_key prev step 0 m) send_slot recv_slot
            (fun sr d x => match sr with ROk _ => reduce_in_place x (fill tmp d) | RErr _ => x end)
            (fun '(got, r) =>
               let tmp := match got with Some d => fill tmp d | None => tmp end in
               match r with
               | RErr e => CRet (Ok (RErr e))
               | ROk _ => reduce_scatter_chain next_ep slots micro_chunks m tmp rank prev n (S start) cnt
               end)
      | _, _ => CRet (Panic "index out of bounds")
      end
  end.

Fixpoint allgather_chain (next_ep : nat) (slots : list (nat * nat)) (micro_chunks m : nat)
    (rank prev n : nat) (start cnt : nat) : C :=
  match cnt with
  | O => CRet (Ok (ROk tt))
  | S cnt =>
      let step := start in
      let send_idx := (rank + n - step + 1) mod n in
      let recv_idx := (rank + n - step) mod n in
      match slots !! (send_idx * micro_chunks + m), slots !! (recv_idx * micro_chunks + m) with
      | Some send_slot, Some recv_slot =>
          chain_exchange next_ep (pipe_key rank step 1 m) (pipe_key prev step 1 m) send_slot recv_slot
            (fun _ d x => fill x d)
            (fun '(_, r) =>
               match r with
               | RErr e => CRet (Ok (RErr e))
               | ROk _ => allgather_chain next_ep slots micro_chunks m rank prev n (S start) cnt
               end)
      | _, _ => CRet (Panic "index out of bounds")
      end
  end.

(** [while let Some(res) = chains.next().await { res?; }]: at most [fuel] results. *)
Fixpoint drain (fuel : nat) (k : M) : M :=
  MNext (fun o =>
    match o with
    | None => k
    | Some (Ok (ROk _)) => match fuel with O => MRet (Panic "out of fuel") | S fuel => drain fuel k end
    | Some r => MRet r
    end).

(** The [for] loop that pushes the chains, and the loop that drains them. *)
Fixpoint launch (max_in_flight fuel : nat) (chain : nat -> C) (ms : list nat) (launched : nat) (k : M) : M :=
  match ms with
  | [] => drain fuel k
  | m :: ms =>
      let launched := launched + 1 in
      MPush m (chain m)
        (if max_in_flight <=? launched then
           MNext (fun o =>
             match o with
             | Some (Ok (ROk _)) | None => launch max_in_flight fuel chain ms launched k
             | Some r => MRet r
             end)
         else launch max_in_flight fuel chain ms launched k)
  end.

Definition pipelined_ring {Proto} (c : UcxCommunicator) (buf : list T) (config : PipelineConfig Proto) : M :=
  let n := csize c in
  let rank := crank c in
  let mc := micro_chunks config in
  if n <=? 1 then MRet (Ok (ROk tt))
  else if (mc =? 0) || (max_in_flight config =? 0)
  then MRet (Ok (RErr (Protocol "pipelined ring: micro_chunks and max_in_flight must be > 0")))
  else if 255 <? mc
  then MRet (Ok (RErr (Protocol "pipelined ring: micro_chunks > 255 (does not fit in AmHeader::micro_chunk)")))
  else if negb (length buf mod n =? 0) then MRet (Ok (RErr BadShape))
  else
    let chunk := length buf / n in
    if negb (chunk mod mc =? 0) then MRet (Ok (RErr BadShape))
    else
      let micro_size := chunk / mc in
      let next := (rank + 1) mod n in
      let prev := (rank + n - 1) mod n in
      match endpoint c next with
      | None => MRet (Ok (RErr (Protocol "no endpoint to next rank")))
      | Some next_ep =>
          let slots := slots_table n mc chunk micro_size in
          let tmp := replicate micro_size T_default in
          launch (max_in_flight config) mc
            (fun m => reduce_scatter_chain next_ep slots mc m tmp rank prev n 0 (n - 1)) (seq 0 mc) 0
            (launch (max_in_flight config) mc
               (fun m => allgather_chain next_ep slots mc m rank prev n 0 (n - 1)) (seq 0 mc) 0
               (MRet (Ok (ROk tt))))
      end.

(** A rank that calls it. *)
Definition pipe_rank {Proto} (c : UcxCommunicator) (buf : list T) (config : PipelineConfig Proto) :
    PoolRank (K := RecvKey) (T := T) (R := Res) :=
  mkRank buf (pipelined_ring c buf config) ∅ [].
End defs.

(** * Facts *)

Section facts.
Context {T : Type} `{Op T} (T_default : T).
Context (n mc micro : nat) (Hn : 2 <= n) (H16 : (Z.of_nat n <= 65536)%Z) (Hmc : 1 <= mc) (Hmc8 : mc <= 255).
Abbreviation Res := (outcome (result unit CollectiveError)).
Abbreviation Done := (Ok (ROk tt) : Res).
Abbreviation chunk := (mc * micro).
Abbreviation len := (n * chunk).

(** ** Slots and rows *)

Definition off (c m : nat) : nat := c * chunk + m * micro.
Abbreviation slot_of c m l := (slice (off c m) micro l).

Lemma off_idx c m : off c m = (c * mc + m) * micro.
Proof. unfold off. lia. Qed.

Lemma off_fits c m : c < n -> m < mc -> off c m + micro <= len.
Proof. intros. rewrite off_idx. assert (c * mc + m + 1 <= n * mc) by nia. nia. Qed.

Lemma idx_inj c c' m m' : m < mc -> m' < mc -> c * mc + m = c' * mc + m' -> c = c' /\ m = m'.
Proof.
  intros Hm Hm' He. destruct (lt_eq_lt_dec c c') as [[|Hc]|]; [nia| |nia]. split; [done|]. rewrite Hc in He. lia.
Qed.

Lemma off_apart c m c' m' : m < mc -> m' < mc -> (c <> c' \/ m <> m') ->
  off c m + micro <= off c' m' \/ off c' m' + micro <= off c m.
Proof.
  intros Hm Hm' Hne. rewrite !off_idx. assert (c * mc + m <> c' * mc + m') by (intros He%idx_inj; [lia|done..]). nia.
Qed.

Lemma slots_lookup c m : c < n -> m < mc ->
  slots_table n mc chunk micro !! (c * mc + m) = Some (off c m, micro).
Proof.
  intros Hc Hm. unfold slots_table. rewrite list_lookup_fmap, lookup_seq_lt by nia. cbn.
  rewrite Nat.div_add_l, Nat.div_small, Nat.add_0_r by lia.
  by rewrite (Nat.add_comm (c * mc)), Nat.Div0.mod_add, Nat.mod_small by done.
Qed.

Definition slot_in (m off' len' : nat) : Prop := exists c, c < n /\ m < mc /\ off' = off c m /\ len' = micro.

Lemma slot_in_fits m o l : slot_in m o l -> o + l <= len.
Proof. intros (c & Hc & Hm & -> & ->). by apply off_fits. Qed.

Lemma slot_in_apart m m' o l o' l' : slot_in m o l -> slot_in m' o' l' -> m <> m' -> o + l <= o' \/ o' + l' <= o.
Proof. intros (c & Hc & Hm & -> & ->) (c' & Hc' & Hm' & -> & ->) Hne. apply off_apart; auto. Qed.

(** Row [m] of a buffer: its slots, one per chunk. *)
Definition row (m : nat) (l : list T) : list T := concat (map (fun c => slot_of c m l) (seq 0 n)).

Lemma slot_length c m (l : list T) : c < n -> m < mc -> length l = len -> length (slot_of c m l) = micro.
Proof. intros Hc Hm Hl. apply slice_length. rewrite Hl. by apply off_fits. Qed.

Lemma row_length m (l : list T) : m < mc -> length l = len -> length (row m l) = n * micro.
Proof. intros Hm Hl. apply concat_pieces_length. intros c Hc. by apply slot_length. Qed.

Lemma row_chunk c m (l : list T) : c < n -> m < mc -> length l = len -> slice (c * micro) micro (row m l) = slot_of c m l.
Proof. intros Hc Hm Hl. unfold row. by rewrite (slice_concat n) by (intros; by apply slot_length || done). Qed.

Lemma slot_splice c m c' m' xs (l : list T) :
  c < n -> c' < n -> m < mc -> m' < mc -> length l = len -> length xs = micro ->
  slot_of c m (splice (off c' m') xs l) = if decide (c = c' /\ m = m') then xs else slot_of c m l.
Proof.
  intros Hc Hc' Hm Hm' Hl Hx. assert (Hf := off_fits c' m' Hc' Hm'). case_decide as Hd.
  - destruct Hd as [-> ->]. rewrite <- Hx at 1. apply slice_splice_eq. lia.
  - apply slice_splice_ne; [lia|]. rewrite Hx.
    apply off_apart; [done..|]. destruct (decide (c = c')); [right|by left]. naive_solver.
Qed.

Lemma row_splice c m m' xs (l : list T) :
  c < n -> m < mc -> m' < mc -> length l = len -> length xs = micro ->
  row m' (splice (off c m) xs l) = if decide (m' = m) then splice (c * micro) xs (row m l) else row m' l.
Proof.
  intros Hc Hm Hm' Hl Hx. assert (Hf := off_fits c m Hc Hm).
  assert (Hs : length (splice (off c m) xs l) = len) by (rewrite splice_length; lia).
  assert (Hr := row_length m l Hm Hl). apply (slices_eq n micro).
  - by apply row_length.
  - case_decide; [rewrite splice_length; [done|nia]|by apply row_length].
  - intros c' Hc'. rewrite row_chunk, slot_splice by done. destruct (decide (m' = m)) as [->|Hne].
    + rewrite chunk_splice with (n := n) by done. rewrite row_chunk by done. repeat case_decide; naive_solver.
    + rewrite decide_False by naive_solver. by rewrite row_chunk.
Qed.

Lemma rows_eq (l l' : list T) : length l = len -> length l' = len -> (forall m, m < mc -> row m l = row m l') -> l = l'.
Proof.
  intros Hl Hl' Hr. apply (slices_eq (n * mc) micro); [lia..|]. intros i Hi.
  assert (Hlt : i mod mc < mc) by (apply Nat.mod_upper_bound; lia).
  assert (Hc : i / mc < n) by (apply Nat.Div0.div_lt_upper_bound; lia).
  assert (Hoff : i * micro = off (i / mc) (i mod mc)).
  { rewrite off_idx. f_equal. rewrite (Nat.div_mod_eq i mc) at 1. lia. }
  rewrite Hoff, <- !row_chunk by done. by rewrite Hr.
Qed.

(** ** Chains are tame *)

Abbreviation Tame := (tame (T := T) key_src key_row slot_in Done).
Abbreviation slots := (slots_table n mc chunk micro).

Lemma pipe_key_src i step phase m : i < n -> key_src (pipe_key i step phase m) = i.
Proof. intros Hi. unfold key_src. cbn. unfold wrap16. rewrite Z.mod_small by lia. lia. Qed.

Lemma pipe_key_row i step phase m : m < mc -> key_row (pipe_key i step phase m) = m.
Proof. intros Hm. unfold key_row. cbn. unfold wrap8. rewrite Z.mod_small by lia. lia. Qed.

Lemma mod_lt x : x mod n < n.
Proof. apply Nat.mod_upper_bound. lia. Qed.

Lemma exchange_tame i m ep step phase prev c c' upd k :
  i < n -> m < mc -> c < n -> c' < n ->
  (forall d x, length (upd (ROk tt) d x) = length x) -> (forall d, Tame i m (k (Some d, ROk tt))) ->
  Tame i m (chain_exchange ep (pipe_key i step phase m) (pipe_key prev step phase m) (off c m, micro) (off c' m, micro) upd k).
Proof.
  intros Hi Hm Hc Hc' Hu Hk. cbn. rewrite pipe_key_src, !pipe_key_row by done.
  repeat split; try done; [by exists c|by exists c'].
Qed.

Lemma rs_chain_tame i m ep tmp prev start cnt : i < n -> m < mc ->
  Tame i m (reduce_scatter_chain ep slots mc m tmp i prev n start cnt).
Proof.
  intros Hi Hm. revert tmp start. induction cnt as [|cnt IH]; intros tmp start; cbn [reduce_scatter_chain]; [done|].
  rewrite !slots_lookup by (done || apply mod_lt).
  apply exchange_tame; [done|done|apply mod_lt|apply mod_lt|intros; apply reduce_in_place_length|intros d; apply IH].
Qed.

Lemma fill_length (x d : list T) : length (fill x d) = length x.
Proof. unfold fill. apply splice_length. rewrite length_take. lia. Qed.

Lemma ag_chain_tame i m ep prev start cnt : i < n -> m < mc ->
  Tame i m (allgather_chain ep slots mc m i prev n start cnt).
Proof.
  intros Hi Hm. revert start. induction cnt as [|cnt IH]; intros start; cbn [allgather_chain]; [done|].
  rewrite !slots_lookup by (done || apply mod_lt).
  apply exchange_tame; [done|done|apply mod_lt|apply mod_lt|intros; apply fill_length|intros d; apply IH].
Qed.

(** ** The loops are tame *)

Abbreviation TameMain := (tame_main (T := T) key_src key_row slot_in Done).

Lemma drain_tame i used out fuel k : out <= fuel -> TameMain i ∅ 0 k -> TameMain i used out (drain fuel k).
Proof.
  revert used out. induction fuel as [|fuel IH]; intros used [|out] Ho Hk; cbn; try done; [lia|]. apply IH; [lia|done].
Qed.

Lemma launch_tame i used out maxf fuel ch ms launched k :
  (forall m, m ∈ ms -> Tame i m (ch m) /\ m ∉ used) -> NoDup ms -> out + length ms <= fuel -> TameMain i ∅ 0 k ->
  TameMain i used out (launch maxf fuel ch ms launched k).
Proof.
  intros Hms Hnd Hout Hk. revert used out launched Hms Hout.
  induction Hnd as [|m ms Hnin _ IH]; intros used out launched Hms Hout; cbn [launch]; [apply drain_tame; [cbn in Hout; lia|done]|].
  cbn in Hout. destruct (Hms m) as [Ht Hu]; [by left|]. cbn. split; [done|]. split; [done|].
  assert (Hms' : forall m', m' ∈ ms -> Tame i m' (ch m') /\ m' ∉ {[m]} ∪ used).
  { intros m' Hm'. destruct (Hms m') as [? ?]; [by right|]. split; [done|].
    intros [->%elem_of_singleton|]%elem_of_union; done. }
  destruct (maxf <=? launched + 1); cbn; [|apply IH; [done|lia]]. apply IH; [done|lia].
Qed.

(** ** One chain on all ranks *)

Abbreviation C := (Chain (K := RecvKey) (T := T) (R := Res)).
Abbreviation prev i := (prev_of n i).

(** [buf] and the chain's [tmp] at rank [i] after [s] steps of the chain of row [m]. *)
Fixpoint prs (m : nat) (B : nat -> list T) (s : nat) : nat -> list T * list T :=
  match s with
  | O => fun i => (B i, replicate micro T_default)
  | S s => fun i =>
      let (buf, tmp) := prs m B s i in
      let tmp := fill tmp (slot_of ((prev i + n - s) mod n) m (prs m B s (prev i)).1) in
      let rc := (i + n - s - 1) mod n in
      (splice (off rc m) (reduce_in_place (slot_of rc m buf) tmp) buf, tmp)
  end.

Fixpoint pag (m : nat) (B : nat -> list T) (s : nat) : nat -> list T :=
  match s with
  | O => B
  | S s => fun i =>
      let buf := pag m B s i in
      let rc := (i + n - s) mod n in
      splice (off rc m) (fill (slot_of rc m buf) (slot_of ((prev i + n - s + 1) mod n) m (pag m B s (prev i)))) buf
  end.

Lemma chain_steps m (ch : nat -> nat -> C) (st data : nat -> nat -> list T) phase start cnt :
  (forall i s, i < n -> start <= s < start + cnt -> exists c c',
     alone (ch s i) (st s i) = Send (next_of n i) (pipe_key i s phase m) (data s i) c /\
     c (ROk tt) = Recv (pipe_key (prev i) s phase m) c' /\
     alone (ch (S s) i) (st (S s) i) = c' (ROk (data s (prev i)))) ->
  rtc spmd_step (ranks n (fun i => alone (ch start i) (st start i)), ∅)
    (ranks n (fun i => alone (ch (start + cnt) i) (st (start + cnt) i)), ∅).
Proof.
  revert start. induction cnt as [|cnt IH]; intros start Hs; [rewrite Nat.add_0_r; apply rtc_refl|].
  etrans; [|rewrite <- Nat.add_succ_comm; apply IH; intros; apply Hs; lia].
  apply (exchange_steps n _ _ (next_of n) (prev_of n) (fun i => pipe_key i start phase m) (data start)).
  - intros i Hi. destruct (ring_cycle n i Hn Hi) as (? & ? & ? & ?). done.
  - intros i Hi. apply Hs; [done|lia].
Qed.

Abbreviation rs_ch m := (fun i => reduce_scatter_chain (next_of n i) slots mc m (replicate micro T_default) i (prev i) n 0 (n - 1)).
Abbreviation ag_ch m := (fun i => allgather_chain (next_of n i) slots mc m i (prev i) n 0 (n - 1)).

Lemma rs_chain_steps m B : m < mc ->
  rtc spmd_step (ranks n (fun i => alone (rs_ch m i) (B i)), ∅)
    (ranks n (fun i => Ret ((prs m B (n - 1) i).1, Done)), ∅).
Proof.
  intros Hm.
  assert (Hs := chain_steps m
    (fun s i => reduce_scatter_chain (next_of n i) slots mc m (prs m B s i).2 i (prev i) n s (n - 1 - s))
    (fun s i => (prs m B s i).1) (fun s i => slot_of ((i + n - s) mod n) m (prs m B s i).1) 0 0 (n - 1)).
  cbn beta in Hs. rewrite Nat.add_0_l, Nat.sub_diag, Nat.sub_0_r in Hs. apply Hs. clear Hs.
  intros i s Hi Hs. replace (n - 1 - s) with (S (n - 1 - S s)) by lia. cbn [reduce_scatter_chain prs].
  rewrite !slots_lookup by (done || apply mod_lt). destruct (prs m B s i) as [buf tmp].
  do 2 eexists. split; [done|]. split; done.
Qed.

Lemma ag_chain_steps m B : m < mc ->
  rtc spmd_step (ranks n (fun i => alone (ag_ch m i) (B i)), ∅)
    (ranks n (fun i => Ret (pag m B (n - 1) i, Done)), ∅).
Proof.
  intros Hm.
  assert (Hs := chain_steps m
    (fun s i => allgather_chain (next_of n i) slots mc m i (prev i) n s (n - 1 - s))
    (fun s i => pag m B s i) (fun s i => slot_of ((i + n - s + 1) mod n) m (pag m B s i)) 1 0 (n - 1)).
  cbn beta in Hs. rewrite Nat.add_0_l, Nat.sub_diag, Nat.sub_0_r in Hs. apply Hs. clear Hs.
  intros i s Hi Hs. replace (n - 1 - s) with (S (n - 1 - S s)) by lia. cbn [allgather_chain pag].
  rewrite !slots_lookup by (done || apply mod_lt).
  do 2 eexists. split; [done|]. split; done.
Qed.

(** ** What a chain does to the rows *)

Definition Sized (B : nat -> list T) : Prop := forall i, i < n -> length (B i) = len.

(** It changes its own row only. *)
Definition Rows (m : nat) (B B' : nat -> list T) : Prop :=
  Sized B' /\ forall m' i, m' < mc -> m' <> m -> i < n -> row m' (B' i) = row m' (B i).

Lemma put_rows m B B' i c xs : m < mc -> i < n -> c < n -> length xs = micro -> Rows m B B' ->
  length (splice (off c m) xs (B' i)) = len /\
  (forall m', m' < mc -> m' <> m -> row m' (splice (off c m) xs (B' i)) = row m' (B i)).
Proof.
  intros Hm Hi Hc Hx [HS HR]. assert (Hl := HS i Hi). assert (Hf := off_fits c m Hc Hm). split.
  - rewrite splice_length; [done|]. lia.
  - intros m' Hm' Hne. rewrite row_splice by done. rewrite decide_False by done. by apply HR.
Qed.

Lemma prs_rows m B s : m < mc -> Sized B -> s <= n - 1 ->
  Rows m B (fun i => (prs m B s i).1) /\
  forall i, i < n -> (row m (prs m B s i).1, (prs m B s i).2) = rs_state T_default n micro (fun j => row m (B j)) s i.
Proof.
  intros Hm HB. induction s as [|s IH]; intros Hs.
  { split; [split; [done|]|]; done. }
  destruct (IH ltac:(lia)) as [HR Hrow]. clear IH. destruct HR as [HS HO].
  assert (Hnew : forall i, i < n -> length (reduce_in_place (slot_of ((i + n - s - 1) mod n) m (prs m B s i).1)
      (fill (prs m B s i).2 (slot_of ((prev i + n - s) mod n) m (prs m B s (prev i)).1))) = micro).
  { intros i Hi. rewrite reduce_in_place_length. apply slot_length; [apply mod_lt|done|by apply HS]. }
  split; [split|].
  - intros i Hi. specialize (Hnew i Hi). cbn [prs]. cbv beta.
    assert (Hp := put_rows m B (fun i => (prs m B s i).1) i ((i + n - s - 1) mod n) _ Hm Hi (mod_lt _) Hnew (conj HS HO)).
    cbv beta in Hp. destruct (prs m B s i) as [buf tmp]. apply Hp.
  - intros m' i Hm' Hne Hi. specialize (Hnew i Hi). cbn [prs]. cbv beta.
    assert (Hp := put_rows m B (fun i => (prs m B s i).1) i ((i + n - s - 1) mod n) _ Hm Hi (mod_lt _) Hnew (conj HS HO)).
    cbv beta in Hp. destruct (prs m B s i) as [buf tmp]. by apply Hp.
  - intros i Hi. assert (Hpl : prev i < n) by apply mod_lt. cbn [prs rs_state].
    rewrite <- (Hrow i Hi), <- (Hrow (prev i) Hpl). cbn [fst snd]. unfold rs_send.
    assert (Hl := HS i Hi). assert (Hlp := HS (prev i) Hpl). specialize (Hnew i Hi). cbv beta in Hl, Hlp.
    destruct (prs m B s i) as [buf tmp]. cbn [fst snd] in *.
    rewrite !row_chunk by (done || apply mod_lt). f_equal.
    rewrite row_splice by (done || apply mod_lt). by rewrite decide_True.
Qed.

Lemma pag_rows m B s bufs : m < mc -> Sized B -> s <= n - 1 ->
  (forall i, i < n -> row m (B i) = ag_state T_default n micro bufs 0 i) ->
  Rows m B (pag m B s) /\ forall i, i < n -> row m (pag m B s i) = ag_state T_default n micro bufs s i.
Proof.
  intros Hm HB Hs H0. induction s as [|s IH].
  { split; [split; [done|]|]; done. }
  destruct (IH ltac:(lia)) as [HR Hrow]. clear IH. assert (HS := proj1 HR).
  assert (Hnew : forall i, i < n -> length (fill (slot_of ((i + n - s) mod n) m (pag m B s i))
      (slot_of ((prev i + n - s + 1) mod n) m (pag m B s (prev i)))) = micro).
  { intros i Hi. rewrite fill_length. apply slot_length; [apply mod_lt|done|by apply HS]. }
  split; [split|].
  - intros i Hi. by apply (put_rows m B (pag m B s) i ((i + n - s) mod n) _ Hm Hi (mod_lt _) (Hnew i Hi) HR).
  - intros m' i Hm' Hne Hi.
    by apply (put_rows m B (pag m B s) i ((i + n - s) mod n) _ Hm Hi (mod_lt _) (Hnew i Hi) HR).
  - intros i Hi. assert (Hpl : prev i < n) by apply mod_lt. cbn [pag ag_state]. specialize (Hnew i Hi).
    rewrite row_splice by (done || apply mod_lt || by apply HS). rewrite decide_True by done.
    unfold ag_send. rewrite <- (Hrow i Hi), <- (Hrow (prev i) Hpl).
    rewrite !row_chunk by (done || apply mod_lt || by apply HS). done.
Qed.

(** ** The loops of all ranks, one chain at a time *)

Abbreviation MainT := (Main (K := RecvKey) (T := T) (R := Res)).
Abbreviation waiting B k o := (pranks n (fun i => mkRank (B i) (k i) ∅ (replicate o Done))).

Lemma drain_steps (B : nat -> list T) fuel o (k : nat -> MainT) : o <= fuel ->
  rtc pool_steps (waiting B (fun i => drain fuel (k i)) o, ∅) (waiting B k 0, ∅).
Proof.
  revert o. induction fuel as [|fuel IH]; intros o Ho.
  - assert (o = 0) as -> by lia. apply (all_local n None). intros i Hi. cbn. rewrite decide_False by naive_solver. done.
  - destruct o as [|o].
    + apply (all_local n None). intros i Hi. cbn. rewrite decide_False by naive_solver. done.
    + etrans; [|apply (IH o); lia]. apply (all_local n None). intros i Hi. cbn. rewrite decide_False by naive_solver. done.
Qed.

Lemma launch_live maxf fuel (ch : nat -> C) ms launched (k : MainT) x : launch maxf fuel ch ms launched k <> MRet x.
Proof. destruct ms; [by destruct fuel|done]. Qed.

(** The ranks run chain after chain: [runs m B B'] is what one chain does to the
    buffers of all ranks. *)
Inductive Runs (runs : nat -> (nat -> list T) -> (nat -> list T) -> Prop) : list nat -> (nat -> list T) -> (nat -> list T) -> Prop :=
| runs_nil B : Runs runs [] B B
| runs_cons m ms B B1 B' : runs m B B1 -> Runs runs ms B1 B' -> Runs runs (m :: ms) B B'.

Lemma launch_steps (runs : nat -> (nat -> list T) -> (nat -> list T) -> Prop) maxf fuel (ch : nat -> nat -> C)
    ms launched (k : nat -> MainT) o B B' :
  (forall m B B', runs m B B' -> rtc spmd_step (ranks n (fun i => alone (ch i m) (B i)), ∅)
     (ranks n (fun i => Ret (B' i, Done)), ∅)) ->
  Runs runs ms B B' -> o + length ms <= fuel ->
  rtc pool_steps (waiting B (fun i => launch maxf fuel (ch i) ms launched (k i)) o, ∅) (waiting B' k 0, ∅).
Proof.
  intros Hrun HR. revert launched o. induction HR as [B|m ms B B1 B' Hm _ IH]; intros launched o Ho.
  { by apply drain_steps; cbn in Ho; lia. }
  cbn [length] in Ho. set (next i := if maxf <=? launched + 1 then
      MNext (fun r => match r with
        | Some (Ok (ROk _)) | None => launch maxf fuel (ch i) ms (launched + 1) (k i) | Some r => MRet r end)
      else launch maxf fuel (ch i) ms (launched + 1) (k i)).
  etrans.
  { apply (all_local n None) with (G := fun i => mkRank (B i) (next i) {[m := ch i m]} (replicate o Done)).
    intros i Hi. done. }
  etrans.
  { apply (chains_steps n m next (fun _ => replicate o Done)) with (bs' := B1) (x := Done); [|by apply Hrun].
    intros i x. unfold next. destruct (maxf <=? _); [done|apply launch_live]. }
  rewrite <- replicate_S_end. unfold next. destruct (maxf <=? launched + 1).
  - etrans; [|apply (IH (launched + 1) o); lia]. apply (all_local n None). intros i Hi. cbn.
    rewrite decide_False by naive_solver. done.
  - apply (IH (launched + 1) (S o)). lia.
Qed.

(** Chains in turn: row after row goes from [α] to [β]. *)
Lemma runs_rows (runs : nat -> (nat -> list T) -> (nat -> list T) -> Prop) (α β : nat -> nat -> list T) ms B :
  (forall m B, m < mc -> Sized B -> (forall i, i < n -> row m (B i) = α m i) ->
     exists B', runs m B B' /\ Rows m B B' /\ forall i, i < n -> row m (B' i) = β m i) ->
  NoDup ms -> (forall m, m ∈ ms -> m < mc) -> Sized B ->
  (forall m i, m < mc -> i < n -> m ∈ ms -> row m (B i) = α m i) ->
  exists B', Runs runs ms B B' /\ Sized B' /\
    forall m i, m < mc -> i < n -> row m (B' i) = if decide (m ∈ ms) then β m i else row m (B i).
Proof.
  intros Hrun Hnd. revert B. induction Hnd as [|m ms Hnin _ IH]; intros B Hms HB Hα.
  { exists B. split; [constructor|]. split; [done|]. intros m i _ _. rewrite decide_False; [done|]. by intros ?%elem_of_nil. }
  assert (Hm : m < mc) by (apply Hms; by left).
  destruct (Hrun m B Hm HB) as (B1 & Hr & [HB1 HO] & Hβ); [intros i Hi; apply Hα; [done|done|by left]|].
  destruct (IH B1) as (B' & HR & HB' & Hrow).
  - intros m' Hm'. apply Hms. by right.
  - done.
  - intros m' i Hm' Hi Hin. rewrite HO; [apply Hα; [done|done|by right]|done| |done]. by intros ->.
  - exists B'. split; [by econstructor|]. split; [done|]. intros m' i Hm' Hi. rewrite Hrow by done.
    destruct (decide (m' ∈ ms)).
    + rewrite decide_True; [done|by right].
    + destruct (decide (m' = m)) as [->|Hne].
      * rewrite decide_True by by left. by apply Hβ.
      * rewrite decide_False; [by apply HO|]. by intros [|]%elem_of_cons.
Qed.

(** ** The result is that of the plain ring *)

Lemma row_partial m bufs c d : Sized bufs -> m < mc -> c < n -> d < n ->
  slice (m * micro) micro (partial n chunk bufs c d) = partial n micro (fun j => row m (bufs j)) c d.
Proof.
  intros HB Hm Hc. assert (Hslot : forall j, j < n ->
    slice (m * micro) micro (slice (c * chunk) chunk (bufs j)) = slice (c * micro) micro (row m (bufs j))).
  { intros j Hj. rewrite row_chunk by (done || by apply HB). apply slice_slice. nia. }
  induction d as [|d IH]; intros Hd; cbn [partial]; [by apply Hslot|].
  rewrite slice_zip, IH, Hslot by (lia || apply mod_lt). done.
Qed.

Lemma row_ring_result m bufs : Sized bufs -> m < mc ->
  row m (ring_result n chunk bufs) = ring_result n micro (fun j => row m (bufs j)).
Proof.
  intros HB Hm. unfold row at 1, ring_result at 2. f_equal. apply map_ext_in. intros c Hc%in_seq.
  unfold off, finished. rewrite <- (row_partial m bufs c (n - 1)) by (done || lia).
  rewrite <- (slice_slice (c * chunk) chunk) by nia. f_equal.
  apply (slice_concat n chunk (fun c => partial n chunk bufs c (n - 1))); [|lia].
  intros c' Hc'. by apply partial_length.
Qed.

Lemma ring_result_length bufs : Sized bufs -> length (ring_result n chunk bufs) = len.
Proof. intros HB. apply concat_pieces_length. intros c Hc. by apply partial_length. Qed.

Context {Proto : Type} (config : PipelineConfig Proto) (comm : nat -> UcxCommunicator) (bufs : nat -> list T).
Context (Hcfg : micro_chunks config = mc) (Hmax : 1 <= max_in_flight config).
Context (Hcomm : forall i, i < n -> CommOk n i (comm i)) (Hlen : Sized bufs).

Definition phase2 (i : nat) : MainT :=
  launch (max_in_flight config) mc (fun m => ag_ch m i) (seq 0 mc) 0 (MRet Done).
Definition phase1 (i : nat) : MainT :=
  launch (max_in_flight config) mc (fun m => rs_ch m i) (seq 0 mc) 0 (phase2 i).

Lemma pipe_unfold i : i < n -> pipe_rank T_default (comm i) (bufs i) config = mkRank (bufs i) (phase1 i) ∅ [].
Proof.
  intros Hi. destruct (Hcomm i Hi) as [Hr Hs He]. destruct (ring_cycle n i Hn Hi) as (Hlt & _).
  assert (Hx := He _ Hlt (next_ne n Hn i Hi)). unfold pipe_rank, pipelined_ring. rewrite Hr, Hs, Hcfg, Hlen by done.
  destruct (Nat.leb_spec n 1); [lia|]. destruct (Nat.eqb_spec mc 0); [lia|].
  destruct (Nat.eqb_spec (max_in_flight config) 0); [lia|]. destruct (Nat.ltb_spec 255 mc); [lia|]. cbn [orb].
  rewrite (Nat.mul_comm n), Nat.Div0.mod_mul, Nat.div_mul by lia. cbn [Nat.eqb negb].
  rewrite (Nat.mul_comm mc), Nat.Div0.mod_mul, Nat.div_mul by lia. cbn [Nat.eqb negb].
  unfold next_of in Hx. cbv zeta. by rewrite Hx, (Nat.mul_comm micro).
Qed.

Definition rs_run (m : nat) (B B' : nat -> list T) : Prop := m < mc /\ B' = fun i => (prs m B (n - 1) i).1.
Definition ag_run (m : nat) (B B' : nat -> list T) : Prop := m < mc /\ B' = pag m B (n - 1).

Lemma elem_seq m : m ∈ seq 0 mc <-> m < mc.
Proof. rewrite list_elem_of_In, in_seq. lia. Qed.

Lemma pipe_steps :
  rtc pool_steps (pranks n (fun i => pipe_rank T_default (comm i) (bufs i) config), ∅)
    (pranks n (fun _ => returned (ring_result n chunk bufs) Done), ∅).
Proof.
  assert (Hrl : forall m i, m < mc -> i < n -> length (row m (bufs i)) = n * micro)
    by (intros; by apply row_length, Hlen).
  destruct (runs_rows rs_run
    (fun m i => row m (bufs i)) (fun m i => ag_state T_default n micro (fun j => row m (bufs j)) 0 i) (seq 0 mc) bufs)
    as (B1 & HR1 & HB1 & Hrow1).
  { intros m B Hm HB Hα. destruct (prs_rows m B (n - 1) Hm HB ltac:(lia)) as [HR Hrow].
    eexists. split; [by split|]. split; [done|]. intros i Hi. cbn [ag_state]. cbv beta.
    assert (Hr := f_equal fst (Hrow i Hi)). cbn in Hr. rewrite Hr. f_equal. by apply rs_state_ext. }
  { apply NoDup_ListNoDup, seq_NoDup. }
  { by intros m ?%elem_seq. }
  { done. }
  { done. }
  destruct (runs_rows ag_run
    (fun m i => ag_state T_default n micro (fun j => row m (bufs j)) 0 i)
    (fun m i => ring_result n micro (fun j => row m (bufs j))) (seq 0 mc) B1) as (B2 & HR2 & HB2 & Hrow2).
  { intros m B Hm HB Hα. destruct (pag_rows m B (n - 1) _ Hm HB ltac:(lia) Hα) as [HR Hrow].
    eexists. split; [by split|]. split; [done|]. intros i Hi. rewrite Hrow by done.
    apply ag_final; [done| |done]. intros j Hj. by apply Hrl. }
  { apply NoDup_ListNoDup, seq_NoDup. }
  { by intros m ?%elem_seq. }
  { done. }
  { intros m i Hm Hi Hin. rewrite Hrow1 by done. by rewrite decide_True. }
  rewrite (pranks_ext n _ _ pipe_unfold).
  etrans.
  { apply (launch_steps rs_run _ _ (fun i m => rs_ch m i) (seq 0 mc) 0 phase2 0 bufs B1);
      [intros m B B' [Hm ->]; by apply rs_chain_steps|done|by rewrite length_seq]. }
  etrans.
  { apply (launch_steps ag_run _ _ (fun i m => ag_ch m i) (seq 0 mc) 0 (fun _ => MRet Done) 0 B1 B2);
      [intros m B B' [Hm ->]; by apply ag_chain_steps|done|by rewrite length_seq]. }
  apply reflexive_eq. f_equal. apply pranks_ext. intros i Hi. unfold returned. cbn [replicate]. f_equal.
  apply rows_eq; [by apply HB2|by apply ring_result_length|]. intros m Hm. rewrite Hrow2, row_ring_result by done.
  by rewrite decide_True by by apply elem_seq.
Qed.

Lemma pipe_tame : tame_world key_src key_row slot_in len Done
  (pranks n (fun i => pipe_rank T_default (comm i) (bufs i) config), ∅ : gmap (nat * RecvKey) (list (list T))).
Proof.
  intros i r Hr. cbn [fst] in Hr. destruct (decide (i < n)) as [Hi|Hi]; cycle 1.
  { by rewrite lookup_ge_None_2 in Hr by (unfold pranks; rewrite length_map, length_seq; lia). }
  rewrite pranks_lookup in Hr by done. injection Hr as <-. rewrite pipe_unfold by done.
  assert (Hseq : forall m, m ∈ seq 0 mc -> m < mc) by by intros m ?%elem_seq. split; cbn.
  - exists ∅. split; [intros m [c Hc]; by rewrite lookup_empty in Hc|]. rewrite map_size_empty. cbn.
    unfold phase1, phase2.
    apply launch_tame; [intros m ?%Hseq; split; [by apply rs_chain_tame|set_solver]|apply NoDup_ListNoDup, seq_NoDup|by rewrite length_seq|].
    apply launch_tame; [intros m ?%Hseq; split; [by apply ag_chain_tame|set_solver]|apply NoDup_ListNoDup, seq_NoDup|by rewrite length_seq|done].
  - intros m c Hc. by rewrite lookup_empty in Hc.
  - constructor.
  - by apply Hlen.
Qed.
End facts.

Lemma pipe_completes {T} `{Op T} (T_default : T) {Proto} n mc micro (config : PipelineConfig Proto)
    (comm : nat -> UcxCommunicator) (bufs : nat -> list T) :
  2 <= n -> (Z.of_nat n <= 65536)%Z -> 1 <= mc <= 255 -> micro_chunks config = mc -> 1 <= max_in_flight config ->
  (forall i, i < n -> CommOk n i (comm i)) -> (forall i, i < n -> length (bufs i) = n * (mc * micro)) ->
  PoolCompletes (pranks n (fun i => pipe_rank T_default (comm i) (bufs i) config))
    (map (fun _ => (ring_result n (mc * micro) bufs, Ok (ROk tt))) (seq 0 n)).
Proof.
  intros Hn H16 Hmc Hcfg Hmax Hcomm Hlen.
  apply (pool_completes key_src key_row (slot_in n mc micro) (n * (mc * micro)) (Ok (ROk tt))).
  - intros m o l. apply slot_in_fits; lia.
  - intros m m' o l o' l'. apply slot_in_apart; lia.
  - apply pipe_tame; done || lia.
  - rewrite map_map. apply (pipe_steps T_default n mc micro); done || lia.
Qed.

(** C27. The pipelined ring computes what the plain ring computes, on every schedule.
    For 2 to 65536 ranks, 1 to 255 micro-chunks that divide the chunk, any positive
    [max_in_flight] and buffers of one length, every interleaving of the ranks and of
    the concurrent chains of each rank ends, without deadlock, with [Ok] and the
    plain ring's result at every rank: the same operations on the same operands in
    the same order, whatever the operator (no rounding difference for floats). *)
Theorem pipelined_ring_correct {T} `{Op T} (T_default : T) {Proto} n mc micro (config : PipelineConfig Proto)
    (comm : nat -> UcxCommunicator) (bufs : nat -> list T) :
  2 <= n -> (Z.of_nat n <= 65536)%Z -> 1 <= mc <= 255 -> micro_chunks config = mc -> 1 <= max_in_flight config ->
  (forall i, i < n -> CommOk n i (comm i)) -> (forall i, i < n -> length (bufs i) = n * (mc * micro)) ->
  PoolCompletes (pranks n (fun i => pipe_rank T_default (comm i) (bufs i) config))
    (map (fun _ => (ring_result n (mc * micro) bufs, Ok (ROk tt))) (seq 0 n)).
Proof. apply pipe_completes. Qed.

Lemma pipelined_ring_correct_witness :
  PoolCompletes (pranks 2 (fun i => pipe_rank (H := BitXor_u32) 0%Z (full_comm 2 i)
      [Z.of_nat i; 2; 3; 4; 5; 6; 7; 8]%Z (mkPipeline unit 2 1 None)))
    (map (fun _ => ([1; 0; 0; 0; 0; 0; 0; 0]%Z, Ok (ROk tt))) (seq 0 2)).
Proof.
  apply (pipelined_ring_correct (H := BitXor_u32) 0%Z 2 2 2 (mkPipeline unit 2 1 None) (full_comm 2)
    (fun i => [Z.of_nat i; 2; 3; 4; 5; 6; 7; 8]%Z)).
  - lia.
  - lia.
  - lia.
  - reflexivity.
  - cbn. lia.
  - intros i _. apply full_comm_ok.
  - reflexivity.
Defined.
