(* ===== verification/PoolNet.v ===== *)
(** * PoolNet: pools of chains that receive through their router

    [AmNet] does it for ranks that run one program; here a rank drives a pool of chains
    ([Pool]), whose receives wait in one router.  Each chain has its own [RecvFuture] and
    is polled again only when the router woke it, as [FuturesUnordered] polls its
    children.  The refinement theorem carries what every schedule of [Pool] ends with over
    to these ranks, for chains that send each key once; then it is applied to the
    pipelined ring. *)

From S2P Require Import Prelude Future CollBase AmRouter Spmd Pool AmNet.
Local Open Scope nat_scope.

Lemma size_union_le (X Y : gset nat) : size (X ∪ Y) <= size X + size Y.
Proof. rewrite size_union_alt. assert (Hs := subseteq_size (Y ∖ X) Y ltac:(set_solver)). lia. Qed.

Section poolnet.
Context {T R : Type} (debug : bool) (n : nat).
(** The casts between elements and bytes, and the bytes in the buffer a rank receives
    the message of a key into. *)
Context (enc : list T -> list Z) (dec : list Z -> list T) (target : nat -> RecvKey -> list Z).
Abbreviation PRank := (PoolRank (K := RecvKey) (T := T) (R := R)).
Abbreviation PChain := (Chain (K := RecvKey) (T := T) (R := R)).
Abbreviation PMain := (Main (K := RecvKey) (T := T) (R := R)).

(** ** Ranks *)

(** [pn_recvs]: the receive futures of the chains; [pn_cell] numbers the next one;
    [pn_awake]: the chains that are queued to be polled. *)
Record PnRank : Type := mkPn {
  pn_rank : PRank;
  pn_router : AmRouter;
  pn_recvs : gmap nat RecvFuture;
  pn_cell : nat;
  pn_awake : gset nat
}.
Abbreviation PnWorld := (list PnRank * list (nat * AmMsg))%type.

Definition pn_start (r : PRank) : PnRank := mkPn r AmRouter_new ∅ 0 (dom (prpool r)).
Definition pn_init (rs : list PRank) : PnWorld := (map pn_start rs, []).

(** The waker of a chain. *)
Definition chain_waker (m : nat) : Waker := mkWaker m TaskQueue.

(** ** Steps *)

(** The main of rank [i] pushes a chain, which is queued, or takes a result. *)
Definition pn_main (i : nat) (a : PnWorld) : option PnWorld :=
  r ← a.1 !! i;
  _ ← op_of None (pn_rank r);
  let pushed := match prmain (pn_rank r) with MPush m _ _ => {[m]} | _ => ∅ end in
  Some (<[i := mkPn (after None (pn_rank r) []) (pn_router r) (pn_recvs r) (pn_cell r) (pushed ∪ pn_awake r)]> a.1, a.2).

(** Its chain [m], if it is queued, runs to its next send or poll, or returns. *)
Definition pn_chain (i m : nat) (a : PnWorld) : option PnWorld :=
  r ← a.1 !! i;
  _ ← op_of (Some m) (pn_rank r);
  c ← prpool (pn_rank r) !! m;
  if decide (m ∉ pn_awake r) then None
  else
    let moved d := after (Some m) (pn_rank r) d in
    match c with
    | CRet _ => Some (<[i := mkPn (moved []) (pn_router r) (pn_recvs r) (pn_cell r) (pn_awake r ∖ {[m]})]> a.1, a.2)
    | CSend dst key off len _ =>
        Some (<[i := mkPn (moved []) (pn_router r) (pn_recvs r) (pn_cell r) (pn_awake r)]> a.1,
              a.2 ++ [(dst, msg_of key (enc (slice off len (prbuf (pn_rank r)))))])
    | CRecv key _ _ _ _ =>
        let '(router, f) := match pn_recvs r !! m with
                            | Some f => (pn_router r, f)
                            | None => RecvFuture_new key (pn_cell r) (target i key) (pn_router r)
                            end in
        match RecvFuture_poll debug (chain_waker m) f router with
        | Ok (router, f, Pending) =>
            Some (<[i := mkPn (pn_rank r) router (<[m := f]> (pn_recvs r)) (S (pn_cell r)) (pn_awake r ∖ {[m]})]> a.1, a.2)
        | Ok (router, f, Ready (ROk _)) =>
            Some (<[i := mkPn (moved (dec (ctarget (cell_at (rf_cell f) router)))) (RecvFuture_drop f router)
                           (delete m (pn_recvs r)) (S (pn_cell r)) (pn_awake r)]> a.1, a.2)
        | _ => None
        end
    end.

(** The dispatcher of its destination takes the [j]-th message. *)
Definition pn_deliver (j : nat) (a : PnWorld) : option PnWorld :=
  '(dst, msg) ← a.2 !! j;
  r ← a.1 !! dst;
  let (router, ws) := dispatcher_loop [msg] (pn_router r) in
  Some (<[dst := mkPn (pn_rank r) router (pn_recvs r) (pn_cell r) (list_to_set (map task_id ws) ∪ pn_awake r)]> a.1,
        delete j a.2).

Inductive PnLabel : Type := PnMain (i : nat) | PnChain (i m : nat) | PnDeliver (j : nat).
Definition pn_lstep (l : PnLabel) : PnWorld -> option PnWorld :=
  match l with PnMain i => pn_main i | PnChain i m => pn_chain i m | PnDeliver j => pn_deliver j end.
Definition pn_step (a a' : PnWorld) : Prop := exists l, pn_lstep l a = Some a'.

(** Every execution is finite and ends with the buffers and results [fin], nothing on its
    way, nothing in the routers and no receive left. *)
Record PnCompletes (rs : list PRank) (fin : list (list T * R)) : Prop := {
  pnc_bound : exists N, forall m a, nsteps pn_step m (pn_init rs) a -> m <= N;
  pnc_done a : rtc pn_step (pn_init rs) a -> (forall a', ~ pn_step a a') ->
    map pn_rank a.1 = map (fun f => returned f.1 f.2) fin /\ a.2 = [] /\
    Forall (fun r => slots (pn_router r) = ∅ /\ pn_recvs r = ∅) a.1
}.

(** ** Chains that send each key once *)

Context (ord : RecvKey -> nat) (slot_in : nat -> nat -> nat -> Prop) (blen : nat) (good : R).

(** The keys a chain sends rise from [b] to below [e], and messages have the length the
    receiver has room for. *)
Fixpoint rising (i b e : nat) (c : PChain) : Prop :=
  match c with
  | CRet _ => b <= e
  | CSend dst key off len cont =>
      dst < n /\ key_ok key /\ b <= ord key < e /\ (forall d, length d = len -> length (enc d) = length (target dst key)) /\
      rising i (S (ord key)) e (cont (ROk tt))
  | CRecv key off len upd cont =>
      forall d, length (enc d) = length (target i key) -> rising i b e (cont (ROk d))
  end.

Definition raise (lvl : nat -> nat) (m e : nat) : nat -> nat := fun m' => if decide (m' = m) then e else lvl m'.

(** Every chain that the main pushes under the number [m] goes on where the one before
    ended. *)
Fixpoint climbing (i : nat) (lvl : nat -> nat) (k : PMain) : Prop :=
  match k with
  | MRet _ => True
  | MPush m c k => exists e, lvl m <= e /\ rising i (lvl m) e c /\ climbing i (raise lvl m e) k
  | MNext k => forall o, climbing i lvl (k o)
  end.

Abbreviation Tame := (TameRank key_src key_row slot_in blen good).

Definition once (i : nat) (r : PRank) : Prop := Tame i r /\ prpool r = ∅ /\ climbing i (fun _ => 0) (prmain r).

(** * Facts *)

Context (dec_enc : forall d, dec (enc d) = d).
Context (slot_fits : forall m off len, slot_in m off len -> off + len <= blen).
Context (slot_apart : forall m m' off len off' len', slot_in m off len -> slot_in m' off' len' -> m <> m' ->
  off + len <= off' \/ off' + len' <= off).

(** ** Where messages are *)

Definition pn_early (r : PnRank) (key : RecvKey) : list (list Z) :=
  match slots (pn_router r) !! key with Some (SEarly b) => [b] | _ => [] end.
Definition pn_arrived (r : PnRank) (key : RecvKey) : list (list Z) :=
  match pn_recvs r !! key_row key with
  | Some f => if decide (rf_key f = key) then
                let x := cell_at (rf_cell f) (pn_router r) in if cdone x then [ctarget x] else []
              else []
  | None => []
  end.
Definition pn_has (r : PnRank) (key : RecvKey) : list (list Z) := pn_early r key ++ pn_arrived r key.
Definition pn_held (ranks : list PnRank) (l : list (nat * RecvKey * list Z)) (dst : nat) (key : RecvKey) : list (list Z) :=
  on_wire l dst key ++ match ranks !! dst with Some r => pn_has r key | None => [] end.

Lemma pn_held_insert ranks l l' i r r' dst key : ranks !! i = Some r -> on_wire l' dst key = on_wire l dst key ->
  (dst = i -> pn_has r' key = pn_has r key) -> pn_held (<[i := r']> ranks) l' dst key = pn_held ranks l dst key.
Proof.
  intros Hi Hl Hr. unfold pn_held. rewrite Hl. f_equal. destruct (decide (dst = i)) as [->|Hne].
  - rewrite list_lookup_insert_eq by (by eapply lookup_lt_Some). rewrite Hi. by apply Hr.
  - by rewrite list_lookup_insert_ne.
Qed.

Lemma pn_held_at ranks l i r key : ranks !! i = Some r -> pn_held ranks l i key = on_wire l i key ++ pn_has r key.
Proof. intros Hi. unfold pn_held. by rewrite Hi. Qed.

Lemma pn_held_insert_at ranks l i r r' key : ranks !! i = Some r ->
  pn_held (<[i := r']> ranks) l i key = on_wire l i key ++ pn_has r' key.
Proof. intros Hi. apply pn_held_at. apply list_lookup_insert_eq. by eapply lookup_lt_Some. Qed.

(** The receive of a chain waits asleep, or was woken and has its message. *)
Inductive RecvOk (i : nat) (r : PnRank) (m : nat) (key : RecvKey) (c : nat) : Prop :=
| recv_waits : (m ∉ pn_awake r) ->
    slots (pn_router r) !! key = Some (SPending (mkPending c (length (target i key)) (Some (chain_waker m)))) ->
    cells (pn_router r) !! c = Some (mkCell false (target i key)) -> RecvOk i r m key c
| recv_has d : m ∈ pn_awake r -> slots (pn_router r) !! key = None -> cells (pn_router r) !! c = Some (mkCell true d) -> length d = length (target i key) ->
    RecvOk i r m key c.

Record PnOk (i : nat) (r : PnRank) : Prop := {
  po_slots k x : slots (pn_router r) !! k = Some x ->
    (exists b, x = SEarly b /\ length b = length (target i k)) \/
    (exists c, x = SPending (mkPending c (length (target i k)) (Some (chain_waker (key_row k)))) /\
       pn_recvs r !! key_row k = Some (mkRecv k c true (length (target i k))));
  po_recvs m f : pn_recvs r !! m = Some f -> exists k off len upd cont c,
    prpool (pn_rank r) !! m = Some (CRecv k off len upd cont) /\ f = mkRecv k c true (length (target i k)) /\
    key_row k = m /\ c < pn_cell r /\ RecvOk i r m k c;
  po_idle m : is_Some (prpool (pn_rank r) !! m) -> pn_recvs r !! m = None -> m ∈ pn_awake r;
  po_cells m m' f f' : pn_recvs r !! m = Some f -> pn_recvs r !! m' = Some f' -> rf_cell f = rf_cell f' -> m = m'
}.

(** ** The simulation *)

Abbreviation PWorld := (list PRank * gmap (nat * RecvKey) (list (list T)))%type.
Abbreviation wire_of l := (map (fun m => (m.1.1, msg_of m.1.2 m.2)) l : list (nat * AmMsg)).
Implicit Types (a : PnWorld) (r : PnRank) (w : PWorld) (l : list (nat * RecvKey * list Z)) (cur : nat -> nat -> nat).

(** Row [m] of rank [i] has sent keys below [cur i m]. *)
Record Clocked (i : nat) (cur : nat -> nat) (r : PRank) : Prop := {
  cl_main : exists lvl, climbing i lvl (prmain r) /\ (forall m, cur m <= lvl m) /\
    forall m c, prpool r !! m = Some c -> rising i (cur m) (lvl m) c
}.

Record PSim a w l cur : Prop := {
  ps_ranks : map pn_rank a.1 = w.1;
  ps_len : length a.1 = n;
  ps_wire : a.2 = wire_of l;
  ps_msgs m : m ∈ l -> m.1.1 < n /\ key_ok m.1.2 /\ length m.2 = length (target m.1.1 m.1.2);
  ps_rank i r : a.1 !! i = Some r -> PnOk i r;
  ps_tame i r : a.1 !! i = Some r -> Tame i (pn_rank r);
  ps_clock i r : a.1 !! i = Some r -> Clocked i (cur i) (pn_rank r);
  ps_net dst key : dst < n -> pn_held a.1 l dst key = enc <$> default [] (w.2 !! (dst, key));
  ps_some x ds : w.2 !! x = Some ds -> x.1 < n /\ length ds = 1 /\ ord x.2 < cur (key_src x.2) (key_row x.2)
}.

Lemma ps_bound a w l cur i r : PSim a w l cur -> a.1 !! i = Some r -> i < n.
Proof. intros HS Hi. rewrite <- (ps_len _ _ _ _ HS). by eapply lookup_lt_Some. Qed.

Lemma ps_at a w l cur i r : PSim a w l cur -> a.1 !! i = Some r -> w.1 !! i = Some (pn_rank r).
Proof. intros HS Hi. rewrite <- (ps_ranks _ _ _ _ HS), list_lookup_fmap, Hi. done. Qed.

Lemma ps_held a w l cur dst key : PSim a w l cur -> dst < n -> length (pn_held a.1 l dst key) <= 1.
Proof.
  intros HS Hd. rewrite (ps_net _ _ _ _ HS dst key Hd), length_fmap. destruct (w.2 !! (dst, key)) as [ds|] eqn:Hk; cbn; [|lia].
  apply (ps_some _ _ _ _ HS) in Hk as (_ & -> & _). done.
Qed.

(** A step of rank [i]: what has to be shown again. *)
Lemma ps_put a w l cur i r r' l' net' cur' : PSim a w l cur -> a.1 !! i = Some r ->
  PnOk i r' -> Tame i (pn_rank r') -> Clocked i (cur' i) (pn_rank r') -> (forall j, j <> i -> cur' j = cur j) ->
  (forall m, m ∈ l' -> m ∈ l \/ m.1.1 < n /\ key_ok m.1.2 /\ length m.2 = length (target m.1.1 m.1.2)) ->
  (forall dst key, dst < n -> pn_held (<[i := r']> a.1) l' dst key = enc <$> default [] (net' !! (dst, key))) ->
  (forall x ds, net' !! x = Some ds -> x.1 < n /\ length ds = 1 /\ ord x.2 < cur' (key_src x.2) (key_row x.2)) ->
  PSim (<[i := r']> a.1, wire_of l') (<[i := pn_rank r']> w.1, net') l' cur'.
Proof.
  intros HS Hi Hok Ht Hc Hcur Hl Hh Hn. destruct HS as [S1 S2 S3 S4 S5 S6 S7 S8 S9]. split; cbn.
  - rewrite <- S1. apply (list_fmap_insert pn_rank).
  - by rewrite length_insert.
  - done.
  - intros m Hm. destruct (Hl m Hm); [by apply S4|done].
  - intros j x [(-> & <- & _)|[_ Hj]]%list_lookup_insert_Some; [done|by apply S5].
  - intros j x [(-> & <- & _)|[_ Hj]]%list_lookup_insert_Some; [done|by apply S6].
  - intros j x [(-> & <- & _)|[Hne Hj]]%list_lookup_insert_Some; [done|]. rewrite Hcur by done. by apply S7.
  - done.
  - done.
Qed.

(** The rank does not move. *)
Lemma ps_stutter a w l cur i r r' l' : PSim a w l cur -> a.1 !! i = Some r -> pn_rank r' = pn_rank r -> PnOk i r' ->
  (forall m, m ∈ l' -> m ∈ l) ->
  (forall dst key, dst < n -> pn_held (<[i := r']> a.1) l' dst key = pn_held a.1 l dst key) ->
  PSim (<[i := r']> a.1, wire_of l') w l' cur.
Proof.
  intros HS Hi Hp Hok Hl Hh. destruct w as [rs net].
  assert (Hrs : rs = <[i := pn_rank r']> rs) by (symmetry; apply list_insert_id; rewrite Hp; by apply (ps_at _ _ _ _ _ _ HS)).
  rewrite Hrs. apply (ps_put a (rs, net) l cur i r r' l' net cur HS Hi Hok).
  - rewrite Hp. by apply (ps_tame _ _ _ _ HS).
  - rewrite Hp. by apply (ps_clock _ _ _ _ HS).
  - done.
  - intros m Hm. left. by apply Hl.
  - intros dst key Hd. rewrite Hh by done. by apply (ps_net _ _ _ _ HS).
  - intros x ds Hx. by apply (ps_some _ _ _ _ HS x ds Hx).
Qed.

(** ** Measure *)

Definition awake_count (ranks : list PnRank) : nat := sum_list_with (fun r => size (pn_awake r)) ranks.
Definition pn_potential a : nat := 2 * length a.2 + awake_count a.1.

Lemma awake_insert (ranks : list PnRank) i r r' : ranks !! i = Some r ->
  awake_count (<[i := r']> ranks) + size (pn_awake r) = awake_count ranks + size (pn_awake r').
Proof.
  intros Hi. unfold awake_count. rewrite insert_take_drop by (by eapply lookup_lt_Some).
  rewrite <- (take_drop_middle ranks i r Hi) at 3. rewrite !sum_list_with_app. cbn. lia.
Qed.

Definition pn_simulated a a' w : Prop := exists w' l' cur',
  PSim a' w' l' cur' /\ ((pool_steps w w' /\ pn_potential a' <= pn_potential a + 2) \/ (w' = w /\ pn_potential a' < pn_potential a)).

(** ** Steps of the main *)

#[local] Arguments after : simpl never.
#[local] Arguments op_of : simpl never.

Lemma recv_ok_same i r r' m key c : RecvOk i r m key c -> (m ∈ pn_awake r' <-> m ∈ pn_awake r) ->
  slots (pn_router r') !! key = slots (pn_router r) !! key -> cells (pn_router r') !! c = cells (pn_router r) !! c ->
  RecvOk i r' m key c.
Proof.
  intros [Ha Hs Hc|d Ha Hs Hc Hd] Hi Hsl Hcl.
  - apply recv_waits; [by rewrite Hi|by rewrite Hsl|by rewrite Hcl].
  - apply (recv_has _ _ _ _ _ d); [by apply Hi|by rewrite Hsl|by rewrite Hcl|done].
Qed.

(** The rank after a step that touches neither the router nor the receives. *)
Lemma pn_ok_local i r pr aw : PnOk i r ->
  (forall m k off len upd cont, pn_recvs r !! m <> None -> prpool (pn_rank r) !! m = Some (CRecv k off len upd cont) ->
     prpool pr !! m = Some (CRecv k off len upd cont) /\ (m ∈ aw <-> m ∈ pn_awake r)) ->
  (forall m, is_Some (prpool pr !! m) -> pn_recvs r !! m = None -> m ∈ aw) ->
  PnOk i (mkPn pr (pn_router r) (pn_recvs r) (pn_cell r) aw).
Proof.
  intros [P1 P2 P3 P4] Hrecv Hidle. split; cbn; [done| |done|done].
  intros m f Hf. destruct (P2 m f Hf) as (k & off & len & upd & cont & c & Hp & -> & Hk & Hc & Hok).
  destruct (Hrecv m k off len upd cont) as [Hp' Ha]; [by rewrite Hf|done|].
  exists k, off, len, upd, cont, c. do 4 (split; [done|]). by apply (recv_ok_same i r).
Qed.

Lemma op_pool_step a w l cur i r x o d net : PSim a w l cur -> a.1 !! i = Some r -> op_of x (pn_rank r) = Some o ->
  net_do i o w.2 = Some (d, net) -> pool_steps w (<[i := after x (pn_rank r) d]> w.1, net).
Proof.
  intros HS Hi Ho Hn. exists (i, x). unfold pool_step. cbn [fst snd]. rewrite (ps_at _ _ _ _ _ _ HS Hi).
  cbn [mbind option_bind]. rewrite Ho. cbn [mbind option_bind]. by rewrite Hn.
Qed.

(** The clock of the row that a push continues. *)
Lemma clocked_main i (g : nat -> nat) (pr : PRank) o : Tame i pr -> Clocked i g pr -> op_of None pr = Some o ->
  exists g', Clocked i g' (after None pr []) /\ (forall m, g m <= g' m).
Proof.
  intros Ht [(lvl & Hm & Hle & Hp)] Ho. destruct (tr_main _ _ _ _ _ _ _ Ht) as (used & Hu & Htm). unfold op_of in Ho.
  destruct (prmain pr) as [x|m c k|k] eqn:Hk; [done| |].
  - destruct Hm as (e & He & Hr & Hm). exists (raise g m (lvl m)). split.
    + split. exists (raise lvl m e). unfold after. rewrite Hk. cbn [prmain prpool]. split; [done|]. unfold raise. split.
      * intros m'. by case_decide; subst.
      * intros m' c'. destruct (decide (m' = m)) as [->|Hne].
        -- rewrite lookup_insert_eq. by intros [= <-].
        -- rewrite lookup_insert_ne by done. apply Hp.
    + intros m'. unfold raise. by case_decide; subst.
  - exists g. split; [|done]. split. exists lvl. unfold after. rewrite Hk.
    destruct (prready pr); (split; [apply Hm|done]).
Qed.

Lemma some_raised (net : gmap (nat * RecvKey) (list (list T))) cur cur' i :
  (forall x ds, net !! x = Some ds -> x.1 < n /\ length ds = 1 /\ ord x.2 < cur (key_src x.2) (key_row x.2)) ->
  (forall j, j <> i -> cur' j = cur j) -> (forall m, cur i m <= cur' i m) ->
  forall x ds, net !! x = Some ds -> x.1 < n /\ length ds = 1 /\ ord x.2 < cur' (key_src x.2) (key_row x.2).
Proof.
  intros Hn Hj Hi x ds Hx. destruct (Hn x ds Hx) as (? & ? & Ho). do 2 (split; [done|]).
  destruct (decide (key_src x.2 = i)) as [He|He]; [|by rewrite Hj]. specialize (Hi (key_row x.2)). rewrite He in *. lia.
Qed.

(** [cur] with the clocks of rank [i] replaced. *)
Definition with_clock (i : nat) (f : nat -> nat) cur : nat -> nat -> nat := fun j => if decide (j = i) then f else cur j.

(** A step of rank [i] that leaves the network alone. *)
Lemma ps_local a w l cur i r r' f : PSim a w l cur -> a.1 !! i = Some r -> PnOk i r' -> Tame i (pn_rank r') ->
  Clocked i f (pn_rank r') -> (forall m, cur i m <= f m) -> (forall key, pn_has r' key = pn_has r key) ->
  PSim (<[i := r']> a.1, a.2) (<[i := pn_rank r']> w.1, w.2) l (with_clock i f cur).
Proof.
  intros HS Hi Hok Ht Hc Hf Hh. rewrite (ps_wire _ _ _ _ HS).
  assert (Hfi : with_clock i f cur i = f) by (unfold with_clock; by rewrite decide_True).
  assert (Hfj : forall j, j <> i -> with_clock i f cur j = cur j) by (intros j Hj; unfold with_clock; by rewrite decide_False).
  apply (ps_put a w l cur i r r'); try done.
  - by rewrite Hfi.
  - intros m Hm. by left.
  - intros dst key Hd. rewrite (pn_held_insert _ l l i r) by done. by apply (ps_net _ _ _ _ HS).
  - apply (some_raised _ cur _ i); [apply (ps_some _ _ _ _ HS)|done|by rewrite Hfi].
Qed.

Lemma main_simulated a a' w l cur i : PSim a w l cur -> pn_main i a = Some a' -> pn_simulated a a' w.
Proof.
  intros HS Hdo. unfold pn_main in Hdo. destruct (a.1 !! i) as [r|] eqn:Hi; [|done]. cbn [mbind option_bind] in Hdo.
  destruct (op_of None (pn_rank r)) as [o|] eqn:Ho; [|done]. cbn [mbind option_bind] in Hdo. injection Hdo as <-.
  assert (Ht := ps_tame _ _ _ _ HS _ _ Hi). assert (Hok := ps_rank _ _ _ _ HS _ _ Hi).
  destruct (clocked_main i (cur i) _ o Ht (ps_clock _ _ _ _ HS _ _ Hi) Ho) as (f & Hc & Hf).
  assert (HO := op_main _ _ Ho). subst o. set (r' := mkPn _ _ _ _ _).
  exists (<[i := pn_rank r']> w.1, w.2), l, (with_clock i f cur). split.
  - apply (ps_local a w l cur i r r' f); try done; [|by eapply after_tame].
    apply pn_ok_local; [done| |].
    + intros m k off len upd cont Hrecv Hp. destruct (tr_main _ _ _ _ _ _ _ Ht) as (used & Hu & Htm). unfold after, op_of in *.
      destruct (prmain (pn_rank r)) as [x|m1 c1 k1|k1]; [done| |].
      * destruct Htm as (Hnu & _ & _). assert (m <> m1) by (intros ->; apply Hnu, Hu; by eexists). cbn [prpool].
        rewrite lookup_insert_ne by done. split; [done|]. set_solver.
      * destruct (prready (pn_rank r)); (split; [done|]); set_solver.
    + intros m Hm Hrecv. unfold after, op_of in *. destruct (prmain (pn_rank r)) as [x|m1 c1 k1|k1]; [done| |].
      * cbn [prpool] in Hm. destruct (decide (m = m1)) as [->|Hne]; [set_solver|]. rewrite lookup_insert_ne in Hm by done.
        assert (m ∈ pn_awake r) by by apply (po_idle _ _ Hok). set_solver.
      * assert (m ∈ pn_awake r); [|set_solver]. apply (po_idle _ _ Hok); [|done]. by destruct (prready (pn_rank r)).
  - left. split; [by apply (op_pool_step a w l cur i r None ONone [] w.2)|]. unfold pn_potential. cbn [fst snd].
    assert (Ha := awake_insert a.1 i r r' Hi). cbn [r' pn_awake] in Ha.
    assert (Hsz : size ((match prmain (pn_rank r) with MPush m _ _ => {[m]} | _ => ∅ end) ∪ pn_awake r) <= 1 + size (pn_awake r)).
    { destruct (prmain (pn_rank r)) as [x|m c k|k]; [| |]; (etrans; [apply size_union_le|]);
        rewrite ?size_singleton, ?size_empty; lia. }
    lia.
Qed.

(** ** Steps of a chain *)

Lemma clocked_chain i (g : nat -> nat) (pr pr' : PRank) m c c' b : Clocked i g pr -> prpool pr !! m = Some c ->
  prmain pr' = prmain pr -> prpool pr' = <[m := c']> (prpool pr) -> g m <= b ->
  (forall e, g m <= e -> rising i (g m) e c -> b <= e /\ rising i b e c') -> Clocked i (raise g m b) pr'.
Proof.
  intros [(lvl & Hm & Hle & Hp)] Hc Hmain Hpool Hb Hr. destruct (Hr (lvl m) (Hle m) (Hp m c Hc)) as [Hbe Hr'].
  split. exists lvl. rewrite Hmain, Hpool. split; [done|]. unfold raise. split.
  - intros m'. case_decide; [by subst|apply Hle].
  - intros m' c1. destruct (decide (m' = m)) as [->|Hne].
    + rewrite lookup_insert_eq. by intros [= <-].
    + rewrite lookup_insert_ne by done. apply Hp.
Qed.

Lemma clocked_delete i (g : nat -> nat) (pr pr' : PRank) m : Clocked i g pr -> prmain pr' = prmain pr ->
  prpool pr' = delete m (prpool pr) -> Clocked i g pr'.
Proof.
  intros [(lvl & Hm & Hle & Hp)] Hmain Hpool. split. exists lvl. rewrite Hmain, Hpool. split; [done|]. split; [done|].
  intros m' c [_ Hc]%lookup_delete_Some. by apply Hp.
Qed.

(** A chain without a receive future, and the others. *)
Lemma no_recv i r m c : PnOk i r -> prpool (pn_rank r) !! m = Some c ->
  match c with CRecv _ _ _ _ _ => True | _ => pn_recvs r !! m = None end.
Proof.
  intros Hok Hc. destruct c; [| |done]; (destruct (pn_recvs r !! m) as [f|] eqn:Hf; [|done]);
    destruct (po_recvs _ _ Hok m f Hf) as (k & off' & len' & upd & cont' & c & Hp & _); congruence.
Qed.

Lemma ret_simulated a w l cur i r m x : PSim a w l cur -> a.1 !! i = Some r -> op_of (Some m) (pn_rank r) = Some ONone ->
  prpool (pn_rank r) !! m = Some (CRet x) -> m ∈ pn_awake r ->
  pn_simulated a (<[i := mkPn (after (Some m) (pn_rank r) []) (pn_router r) (pn_recvs r) (pn_cell r) (pn_awake r ∖ {[m]})]> a.1, a.2) w.
Proof.
  intros HS Hi Ho Hc Ha. assert (Ht := ps_tame _ _ _ _ HS _ _ Hi). assert (Hok := ps_rank _ _ _ _ HS _ _ Hi).
  assert (Hno := no_recv i r m _ Hok Hc). cbn in Hno.
  assert (Haf : after (Some m) (pn_rank r) [] = mkRank (prbuf (pn_rank r)) (prmain (pn_rank r)) (delete m (prpool (pn_rank r)))
    (prready (pn_rank r) ++ [x])) by (unfold after; by rewrite Hc).
  set (r' := mkPn _ _ _ _ _). exists (<[i := pn_rank r']> w.1, w.2), l, (with_clock i (cur i) cur). split.
  - apply (ps_local a w l cur i r r' (cur i)); try done.
    + apply pn_ok_local; [done| |]; rewrite Haf; cbn [prpool].
      * intros m' k off len upd cont Hr Hp. assert (m' <> m) by (intros ->; congruence).
        rewrite lookup_delete_ne by done. split; [done|]. set_solver.
      * intros m' [c' [Hne Hc']%lookup_delete_Some] Hr. assert (m' ∈ pn_awake r) by (apply (po_idle _ _ Hok); [by eexists|done]).
        set_solver.
    + by apply (after_tame _ _ _ _ _ slot_fits i (Some m) _ ONone).
    + apply (clocked_delete i _ (pn_rank r) _ m); [by apply (ps_clock _ _ _ _ HS)|by cbn; rewrite Haf..].
  - left. split; [by apply (op_pool_step a w l cur i r (Some m) ONone [] w.2)|]. unfold pn_potential. cbn [fst snd].
    assert (Hs := awake_insert a.1 i r r' Hi). cbn [r' pn_awake] in Hs.
    assert (Hd := subseteq_size (pn_awake r ∖ {[m]}) (pn_awake r) ltac:(set_solver)). lia.
Qed.

Lemma pn_held_sent a w l cur i r r' dst key d dst' key' : PSim a w l cur -> a.1 !! i = Some r ->
  (forall k, pn_has r' k = pn_has r k) ->
  pn_held (<[i := r']> a.1) (l ++ [(dst, key, d)]) dst' key' =
    on_wire l dst' key' ++ (if decide ((dst, key) = (dst', key')) then [d] else []) ++
      match a.1 !! dst' with Some r0 => pn_has r0 key' | None => [] end.
Proof.
  intros HS Hi Hh. unfold pn_held. rewrite on_wire_snoc, <- app_assoc. do 2 f_equal. destruct (decide (dst' = i)) as [->|Hne].
  - rewrite list_lookup_insert_eq by (by eapply lookup_lt_Some). by rewrite Hi, Hh.
  - by rewrite list_lookup_insert_ne.
Qed.

Lemma send_simulated a w l cur i r m dst key off len cont : PSim a w l cur -> a.1 !! i = Some r ->
  op_of (Some m) (pn_rank r) = Some (OSend dst key (slice off len (prbuf (pn_rank r)))) ->
  prpool (pn_rank r) !! m = Some (CSend dst key off len cont) -> m ∈ pn_awake r ->
  pn_simulated a (<[i := mkPn (after (Some m) (pn_rank r) []) (pn_router r) (pn_recvs r) (pn_cell r) (pn_awake r)]> a.1,
    a.2 ++ [(dst, msg_of key (enc (slice off len (prbuf (pn_rank r)))))]) w.
Proof.
  intros HS Hi Ho Hc Ha. assert (Ht := ps_tame _ _ _ _ HS _ _ Hi). assert (Hok := ps_rank _ _ _ _ HS _ _ Hi).
  assert (Hno := no_recv i r m _ Hok Hc). cbn in Hno. set (d := slice off len (prbuf (pn_rank r))) in *.
  assert (Htc := tr_pool _ _ _ _ _ _ _ Ht _ _ Hc). cbn in Htc. destruct Htc as (Hsrc & Hrow & Hslot & _).
  assert (Hcl := ps_clock _ _ _ _ HS _ _ Hi).
  assert (Haf : after (Some m) (pn_rank r) [] = mkRank (prbuf (pn_rank r)) (prmain (pn_rank r)) (<[m := cont (ROk tt)]> (prpool (pn_rank r)))
    (prready (pn_rank r))) by (unfold after; by rewrite Hc).
  assert (Hris : exists e, rising i (cur i m) e (CSend dst key off len cont)).
  { destruct Hcl as [(lvl & _ & _ & Hp)]. exists (lvl m). by apply Hp. }
  destruct Hris as (e & Hdst & Hkey & Hord & Hlen & _).
  assert (Hd : length (enc d) = length (target dst key)).
  { apply Hlen, slice_length. rewrite (tr_size _ _ _ _ _ _ _ Ht). by eapply slot_fits. }
  assert (Hnone : w.2 !! (dst, key) = None).
  { destruct (w.2 !! (dst, key)) as [ds|] eqn:Hk; [|done]. apply (ps_some _ _ _ _ HS) in Hk as (_ & _ & Hk). cbn in Hk.
    rewrite Hsrc, Hrow in Hk. lia. }
  set (r' := mkPn _ _ _ _ _). set (f := raise (cur i) m (S (ord key))).
  assert (Hfi : with_clock i f cur i = f) by (unfold with_clock; by rewrite decide_True).
  assert (Hle : forall m', cur i m' <= f m') by (intros m'; unfold f, raise; case_decide; subst; lia).
  exists (<[i := pn_rank r']> w.1, net_send dst key d w.2), (l ++ [(dst, key, enc d)]), (with_clock i f cur). split.
  - rewrite (ps_wire _ _ _ _ HS). replace (wire_of l ++ _) with (wire_of (l ++ [(dst, key, enc d)])) by by rewrite map_app.
    apply (ps_put a w l cur i r r'); try done.
    + apply pn_ok_local; [done| |]; rewrite Haf; cbn [prpool].
      * intros m' k off' len' upd cont' Hr Hp. assert (m' <> m) by (intros ->; congruence). by rewrite lookup_insert_ne.
      * intros m' Hm' Hr. apply (po_idle _ _ Hok); [|done]. destruct (decide (m' = m)) as [->|Hne]; [by eexists|].
        by rewrite lookup_insert_ne in Hm'.
    + by apply (after_tame _ _ _ _ _ slot_fits i (Some m) _ (OSend dst key d)).
    + rewrite Hfi. apply (clocked_chain i (cur i) (pn_rank r) _ m (CSend dst key off len cont) (cont (ROk tt))); [done|done|by cbn; rewrite Haf..|lia|].
      intros e' _ (_ & _ & ? & _ & ?). split; [lia|done].
    + intros j Hj. unfold with_clock. by rewrite decide_False.
    + intros x [Hx| ->%list_elem_of_singleton]%elem_of_app; [by left|by right].
    + intros dst' key' Hd'. rewrite (pn_held_sent a w l cur i r r') by done.
      assert (Hold := ps_net _ _ _ _ HS dst' key' Hd'). unfold pn_held in Hold. unfold net_send. rewrite Hnone. cbn [default].
      case_decide as Hk.
      * injection Hk as <- <-. rewrite lookup_insert_eq, Hnone in *. cbn in *. by apply app_eq_nil in Hold as [-> ->].
      * rewrite lookup_insert_ne by done. by rewrite <- Hold.
    + intros x ds. unfold net_send. rewrite Hnone. rewrite lookup_insert. case_decide as Hx.
      * intros [= <-]. subst x. cbn. split; [done|]. split; [done|]. rewrite Hsrc, Hfi, Hrow. unfold f, raise. rewrite decide_True by done. lia.
      * intros Hs. apply (some_raised w.2 cur _ i (ps_some _ _ _ _ HS)); [|by rewrite Hfi|done].
        intros j Hj. unfold with_clock. by rewrite decide_False.
  - left. split; [by apply (op_pool_step a w l cur i r (Some m) (OSend dst key d) [])|].
    unfold pn_potential. cbn [fst snd]. rewrite length_app. cbn [length].
    assert (Hs := awake_insert a.1 i r r' Hi). cbn [r' pn_awake] in Hs. lia.
Qed.

(** The rank after chain [m] took its message. *)
Lemma pn_ok_taken i r m key off len upd cont c' pr ro : PnOk i r -> m ∈ pn_awake r -> key_row key = m ->
  prpool (pn_rank r) !! m = Some (CRecv key off len upd cont) -> prpool pr = <[m := c']> (prpool (pn_rank r)) ->
  slots ro = delete key (slots (pn_router r)) -> (forall c, c < pn_cell r -> cells ro !! c = cells (pn_router r) !! c) ->
  PnOk i (mkPn pr ro (delete m (pn_recvs r)) (S (pn_cell r)) (pn_awake r)).
Proof.
  intros [P1 P2 P3 P4] Ha Hrow Hc Hpool Hsl Hcl. split; cbn.
  - intros k x. rewrite Hsl. intros [Hk [?|(c & -> & Hf)]%P1]%lookup_delete_Some; [by left|right]. exists c. split; [done|].
    apply lookup_delete_Some. split; [|done]. intros Hm. rewrite <- Hm in Hf.
    destruct (P2 _ _ Hf) as (k0 & ? & ? & ? & ? & c0 & Hp & Hr & _). congruence.
  - intros m' f [Hne Hf]%lookup_delete_Some. destruct (P2 _ _ Hf) as (k & off' & len' & upd' & cont' & c & Hp & Hr & Hk & Hlt & Hok).
    exists k, off', len', upd', cont', c. rewrite Hpool, lookup_insert_ne by done. do 3 (split; [done|]). split; [lia|].
    apply (recv_ok_same i r); [done|done| |by apply Hcl]. cbn. rewrite Hsl. apply lookup_delete_ne. congruence.
  - intros m' [x Hm'] Hf. destruct (decide (m' = m)) as [->|Hne]; [done|]. rewrite lookup_delete_ne in Hf by done.
    apply P3; [|done]. rewrite Hpool, lookup_insert_ne in Hm' by done. by eexists.
  - intros m1 m2 f1 f2 [_ H1]%lookup_delete_Some [_ H2]%lookup_delete_Some. by eapply P4.
Qed.

Lemma pn_has_taken i r m key off len upd cont pr ro k : PnOk i r -> key_row key = m ->
  prpool (pn_rank r) !! m = Some (CRecv key off len upd cont) ->
  slots ro = delete key (slots (pn_router r)) -> (forall c, c < pn_cell r -> cells ro !! c = cells (pn_router r) !! c) ->
  pn_has (mkPn pr ro (delete m (pn_recvs r)) (S (pn_cell r)) (pn_awake r)) k = if decide (k = key) then [] else pn_has r k.
Proof.
  intros Hok Hrow Hc Hsl Hcl. unfold pn_has, pn_early, pn_arrived. cbn. rewrite Hsl. case_decide as Hk.
  - subst k. rewrite lookup_delete_eq. cbn. by rewrite Hrow, lookup_delete_eq.
  - rewrite lookup_delete_ne by done. f_equal. rewrite lookup_delete. case_decide as Hm.
    + destruct (pn_recvs r !! key_row k) as [f|] eqn:Hf; [|done].
      destruct (po_recvs _ _ Hok _ _ Hf) as (k0 & ? & ? & ? & ? & c0 & Hp & -> & _). cbn. rewrite decide_False; [done|congruence].
    + destruct (pn_recvs r !! key_row k) as [f|] eqn:Hf; [|done].
      destruct (po_recvs _ _ Hok _ _ Hf) as (k0 & ? & ? & ? & ? & c0 & Hp & -> & _ & Hlt & _). unfold cell_at. cbn. by rewrite Hcl.
Qed.

(** The chain takes the message held for it. *)
Lemma take_simulated a w l cur i r m key off len upd cont d ro : PSim a w l cur -> a.1 !! i = Some r ->
  op_of (Some m) (pn_rank r) = Some (ORecv key) -> prpool (pn_rank r) !! m = Some (CRecv key off len upd cont) ->
  m ∈ pn_awake r -> length d = length (target i key) -> pn_has r key = [d] ->
  slots ro = delete key (slots (pn_router r)) -> (forall c, c < pn_cell r -> cells ro !! c = cells (pn_router r) !! c) ->
  pn_simulated a (<[i := mkPn (after (Some m) (pn_rank r) (dec d)) ro (delete m (pn_recvs r)) (S (pn_cell r)) (pn_awake r)]> a.1, a.2) w.
Proof.
  intros HS Hi Ho Hc Ha Hd Hhas Hsl Hcl. assert (Ht := ps_tame _ _ _ _ HS _ _ Hi). assert (Hok := ps_rank _ _ _ _ HS _ _ Hi).
  assert (Hlt := ps_bound _ _ _ _ _ _ HS Hi). assert (Hrow := proj1 (tr_pool _ _ _ _ _ _ _ Ht _ _ Hc)).
  assert (Hlen := ps_held _ _ _ _ i key HS Hlt). assert (Hnet := ps_net _ _ _ _ HS i key Hlt).
  rewrite (pn_held_at _ _ _ _ _ Hi), Hhas in Hlen, Hnet.
  assert (Hw : on_wire l i key = []) by (destruct (on_wire l i key); [done|rewrite length_app in Hlen; cbn in Hlen; lia]).
  rewrite Hw in Hnet. destruct (w.2 !! (i, key)) as [[|x [|]]|] eqn:Hk; [done| |done|done]. injection Hnet as Hx. rewrite Hx, dec_enc.
  assert (Haf : prpool (after (Some m) (pn_rank r) x) = <[m := cont (ROk x)]> (prpool (pn_rank r)) /\
    prmain (after (Some m) (pn_rank r) x) = prmain (pn_rank r)) by (unfold after; by rewrite Hc).
  destruct Haf as [Hpool Hmain]. set (r' := mkPn _ _ _ _ _).
  assert (Hok' : PnOk i r') by by eapply pn_ok_taken.
  assert (Hnet' : net_do i (ORecv key) w.2 = Some (x, delete (i, key) w.2)) by (cbn; unfold net_recv; by rewrite Hk).
  exists (<[i := pn_rank r']> w.1, delete (i, key) w.2), l, (with_clock i (raise (cur i) m (cur i m)) cur). split.
  - rewrite (ps_wire _ _ _ _ HS). apply (ps_put a w l cur i r r'); try done.
    + by apply (after_tame _ _ _ _ _ slot_fits i (Some m) _ (ORecv key)).
    + unfold with_clock. rewrite decide_True by done.
      apply (clocked_chain i (cur i) (pn_rank r) _ m (CRecv key off len upd cont) (cont (ROk x))); [|done..|].
      * by apply (ps_clock _ _ _ _ HS).
      * intros e He Hr. split; [done|]. apply Hr. by rewrite <- Hx.
    + intros j Hj. unfold with_clock. by rewrite decide_False.
    + intros y Hy. by left.
    + intros dst k Hdst. assert (Hh := pn_has_taken i r m key off len upd cont (after (Some m) (pn_rank r) x) ro k Hok Hrow Hc Hsl Hcl).
      fold r' in Hh. destruct (decide ((dst, k) = (i, key))) as [[= -> ->]|He].
      * rewrite lookup_delete_eq, (pn_held_insert_at _ _ _ _ _ _ Hi), Hh, Hw. by rewrite decide_True.
      * rewrite lookup_delete_ne by done. rewrite <- (ps_net _ _ _ _ HS) by done. apply (pn_held_insert _ _ _ _ r); [done|done|]. intros ->. rewrite Hh.
        rewrite decide_False by congruence. done.
    + intros y ds [_ Hy]%lookup_delete_Some. apply (some_raised w.2 cur _ i (ps_some _ _ _ _ HS)); [| |done].
      * intros j Hj. unfold with_clock. by rewrite decide_False.
      * intros m'. unfold with_clock, raise. rewrite decide_True by done. by case_decide; subst.
  - left. split; [by apply (op_pool_step a w l cur i r (Some m) (ORecv key))|]. unfold pn_potential. cbn [fst snd].
    assert (Hs := awake_insert a.1 i r r' Hi). cbn [r' pn_awake] in Hs. lia.
Qed.

(** The rank after chain [m] posted its receive. *)
Definition posted (i m : nat) (key : RecvKey) (r : PnRank) : PnRank :=
  mkPn (pn_rank r)
    (mkRouter (<[key := SPending (mkPending (pn_cell r) (length (target i key)) (Some (chain_waker m)))]> (slots (pn_router r)))
       (<[pn_cell r := mkCell false (target i key)]> (cells (pn_router r))))
    (<[m := mkRecv key (pn_cell r) true (length (target i key))]> (pn_recvs r)) (S (pn_cell r)) (pn_awake r ∖ {[m]}).

Lemma pn_ok_posted i r m key off len upd cont : PnOk i r -> key_row key = m -> pn_recvs r !! m = None ->
  prpool (pn_rank r) !! m = Some (CRecv key off len upd cont) -> slots (pn_router r) !! key = None -> PnOk i (posted i m key r).
Proof.
  intros [P1 P2 P3 P4] Hrow Hn Hc Hsl. split; cbn.
  - intros k x. rewrite lookup_insert. case_decide as Hk.
    + intros [= <-]. right. subst k. exists (pn_cell r). by rewrite Hrow, lookup_insert_eq.
    + intros [?|(c & -> & Hf)]%P1; [by left|right]. exists c. split; [done|]. rewrite lookup_insert_ne; [done|]. congruence.
  - intros m' f. rewrite lookup_insert. case_decide as Hm.
    + intros [= <-]. subst m'. exists key, off, len, upd, cont, (pn_cell r). do 3 (split; [done|]). split; [lia|].
      apply recv_waits; cbn; [set_solver|apply lookup_insert_eq|apply lookup_insert_eq].
    + intros Hf. destruct (P2 _ _ Hf) as (k & off' & len' & upd' & cont' & c & Hp & Hr & Hk & Hlt & Hok).
      exists k, off', len', upd', cont', c. do 3 (split; [done|]). split; [lia|].
      apply (recv_ok_same i r); [done|cbn; set_solver|cbn; apply lookup_insert_ne; congruence|cbn; apply lookup_insert_ne; lia].
  - intros m' Hm' Hf. apply lookup_insert_None in Hf as [Hf Hne]. assert (m' ∈ pn_awake r) by by apply P3. set_solver.
  - intros m1 m2 f1 f2. rewrite !lookup_insert. repeat case_decide; subst; try done; [| |by apply P4].
    + intros [= <-] Hf. destruct (P2 _ _ Hf) as (? & ? & ? & ? & ? & c & _ & -> & _ & Hlt & _). cbn. lia.
    + intros Hf [= <-]. destruct (P2 _ _ Hf) as (? & ? & ? & ? & ? & c & _ & -> & _ & Hlt & _). cbn. lia.
Qed.

Lemma pn_has_posted i r m key k : PnOk i r -> key_row key = m -> pn_recvs r !! m = None -> slots (pn_router r) !! key = None ->
  pn_has (posted i m key r) k = pn_has r k.
Proof.
  intros Hok Hrow Hn Hsl. unfold pn_has, pn_early, pn_arrived, posted, cell_at. cbn. f_equal.
  - rewrite lookup_insert. case_decide as Hk; [subst; by rewrite Hsl|done].
  - rewrite lookup_insert. case_decide as Hm.
    + rewrite <- Hm, Hn. cbn. rewrite lookup_insert_eq. by case_decide.
    + destruct (pn_recvs r !! key_row k) as [f|] eqn:Hf; [|done].
      destruct (po_recvs _ _ Hok _ _ Hf) as (? & ? & ? & ? & ? & c & _ & -> & _ & Hlt & _). cbn. rewrite lookup_insert_ne by lia. done.
Qed.

Lemma post_simulated a w l cur i r m key off len upd cont : PSim a w l cur -> a.1 !! i = Some r -> key_row key = m ->
  prpool (pn_rank r) !! m = Some (CRecv key off len upd cont) -> m ∈ pn_awake r -> pn_recvs r !! m = None ->
  slots (pn_router r) !! key = None -> pn_simulated a (<[i := posted i m key r]> a.1, a.2) w.
Proof.
  intros HS Hi Hrow Hc Ha Hn Hsl. assert (Hok := ps_rank _ _ _ _ HS _ _ Hi). exists w, l, cur. split.
  - rewrite (ps_wire _ _ _ _ HS). apply (ps_stutter a w l cur i r); try done.
    + by eapply pn_ok_posted.
    + intros dst k Hd. apply (pn_held_insert _ _ _ _ r); [done|done|]. intros _. by apply pn_has_posted.
  - right. split; [done|]. unfold pn_potential. cbn [fst snd]. assert (Hs := awake_insert a.1 i r (posted i m key r) Hi).
    cbn [posted pn_awake] in Hs. assert (Hd := size_difference (pn_awake r) {[m]} ltac:(set_solver)).
    rewrite size_singleton in Hd. assert (Hp : size (pn_awake r) <> 0) by (apply size_non_empty_iff; set_solver). lia.
Qed.

(** What a poll of a receive does: it takes a message that is there, or it posts. *)
Lemma recv_cases a w l cur i r m key off len upd cont o : PSim a w l cur -> a.1 !! i = Some r ->
  op_of (Some m) (pn_rank r) = Some o -> prpool (pn_rank r) !! m = Some (CRecv key off len upd cont) -> m ∈ pn_awake r ->
  (exists d ro, length d = length (target i key) /\ pn_has r key = [d] /\
     slots ro = delete key (slots (pn_router r)) /\ (forall c, c < pn_cell r -> cells ro !! c = cells (pn_router r) !! c) /\
     pn_chain i m a = Some (<[i := mkPn (after (Some m) (pn_rank r) (dec d)) ro (delete m (pn_recvs r)) (S (pn_cell r)) (pn_awake r)]> a.1, a.2)) \/
  (pn_recvs r !! m = None /\ slots (pn_router r) !! key = None /\ pn_chain i m a = Some (<[i := posted i m key r]> a.1, a.2)).
Proof.
  intros HS Hi Ho Hc Ha. assert (Hok := ps_rank _ _ _ _ HS _ _ Hi). assert (Ht := ps_tame _ _ _ _ HS _ _ Hi).
  assert (Hrow := proj1 (tr_pool _ _ _ _ _ _ _ Ht _ _ Hc)). assert (Hlt := ps_bound _ _ _ _ _ _ HS Hi).
  unfold pn_chain. rewrite Hi. cbn [mbind option_bind]. rewrite Ho. cbn [mbind option_bind]. rewrite Hc. cbn [mbind option_bind].
  rewrite decide_False by (intros Hx; by apply Hx). destruct (pn_recvs r !! m) as [f|] eqn:Hf.
  - left. destruct (po_recvs _ _ Hok _ _ Hf) as (k0 & ? & ? & ? & ? & c & Hp & -> & Hk & Hcl & Hrk).
    rewrite Hc in Hp. injection Hp as <- <- <- <- <-. destruct Hrk as [Hna|d _ Hs Hcd Hd]; [done|].
    exists d, (pn_router r). unfold RecvFuture_poll, cell_at. cbn [rf_cell]. rewrite Hcd. cbn [cdone].
    unfold RecvFuture_drop, cell_at. cbn. rewrite Hcd. cbn. split; [done|]. split; [|split; [by rewrite delete_id|done]].
    unfold pn_has, pn_early, pn_arrived, cell_at. rewrite Hs, Hk, Hf. cbn. by rewrite decide_True, Hcd by done.
  - rewrite (surjective_pairing (RecvFuture_new _ _ _ _)). destruct (slots (pn_router r) !! key) as [x|] eqn:Hk.
    + left. destruct (po_slots _ _ Hok _ _ Hk) as [(b & -> & Hb)|(c & _ & Hr)]; [|congruence].
      destruct (poll_early debug (pn_router r) key (pn_cell r) (target i key) b (chain_waker m) Hk Hb) as (ro & f & Hpoll & Hsl & Hcl & Hct).
      exists b, (RecvFuture_drop f ro). rewrite Hpoll, Hct. split; [done|].
      split; [unfold pn_has, pn_early, pn_arrived; by rewrite Hk, Hrow, Hf|]. split; [done|]. split; [intros c Hlc; apply Hcl; lia|]. by rewrite delete_id.
    + right. rewrite poll_posts by done. by split.
Qed.

Lemma chain_simulated a a' w l cur i m : PSim a w l cur -> pn_chain i m a = Some a' -> pn_simulated a a' w.
Proof.
  intros HS Hdo. assert (Hdo' := Hdo). unfold pn_chain in Hdo. destruct (a.1 !! i) as [r|] eqn:Hi; [|done]. cbn [mbind option_bind] in Hdo.
  destruct (op_of (Some m) (pn_rank r)) as [o|] eqn:Ho; [|done]. cbn [mbind option_bind] in Hdo.
  assert (Hop := Ho). apply op_chain in Hop as (c & Hc & -> & _). rewrite Hc in Hdo. cbn [mbind option_bind] in Hdo.
  case_decide as Ha; [done|]. destruct c as [x|dst key off len cont|key off len upd cont].
  - injection Hdo as <-. by eapply ret_simulated.
  - injection Hdo as <-. by eapply send_simulated.
  - destruct (recv_cases _ _ _ _ _ _ _ _ _ _ _ _ _ HS Hi Ho Hc Ha) as [(d & ro & Hd & Hh & Hs & Hcl & He)|(Hf & Hk & He)];
      rewrite He in Hdo'; injection Hdo' as <-.
    + by eapply take_simulated.
    + eapply post_simulated; try done. by apply (tr_pool _ _ _ _ _ _ _ (ps_tame _ _ _ _ HS _ _ Hi) _ _ Hc).
Qed.

(** ** Messages *)

Definition pn_received (r : PnRank) (ro : AmRouter) (o : option Waker) : PnRank :=
  mkPn (pn_rank r) ro (pn_recvs r) (pn_cell r) (list_to_set (map task_id (option_list o)) ∪ pn_awake r).

Lemma kept_rank i r key d : PnOk i r -> length d = length (target i key) -> pn_has r key = [] ->
  slots (pn_router r) !! key = None ->
  let r' := pn_received r (mkRouter (<[key := SEarly d]> (slots (pn_router r))) (cells (pn_router r))) None in
  PnOk i r' /\ pn_has r' key = [d] /\ forall k, k <> key -> pn_has r' k = pn_has r k.
Proof.
  intros [P1 P2 P3 P4] Hd Hno Hs. apply app_eq_nil in Hno as [_ Hna]. cbn zeta. split; [|split].
  - split; cbn; [| | |done].
    + intros k x. rewrite lookup_insert. case_decide as Hk; [|by apply P1]. intros [= <-]. left. exists d. by subst.
    + intros m f Hf. destruct (P2 _ _ Hf) as (k & off & len & upd & cont & c & Hp & -> & Hk & Hlt & Hok).
      exists k, off, len, upd, cont, c. do 4 (split; [done|]). apply (recv_ok_same i r); [done|cbn; set_solver| |done].
      cbn. apply lookup_insert_ne. intros <-. destruct Hok as [_ Hs' _|d' _ _ Hc _]; [congruence|].
      unfold pn_arrived, cell_at in Hna. rewrite Hk, Hf in Hna. cbn in Hna. by rewrite decide_True, Hc in Hna.
    + intros m Hm Hf. assert (m ∈ pn_awake r) by by apply P3. set_solver.
  - unfold pn_has, pn_early. cbn. rewrite lookup_insert_eq. unfold pn_arrived, cell_at in *. cbn in *. by rewrite Hna.
  - intros k Hk. unfold pn_has, pn_early, pn_arrived. cbn. by rewrite lookup_insert_ne.
Qed.

Lemma met_rank i r key c d : PnOk i r -> length d = length (target i key) ->
  slots (pn_router r) !! key = Some (SPending (mkPending c (length (target i key)) (Some (chain_waker (key_row key))))) ->
  pn_recvs r !! key_row key = Some (mkRecv key c true (length (target i key))) ->
  let r' := pn_received r (mkRouter (delete key (slots (pn_router r))) (<[c := mkCell true d]> (cells (pn_router r))))
              (Some (chain_waker (key_row key))) in
  PnOk i r' /\ pn_has r' key = [d] /\ forall k, k <> key -> pn_has r' k = pn_has r k.
Proof.
  intros [P1 P2 P3 P4] Hd Hs Hr. cbn zeta. split; [|split].
  - split; cbn; [| | |done].
    + intros k x [_ Hx]%lookup_delete_Some. by apply P1.
    + intros m f Hf. destruct (P2 _ _ Hf) as (k & off & len & upd & cont & c' & Hp & -> & Hk & Hlt & Hok).
      exists k, off, len, upd, cont, c'. do 4 (split; [done|]). destruct (decide (m = key_row key)) as [->|Hne].
      * rewrite Hr in Hf. injection Hf as <- <-. apply (recv_has _ _ _ _ _ d); cbn; [set_solver|apply lookup_delete_eq|apply lookup_insert_eq|done].
      * apply (recv_ok_same i r); [done|cbn; set_solver|cbn; apply lookup_delete_ne; congruence|].
        cbn. apply lookup_insert_ne. intros <-. by destruct (Hne (P4 _ _ _ _ Hf Hr eq_refl)).
    + intros m Hm Hf. assert (m ∈ pn_awake r) by by apply P3. set_solver.
  - unfold pn_has, pn_early, pn_arrived, cell_at. cbn. rewrite lookup_delete_eq, Hr. cbn. by rewrite decide_True, lookup_insert_eq.
  - intros k Hk. unfold pn_has, pn_early, pn_arrived, cell_at. cbn. rewrite lookup_delete_ne by done. f_equal.
    destruct (pn_recvs r !! key_row k) as [f|] eqn:Hf; [|done]. destruct (decide (rf_key f = k)) as [He|]; [|done].
    rewrite lookup_insert_ne; [done|]. intros Hc. assert (Hm := P4 _ _ _ _ Hf Hr (eq_sym Hc)). rewrite Hm, Hr in Hf. by injection Hf as <-.
Qed.

Lemma received_rank i r key d ro o : PnOk i r -> length d = length (target i key) -> pn_has r key = [] ->
  deliver key d (pn_router r) = (ro, o) -> let r' := pn_received r ro o in
  PnOk i r' /\ pn_has r' key = [d] /\ forall k, k <> key -> pn_has r' k = pn_has r k.
Proof.
  intros Hok Hd Hno Hdl. destruct (slots (pn_router r) !! key) as [x|] eqn:Hs.
  - destruct (po_slots _ _ Hok _ _ Hs) as [(b & -> & _)|(c & -> & Hr)].
    { unfold pn_has, pn_early in Hno. by rewrite Hs in Hno. }
    destruct (po_recvs _ _ Hok _ _ Hr) as (k & ? & ? & ? & ? & c' & _ & Hf & _ & _ & Hk). injection Hf as <- <- _.
    destruct Hk as [_ _ Hc|? _ Hs' _ _]; [|congruence].
    rewrite (deliver_meets _ _ _ _ _ _ _ Hs Hc), (copy_all d) in Hdl by done. injection Hdl as <- <-. by apply met_rank.
  - rewrite (deliver_keeps _ _ _ Hs) in Hdl. injection Hdl as <- <-. by apply kept_rank.
Qed.

Lemma deliver_pool_simulated a a' w l cur j : PSim a w l cur -> pn_deliver j a = Some a' -> pn_simulated a a' w.
Proof.
  intros HS Hdo. unfold pn_deliver in Hdo. rewrite (ps_wire _ _ _ _ HS), list_lookup_fmap in Hdo.
  destruct (l !! j) as [[[dst key] d]|] eqn:Hj; [|done]. cbn [fmap option_fmap option_map mbind option_bind fst snd] in Hdo.
  destruct (a.1 !! dst) as [r|] eqn:Hi; [|done]. cbn [mbind option_bind] in Hdo.
  destruct (ps_msgs _ _ _ _ HS _ (list_elem_of_lookup_2 _ _ _ Hj)) as (Hlt & Hkey & Hlen). cbn in Hlt, Hkey, Hlen.
  rewrite dispatch_one in Hdo by done. destruct (deliver key d (pn_router r)) as [ro o] eqn:Hdl. injection Hdo as <-.
  destruct (on_wire_delete l j _ Hj) as [Hw Hwo]. cbn in Hw.
  assert (Hle := ps_held _ _ _ _ dst key HS Hlt). rewrite (pn_held_at _ _ _ _ _ Hi), length_app, Hw in Hle. cbn in Hle.
  assert (Hno : pn_has r key = []) by (destruct (pn_has r key); [done|cbn in Hle; lia]).
  assert (Hwl : on_wire (delete j l) dst key = []) by (destruct (on_wire (delete j l) dst key); [done|cbn in Hle; lia]).
  assert (Hwd : on_wire l dst key = [d]) by (rewrite Hwl in Hw; by apply Permutation_singleton_r in Hw).
  destruct (received_rank dst r key d ro o (ps_rank _ _ _ _ HS _ _ Hi) Hlen Hno Hdl) as (Hr' & He' & Hk').
  assert (Hwire : delete j (wire_of l) = wire_of (delete j l)) by (symmetry; apply list_fmap_delete).
  exists w, (delete j l), cur. split.
  - rewrite Hwire. apply (ps_stutter a w l cur dst r (pn_received r ro o)); try done.
    + intros m. apply list_elem_of_delete_inv.
    + intros dst' key' Hd'. destruct (decide ((dst', key') = (dst, key))) as [[= -> ->]|Hne].
      * by rewrite (pn_held_insert_at _ _ _ _ _ _ Hi), (pn_held_at _ _ _ _ _ Hi), Hwl, Hwd, He', Hno.
      * apply (pn_held_insert _ _ _ _ r); [done|by apply Hwo|]. intros ->. apply Hk'. congruence.
  - right. split; [done|]. unfold pn_potential. cbn [fst snd]. rewrite (ps_wire _ _ _ _ HS).
    rewrite Hwire, !length_map, length_delete by by eexists.
    assert (Hc := awake_insert _ _ _ (pn_received r ro o) Hi). cbn [pn_received pn_awake] in Hc.
    assert (Hsz := size_union_le (list_to_set (map task_id (option_list o))) (pn_awake r)).
    assert (Ho : size (list_to_set (map task_id (option_list o)) : gset nat) <= 1) by (destruct o; cbn; rewrite ?union_empty_r_L, ?size_singleton, ?size_empty; lia).
    assert (Hl0 : 0 < length l) by (apply lookup_lt_Some in Hj; lia). unfold pn_received in Hc. clear -Hc Hsz Ho Hl0. cbn in *. lia.
Qed.

Lemma pn_step_simulated a a' w l cur : PSim a w l cur -> pn_step a a' -> pn_simulated a a' w.
Proof.
  intros HS [[i|i m|j] Hl]; [by eapply main_simulated|by eapply chain_simulated|by eapply deliver_pool_simulated].
Qed.

(** ** Whole runs *)

Lemma ps_init (rs : list PRank) : length rs = n -> (forall i (r : PRank), rs !! i = Some r -> once i r) ->
  PSim (pn_init rs) (rs, ∅) [] (fun _ _ => 0).
Proof.
  intros Hl Ho. unfold pn_init. split; cbn.
  - rewrite map_map. apply map_id.
  - by rewrite length_map.
  - done.
  - by intros m ?%elem_of_nil.
  - intros i r Hi. apply list_lookup_fmap_Some in Hi as (p & -> & _). split; cbn; [done|done| |done].
    intros m Hm _. by apply elem_of_dom.
  - intros i r Hi. apply list_lookup_fmap_Some in Hi as (p & -> & Hp). by apply (Ho i).
  - intros i r Hi. apply list_lookup_fmap_Some in Hi as (p & -> & Hp). destruct (Ho i p Hp) as (_ & He & Hc).
    split. exists (fun _ => 0). cbn. split; [done|]. split; [done|]. intros m c. by rewrite He, lookup_empty.
  - intros dst key _. unfold pn_held, on_wire. cbn. rewrite list_lookup_fmap, lookup_empty. by destruct (rs !! dst).
  - intros x ds Hx. by rewrite lookup_empty in Hx.
Qed.

Lemma pool_run_simulated k a a0 w0 l0 cur0 : PSim a0 w0 l0 cur0 -> nsteps pn_step k a0 a ->
  exists q w l cur, PSim a w l cur /\ nsteps pool_steps q w0 w /\ k + pn_potential a <= 3 * q + pn_potential a0.
Proof.
  intros HS Hm. revert w0 l0 cur0 HS. induction Hm as [a|k a a1 a2 Hs _ IH]; intros w0 l0 cur0 HS.
  - exists 0, w0, l0, cur0. split; [done|]. split; [constructor|lia].
  - destruct (pn_step_simulated _ _ _ _ _ HS Hs) as (w1 & l1 & cur1 & HS1 & Hcase).
    destruct (IH _ _ _ HS1) as (q & w & l & cur & HS2 & Hk & Hpot).
    destruct Hcase as [[Hst Hp]|[-> Hp]].
    + exists (S q), w, l, cur. split; [done|]. split; [by eapply nsteps_l|lia].
    + exists q, w, l, cur. split; [done|]. split; [done|lia].
Qed.

Lemma pn_stuck_wire a w l cur : PSim a w l cur -> (forall a', ~ pn_step a a') -> l = [].
Proof.
  intros HS Hst. destruct l as [|[[dst key] d] l]; [done|exfalso].
  destruct (ps_msgs _ _ _ _ HS (dst, key, d)) as (Hlt & Hkey & _); [by left|]. cbn in Hlt, Hkey.
  rewrite <- (ps_len _ _ _ _ HS) in Hlt. apply lookup_lt_is_Some in Hlt as [r Hr].
  destruct (pn_deliver 0 a) as [a'|] eqn:Hd; [by apply (Hst a'); exists (PnDeliver 0)|].
  unfold pn_deliver in Hd. rewrite (ps_wire _ _ _ _ HS) in Hd. cbn [map lookup list_lookup mbind option_bind fst snd] in Hd.
  rewrite Hr in Hd. cbn [mbind option_bind] in Hd. by rewrite dispatch_one in Hd.
Qed.

Lemma can_chain a w l cur i r m o : PSim a w l cur -> a.1 !! i = Some r -> op_of (Some m) (pn_rank r) = Some o ->
  m ∈ pn_awake r -> exists a', pn_chain i m a = Some a'.
Proof.
  intros HS Hi Ho Ha. assert (Hop := Ho). apply op_chain in Hop as (c & Hc & _ & _).
  destruct c as [x|dst key off len cont|key off len upd cont].
  1, 2: unfold pn_chain; rewrite Hi; cbn [mbind option_bind]; rewrite Ho; cbn [mbind option_bind]; rewrite Hc;
    cbn [mbind option_bind]; rewrite decide_False by (intros Hx; by apply Hx); by eexists.
  destruct (recv_cases _ _ _ _ _ _ _ _ _ _ _ _ _ HS Hi Ho Hc Ha) as [(d & ro & _ & _ & _ & _ & ->)|(_ & _ & ->)]; by eexists.
Qed.

Lemma pn_stuck_simulated a w l cur : PSim a w l cur -> (forall a', ~ pn_step a a') -> forall w', ~ pool_steps w w'.
Proof.
  intros HS Hst w' [[i x] Hs]. assert (Hl := pn_stuck_wire _ _ _ _ HS Hst). subst l. unfold pool_step in Hs. cbn [fst snd] in Hs.
  destruct (w.1 !! i) as [p|] eqn:Hp; [|done]. rewrite <- (ps_ranks _ _ _ _ HS) in Hp.
  apply list_lookup_fmap_Some in Hp as (r & -> & Hr). cbn [mbind option_bind] in Hs.
  destruct (op_of x (pn_rank r)) as [o|] eqn:Ho; [|done]. cbn [mbind option_bind] in Hs. destruct x as [m|].
  - assert (Hna : m ∉ pn_awake r).
    { intros Ha. destruct (can_chain _ _ _ _ _ _ _ _ HS Hr Ho Ha) as [a' Ha']. apply (Hst a'). by exists (PnChain i m). }
    apply op_chain in Ho as (c & Hc & -> & _). assert (Hok := ps_rank _ _ _ _ HS _ _ Hr).
    destruct (pn_recvs r !! m) as [f|] eqn:Hf; [|by apply Hna, (po_idle _ _ Hok); [eexists|]].
    destruct (po_recvs _ _ Hok _ _ Hf) as (key & ? & ? & ? & ? & c0 & Hp & -> & Hk & _ & Hrk).
    destruct Hrk as [_ Hsl Hcl|? Ha _ _ _]; [|done]. rewrite Hc in Hp. injection Hp as ->. cbn [chain_op net_do] in Hs.
    assert (Hn := ps_net _ _ _ _ HS i key (ps_bound _ _ _ _ _ _ HS Hr)). rewrite (pn_held_at _ _ _ _ _ Hr) in Hn.
    unfold pn_has, pn_early, pn_arrived, cell_at in Hn. rewrite Hsl, Hk, Hf in Hn. cbn in Hn. rewrite decide_True, Hcl in Hn by done.
    cbn in Hn. unfold net_recv in Hs. destruct (w.2 !! (i, key)) as [[|]|]; done.
  - apply (Hst (<[i := mkPn (after None (pn_rank r) []) (pn_router r) (pn_recvs r) (pn_cell r)
      ((match prmain (pn_rank r) with MPush m _ _ => {[m]} | _ => ∅ end) ∪ pn_awake r)]> a.1, a.2)).
    exists (PnMain i). cbn. unfold pn_main. rewrite Hr. cbn [mbind option_bind]. by rewrite Ho.
Qed.

(** A rank that is done keeps nothing. *)
Lemma done_clean a w cur i r f : PSim a w [] cur -> w.2 = ∅ -> a.1 !! i = Some r -> pn_rank r = returned f.1 f.2 ->
  slots (pn_router r) = ∅ /\ pn_recvs r = ∅.
Proof.
  intros HS Hw Hi Hr. assert (Hok := ps_rank _ _ _ _ HS _ _ Hi). assert (Hlt := ps_bound _ _ _ _ _ _ HS Hi).
  assert (Hn : pn_recvs r = ∅).
  { apply map_empty. intros m. destruct (pn_recvs r !! m) as [x|] eqn:Hf; [|done].
    destruct (po_recvs _ _ Hok _ _ Hf) as (k & ? & ? & ? & ? & c & Hp & _). by rewrite Hr in Hp. }
  split; [|done]. apply map_empty. intros key. destruct (slots (pn_router r) !! key) as [y|] eqn:Hs; [|done].
  destruct (po_slots _ _ Hok _ _ Hs) as [(b & -> & _)|(c & _ & Hf)]; [|by rewrite Hn in Hf].
  assert (Hnet := ps_net _ _ _ _ HS i key Hlt). rewrite Hw, (pn_held_at _ _ _ _ _ Hi) in Hnet. unfold pn_has, pn_early in Hnet.
  by rewrite Hs in Hnet.
Qed.

Lemma pool_refines (rs : list PRank) fin : length rs = n -> (forall i (r : PRank), rs !! i = Some r -> once i r) ->
  PoolCompletes rs fin -> PnCompletes rs fin.
Proof.
  intros Hlen Hp [[N HN] HD]. assert (HS := ps_init rs Hlen Hp). split.
  - exists (3 * N + pn_potential (pn_init rs)). intros k a Hk.
    destruct (pool_run_simulated _ _ _ _ _ _ HS Hk) as (q & w & l & cur & _ & Hq & Hpot). apply HN in Hq. lia.
  - intros a Hr Hst. apply rtc_nsteps in Hr as [k Hk].
    destruct (pool_run_simulated _ _ _ _ _ _ HS Hk) as (q & w & l & cur & HS' & Hq & _).
    assert (Hw : w = (map (fun f => returned f.1 f.2) fin, ∅)) by (apply HD; [by eapply rtc_nsteps_2|by eapply pn_stuck_simulated]).
    assert (Hl := pn_stuck_wire _ _ _ _ HS' Hst). subst l. split; [|split].
    + rewrite (ps_ranks _ _ _ _ HS'), Hw. done.
    + exact (ps_wire _ _ _ _ HS').
    + apply Forall_lookup. intros i r Hi. assert (Hpr := ps_at _ _ _ _ _ _ HS' Hi). rewrite Hw in Hpr. cbn in Hpr.
      apply list_lookup_fmap_Some in Hpr as (f & Hf & _). eapply done_clean; [done|by rewrite Hw|done|exact Hf].
Qed.
End poolnet.
