(* ===== verification/PipeNet.v ===== *)
(** * PipeNet: the pipelined ring over the routers

    The chains of the pipelined ring send each key once: a row goes through the steps of
    the first phase and then through those of the second.  So the refinement theorem of
    [PoolNet] carries what [PipeRing] proves of every schedule over to ranks whose chains
    wait in their routers, whatever the order in which the messages arrive. *)

From S2P Require Import Prelude Future CollBase AmRouter Spmd Ring Pool PipeRing AmNet PoolNet.

Section pipenet.
Context {T : Type} `{Op T} (T_default : T).
Context (n mc micro : nat) (Hn : 2 <= n) (H16 : (Z.of_nat n <= 65536)%Z) (Hmc : 1 <= mc) (Hmc8 : mc <= 255).
(** Elements of [size] bytes. *)
Context (size : nat) (enc : list T -> list Z) (target : nat -> RecvKey -> list Z).
Context (enc_length : forall d, length (enc d) = length d * size).
Context (target_length : forall i key, length (target i key) = micro * size).
Abbreviation Res := (outcome (result unit CollectiveError)).
Abbreviation C := (Chain (K := RecvKey) (T := T) (R := Res)).
Abbreviation M := (Main (K := RecvKey) (T := T) (R := Res)).
Abbreviation chunk := (mc * micro).

(** The place of a key in its row: the steps of phase 0, then those of phase 1. *)
Definition place (k : RecvKey) : nat := Z.to_nat (kphase k) * n + Z.to_nat (kstep k).

Abbreviation Rising := (rising n enc target place).
Abbreviation Climbing := (climbing n enc target place (T := T) (R := Res)).

Lemma pipe_key_ok i step phase m : in_u8 phase -> key_ok (pipe_key i step phase m).
Proof.
  intros Hp. unfold key_ok, pipe_key, key_of, in_u16, wrap16, wrap8. cbn.
  repeat split; try apply Z.mod_pos_bound; try lia; apply Hp.
Qed.

Lemma place_pipe i step phase m : step < n -> place (pipe_key i step (Z.of_nat phase) m) = phase * n + step.
Proof. intros Hs. unfold place. cbn. unfold wrap16. rewrite Z.mod_small, !Nat2Z.id by lia. done. Qed.

(** ** Chains rise *)

Lemma rising_mono i b b' e (c : C) : b' <= b -> Rising i b e c -> Rising i b' e c.
Proof.
  intros Hb. induction c as [r|dst key off len cont IH|key off len upd cont IH]; cbn.
  - lia.
  - intros (? & ? & ? & ?). do 2 (split; [done|]). split; [lia|done].
  - intros Hr d Hd. by apply IH, Hr.
Qed.

Lemma exchange_rises i b e ep step phase m prev c c' upd k : ep < n -> step < n -> phase <= 1 ->
  b <= phase * n + step < e -> (forall d, Rising i (S (phase * n + step)) e (k (Some d, ROk tt))) ->
  Rising i b e (chain_exchange ep (pipe_key i step (Z.of_nat phase) m) (pipe_key prev step (Z.of_nat phase) m) (c, micro) c' upd k).
Proof.
  intros Hep Hs Hp Hb Hk. unfold chain_exchange. cbn [rising fst snd]. rewrite place_pipe by done.
  split; [done|]. split; [apply pipe_key_ok; unfold in_u8; lia|]. split; [lia|]. split.
  - intros d Hd. by rewrite enc_length, target_length, Hd.
  - intros d _. apply Hk.
Qed.

Abbreviation slots := (slots_table n mc chunk micro).

Lemma rs_chain_rises i m ep tmp prev start cnt : ep < n -> m < mc -> start + cnt < n ->
  Rising i start n (reduce_scatter_chain ep slots mc m tmp i prev n start cnt).
Proof.
  intros Hep Hm. revert tmp start. induction cnt as [|cnt IH]; intros tmp start Hc; cbn [reduce_scatter_chain]; [cbn; lia|].
  rewrite !(slots_lookup n mc) by (done || by apply Nat.mod_upper_bound; lia).
  apply (exchange_rises i start n ep start 0); [done|lia|lia|lia|intros d]. apply IH. lia.
Qed.

Lemma ag_chain_rises i m ep prev start cnt : ep < n -> m < mc -> start + cnt < n ->
  Rising i (n + start) (2 * n) (allgather_chain ep slots mc m i prev n start cnt).
Proof.
  intros Hep Hm. revert start. induction cnt as [|cnt IH]; intros start Hc; cbn [allgather_chain]; [cbn; lia|].
  rewrite !(slots_lookup n mc) by (done || by apply Nat.mod_upper_bound; lia).
  apply (exchange_rises i _ _ ep start 1); [done|lia|lia|lia|intros d].
  replace (S (1 * n + start)) with (n + S start) by lia. apply IH. lia.
Qed.

(** ** The loops climb *)

Lemma drain_climbs i lvl fuel (k : M) : Climbing i lvl k -> Climbing i lvl (drain fuel k).
Proof.
  intros Hk. induction fuel as [|fuel IH]; intros o; cbn; repeat (case_match; try done).
Qed.

Lemma launch_climbs i lvl lo e maxf fuel (ch : nat -> C) ms launched (k : M) : lo <= e -> NoDup ms ->
  (forall m, m ∈ ms -> lvl m <= lo /\ Rising i lo e (ch m)) -> (forall m, lvl m <= e) ->
  (forall lvl', (forall m, lvl' m <= e) -> Climbing i lvl' k) -> Climbing i lvl (launch maxf fuel ch ms launched k).
Proof.
  intros Hlo Hnd. revert lvl launched. induction Hnd as [|m ms Hnin _ IH]; intros lvl launched Hms Hle Hk; cbn [launch].
  { by apply drain_climbs, Hk. }
  destruct (Hms m) as [Hm Hr]; [by left|]. exists e. split; [lia|]. split; [by apply (rising_mono i lo)|].
  assert (Hrest : Climbing i (raise lvl m e) (launch maxf fuel ch ms (launched + 1) k)).
  { apply IH; [|intros m'; unfold raise; by case_decide|done]. intros m' Hm'. unfold raise.
    rewrite decide_False by (intros ->; done). apply Hms. by right. }
  case_match; [|done]. intros o. by repeat (case_match; try done).
Qed.

Lemma phases_climb {Proto} (config : PipelineConfig Proto) i :
  Climbing i (fun _ => 0) (phase1 T_default n mc micro config i).
Proof.
  assert (Hseq : forall m, m ∈ seq 0 mc -> m < mc) by (intros m ?%list_elem_of_In%in_seq; lia).
  assert (Hnd : NoDup (seq 0 mc)) by apply NoDup_ListNoDup, seq_NoDup.
  assert (Hep : next_of n i < n) by (apply Nat.mod_upper_bound; lia).
  unfold phase1, phase2. apply (launch_climbs i _ 0 n); [lia|done| |intros m; lia|].
  - intros m Hm%Hseq. split; [lia|]. apply rs_chain_rises; [done|done|lia].
  - intros lvl Hlvl. apply (launch_climbs i _ n (2 * n)); [lia|done| |intros m; specialize (Hlvl m); lia|done].
    intros m Hm%Hseq. split; [apply Hlvl|]. rewrite <- (Nat.add_0_r n) at 2. apply ag_chain_rises; [done|done|lia].
Qed.
End pipenet.

(** C28. The pipelined ring works over the routers.  In the setting of the theorem on
    the pipelined ring, let the elements be cast to a fixed number of bytes and back, and
    let every rank run its chains over a router of its own, each chain with its own
    [RecvFuture] and polled only when the router woke it, on a network that delays and
    reorders.  Every execution is finite; when nothing can move any more every rank has
    returned [Ok] with the plain ring's result; no message is left on its way or in a
    router and no receive is left posted. *)
Theorem pipelined_ring_over_routers {T} `{Op T} (T_default : T) {Proto} debug n mc micro size
    (enc : list T -> list Z) (dec : list Z -> list T) (target : nat -> RecvKey -> list Z)
    (config : PipelineConfig Proto) (comm : nat -> UcxCommunicator) (bufs : nat -> list T) :
  2 <= n -> (Z.of_nat n <= 65536)%Z -> 1 <= mc <= 255 -> micro_chunks config = mc -> 1 <= max_in_flight config ->
  (forall i, i < n -> CommOk n i (comm i)) -> (forall i, i < n -> length (bufs i) = n * (mc * micro)) ->
  (forall d, dec (enc d) = d) -> (forall d, length (enc d) = length d * size) ->
  (forall i key, length (target i key) = micro * size) ->
  PnCompletes debug enc dec target (pranks n (fun i => pipe_rank T_default (comm i) (bufs i) config))
    (map (fun _ => (ring_result n (mc * micro) bufs, Ok (ROk tt))) (seq 0 n)).
Proof.
  intros Hn H16 Hmc Hcfg Hmax Hcomm Hlen Hdec Henc Ht.
  apply (pool_refines debug n enc dec target (place n) (slot_in n mc micro) (n * (mc * micro)) (Ok (ROk tt)) Hdec).
  - intros m o l. apply slot_in_fits; lia.
  - intros m m' o l o' l'. apply slot_in_apart; lia.
  - unfold pranks. by rewrite length_map, length_seq.
  - intros i r Hr. split; [by eapply (pipe_tame T_default n mc micro Hn H16 ltac:(lia) ltac:(lia) config comm bufs)|].
    unfold pranks in Hr. apply list_lookup_fmap_Some in Hr as (j & -> & [-> Hi]%lookup_seq).
    rewrite Nat.add_0_l, (pipe_unfold T_default n mc micro) by (done || lia). split; [done|].
    by apply (phases_climb T_default n mc micro Hn H16 ltac:(lia) ltac:(lia) size enc target Henc Ht).
  - by apply pipe_completes.
Qed.

(** Two ranks, two rows of slots of two elements, one chain at a time; an element is two bytes,
    the second its sign. *)
Definition enc_signed (l : list Z) : list Z := concat (map (fun z => [Z.abs z; Z.sgn z]) l).
Fixpoint dec_signed (l : list Z) : list Z :=
  match l with a :: s :: l => (s * a)%Z :: dec_signed l | _ => [] end.

Lemma pipelined_ring_over_routers_witness :
  PnCompletes true enc_signed dec_signed (fun _ _ => replicate 4 0%Z)
    (pranks 2 (fun i => pipe_rank (H := BitXor_u32) 0%Z (full_comm 2 i)
      [Z.of_nat i; 2; 3; 4; 5; 6; 7; 8]%Z (mkPipeline unit 2 1 None)))
    (map (fun _ => ([1; 0; 0; 0; 0; 0; 0; 0]%Z, Ok (ROk tt))) (seq 0 2)).
Proof.
  apply (pipelined_ring_over_routers (H := BitXor_u32) 0%Z true 2 2 2 2 enc_signed dec_signed (fun _ _ => replicate 4 0%Z)
    (mkPipeline unit 2 1 None) (full_comm 2) (fun i => [Z.of_nat i; 2; 3; 4; 5; 6; 7; 8]%Z)).
  - lia.
  - lia.
  - lia.
  - reflexivity.
  - cbn. lia.
  - intros i _. apply full_comm_ok.
  - reflexivity.
  - intros d. induction d as [|z d IH]; [done|]. cbn. change (concat _) with (enc_signed d). rewrite IH.
    by rewrite Z.mul_comm, Z.abs_sgn.
  - intros d. unfold enc_signed. induction d as [|z d IH]; [done|]. cbn. by rewrite IH.
  - reflexivity.
Defined.
