(* ===== verification/Adaptive.v ===== *)
(** * Adaptive: the communicators and their choice of algorithm
    ([pluvio_collective/src/ucx_backend/adaptive.rs], [communicator.rs])

    [UcxCommunicator] implements the four collectives with the algorithms of [Ring],
    [Bcast] and [Bruck]; [AdaptiveCommunicator] wraps it and chooses the allreduce by
    message size and number of ranks.  The theorem says what a call of the adaptive
    allreduce ends with at every rank, errors included. *)

From S2P Require Import Prelude CollBase Spmd Ring RecDouble Bruck Bcast Pool PipeRing.

(** ** The policy *)

Section policy.
Context {Proto : Type}.

Inductive AllreduceAlgo : Type :=
| PlainRing
| PipelinedRing (config : PipelineConfig Proto)
| RecursiveDoubling.

Record AdaptivePolicy : Type := mkPolicy {
  small_threshold : nat;
  large_threshold : nat;
  pipeline_config : PipelineConfig Proto
}.

Definition AdaptivePolicy_default : AdaptivePolicy := mkPolicy (2 * 1024) (64 * 1024) PipelineConfig_default.

Definition choose_allreduce (p : AdaptivePolicy) (msg_bytes n : nat) : AllreduceAlgo :=
  if (msg_bytes <? small_threshold p) && is_power_of_two n && (2 <=? n) then RecursiveDoubling
  else if large_threshold p <=? msg_bytes then PipelinedRing (pipeline_config p)
  else PlainRing.

Record AdaptiveCommunicator : Type := mkAdaptive { inner : UcxCommunicator; policy : AdaptivePolicy }.

(** [size_of_T] is [size_of::<T>()]; the product is the size in bytes of the slice, which
    Rust bounds by [isize::MAX], so it does not overflow. *)
Definition chosen_algo (a : AdaptiveCommunicator) (size_of_T len : nat) : AllreduceAlgo :=
  choose_allreduce (policy a) (len * size_of_T) (csize (inner a)).
End policy.
Arguments AllreduceAlgo : clear implicits.
Arguments AdaptivePolicy : clear implicits.
Arguments AdaptiveCommunicator : clear implicits.

(** ** The collectives of the communicators *)

Section collectives.
Context {T : Type} `{Op T} (T_default : T) {Proto : Type}.
Abbreviation Res := (outcome (result unit CollectiveError)).

Definition ucx_allreduce (c : UcxCommunicator) (buf : list T) : Prog Z (list T) (RankResult T) :=
  ring_allreduce T_default c buf Ret.
Definition ucx_scatter (c : UcxCommunicator) (send_buf : option (list T)) (recv_buf : list T) (root : nat) :
    Prog RecvKey (list T) (RankResult T) := scatter c send_buf recv_buf root Ret.
Definition ucx_allgather (c : UcxCommunicator) (send_buf recv_buf : list T) :
    Prog RecvKey (list T) (outcome (RankResult T)) := bruck_allgather c send_buf recv_buf Ret.
Definition ucx_broadcast (c : UcxCommunicator) (buf : list T) (root : nat) : Prog RecvKey (list T) (RankResult T) :=
  broadcast c buf root Ret.
Definition allreduce_pipelined (c : UcxCommunicator) (buf : list T) (config : PipelineConfig Proto) :
    PoolRank (K := RecvKey) (T := T) (R := Res) := pipe_rank T_default c buf config.
Definition allreduce_recursive_doubling (c : UcxCommunicator) (buf : list T) : Prog Z (list T) (RankResult T) :=
  recursive_doubling T_default c buf Ret.

(** A rank's run: of a plain algorithm, or of one that drives a pool of chains. *)
Inductive AllreduceRun : Type :=
| RunProg (p : Prog Z (list T) (RankResult T))
| RunPool (r : PoolRank (K := RecvKey) (T := T) (R := Res)).

Definition adaptive_allreduce (a : AdaptiveCommunicator Proto) (size_of_T : nat) (buf : list T) : AllreduceRun :=
  match choose_allreduce (policy a) (length buf * size_of_T) (csize (inner a)) with
  | PlainRing => RunProg (ucx_allreduce (inner a) buf)
  | PipelinedRing config => RunPool (allreduce_pipelined (inner a) buf config)
  | RecursiveDoubling => RunProg (allreduce_recursive_doubling (inner a) buf)
  end.
Definition adaptive_scatter (a : AdaptiveCommunicator Proto) := ucx_scatter (inner a).
Definition adaptive_allgather (a : AdaptiveCommunicator Proto) := ucx_allgather (inner a).
Definition adaptive_broadcast (a : AdaptiveCommunicator Proto) := ucx_broadcast (inner a).

(** The ranks run the same kind of program, and every execution ends with [fin]. *)
Definition AllFinish (runs : list AllreduceRun) (fin : list (RankResult T)) : Prop :=
  (exists ps, runs = map RunProg ps /\ Completes ps fin) \/
  (exists rs, runs = map RunPool rs /\ PoolCompletes rs (map (fun f => (f.1, Ok f.2)) fin)).

(** ** What an adaptive allreduce answers *)

Definition config_error (c : PipelineConfig Proto) : option CollectiveError :=
  if (micro_chunks c =? 0) || (max_in_flight c =? 0)
  then Some (Protocol "pipelined ring: micro_chunks and max_in_flight must be > 0")
  else if 255 <? micro_chunks c
  then Some (Protocol "pipelined ring: micro_chunks > 255 (does not fit in AmHeader::micro_chunk)")
  else None.

(** The error of a call over [n] ranks with [len] elements each. *)
Definition adaptive_error (p : AdaptivePolicy Proto) (size_of_T len n : nat) : option CollectiveError :=
  if n <=? 1 then None
  else
    match choose_allreduce p (len * size_of_T) n with
    | RecursiveDoubling => None
    | PlainRing => if len mod n =? 0 then None else Some BadShape
    | PipelinedRing c =>
        match config_error c with
        | Some e => Some e
        | None => if (len mod n =? 0) && (len / n mod micro_chunks c =? 0) then None else Some BadShape
        end
    end.
End collectives.

(** * Facts *)

(** Programs that return at once. *)
Lemma returns_completes {K D A} `{Countable K} n (F : nat -> Prog K D A) (fin : nat -> A) :
  (forall i, i < n -> F i = Ret (fin i)) -> Completes (ranks n F) (map fin (seq 0 n)).
Proof.
  intros HF. apply (completes_ranks (fun _ => 0)).
  - intros i Hi. by rewrite HF.
  - rewrite (ranks_ext n F (fun i => Ret (fin i)) HF). apply rtc_refl.
Qed.

Lemma returns_pool {K T R} `{Countable K} n (F : nat -> PoolRank (K := K) (T := T) (R := R)) (fin : nat -> list T * R) :
  (forall i, i < n -> F i = returned (fin i).1 (fin i).2) -> PoolCompletes (pranks n F) (map fin (seq 0 n)).
Proof.
  intros HF.
  assert (He : pranks n F = map (fun f => returned f.1 f.2) (map fin (seq 0 n))).
  { rewrite map_map. by apply (pranks_ext n F (fun i => returned (fin i).1 (fin i).2)). }
  rewrite He. split.
  - exists 0. intros m w Hs. inversion Hs as [|? ? w1 ? Hs1]; [done|]. by apply returned_stuck in Hs1.
  - intros w Hr _. inversion Hr as [|? w1 ? Hs1]; [done|]. by apply returned_stuck in Hs1.
Qed.

Section facts.
Context {T : Type} `{Op T} (T_default : T) {Proto : Type} (p : AdaptivePolicy Proto) (size_of_T : nat).
Context (n len : nat) (comm : nat -> UcxCommunicator) (bufs : nat -> list T).
Context (Hn : 1 <= n) (H16 : (Z.of_nat n <= 65536)%Z).
Context (Hcomm : forall i, i < n -> CommOk n i (comm i)) (Hlen : forall i, i < n -> length (bufs i) = len).
Context (HA : Assoc (=) (op_apply : T -> T -> T)) (HC : Comm (=) (op_apply : T -> T -> T)).

Abbreviation answer err i := (match err with None => (reduce_all n bufs, ROk tt) | Some e => (bufs i, RErr e) end).

Lemma reduce_all_one i : n = 1 -> i < n -> reduce_all n bufs = bufs i.
Proof. intros -> Hi. by replace i with 0 by lia. Qed.

Lemma plain_finish : Completes (ranks n (fun i => ucx_allreduce T_default (comm i) (bufs i)))
  (map (fun i => answer (if (n <=? 1) || (len mod n =? 0) then None else Some BadShape) i) (seq 0 n)).
Proof.
  destruct (Nat.leb_spec n 1) as [H1|H1]; cbn [orb].
  - apply returns_completes. intros i Hi. destruct (Hcomm i Hi) as [Hr Hs _].
    unfold ucx_allreduce, ring_allreduce. rewrite Hs, (reduce_all_one i) by lia.
    by destruct (Nat.leb_spec n 1); [|lia].
  - destruct (Nat.eqb_spec (len mod n) 0) as [Hd|Hd].
    + apply Nat.Div0.mod_divides in Hd as [chunk Hc].
      rewrite <- (ring_result_all n chunk bufs) by (lia || (intros; by rewrite Hlen)).
      apply ring_completes; [lia|done|done|]. intros. by rewrite Hlen.
    + apply returns_completes. intros i Hi. destruct (Hcomm i Hi) as [Hr Hs _].
      unfold ucx_allreduce, ring_allreduce. rewrite Hs, Hlen by done. destruct (Nat.leb_spec n 1); [lia|].
      by destruct (Nat.eqb_spec (len mod n) 0).
Qed.

Lemma rd_finish : 2 <= n -> is_power_of_two n = true ->
  Completes (ranks n (fun i => allreduce_recursive_doubling T_default (comm i) (bufs i)))
    (map (fun i => answer None i) (seq 0 n)).
Proof.
  intros H2 Hp. unfold is_power_of_two in Hp. apply andb_true_iff in Hp as [_ Hp%Nat.eqb_eq].
  assert (Hk : 1 <= Nat.log2 n <= 16).
  { split; [by apply (Nat.log2_le_mono 2 n)|]. destruct (decide (Nat.log2 n <= 16)) as [|Hlog]; [done|exfalso].
    assert (Hz : (Z.of_nat (2 ^ 17) <= Z.of_nat n)%Z).
    { apply Nat2Z.inj_le. rewrite <- Hp. apply Nat.pow_le_mono_r; lia. }
    rewrite Nat2Z.inj_pow in Hz. change (Z.of_nat 2 ^ Z.of_nat 17)%Z with 131072%Z in Hz. lia. }
  assert (Hc := rd_completes T_default (Nat.log2 n) len comm bufs).
  assert (Ht := tree_reduce_all (Nat.log2 n) bufs HC HA).
  rewrite Hp in Hc, Ht. rewrite <- Ht. apply Hc; done || lia.
Qed.

Lemma pool_finish (c : PipelineConfig Proto) :
  PoolCompletes (pranks n (fun i => allreduce_pipelined T_default (comm i) (bufs i) c))
    (map (fun i =>
       let f := answer (if n <=? 1 then None else
           match config_error c with
           | Some e => Some e
           | None => if (len mod n =? 0) && (len / n mod micro_chunks c =? 0) then None else Some BadShape
           end) i in (f.1, Ok f.2)) (seq 0 n)).
Proof.
  destruct (Nat.leb_spec n 1) as [H1|H1].
  { apply returns_pool. intros i Hi. destruct (Hcomm i Hi) as [Hr Hs _]. cbn.
    unfold allreduce_pipelined, pipe_rank, pipelined_ring. rewrite Hs, (reduce_all_one i) by lia.
    by destruct (Nat.leb_spec n 1); [|lia]. }
  destruct (config_error c) as [e|] eqn:He.
  { apply returns_pool. intros i Hi. destruct (Hcomm i Hi) as [Hr Hs _]. cbn.
    unfold allreduce_pipelined, pipe_rank, pipelined_ring. rewrite Hs. destruct (Nat.leb_spec n 1); [lia|].
    unfold config_error in He. destruct (_ || _); [by injection He as <-|]. destruct (255 <? _); [by injection He as <-|done]. }
  unfold config_error in He. destruct (Nat.eqb_spec (micro_chunks c) 0) as [|Hm0]; [done|].
  destruct (Nat.eqb_spec (max_in_flight c) 0) as [|Hx0]; [done|]. cbn [orb] in He.
  destruct (Nat.ltb_spec 255 (micro_chunks c)) as [|Hm255]; [done|].
  assert (Hbad : (len mod n =? 0) && (len / n mod micro_chunks c =? 0) = false ->
    PoolCompletes (pranks n (fun i => allreduce_pipelined T_default (comm i) (bufs i) c))
      (map (fun i => (bufs i, Ok (RErr BadShape))) (seq 0 n))).
  { intros Hb. apply returns_pool. intros i Hi. destruct (Hcomm i Hi) as [Hr Hs _]. cbn.
    unfold allreduce_pipelined, pipe_rank, pipelined_ring. rewrite Hs, Hlen by done.
    destruct (Nat.leb_spec n 1); [lia|]. destruct (Nat.eqb_spec (micro_chunks c) 0); [done|].
    destruct (Nat.eqb_spec (max_in_flight c) 0); [done|]. destruct (Nat.ltb_spec 255 (micro_chunks c)); [lia|]. cbn [orb].
    destruct (len mod n =? 0); cbn [negb andb] in *; [|done]. by rewrite Hb. }
  destruct (Nat.eqb_spec (len mod n) 0) as [Hd|Hd]; cbn [andb] in *; [|by apply Hbad].
  destruct (Nat.eqb_spec (len / n mod micro_chunks c) 0) as [Hd'|Hd']; [|by apply Hbad].
  apply Nat.Div0.mod_divides in Hd as [chunk Hc]. rewrite Hc, (Nat.mul_comm n), Nat.div_mul in Hd' by lia.
  apply Nat.Div0.mod_divides in Hd' as [micro Hmicro]. cbn.
  rewrite <- (ring_result_all n chunk bufs) by (lia || (intros; by rewrite Hlen)).
  rewrite Hmicro. apply pipe_completes; try done; [lia|lia|]. intros i Hi. by rewrite Hlen, <- Hmicro.
Qed.

Abbreviation call i := (adaptive_allreduce T_default (mkAdaptive (comm i) p) size_of_T (bufs i)).

Lemma calls_prog (F : nat -> Prog Z (list T) (RankResult T)) fin :
  (forall i, i < n -> call i = RunProg (F i)) -> Completes (ranks n F) fin -> AllFinish (map (fun i => call i) (seq 0 n)) fin.
Proof.
  intros HF Hc. left. exists (ranks n F). split; [|done]. unfold ranks. rewrite map_map.
  apply map_ext_in. intros i Hi%in_seq. apply HF. lia.
Qed.

Lemma calls_pool F (fin : nat -> RankResult T) :
  (forall i, i < n -> call i = RunPool (F i)) ->
  PoolCompletes (pranks n F) (map (fun i => ((fin i).1, Ok (fin i).2)) (seq 0 n)) ->
  AllFinish (map (fun i => call i) (seq 0 n)) (map fin (seq 0 n)).
Proof.
  intros HF Hc. right. exists (pranks n F). split; [|by rewrite map_map]. unfold pranks. rewrite map_map.
  apply map_ext_in. intros i Hi%in_seq. apply HF. lia.
Qed.

Lemma adaptive_finish :
  AllFinish (map (fun i => call i) (seq 0 n)) (map (fun i => answer (adaptive_error p size_of_T len n) i) (seq 0 n)).
Proof.
  assert (Hcall : forall i, i < n -> call i =
    match choose_allreduce p (len * size_of_T) n with
    | PlainRing => RunProg (ucx_allreduce T_default (comm i) (bufs i))
    | PipelinedRing config => RunPool (allreduce_pipelined T_default (comm i) (bufs i) config)
    | RecursiveDoubling => RunProg (allreduce_recursive_doubling T_default (comm i) (bufs i))
    end).
  { intros i Hi. unfold adaptive_allreduce. cbn [policy inner]. by rewrite Hlen, (co_size _ _ _ (Hcomm i Hi)). }
  unfold adaptive_error. destruct (choose_allreduce p (len * size_of_T) n) as [|c|] eqn:Hch.
  - apply (calls_prog _ _ Hcall). assert (Hf := plain_finish). by destruct (n <=? 1), (len mod n =? 0).
  - apply (calls_pool _ _ Hcall). assert (Hf := pool_finish c). cbv zeta in Hf. by destruct (n <=? 1).
  - unfold choose_allreduce in Hch. destruct (_ <? _), (is_power_of_two n) eqn:Hp, (Nat.leb_spec 2 n);
      cbn [andb] in Hch; try by destruct (_ <=? _).
    destruct (Nat.leb_spec n 1); [lia|]. apply (calls_prog _ _ Hcall). by apply rd_finish.
Qed.
End facts.

(** C29. An adaptive allreduce answers the same at every rank.  For 1 to 65536 ranks
    that call it with buffers of one length, under one policy and an associative and
    commutative operator, all ranks choose the same algorithm and every interleaving
    ends, without deadlock: either every rank returns [Ok] with the element-wise
    reduction of all buffers, whichever algorithm was chosen, or every rank returns
    the same error with its buffer untouched.  The error is [adaptive_error]: none
    for recursive doubling, [BadShape] for a ring whose length the ranks do not
    divide, and for the pipelined ring also an unusable configuration or a chunk the
    micro-chunks do not divide. *)
Theorem adaptive_allreduce_agrees {T} `{Op T} (T_default : T) {Proto} (p : AdaptivePolicy Proto) size_of_T n len
    (comm : nat -> UcxCommunicator) (bufs : nat -> list T) :
  1 <= n -> (Z.of_nat n <= 65536)%Z -> (forall i, i < n -> CommOk n i (comm i)) ->
  (forall i, i < n -> length (bufs i) = len) ->
  Assoc (=) (op_apply : T -> T -> T) -> Comm (=) (op_apply : T -> T -> T) ->
  AllFinish (map (fun i => adaptive_allreduce T_default (mkAdaptive (comm i) p) size_of_T (bufs i)) (seq 0 n))
    (map (fun i => match adaptive_error p size_of_T len n with
                   | None => (reduce_all n bufs, ROk tt)
                   | Some e => (bufs i, RErr e)
                   end) (seq 0 n)).
Proof. intros. by apply adaptive_finish. Qed.

(** Two ranks with a message above the threshold whose chunk of 5 elements is not a
    multiple of the 4 micro-chunks of the default configuration. *)
Lemma adaptive_allreduce_agrees_witness :
  AllFinish (map (fun i => adaptive_allreduce (H := BitXor_u32) 0%Z
      (mkAdaptive (Proto := unit) (full_comm 2 i) (mkPolicy 8 16 PipelineConfig_default)) 4 (replicate 10 (Z.of_nat i))) (seq 0 2))
    (map (fun i => (replicate 10 (Z.of_nat i), RErr BadShape)) (seq 0 2)).
Proof.
  apply (adaptive_allreduce_agrees (H := BitXor_u32) 0%Z (mkPolicy 8 16 PipelineConfig_default) 4 2 10 (full_comm 2)
    (fun i => replicate 10 (Z.of_nat i))).
  - lia.
  - lia.
  - intros i _. apply full_comm_ok.
  - reflexivity.
  - apply _.
  - apply _.
Defined.
