(* ===== verification/Collective.v ===== *)
(** * Collective: the traits [Communicator] and [Collective]
    ([pluvio_collective/src/communicator.rs], [pluvio_collective/src/lib.rs])

    The trait is a class, its two implementations over UCX are instances, and what
    the trait's documentation promises is the record [CollectiveContract], stated of
    any instance; how each call ends in fact, [CollectiveOutcomes]. *)

From S2P Require Import Prelude CollBase Spmd Ring RecDouble Bruck Bcast Pool PipeRing Adaptive.

(** ** The traits *)

Class Communicator (C : Type) := {
  comm_rank : C -> nat;
  comm_size : C -> nat
}.

(** The operator of [allreduce] is a type parameter of the method. *)
Class Collective (C T : Type) `{Communicator C} := {
  coll_allreduce : Op T -> C -> list T -> AllreduceRun (T := T);
  coll_scatter : C -> option (list T) -> list T -> nat -> Prog RecvKey (list T) (RankResult T);
  coll_allgather : C -> list T -> list T -> Prog RecvKey (list T) (outcome (RankResult T));
  coll_broadcast : C -> list T -> nat -> Prog RecvKey (list T) (RankResult T)
}.

(** ** The implementations *)

Section instances.
Context {T : Type} (T_default : T) (size_of_T : nat) {Proto : Type}.

#[export] Instance ucx_communicator : Communicator UcxCommunicator := {| comm_rank := crank; comm_size := csize |}.
#[export] Instance adaptive_communicator : Communicator (AdaptiveCommunicator Proto) := {|
  comm_rank a := crank (inner a);
  comm_size a := csize (inner a)
|}.

Definition ucx_collective : Collective UcxCommunicator T := {|
  coll_allreduce O c buf := RunProg (ucx_allreduce (H := O) T_default c buf);
  coll_scatter := ucx_scatter;
  coll_allgather := ucx_allgather;
  coll_broadcast := ucx_broadcast
|}.

Definition adaptive_collective : Collective (AdaptiveCommunicator Proto) T := {|
  coll_allreduce O a buf := adaptive_allreduce (H := O) T_default a size_of_T buf;
  coll_scatter := adaptive_scatter;
  coll_allgather := adaptive_allgather;
  coll_broadcast := adaptive_broadcast
|}.
End instances.

(** ** The contract *)

Section contract.
Context {C T : Type} `{Communicator C} (I : Collective C T).
(** The communicators of a group of [n] ranks. *)
Context (n : nat) (comm : nat -> C).

(** What the documentation of the trait promises, read literally. *)
Record CollectiveContract : Prop := {
  (** Ranks are in [0, size). *)
  cc_ranks i : i < n -> comm_rank (comm i) = i /\ comm_size (comm i) = n;
  (** Every rank ends up with the reduced value across all ranks. *)
  cc_allreduce (O : Op T) len bufs :
    Assoc (=) (op_apply : T -> T -> T) -> Comm (=) (op_apply : T -> T -> T) ->
    (forall i, i < n -> length (bufs i) = len) ->
    AllFinish (map (fun i => coll_allreduce O (comm i) (bufs i)) (seq 0 n))
      (map (fun _ => (reduce_all n bufs, ROk tt)) (seq 0 n));
  (** The chunk at index [r] of the root's buffer is delivered to rank [r]; at every
      other rank [send_buf] is ignored. *)
  cc_scatter root chunk send_buf send_bufs bufs : root < n -> send_bufs root = Some send_buf ->
    (forall i, i < n -> length (bufs i) = chunk) -> length send_buf = chunk * n ->
    Completes (ranks n (fun i => coll_scatter (comm i) (send_bufs i) (bufs i) root))
      (map (fun i => (slice (i * chunk) chunk send_buf, ROk tt)) (seq 0 n));
  (** Every rank has the contribution of rank [r] in the [r]-th part of its buffer. *)
  cc_allgather l sends recvs :
    (forall i, i < n -> length (sends i) = l) -> (forall i, i < n -> length (recvs i) = l * n) ->
    Completes (ranks n (fun i => coll_allgather (comm i) (sends i) (recvs i)))
      (map (fun _ => Ok (concat (map sends (seq 0 n)), ROk tt)) (seq 0 n));
  (** The root's buffer is delivered to every other rank's. *)
  cc_broadcast root len bufs : root < n -> (forall i, i < n -> length (bufs i) = len) ->
    Completes (ranks n (fun i => coll_broadcast (comm i) (bufs i) root))
      (map (fun _ => (bufs root, ROk tt)) (seq 0 n))
}.

(** How every call ends, those outside the documentation's terms included: [err] is
    the error of an allreduce of a length. *)
Record CollectiveOutcomes (err : nat -> option CollectiveError) : Prop := {
  co_allreduce (O : Op T) len bufs :
    Assoc (=) (op_apply : T -> T -> T) -> Comm (=) (op_apply : T -> T -> T) ->
    (forall i, i < n -> length (bufs i) = len) ->
    AllFinish (map (fun i => coll_allreduce O (comm i) (bufs i)) (seq 0 n))
      (map (fun i => match err len with
                     | None => (reduce_all n bufs, ROk tt)
                     | Some e => (bufs i, RErr e)
                     end) (seq 0 n));
  co_scatter root chunk send_buf send_bufs bufs : send_bufs root = Some send_buf ->
    (forall i, i < n -> length (bufs i) = chunk) -> length send_buf = chunk * n ->
    Completes (ranks n (fun i => coll_scatter (comm i) (send_bufs i) (bufs i) root))
      (map (fun i => if root <? n then (slice (i * chunk) chunk send_buf, ROk tt)
                     else (bufs i, RErr (Protocol "scatter: root out of range"))) (seq 0 n));
  co_allgather l m sends recvs :
    (forall i, i < n -> length (sends i) = l) -> (forall i, i < n -> length (recvs i) = m) ->
    Completes (ranks n (fun i => coll_allgather (comm i) (sends i) (recvs i)))
      (map (fun i => if negb (m =? l * n) then Ok (recvs i, RErr BadShape)
                     else if (2 <=? n) && (l =? 0) then Panic "index out of bounds: the len is 0 but the index is 0"
                     else Ok (concat (map sends (seq 0 n)), ROk tt)) (seq 0 n));
  co_broadcast root len bufs : (forall i, i < n -> length (bufs i) = len) ->
    Completes (ranks n (fun i => coll_broadcast (comm i) (bufs i) root))
      (map (fun i => if root <? n then (bufs root, ROk tt)
                     else if n =? 1 then (bufs i, ROk tt)
                     else (bufs i, RErr (Protocol "broadcast: root out of range"))) (seq 0 n))
}.

Definition plain_error (len : nat) : option CollectiveError :=
  if (n <=? 1) || (len mod n =? 0) then None else Some BadShape.
End contract.

(** * Facts *)

Section facts.
Context {T : Type} (T_default : T) (size_of_T : nat) {Proto : Type}.
Context (n : nat) (comm : nat -> UcxCommunicator).
Context (Hn : 1 <= n) (H16 : (Z.of_nat n <= 65536)%Z) (Hcomm : forall i, i < n -> CommOk n i (comm i)).

(** A rank other than the root does not look at its [send_buf]. *)
Lemma scatter_ignores i root (sb sb' : option (list T)) buf : i < n -> root < n -> i <> root ->
  ucx_scatter (comm i) sb buf root = ucx_scatter (comm i) sb' buf root.
Proof.
  intros Hi Hr Hne. destruct (Hcomm i Hi) as [Hrk Hz _]. unfold ucx_scatter, scatter. rewrite Hrk, Hz.
  destruct (Nat.leb_spec n root); [lia|]. destruct (Nat.eqb_spec n 1); [lia|]. by destruct (Nat.eqb_spec i root).
Qed.

Lemma scatter_any root chunk sb (sbs : nat -> option (list T)) bufs : sbs root = Some sb ->
  (forall i, i < n -> length (bufs i) = chunk) -> length sb = chunk * n ->
  Completes (ranks n (fun i => ucx_scatter (comm i) (sbs i) (bufs i) root))
    (map (fun i => if root <? n then (slice (i * chunk) chunk sb, ROk tt)
                   else (bufs i, RErr (Protocol "scatter: root out of range"))) (seq 0 n)).
Proof.
  intros Hsb Hl Hs. destruct (Nat.ltb_spec root n) as [Hr|Hr].
  2: { apply returns_completes. intros i Hi. destruct (Hcomm i Hi) as [_ Hz _]. unfold ucx_scatter, scatter.
       rewrite Hz. by destruct (Nat.leb_spec n root); [|lia]. }
  destruct (decide (n = 1)) as [->|Hne].
  - apply returns_completes. intros i Hi. destruct (Hcomm i Hi) as [_ Hz _]. unfold ucx_scatter, scatter.
    assert (root = 0) as -> by lia. assert (i = 0) as -> by lia. rewrite Hz, Hl, Hsb by done.
    rewrite Nat.mul_1_r in Hs. rewrite Hs. cbn -[slice]. rewrite Nat.eqb_refl.
    assert (slice 0 chunk sb = sb) as -> by (unfold slice; by rewrite drop_0, <- Hs, firstn_all). done.
  - rewrite (ranks_ext n _ (fun i => ucx_scatter (comm i) (if decide (i = root) then Some sb else None) (bufs i) root)).
    + by apply scatter_completes; [lia|..].
    + intros i Hi. case_decide as Hd; [by rewrite Hd, Hsb|]. by apply scatter_ignores.
Qed.

Lemma allgather_any l m (sends recvs : nat -> list T) :
  (forall i, i < n -> length (sends i) = l) -> (forall i, i < n -> length (recvs i) = m) ->
  Completes (ranks n (fun i => ucx_allgather (comm i) (sends i) (recvs i)))
    (map (fun i => if negb (m =? l * n) then Ok (recvs i, RErr BadShape)
                   else if (2 <=? n) && (l =? 0) then Panic "index out of bounds: the len is 0 but the index is 0"
                   else Ok (concat (map sends (seq 0 n)), ROk tt)) (seq 0 n)).
Proof.
  intros Hs Hr. destruct (Nat.eqb_spec m (l * n)) as [->|Hm]; cbn [negb].
  - destruct (decide (n = 1)) as [->|Hne].
    + apply returns_completes. intros i Hi. destruct (Hcomm i Hi) as [_ Hz _]. unfold ucx_allgather, bruck_allgather.
      rewrite Hz, Hs, Hr by done. rewrite Nat.eqb_refl. assert (i = 0) as -> by lia. cbn. by rewrite app_nil_r.
    + assert (Hc := bruck_completes n l comm sends recvs ltac:(lia) H16 Hcomm Hs Hr).
      destruct (Nat.leb_spec 2 n); [|lia]. cbn [andb]. by destruct (decide (l = 0)), (Nat.eqb_spec l 0).
  - apply returns_completes. intros i Hi. destruct (Hcomm i Hi) as [_ Hz _]. unfold ucx_allgather, bruck_allgather.
    rewrite Hz, Hs, Hr by done. by destruct (Nat.eqb_spec m (l * n)).
Qed.

Lemma broadcast_any root len (bufs : nat -> list T) : (forall i, i < n -> length (bufs i) = len) ->
  Completes (ranks n (fun i => ucx_broadcast (comm i) (bufs i) root))
    (map (fun i => if root <? n then (bufs root, ROk tt)
                   else if n =? 1 then (bufs i, ROk tt)
                   else (bufs i, RErr (Protocol "broadcast: root out of range"))) (seq 0 n)).
Proof.
  intros Hl. destruct (Nat.ltb_spec root n) as [Hr|Hr], (Nat.eqb_spec n 1) as [H1|H1];
    try (by eapply bcast_completes; [lia|..]);
    (apply returns_completes; intros i Hi; destruct (Hcomm i Hi) as [_ Hz _]; unfold ucx_broadcast, broadcast; rewrite Hz).
  - rewrite H1 in Hr, Hi |- *. assert (root = 0) as -> by lia. by assert (i = 0) as -> by lia.
  - by rewrite H1.
  - destruct (Nat.eqb_spec n 1); [done|]. by destruct (Nat.leb_spec n root); [|lia].
Qed.

Lemma ucx_outcomes : CollectiveOutcomes (ucx_collective T_default) n comm (plain_error n).
Proof.
  split; [|apply scatter_any|apply allgather_any|apply broadcast_any].
  intros O len bufs HA HC Hlen. left. exists (ranks n (fun i => ucx_allreduce (H := O) T_default (comm i) (bufs i))).
  split; [by unfold ranks; rewrite map_map|by apply plain_finish].
Qed.

Lemma adaptive_outcomes (p : AdaptivePolicy Proto) :
  CollectiveOutcomes (adaptive_collective T_default size_of_T) n (fun i => mkAdaptive (comm i) p)
    (fun len => adaptive_error p size_of_T len n).
Proof.
  split; [|apply scatter_any|apply allgather_any|apply broadcast_any].
  intros O len bufs HA HC Hlen. by apply adaptive_finish.
Qed.

(** The empty allgather is a documented call that a group of two ranks or more fails. *)
Lemma empty_allgather_panics :
  2 <= n -> ~ Completes (ranks n (fun i => ucx_allgather (comm i) ([] : list T) []))
    (map (fun _ => Ok (concat (map (fun _ => []) (seq 0 n)), ROk tt)) (seq 0 n)).
Proof.
  intros H2 [_ Hc].
  assert (Hs := bruck_steps n 0 comm (fun _ => [] : list T) (fun _ => []) H2 H16 Hcomm (fun _ _ => eq_refl) (fun _ _ => eq_refl)
    _ eq_refl).
  apply Hc in Hs.
  - injection Hs as Hs. destruct n as [|[|m]]; [lia..|]. discriminate Hs.
  - intros w'. unfold ranks. rewrite <- (map_map (fun _ => Panic _) Ret). apply done_stuck.
Qed.

(** Outcomes without a refused length amount to the contract in a group of one. *)
Lemma outcomes_contract {C} `{Communicator C} (I : Collective C T) (cs : nat -> C) err :
  (forall i, i < n -> comm_rank (cs i) = i /\ comm_size (cs i) = n) -> (forall len, n = 1 -> err len = None) ->
  CollectiveOutcomes I n cs err -> n = 1 -> CollectiveContract I n cs.
Proof.
  intros Hr He [Ha Hs Hg Hb] H1. split; [done|..].
  - intros O len bufs HA HC Hl. assert (Hf := Ha O len bufs HA HC Hl). by rewrite He in Hf.
  - intros root chunk sb sbs bufs Hroot Hsb Hl Hlen. assert (Hf := Hs root chunk sb sbs bufs Hsb Hl Hlen).
    by destruct (Nat.ltb_spec root n); [|lia].
  - intros l sends recvs Hl Hrl. assert (Hf := Hg l (l * n) sends recvs Hl Hrl). rewrite Nat.eqb_refl in Hf.
    by destruct (Nat.leb_spec 2 n); [lia|].
  - intros root len bufs Hroot Hl. assert (Hf := Hb root len bufs Hl). by destruct (Nat.ltb_spec root n); [|lia].
Qed.

Lemma ucx_contract : CollectiveContract (ucx_collective T_default) n comm <-> n = 1.
Proof.
  split.
  - intros Hc. destruct (decide (n = 1)); [done|exfalso]. apply empty_allgather_panics; [lia|].
    by apply (cc_allgather _ _ _ Hc 0).
  - apply (outcomes_contract _ _ (plain_error n)); [|by intros len ->|apply ucx_outcomes].
    intros i Hi. by destruct (Hcomm i Hi).
Qed.

Lemma adaptive_contract (p : AdaptivePolicy Proto) :
  CollectiveContract (adaptive_collective T_default size_of_T) n (fun i => mkAdaptive (comm i) p) <-> n = 1.
Proof.
  split.
  - intros Hc. destruct (decide (n = 1)); [done|exfalso]. apply empty_allgather_panics; [lia|].
    by apply (cc_allgather _ _ _ Hc 0).
  - apply (outcomes_contract _ _ (fun len => adaptive_error p size_of_T len n)); [|by intros len ->|apply adaptive_outcomes].
    intros i Hi. by destruct (Hcomm i Hi).
Qed.
End facts.

(** * Properties *)

(** C26. How every collective of both UCX communicators ends, and where that is not what
    the trait documents.  For groups of 1 to 65536 ranks whose buffers have one length,
    every call of either communicator ends on every interleaving, without deadlock, with
    the buffers and the result of [CollectiveOutcomes].  An allreduce of a length the
    ring takes leaves the reduction at every rank, and the error at every rank with all
    buffers untouched when it does not ([plain_error], [adaptive_error]).  Scatter,
    whatever [send_buf] the other ranks pass, and broadcast deliver the root's data, or
    report a root out of range at every rank (a broadcast in a group of one succeeds).
    Allgather gathers, refuses receive buffers of a wrong length at every rank, and
    panics at every rank for empty contributions in a group of two or more.  So
    [CollectiveContract], the documentation read literally, is kept exactly by groups
    of one rank: in larger ones the empty allgather breaks it. *)
Theorem collective_outcomes_exact {T} (T_default : T) size_of_T {Proto} (p : AdaptivePolicy Proto) n comm :
  1 <= n -> (Z.of_nat n <= 65536)%Z -> (forall i, i < n -> CommOk n i (comm i)) ->
  CollectiveOutcomes (ucx_collective T_default) n comm (plain_error n) /\
  CollectiveOutcomes (adaptive_collective T_default size_of_T) n (fun i => mkAdaptive (comm i) p)
    (fun len => adaptive_error p size_of_T len n) /\
  (CollectiveContract (ucx_collective T_default) n comm <-> n = 1) /\
  (CollectiveContract (adaptive_collective T_default size_of_T) n (fun i => mkAdaptive (comm i) p) <-> n = 1).
Proof.
  intros. split; [by apply ucx_outcomes|]. split; [by apply adaptive_outcomes|].
  split; [by apply ucx_contract|by apply adaptive_contract].
Qed.

Lemma collective_outcomes_exact_witness :
  CollectiveOutcomes (ucx_collective 0%Z) 4 (full_comm 4) (plain_error 4) /\ plain_error 4 8 = None /\
  plain_error 4 6 = Some BadShape /\ ~ CollectiveContract (ucx_collective 0%Z) 4 (full_comm 4).
Proof.
  assert (H := collective_outcomes_exact 0%Z 4 (AdaptivePolicy_default (Proto := unit)) 4 (full_comm 4)
    ltac:(lia) ltac:(lia) (fun i _ => full_comm_ok 4 i)).
  destruct H as (Ho & _ & Hc & _). split; [exact Ho|]. split; [reflexivity|]. split; [reflexivity|].
  intros Hk. apply Hc in Hk. discriminate Hk.
Defined.
