(* ===== verification/Disjoint.v ===== *)
(** * Disjoint: one buffer split into views ([ucx_backend/util.rs])

    A mutable slice made from a raw pointer is its place in the buffer; a write through it
    is a write to the buffer.  The contract that the function leaves to its caller
    ([Disjoint_ranges]) is what makes the views independent: whatever each of them is given
    to hold, in whatever order, is what it holds at the end. *)

From S2P Require Import Prelude.

Record View : Type := mkView { vstart : nat; vlen : nat }.
Definition vend (v : View) : nat := vstart v + vlen v.

Section split.
Context {A : Type}.
Implicit Types (buf : list A) (ranges : list (nat * nat)) (v : View).

(** [debug]: with debug assertions and overflow checks; without them a range outside of the
    buffer is not noticed. *)
Definition view_of (debug : bool) (total : nat) (range : nat * nat) : outcome View :=
  let (start, len) := range in
  if debug then
    if (usize_max <? Z.of_nat (start + len))%Z then Panic "attempt to add with overflow"
    else if start + len <=? total then Ok (mkView start len) else Panic "range out of bounds"
  else Ok (mkView start len).

Fixpoint split_views (debug : bool) (total : nat) ranges : outcome (list View) :=
  match ranges with
  | [] => mret []
  | range :: ranges =>
      v ← view_of debug total range;
      vs ← split_views debug total ranges;
      mret (v :: vs)
  end.
Definition split_disjoint_mut (debug : bool) buf ranges : outcome (list View) := split_views debug (length buf) ranges.

(** What a view shows, and an assignment of all its elements. *)
Definition view_get v buf : list A := slice (vstart v) (vlen v) buf.
Definition view_set v (xs : list A) buf : list A := splice (vstart v) xs buf.
Fixpoint view_sets (ws : list (View * list A)) buf : list A :=
  match ws with [] => buf | (v, xs) :: ws => view_sets ws (view_set v xs buf) end.

(** ** The contract of the caller *)

Definition apart v w : Prop := vend v <= vstart w \/ vend w <= vstart v.
#[export] Instance apart_dec v w : Decision (apart v w).
Proof. unfold apart. apply _. Defined.
Definition In_bounds (total : nat) ranges : Prop := Forall (fun r => r.1 + r.2 <= total) ranges.
Fixpoint Apart (vs : list View) : Prop :=
  match vs with [] => True | v :: vs => Forall (apart v) vs /\ Apart vs end.

#[local] Instance apart_sym : Symmetric apart.
Proof. intros v w [?|?]; [right|left]; done. Qed.

Lemma Apart_perm vs ws : vs ≡ₚ ws -> Apart vs -> Apart ws.
Proof.
  induction 1 as [|v vs ws Hp IH|v w vs|vs1 vs2 vs3 _ IH1 _ IH2]; cbn.
  - done.
  - intros [Hv Hr]. split; [by rewrite <- Hp|by apply IH].
  - rewrite !Forall_cons. intros ((Hvw & Hv) & Hw & Hr). by split_and!.
  - auto.
Qed.

Lemma split_views_eq debug total ranges : (Z.of_nat total <= usize_max)%Z -> In_bounds total ranges ->
  split_views debug total ranges = Ok (map (fun r => mkView r.1 r.2) ranges).
Proof.
  intros Ht. induction 1 as [|[start len] ranges Hr _ IH]; [done|]. cbn [split_views view_of map fst snd] in *.
  destruct (Z.ltb_spec usize_max (Z.of_nat (start + len))); [lia|]. destruct (Nat.leb_spec (start + len) total); [|lia].
  destruct debug; cbn; by rewrite IH.
Qed.

Lemma view_sets_length ws buf : Forall (fun w => vend w.1 <= length buf /\ length w.2 = vlen w.1) ws ->
  length (view_sets ws buf) = length buf.
Proof.
  revert buf. induction ws as [|[v xs] ws IH]; intros buf; [done|]. rewrite Forall_cons. cbn [fst snd view_sets].
  unfold vend. intros [ [Hv Hl] Hw]. assert (Hs : length (view_set v xs buf) = length buf)
    by (unfold view_set; rewrite splice_length; lia).
  by rewrite IH, Hs by (by rewrite Hs).
Qed.

(** A place that no view reaches keeps its contents. *)
Lemma view_sets_outside ws buf w : Forall (fun w => vend w.1 <= length buf /\ length w.2 = vlen w.1) ws ->
  Forall (fun x => apart x.1 w) ws -> view_get w (view_sets ws buf) = view_get w buf.
Proof.
  revert buf. induction ws as [|[v xs] ws IH]; intros buf; [done|]. rewrite !Forall_cons. cbn [fst snd view_sets].
  unfold vend. intros [ [Hv Hl] Hw] [Ha Hx]. assert (Hs : length (view_set v xs buf) = length buf)
    by (unfold view_set; rewrite splice_length; lia).
  rewrite IH; [|by rewrite Hs|done]. unfold apart, vend in Ha. unfold view_get, view_set. apply slice_splice_ne; lia.
Qed.

Lemma view_sets_inside ws buf v xs : Forall (fun w => vend w.1 <= length buf /\ length w.2 = vlen w.1) ws ->
  Apart ws.*1 -> (v, xs) ∈ ws -> view_get v (view_sets ws buf) = xs.
Proof.
  revert buf. induction ws as [|[v' xs'] ws IH]; intros buf; [by intros _ _ ?%elem_of_nil|]. rewrite Forall_cons, elem_of_cons.
  cbn [fmap list_fmap fst snd view_sets Apart]. intros [ [Hv Hl] Hw] [Hx Ha] Hin. unfold vend in Hv.
  assert (Hs : length (view_set v' xs' buf) = length buf) by (unfold view_set; rewrite splice_length; lia).
  destruct Hin as [ [= -> ->]|Hin]; [|by apply IH; rewrite ?Hs].
  rewrite view_sets_outside; [|by rewrite Hs|by rewrite Forall_fmap in Hx; eapply Forall_impl; [exact Hx|]; intros ? ?; symmetry].
  unfold view_get, view_set. rewrite <- Hl. apply slice_splice_eq. lia.
Qed.

(** Within its contract the function never panics and returns the ranges in order; the
    writes through the views may come in any order, and each view then holds its own. *)
Lemma split_disjoint_writes debug buf ranges ws : (Z.of_nat (length buf) <= usize_max)%Z ->
  In_bounds (length buf) ranges -> Apart (map (fun r => mkView r.1 r.2) ranges) ->
  ws.*1 ≡ₚ map (fun r => mkView r.1 r.2) ranges -> Forall (fun w => length w.2 = vlen w.1) ws ->
  split_disjoint_mut debug buf ranges = Ok (map (fun r => mkView r.1 r.2) ranges) /\
  let buf' := view_sets ws buf in
  length buf' = length buf /\ (forall v xs, (v, xs) ∈ ws -> view_get v buf' = xs) /\
  (forall v, Forall (fun w => apart w v) ws.*1 -> view_get v buf' = view_get v buf).
Proof.
  intros Hu Hb Ha Hp Hl. split; [by apply split_views_eq|]. cbv zeta.
  assert (Hw : Forall (fun w => vend w.1 <= length buf /\ length w.2 = vlen w.1) ws).
  { apply Forall_and. split; [|done]. rewrite <- (Forall_fmap fst (fun v => vend v <= length buf)), Hp, Forall_map.
    eapply Forall_impl; [exact Hb|]. by intros []. }
  split_and!; [by apply view_sets_length| |].
  - intros v xs. apply view_sets_inside; [done|]. by eapply Apart_perm.
  - intros v. rewrite Forall_fmap. by apply view_sets_outside.
Qed.

(** With debug assertions a range that leaves the buffer panics. *)
Lemma split_out_of_bounds buf ranges : ~ In_bounds (length buf) ranges ->
  exists msg, split_disjoint_mut true buf ranges = Panic msg.
Proof.
  unfold split_disjoint_mut. induction ranges as [|[start len] ranges IH]; [intros []; by constructor|]. intros Hn.
  cbn [split_views view_of]. destruct (_ <? _)%Z; [by eexists|]. destruct (Nat.leb_spec (start + len) (length buf)); [|by eexists].
  cbn. destruct IH as [msg ->]; [|by eexists]. intros Hb. apply Hn. by constructor.
Qed.
End split.
