(* ===== verification/Bootstrap.v ===== *)
(** * Bootstrap: how the ranks find each other
    ([pluvio_collective/src/ucx_backend/bootstrap.rs])

    Rank 0 listens; every other rank connects, announces its rank and sends its worker
    address; when all have, rank 0 sends everybody the list.  A TCP stream is the list
    of bytes that arrive on it before it ends.  The operating system is a parameter:
    which connection is accepted when, and which call fails.  Reading a stream that
    ends early is the error of [read_exact]. *)

From S2P Require Import Prelude CollBase.
From stdpp Require Import pretty.

(** ** Configuration *)

Record BootstrapConfig : Type := mkBootstrap { brank : nat; bsize : nat; root_host : string; root_port : Z }.

Definition or_else {A} (o o' : option A) : option A := match o with Some _ => o | None => o' end.

(** [env]: [std::env::var]. *)
Definition from_env (env : string -> option string) : result BootstrapConfig CollectiveError :=
  let need key := env key in
  match or_else (env "PLUVIO_COLL_RANK") (or_else (env "OMPI_COMM_WORLD_RANK") (env "PMI_RANK")) with
  | None => RErr (Protocol "rank not provided")
  | Some rank =>
      match parse_uint usize_max rank with
      | None => RErr (Protocol "rank parse error")
      | Some rank =>
          match or_else (env "PLUVIO_COLL_SIZE") (or_else (env "OMPI_COMM_WORLD_SIZE") (env "PMI_SIZE")) with
          | None => RErr (Protocol "size not provided")
          | Some size =>
              match parse_uint usize_max size with
              | None => RErr (Protocol "size parse error")
              | Some size =>
                  let root_host := default "localhost" (need "PLUVIO_COLL_ROOT_HOST") in
                  match parse_uint 65535 (default "13337" (env "PLUVIO_COLL_ROOT_PORT")) with
                  | None => RErr (Protocol "port parse error")
                  | Some root_port => ROk (mkBootstrap (Z.to_nat rank) (Z.to_nat size) root_host root_port)
                  end
              end
          end
      end
  end.

(** ** Streams *)

(** [?] on an I/O result inside a function that may panic. *)
Definition io_try {A B} (m : result A string) (k : A -> outcome (result B CollectiveError)) :
    outcome (result B CollectiveError) :=
  match m with ROk a => k a | RErr e => mret (RErr (Bootstrap e)) end.
Notation "'let?' x := m 'in' k" := (io_try m (fun x => k)) (at level 10, x strict pattern at level 0, m at level 200, k at level 200).

(** What is read and what is left of the stream. *)
Definition read_exact (n : nat) (s : list Z) : result (list Z * list Z) string :=
  if length s <? n then RErr "failed to fill whole buffer" else ROk (take n s, drop n s).

Definition u32_bytes (n : nat) : list Z := le_bytes 4 (wrap32 (Z.of_nat n)).
Definition u32_of (bs : list Z) : nat := Z.to_nat (of_le_bytes bs).

(** The bytes written. *)
Definition write_u32_len_prefixed (buf : list Z) : list Z := u32_bytes (length buf) ++ buf.

Definition read_u32_len_prefixed (s : list Z) : result (list Z * list Z) string :=
  match read_exact 4 s with
  | RErr e => RErr e
  | ROk (len_buf, s) => read_exact (u32_of len_buf) s
  end.

(** ** The exchange *)

(** A connection rank 0 accepted: whether [set_nodelay] and the writes succeed, and
    the bytes that arrive. *)
Record Conn : Type := mkConn { nodelay : result unit string; incoming : list Z; write_all : result unit string }.

Section root.
(** What the [i]-th [accept] returns. *)
Context (accept : nat -> result Conn string) (size : nat).

(** [for _ in 1..size]; [conns] maps a rank to the number of its connection. *)
Fixpoint accept_loop (cnt i : nat) (addresses : list (list Z)) (conns : gmap nat nat) :
    outcome (result (list (list Z) * gmap nat nat) CollectiveError) :=
  match cnt with
  | O => mret (ROk (addresses, conns))
  | S cnt =>
      let? stream := accept i in
      let? _ := nodelay stream in
      let? (hdr, s) := read_exact 4 (incoming stream) in
      let peer_rank := u32_of hdr in
      let? (peer_addr, _) := read_u32_len_prefixed s in
      if length addresses <=? peer_rank then Panic "index out of bounds"
      else accept_loop cnt (S i) (<[peer_rank := peer_addr]> addresses) (<[peer_rank := i]> conns)
  end.

Definition address_list (addresses : list (list Z)) : list Z :=
  u32_bytes size ++ concat (map write_u32_len_prefixed addresses).

(** [for rank in 1..size]: what is written to which connection. *)
Fixpoint reply_loop (rs : list nat) (addresses : list (list Z)) (conns : gmap nat nat) :
    outcome (result (list (nat * list Z)) CollectiveError) :=
  match rs with
  | [] => mret (ROk [])
  | rank :: rs =>
      i ← expect "missing connection" (conns !! rank);
      let? stream := accept i in
      let? _ := write_all stream in
      r ← reply_loop rs addresses (delete rank conns);
      mret (match r with ROk out => ROk ((i, address_list addresses) :: out) | RErr e => RErr e end)
  end.

(** Rank 0: the addresses and the replies. *)
Definition exchange_root (bind set_nonblocking : result unit string) (my_addr : list Z) :
    outcome (result (list (list Z) * list (nat * list Z)) CollectiveError) :=
  let? _ := bind in
  let? _ := set_nonblocking in
  match size with
  | O => Panic "index out of bounds"
  | _ =>
      r ← accept_loop (size - 1) 0 (<[0 := my_addr]> (replicate size [])) ∅;
      match r with
      | RErr e => mret (RErr e)
      | ROk (addresses, conns) =>
          r ← reply_loop (seq 1 (size - 1)) addresses conns;
          mret (match r with ROk out => ROk (addresses, out) | RErr e => RErr e end)
      end
  end.
End root.

(** [connect]: whether the [i]-th attempt succeeds. *)
Fixpoint connect_retry (tries i : nat) (connect : nat -> bool) : option nat :=
  match tries with
  | O => None
  | S tries => if connect i then Some i else connect_retry tries (S i) connect
  end.

(** What the other ranks send. *)
Definition announce (rank : nat) (my_addr : list Z) : list Z := u32_bytes rank ++ write_u32_len_prefixed my_addr.

Fixpoint read_addresses (count : nat) (s : list Z) : result (list (list Z)) string :=
  match count with
  | O => ROk []
  | S count =>
      match read_u32_len_prefixed s with
      | RErr e => RErr e
      | ROk (a, s) => match read_addresses count s with ROk l => ROk (a :: l) | RErr e => RErr e end
      end
  end.

Definition receive_list (size : nat) (s : list Z) : outcome (result (list (list Z)) CollectiveError) :=
  let? (count_buf, s) := read_exact 4 s in
  let count := u32_of count_buf in
  if negb (count =? size) then mret (RErr (Protocol "bootstrap: size mismatch"))
  else let? addresses := read_addresses count s in mret (ROk addresses).

(** The other ranks; [sent] is the writing of some bytes, [incoming] what arrives on the
    connection. *)
Definition exchange_peer (config : BootstrapConfig) (my_addr : list Z) (connect : nat -> bool)
    (nodelay : result unit string) (sent : list Z -> result unit string) (incoming : list Z) :
    outcome (result (list (list Z)) CollectiveError) :=
  match connect_retry 200 0 connect with
  | None => mret (RErr (Protocol "bootstrap: failed to connect to rank 0"))
  | Some _ =>
      let? _ := nodelay in
      let? _ := sent (announce (brank config) my_addr) in
      receive_list (bsize config) incoming
  end.

(** What the operating system does with the calls of one rank. *)
Record TcpOs : Type := mkTcpOs {
  tbind : result unit string;
  tset_nonblocking : result unit string;
  taccept : nat -> result Conn string;
  tconnect : nat -> bool;
  tnodelay : result unit string;
  tsent : list Z -> result unit string;
  arrives : list Z
}.

Definition exchange_addresses (os : TcpOs) (config : BootstrapConfig) (my_addr : list Z) :
    outcome (result (list (list Z)) CollectiveError) :=
  if brank config =? 0 then
    r ← exchange_root (taccept os) (bsize config) (tbind os) (tset_nonblocking os) my_addr;
    mret (match r with ROk (addresses, _) => ROk addresses | RErr e => RErr e end)
  else exchange_peer config my_addr (tconnect os) (tnodelay os) (tsent os) (arrives os).

(** ** Endpoints *)

(** [connect_addr]: the rank an address reaches, in UCX. *)
Fixpoint build_endpoints (connect_addr : list Z -> result nat string) (me rank : nat) (addresses : list (list Z)) :
    result (list (option nat)) CollectiveError :=
  match addresses with
  | [] => ROk []
  | a :: addresses =>
      if rank =? me
      then match build_endpoints connect_addr me (S rank) addresses with
           | ROk l => ROk (None :: l)
           | RErr e => RErr e
           end
      else match connect_addr a with
           | RErr e => RErr (Ucx ("connect_addr(" +:+ pretty rank +:+ "): " +:+ e))
           | ROk ep =>
               match build_endpoints connect_addr me (S rank) addresses with
               | ROk l => ROk (Some ep :: l)
               | RErr e => RErr e
               end
           end
  end.

Definition bootstrap_communicator (connect_addr : list Z -> result nat string) (address : result (list Z) string)
    (os : TcpOs) (config : BootstrapConfig) :
    outcome (result (list (option nat)) CollectiveError) :=
  match address with
  | RErr e => mret (RErr (Ucx ("Worker::address: " ++ e)))
  | ROk my_addr =>
      r ← exchange_addresses os config my_addr;
      mret (match r with
            | RErr e => RErr e
            | ROk addresses => build_endpoints connect_addr (brank config) 0 addresses
            end)
  end.

(** * Facts *)

(** ** Frames *)

Definition in_u32 (n : nat) : Prop := (Z.of_nat n < 2 ^ 32)%Z.

Lemma u32_round n : in_u32 n -> u32_of (u32_bytes n) = n.
Proof.
  intros Hn. unfold u32_of, u32_bytes, wrap32. rewrite of_le_bytes_le_bytes.
  unfold in_u32 in Hn. change (256 ^ Z.of_nat 4)%Z with (2 ^ 32)%Z. rewrite Zmod_mod, Z.mod_small; lia.
Qed.

Lemma u32_length n : length (u32_bytes n) = 4.
Proof. apply le_bytes_length. Qed.

Lemma read_exact_app a b : read_exact (length a) (a ++ b) = ROk (a, b).
Proof.
  unfold read_exact. rewrite length_app. destruct (Nat.ltb_spec (length a + length b) (length a)); [lia|].
  by rewrite take_app_length, drop_app_length.
Qed.

Lemma read_u32_app n s : read_exact 4 (u32_bytes n ++ s) = ROk (u32_bytes n, s).
Proof. rewrite <- (u32_length n). apply read_exact_app. Qed.

(** A frame is read back, and the rest of the stream is left. *)
Lemma frame_round buf rest : in_u32 (length buf) ->
  read_u32_len_prefixed (write_u32_len_prefixed buf ++ rest) = ROk (buf, rest).
Proof.
  intros Hl. unfold read_u32_len_prefixed, write_u32_len_prefixed. rewrite <- app_assoc, read_u32_app, u32_round by done.
  apply read_exact_app.
Qed.

Lemma frames_round bufs rest : Forall (fun b => in_u32 (length b)) bufs ->
  read_addresses (length bufs) (concat (map write_u32_len_prefixed bufs) ++ rest) = ROk bufs.
Proof.
  induction 1 as [|b bufs Hb _ IH]; cbn [length read_addresses map concat]; [done|].
  by rewrite <- app_assoc, frame_round, IH by done.
Qed.

(** ** Rank 0 *)

Lemma exchange_root_pos accept size my_addr : 1 <= size ->
  exchange_root accept size (ROk tt) (ROk tt) my_addr =
    r ← accept_loop accept (size - 1) 0 (<[0 := my_addr]> (replicate size [])) ∅;
    match r with
    | RErr e => mret (RErr e)
    | ROk (addresses, conns) =>
        r ← reply_loop accept size (seq 1 (size - 1)) addresses conns;
        mret (match r with ROk out => ROk (addresses, out) | RErr e => RErr e end)
    end.
Proof. intros Hs. unfold exchange_root. by destruct size; [lia|]. Qed.

Section root_facts.
Context (n : nat) (accept : nat -> result Conn string) (σ : nat -> nat) (addr : nat -> list Z).
Context (Hn : 1 <= n) (Hn32 : in_u32 n).

(** No I/O fails; the [i]-th connection announces rank [σ i], with that rank's address. *)
Record GoodConn (r : nat) (c : Conn) : Prop := {
  gc_nodelay : nodelay c = ROk tt;
  gc_write : write_all c = ROk tt;
  gc_bytes : exists rest, incoming c = announce r (addr r) ++ rest;
  gc_rank : in_u32 r;
  gc_addr : in_u32 (length (addr r))
}.
Context (Hgood : forall i, i < n - 1 -> exists c, accept i = ROk c /\ GoodConn (σ i) c).

Definition conns_of (js : list nat) (conns : gmap nat nat) : gmap nat nat :=
  foldl (fun m j => <[σ j := j]> m) conns js.
Definition addresses_of (js : list nat) (l : list (list Z)) : list (list Z) :=
  foldl (fun l j => <[σ j := addr (σ j)]> l) l js.

Lemma accept_step cnt i l conns : i < n - 1 ->
  accept_loop accept (S cnt) i l conns =
    if length l <=? σ i then Panic "index out of bounds"
    else accept_loop accept cnt (S i) (<[σ i := addr (σ i)]> l) (<[σ i := i]> conns).
Proof.
  intros Hi. destruct (Hgood i Hi) as (c & Hc & [G1 G2 [rest G3] G4 G5]). cbn [accept_loop]. rewrite Hc. cbn [io_try].
  rewrite G1. cbn [io_try]. rewrite G3. unfold announce. rewrite <- app_assoc, read_u32_app. cbn [io_try].
  rewrite frame_round by done. cbn [io_try]. by rewrite u32_round.
Qed.

Lemma addresses_length js l : length (addresses_of js l) = length l.
Proof.
  unfold addresses_of. revert l. induction js as [|j js IH]; intros l; cbn [foldl]; [done|].
  rewrite IH. apply length_insert.
Qed.

Lemma accept_loop_run cnt i l conns : length l = n -> i + cnt <= n - 1 ->
  accept_loop accept cnt i l conns =
    if forallb (fun j => σ j <? n) (seq i cnt) then Ok (ROk (addresses_of (seq i cnt) l, conns_of (seq i cnt) conns))
    else Panic "index out of bounds".
Proof.
  revert i l conns. induction cnt as [|cnt IH]; intros i l conns Hl Hi; [done|]. rewrite accept_step by lia. rewrite Hl.
  cbn [seq forallb]. destruct (Nat.leb_spec n (σ i)), (Nat.ltb_spec (σ i) n); try lia; [done|]. cbn [andb].
  rewrite IH; [done|by rewrite length_insert|lia].
Qed.

Lemma conns_lookup js r conns : conns_of js conns !! r = None <-> conns !! r = None /\ r ∉ map σ js.
Proof.
  unfold conns_of. revert conns. induction js as [|j js IH]; intros conns; cbn [foldl map].
  - split; [intros ?; split; [done|by intros ?%elem_of_nil]|by intros [? _]].
  - rewrite IH, lookup_insert, not_elem_of_cons. case_decide as Hd; split; try naive_solver.
Qed.

Lemma conns_some js r conns j : conns_of js conns !! r = Some j -> conns !! r = Some j \/ (j ∈ js /\ σ j = r).
Proof.
  unfold conns_of. revert conns. induction js as [|j' js IH]; intros conns; cbn [foldl]; [by left|].
  intros [Hc|[Hj Hs]]%IH; [|right; split; [by right|done]]. rewrite lookup_insert in Hc.
  case_decide as Hd; [right; injection Hc as <-; split; [by left|done]|by left].
Qed.

Lemma addresses_lookup js l r : r < length l -> addresses_of js l !! r = if decide (r ∈ map σ js) then Some (addr r) else l !! r.
Proof.
  unfold addresses_of. revert l. induction js as [|j js IH]; intros l Hr; cbn [foldl map].
  - rewrite decide_False; [done|]. by intros ?%elem_of_nil.
  - rewrite IH by (by rewrite length_insert). destruct (decide (r ∈ map σ js)).
    + by rewrite decide_True by by right.
    + destruct (decide (σ j = r)) as [<-|Hne].
      * rewrite list_lookup_insert_eq by done. by rewrite decide_True by by left.
      * rewrite list_lookup_insert_ne by done. rewrite decide_False; [done|]. intros [|]%elem_of_cons; congruence.
Qed.

(** The replies go out when every rank has a connection. *)
Lemma reply_loop_run rs l conns : NoDup rs -> (forall r j, conns !! r = Some j -> j < n - 1) ->
  (forall r, r ∈ rs -> is_Some (conns !! r)) ->
  exists out, reply_loop accept n rs l conns = Ok (ROk out) /\
    forall r, r ∈ rs -> exists j, conns !! r = Some j /\ (j, address_list n l) ∈ out.
Proof.
  intros Hnd. revert conns. induction Hnd as [|r rs Hnin _ IH]; intros conns Hc Hr; cbn [reply_loop].
  { exists []. split; [done|]. by intros r ?%elem_of_nil. }
  destruct (Hr r ltac:(by left)) as [j Hj]. rewrite Hj. cbn [expect mbind outcome_bind].
  destruct (Hgood j (Hc _ _ Hj)) as (c & Hac & G). rewrite Hac. cbn [io_try]. rewrite (gc_write _ _ G). cbn [io_try].
  destruct (IH (delete r conns)) as (out & Hout & Hall).
  - intros r' j' [_ Hj']%lookup_delete_Some. by eapply Hc.
  - intros r' Hr'. rewrite lookup_delete_ne by (by intros ->). apply Hr. by right.
  - rewrite Hout. cbn. eexists. split; [done|]. intros r' [->|Hr']%elem_of_cons; [exists j; split; [done|by left]|].
    destruct (Hall r' Hr') as (j' & Hj' & Hin). apply lookup_delete_Some in Hj' as [_ Hj'].
    exists j'. split; [done|by right].
Qed.

Lemma reply_loop_missing rs l conns r : NoDup rs -> (forall r j, conns !! r = Some j -> j < n - 1) ->
  r ∈ rs -> conns !! r = None -> reply_loop accept n rs l conns = Panic "missing connection".
Proof.
  intros Hnd. revert conns. induction Hnd as [|r0 rs Hnin _ IH]; intros conns Hc Hin Hr; cbn [reply_loop].
  { by apply elem_of_nil in Hin. }
  destruct (conns !! r0) as [j|] eqn:Hj; cbn [expect mbind outcome_bind]; [|done].
  destruct (Hgood j (Hc _ _ Hj)) as (c & Hac & G). rewrite Hac. cbn [io_try]. rewrite (gc_write _ _ G). cbn [io_try].
  rewrite IH; [done| | |].
  - intros r' j' [_ Hj']%lookup_delete_Some. by eapply Hc.
  - apply elem_of_cons in Hin as [->|]; [congruence|done].
  - apply lookup_delete_None. by right.
Qed.

Definition ranks_ok : Prop := map σ (seq 0 (n - 1)) ≡ₚ seq 1 (n - 1).

Lemma ranks_ok_covers : (forall r, 1 <= r < n -> r ∈ map σ (seq 0 (n - 1))) <-> ranks_ok.
Proof.
  unfold ranks_ok. split.
  - intros Hr. symmetry. apply submseteq_length_Permutation; [|by rewrite length_map, !length_seq].
    apply NoDup_submseteq; [apply NoDup_ListNoDup, seq_NoDup|]. intros r ?%list_elem_of_In%in_seq. apply Hr. lia.
  - intros Hp r Hr. rewrite Hp. apply list_elem_of_In, in_seq. lia.
Qed.

#[export] Instance ranks_ok_dec : Decision ranks_ok.
Proof. unfold ranks_ok. apply _. Defined.

(** The accepted connections in the order they came, and the replies in rank order. *)
Lemma exchange_root_eq :
  exchange_root accept n (ROk tt) (ROk tt) (addr 0) =
    if forallb (fun j => σ j <? n) (seq 0 (n - 1)) then
      r ← reply_loop accept n (seq 1 (n - 1)) (addresses_of (seq 0 (n - 1)) (<[0 := addr 0]> (replicate n [])))
            (conns_of (seq 0 (n - 1)) ∅);
      mret (match r with
            | ROk out => ROk (addresses_of (seq 0 (n - 1)) (<[0 := addr 0]> (replicate n [])), out)
            | RErr e => RErr e end)
    else Panic "index out of bounds".
Proof. rewrite exchange_root_pos by done. rewrite accept_loop_run by (rewrite ?length_insert, ?length_replicate; lia). by destruct (forallb _ _). Qed.

Lemma addresses_all : (forall r, 1 <= r < n -> r ∈ map σ (seq 0 (n - 1))) ->
  addresses_of (seq 0 (n - 1)) (<[0 := addr 0]> (replicate n [])) = map addr (seq 0 n).
Proof.
  intros Hcov. apply list_eq. intros r. destruct (decide (r < n)) as [Hr|Hr].
  - rewrite addresses_lookup by (by rewrite length_insert, length_replicate).
    rewrite list_lookup_fmap, lookup_seq_lt by done. cbn.
    destruct (decide (r = 0)) as [->|].
    + case_decide; [done|]. rewrite list_lookup_insert_eq; [done|]. by rewrite length_replicate.
    + rewrite decide_True; [done|]. apply Hcov. lia.
  - rewrite !lookup_ge_None_2; [done| |]; rewrite ?length_map, ?length_seq, ?addresses_length, ?length_insert, ?length_replicate; lia.
Qed.

Lemma exchange_root_run :
  (ranks_ok -> exists out, exchange_root accept n (ROk tt) (ROk tt) (addr 0) = Ok (ROk (map addr (seq 0 n), out)) /\
     forall i, i < n - 1 -> (i, address_list n (map addr (seq 0 n))) ∈ out) /\
  (~ ranks_ok -> exists msg, exchange_root accept n (ROk tt) (ROk tt) (addr 0) = Panic msg).
Proof.
  assert (Hlt : forall r j, conns_of (seq 0 (n - 1)) ∅ !! r = Some j -> j < n - 1).
  { intros r j [Hc|[Hj _]]%conns_some; [by rewrite lookup_empty in Hc|]. apply list_elem_of_In, in_seq in Hj. lia. }
  assert (Hnd : NoDup (seq 1 (n - 1))) by apply NoDup_ListNoDup, seq_NoDup.
  split.
  - intros Hp. assert (Hcov := proj2 ranks_ok_covers Hp). unfold ranks_ok in Hp. rewrite exchange_root_eq.
    assert (Hall : forallb (fun j => σ j <? n) (seq 0 (n - 1)) = true).
    { apply forallb_forall. intros j Hj. apply Nat.ltb_lt.
      assert (Hs : σ j ∈ seq 1 (n - 1)) by (rewrite <- Hp; apply list_elem_of_fmap_2; by apply list_elem_of_In).
      apply list_elem_of_In, in_seq in Hs. lia. }
    rewrite Hall.
    rewrite (addresses_all Hcov). destruct (reply_loop_run (seq 1 (n - 1)) (map addr (seq 0 n)) _ Hnd Hlt) as (out & -> & Hout).
    { intros r Hr%list_elem_of_In%in_seq. apply not_eq_None_Some. intros [_ Hno]%conns_lookup. apply Hno, Hcov. lia. }
    exists out. split; [done|]. intros i Hi.
    assert (Hs : σ i ∈ seq 1 (n - 1)) by (rewrite <- Hp; apply list_elem_of_fmap_2, list_elem_of_In, in_seq; lia).
    destruct (Hout _ Hs) as (j & Hj & Hin). apply conns_some in Hj as [Hj|[Hj Hs']]; [by rewrite lookup_empty in Hj|].
    assert (j = i) as <-; [|done].
    assert (Hndm : NoDup (map σ (seq 0 (n - 1)))) by by rewrite Hp.
    apply list_elem_of_In, in_seq in Hj.
    eapply NoDup_lookup; [exact Hndm| |]; rewrite list_lookup_fmap, lookup_seq_lt by lia; cbn; [by rewrite Hs'|done].
  - intros Hp. rewrite exchange_root_eq. destruct (forallb _ _); [|by eexists].
    assert (Hex : exists r, r ∈ seq 1 (n - 1) /\ r ∉ map σ (seq 0 (n - 1))).
    { destruct (decide (Forall (fun r => r ∈ map σ (seq 0 (n - 1))) (seq 1 (n - 1)))) as [Hf|Hf].
      - exfalso. apply Hp, ranks_ok_covers. rewrite Forall_forall in Hf. intros r Hr. apply Hf, list_elem_of_In, in_seq. lia.
      - apply not_Forall_Exists, Exists_exists in Hf as (r & Hr & Hno); [by exists r|]. intros r. apply _. }
    destruct Hex as (r & Hr & Hno). rewrite (reply_loop_missing _ _ _ r Hnd Hlt Hr); [by eexists|].
    apply conns_lookup. split; [apply lookup_empty|done].
Qed.
End root_facts.

(** ** The other ranks and the endpoints *)

Lemma list_received n addrs rest : in_u32 n -> length addrs = n -> Forall (fun a => in_u32 (length a)) addrs ->
  receive_list n (address_list n addrs ++ rest) = Ok (ROk addrs).
Proof.
  intros Hn <- Ha. unfold receive_list, address_list. rewrite <- app_assoc, read_u32_app. cbn [io_try].
  rewrite u32_round by done. rewrite Nat.eqb_refl. cbn [negb]. by rewrite frames_round.
Qed.

Lemma build_endpoints_ok connect_addr (addr : nat -> list Z) me cnt k :
  (forall r, k <= r < k + cnt -> connect_addr (addr r) = ROk r) ->
  build_endpoints connect_addr me k (map addr (seq k cnt)) =
    ROk (map (fun p => if decide (p = me) then None else Some p) (seq k cnt)).
Proof.
  revert k. induction cnt as [|cnt IH]; intros k Hc; [done|]. cbn [seq map build_endpoints].
  rewrite IH by (intros; apply Hc; lia). destruct (Nat.eqb_spec k me); case_decide; try done. by rewrite Hc by lia.
Qed.

(** The ranks of a group: each rank's operating system, and where the connections of
    rank 0 lead.  Rank 0 reads what the others announce; they read what it replies. *)
Record Wired (n : nat) (addr : nat -> list Z) (os : nat -> TcpOs) (σ : nat -> nat) : Prop := {
  wi_bind : tbind (os 0) = ROk tt;
  wi_blocking : tset_nonblocking (os 0) = ROk tt;
  wi_accept i : i < n - 1 -> exists c, taccept (os 0) i = ROk c /\ GoodConn addr (σ i) c;
  wi_once : ranks_ok n σ;
  wi_connect i : i < n - 1 -> exists a, connect_retry 200 0 (tconnect (os (σ i))) = Some a;
  wi_nodelay i : i < n - 1 -> tnodelay (os (σ i)) = ROk tt;
  wi_sent i bs : i < n - 1 -> tsent (os (σ i)) bs = ROk tt;
  wi_reply i bs addrs out : i < n - 1 ->
    exchange_root (taccept (os 0)) n (ROk tt) (ROk tt) (addr 0) = Ok (ROk (addrs, out)) -> (i, bs) ∈ out ->
    exists rest, arrives (os (σ i)) = bs ++ rest
}.

Lemma wired_exchange n addr os σ host port : 1 <= n -> in_u32 n -> (forall r, r < n -> in_u32 (length (addr r))) ->
  Wired n addr os σ -> forall r, r < n ->
  exchange_addresses (os r) (mkBootstrap r n host port) (addr r) = Ok (ROk (map addr (seq 0 n))).
Proof.
  intros Hn Hn32 Ha [Hb Hnb Hacc Hone Hcon Hnd Hs Hrep] r Hr. unfold exchange_addresses. cbn [brank bsize].
  destruct (exchange_root_run n _ σ addr Hn Hacc) as [Hok _]. destruct (Hok Hone) as (out & Hout & Hin).
  destruct (Nat.eqb_spec r 0) as [->|Hr0]; [by rewrite Hb, Hnb, Hout|].
  assert (Hrm : r ∈ map σ (seq 0 (n - 1))) by (apply (proj2 (ranks_ok_covers n σ Hn) Hone); lia).
  apply list_elem_of_fmap in Hrm as (i & -> & Hi%list_elem_of_In%in_seq).
  unfold exchange_peer. destruct (Hcon i ltac:(lia)) as [a ->]. rewrite Hnd, Hs by lia. cbn [io_try bsize].
  destruct (Hrep i _ _ _ ltac:(lia) Hout (Hin i ltac:(lia))) as [rest ->].
  apply list_received; [done|by rewrite length_map, length_seq|].
  apply Forall_forall. intros b (q & -> & Hq%list_elem_of_In%in_seq)%list_elem_of_fmap. apply Ha. lia.
Qed.

(** ** A group of three ranks, rank 2 connecting first *)

Definition demo_addr (r : nat) : list Z := [Z.of_nat r; 7%Z].
Definition demo_order (i : nat) : nat := 2 - i.
Definition demo_accept (i : nat) : result Conn string :=
  ROk (mkConn (ROk tt) (announce (demo_order i) (demo_addr (demo_order i))) (ROk tt)).
Definition demo_os (r : nat) : TcpOs :=
  mkTcpOs (ROk tt) (ROk tt) demo_accept (fun i => 3 <=? i) (ROk tt) (fun _ => ROk tt)
    (address_list 3 (map demo_addr (seq 0 3))).
Definition demo_connect_addr (a : list Z) : result nat string :=
  match a with r :: _ => ROk (Z.to_nat r) | [] => RErr "bad address" end.

Lemma demo_good i : i < 2 -> GoodConn demo_addr (demo_order i) (mkConn (ROk tt) (announce (demo_order i) (demo_addr (demo_order i))) (ROk tt)).
Proof.
  intros Hi. split; try done; [by exists []; rewrite app_nil_r|]. unfold in_u32, demo_order. lia.
Qed.

Lemma demo_wired : Wired 3 demo_addr demo_os demo_order.
Proof.
  split; try done.
  - intros i Hi. eexists. split; [done|]. by apply demo_good.
  - apply (bool_decide_unpack _). by vm_compute.
  - intros i _. by exists 3.
  - intros i bs addrs out _ Hout Hin. exists []. rewrite app_nil_r. vm_compute in Hout. injection Hout as <- <-.
    apply list_elem_of_In in Hin. cbn in Hin. by destruct Hin as [[= _ <-]|[[= _ <-]|[]]].
Qed.

(** * Properties *)

(** C30. When no call fails and the connections rank 0 accepts announce each other rank
    once, in whatever order they arrive, every rank learns every address in rank order,
    and its endpoints are those of a correct communicator: the endpoint in slot [p]
    reaches rank [p], and there is none in its own slot. *)
Theorem bootstrap_connects n addr os σ host port connect_addr r : 1 <= n -> in_u32 n ->
  (forall r, r < n -> in_u32 (length (addr r)) /\ connect_addr (addr r) = ROk r) ->
  Wired n addr os σ -> r < n ->
  exists eps,
    bootstrap_communicator connect_addr (ROk (addr r)) (os r) (mkBootstrap r n host port) = Ok (ROk eps) /\
    CommOk n r (mkComm r n eps) /\ eps !! r = Some None.
Proof.
  intros Hn Hn32 Ha Hw Hr. unfold bootstrap_communicator.
  rewrite (wired_exchange n addr os σ) by (done || (intros; by apply Ha)). cbn [mbind outcome_bind brank].
  rewrite (build_endpoints_ok _ _ r n 0) by (intros; apply Ha; lia). eexists. split; [done|].
  split; [apply full_comm_ok|]. rewrite list_lookup_fmap, lookup_seq_lt by done. cbn. by rewrite decide_True.
Qed.

(** C31. With no I/O failure rank 0 returns the addresses exactly when the ranks announced
    are the other ranks, once each; an unknown or repeated rank makes it panic. *)
Theorem bootstrap_root_total n accept σ addr : 1 <= n ->
  (forall i, i < n - 1 -> exists c, accept i = ROk c /\ GoodConn addr (σ i) c) ->
  if bool_decide (ranks_ok n σ)
  then exists out, exchange_root accept n (ROk tt) (ROk tt) (addr 0) = Ok (ROk (map addr (seq 0 n), out))
  else exists msg, exchange_root accept n (ROk tt) (ROk tt) (addr 0) = Panic msg.
Proof.
  intros Hn Hg. destruct (exchange_root_run n accept σ addr Hn Hg) as [Hok Hno].
  case_bool_decide as Hr; [|by apply Hno]. destruct (Hok Hr) as (out & Ho & _). by exists out.
Qed.

Lemma bootstrap_connects_witness : exists eps,
  bootstrap_communicator demo_connect_addr (ROk (demo_addr 1)) (demo_os 1) (mkBootstrap 1 3 "localhost" 13337) = Ok (ROk eps) /\
  CommOk 3 1 (mkComm 1 3 eps) /\ eps !! 1 = Some None.
Proof.
  apply (bootstrap_connects 3 demo_addr demo_os demo_order "localhost" 13337 demo_connect_addr 1).
  - lia.
  - done.
  - intros r _. split; [done|]. cbn. by rewrite Nat2Z.id.
  - exact demo_wired.
  - lia.
Defined.

(** Rank 1 announces itself twice. *)
Lemma bootstrap_root_total_witness :
  exists msg, exchange_root (fun _ => ROk (mkConn (ROk tt) (announce 1 [5%Z]) (ROk tt))) 3 (ROk tt) (ROk tt) [5%Z] = Panic msg.
Proof.
  apply (bootstrap_root_total 3 _ (fun _ => 1) (fun _ => [5%Z])); [lia|]. intros i _. eexists. split; [done|].
  split; try done. by exists [].
Defined.
