(* ===== verification/Mpi.v ===== *)
(** * Mpi: the MPI backend ([pluvio_collective/src/mpi_backend])

    The MPI library is not part of the repository: it is an instance of [MpiLib],
    whose laws say what the standard says of requests.  Modelled is what the
    repository adds: the reactor that tests the pending requests, the slot a request
    shares with its future, the four futures and the communicator.  Buffers are
    pointers; MPI reads and writes behind them. *)

From S2P Require Import Prelude Future Executor CollBase.

(** ** The library *)

(** A slice as pointer and length. *)
Record RawSlice : Type := mkSlice { sl_ptr : Z; sl_len : nat }.
Definition null : Z := 0.
Definition MPI_IN_PLACE : Z := 1.

Inductive MPI_Datatype : Type := MPI_FLOAT | MPI_DOUBLE | MPI_UINT32_T.
Inductive MPI_Op : Type := MPI_SUM | MPI_MAX | MPI_MIN | MPI_PROD | MPI_BXOR.

(** The non-blocking calls with their arguments. *)
Inductive MpiCall : Type :=
| MPI_Iallreduce (sendbuf recvbuf count : Z) (dt : MPI_Datatype) (op : MPI_Op)
| MPI_Iscatter (sendbuf sendcount : Z) (sdt : MPI_Datatype) (recvbuf recvcount : Z) (rdt : MPI_Datatype) (root : Z)
| MPI_Iallgather (sendbuf sendcount : Z) (sdt : MPI_Datatype) (recvbuf recvcount : Z) (rdt : MPI_Datatype)
| MPI_Ibcast (buf count : Z) (dt : MPI_Datatype) (root : Z).

Definition MPI_SUCCESS : Z := 0.

(** [M] is the state of the library.  [start] is a non-blocking call: its code and
    its request.  [inflight] are the requests started and not yet reported complete,
    [finished] those of them whose operation is over; [mpi_progress] is what the
    library does between calls. *)
Class MpiLib (M : Type) := {
  start : MpiCall -> M -> M * Z * Z;
  MPI_Test : Z -> M -> M * Z * bool;
  MPI_Comm_rank : M -> Z * Z;
  MPI_Comm_size : M -> Z * Z;
  mpi_progress : M -> M -> Prop;
  inflight : M -> gset Z;
  finished : M -> Z -> Prop;
  start_law c m m' rc r : start c m = (m', rc, r) ->
    (if decide (rc = MPI_SUCCESS) then (r ∉ inflight m) /\ inflight m' = {[r]} ∪ inflight m
     else inflight m' = inflight m) /\
    (forall r', r' ∈ inflight m -> finished m r' -> finished m' r');
  test_law r m m' rc flag : MPI_Test r m = (m', rc, flag) -> r ∈ inflight m ->
    rc = MPI_SUCCESS /\ inflight m' = (if flag then inflight m ∖ {[r]} else inflight m) /\
    (finished m r -> flag = true) /\
    (forall r', r' ∈ inflight m -> r' <> r -> finished m r' -> finished m' r');
  progress_law m m' : mpi_progress m m' ->
    inflight m' = inflight m /\ (forall r, r ∈ inflight m -> finished m r -> finished m' r)
}.

(** ** The reactor *)

(** A completion slot is an index into [cslots], which holds the [done] flags. *)
Record PendingReq : Type := mkReq { req : Z; rwaker : Waker; slot : nat }.

(** [active] counts the entries of a vector, so it stays below [2 ^ 64]. *)
Record MpiReactor : Type := mkMpi { pending : list PendingReq; active : nat; cslots : list bool }.

Definition MpiReactor_new : MpiReactor := mkMpi [] 0 [].

Definition register (r : Z) (k : Waker) (x : MpiReactor) : MpiReactor * nat :=
  let s := length (cslots x) in
  (mkMpi (pending x ++ [mkReq r k s]) (active x + 1) (cslots x ++ [false]), s).

(** [Vec::swap_remove]. *)
Definition swap_remove {A} (i : nat) (l : list A) : outcome (A * list A) :=
  match l !! i, last l with
  | Some x, Some y => mret (x, take (length l - 1) (<[i := y]> l))
  | _, _ => Panic "swap_remove index out of bounds"
  end.

Definition mpi_status (x : MpiReactor) : ReactorStatus := if 0 <? active x then Running else Stopped.

Section reactor.
Context {M : Type} `{MpiLib M} (debug : bool).

(** [while i < pending.len()]; the fuel is the number of entries left to test. *)
Fixpoint mpi_poll_loop (fuel i : nat) (x : MpiReactor) (m : M) : outcome (M * MpiReactor * list Waker) :=
  match fuel, pending x !! i with
  | O, _ | _, None => mret (m, x, [])
  | S fuel, Some e =>
      let '(m, rc, flag) := MPI_Test (req e) m in
      (if debug && negb (rc =? MPI_SUCCESS)%Z then Panic "assertion failed" else mret tt) ;;
      if flag : bool then
        '(entry, p) ← swap_remove i (pending x);
        match active x with
        | O => Panic "attempt to subtract with overflow"
        | S a =>
            '(m, x, ws) ← mpi_poll_loop fuel i (mkMpi p a (<[slot entry := true]> (cslots x))) m;
            mret (m, x, rwaker entry :: ws)
        end
      else mpi_poll_loop fuel (i + 1) x m
  end.

Definition mpi_poll (x : MpiReactor) (m : M) : outcome (M * MpiReactor * list Waker) :=
  mpi_poll_loop (length (pending x)) 0 x m.

(** ** The futures *)

Inductive FutState : Type := NotStarted | InFlight (s : nat) | Done.

(** The four structs differ in the call they make. *)
Record MpiFuture : Type := mkFut { fcall : MpiCall; fstate : FutState }.

(** [n as i32]. *)
Definition as_i32 (n : nat) : Z := (Z.of_nat n + 2 ^ 31) `mod` 2 ^ 32 - 2 ^ 31.

Definition AllreduceFuture_new (dt : MPI_Datatype) (buf : RawSlice) (op : MPI_Op) : MpiFuture :=
  mkFut (MPI_Iallreduce MPI_IN_PLACE (sl_ptr buf) (as_i32 (sl_len buf)) dt op) NotStarted.

Definition ScatterFuture_new (dt : MPI_Datatype) (send : option RawSlice) (recv : RawSlice) (root rank size : nat) :
    result MpiFuture CollectiveError :=
  let recv_count := as_i32 (sl_len recv) in
  let build sendbuf sendcount :=
    ROk (mkFut (MPI_Iscatter sendbuf sendcount dt (sl_ptr recv) recv_count dt (as_i32 root)) NotStarted) in
  if rank =? root then
    match send with
    | None => RErr (Protocol "scatter: send_buf required at root")
    | Some sb => if negb (sl_len sb =? sl_len recv * size) then RErr BadShape else build (sl_ptr sb) recv_count
    end
  else build null 0%Z.

Definition AllgatherFuture_new (dt : MPI_Datatype) (send recv : RawSlice) (size : nat) :
    result MpiFuture CollectiveError :=
  if negb (sl_len recv =? sl_len send * size) then RErr BadShape
  else ROk (mkFut (MPI_Iallgather (sl_ptr send) (as_i32 (sl_len send)) dt
                     (sl_ptr recv) (as_i32 (sl_len send)) dt) NotStarted).

Definition BroadcastFuture_new (dt : MPI_Datatype) (buf : RawSlice) (root : nat) : MpiFuture :=
  mkFut (MPI_Ibcast (sl_ptr buf) (as_i32 (sl_len buf)) dt (as_i32 root)) NotStarted.

Definition MpiFuture_poll (k : Waker) (f : MpiFuture) (x : MpiReactor) (m : M) :
    M * MpiReactor * MpiFuture * Poll (result unit CollectiveError) :=
  match fstate f with
  | NotStarted =>
      let '(m, rc, r) := start (fcall f) m in
      if negb (rc =? MPI_SUCCESS)%Z then (m, x, f, Ready (RErr (Mpi rc)))
      else let (x, s) := register r (clone_raw k) x in (m, x, mkFut (fcall f) (InFlight s), Pending)
  | InFlight s =>
      if default false (cslots x !! s) then (m, x, mkFut (fcall f) Done, Ready (ROk tt)) else (m, x, f, Pending)
  | Done => (m, x, f, Ready (ROk tt))
  end.

(** [ScatterFuture] and [AllgatherFuture] are built on the first poll of an async
    block, which ends with the error if that fails. *)
Inductive MpiAsync : Type :=
| Unbuilt (made : result MpiFuture CollectiveError)
| Built (f : MpiFuture).

Definition MpiAsync_poll (k : Waker) (a : MpiAsync) (x : MpiReactor) (m : M) :
    M * MpiReactor * MpiAsync * Poll (result unit CollectiveError) :=
  match a with
  | Unbuilt (RErr e) => (m, x, a, Ready (RErr e))
  | Unbuilt (ROk f) | Built f => let '(m, x, f, p) := MpiFuture_poll k f x m in (m, x, Built f, p)
  end.

(** ** The communicator *)

Record MpiCommunicator : Type := mkMpiComm { mrank : Z; msize : Z }.

Definition world (m : M) : result MpiCommunicator CollectiveError :=
  let (rc, rank) := MPI_Comm_rank m in
  if negb (rc =? MPI_SUCCESS)%Z then RErr (Mpi rc)
  else
    let (rc, size) := MPI_Comm_size m in
    if negb (rc =? MPI_SUCCESS)%Z then RErr (Mpi rc)
    else ROk (mkMpiComm (wrap64 rank) (wrap64 size)).

Definition mpi_allreduce (dt : MPI_Datatype) (buf : RawSlice) (op : MPI_Op) : MpiFuture := AllreduceFuture_new dt buf op.
Definition mpi_scatter (c : MpiCommunicator) (dt : MPI_Datatype) (send : option RawSlice) (recv : RawSlice) (root : nat) :
    MpiAsync :=
  Unbuilt (ScatterFuture_new dt send recv root (Z.to_nat (mrank c)) (Z.to_nat (msize c))).
Definition mpi_allgather (c : MpiCommunicator) (dt : MPI_Datatype) (send recv : RawSlice) : MpiAsync :=
  Unbuilt (AllgatherFuture_new dt send recv (Z.to_nat (msize c))).
Definition mpi_broadcast (dt : MPI_Datatype) (buf : RawSlice) (root : nat) : MpiFuture := BroadcastFuture_new dt buf root.

(** ** Steps of a thread that uses the reactor *)

(** The futures of the thread by number. *)
Definition MpiWorld : Type := (M * MpiReactor * gmap nat MpiFuture)%type.

Inductive mpi_step : MpiWorld -> list Waker -> MpiWorld -> Prop :=
| ms_progress m m' x fs : mpi_progress m m' -> mpi_step (m, x, fs) [] (m', x, fs)
| ms_reactor m x fs m' x' ws : mpi_poll x m = Ok (m', x', ws) -> mpi_step (m, x, fs) ws (m', x', fs)
| ms_new m x fs j c : fs !! j = None -> mpi_step (m, x, fs) [] (m, x, <[j := mkFut c NotStarted]> fs)
| ms_poll m x fs j k f m' x' f' p : fs !! j = Some f -> MpiFuture_poll k f x m = (m', x', f', p) ->
    mpi_step (m, x, fs) [] (m', x', <[j := f']> fs)
| ms_drop m x fs j : mpi_step (m, x, fs) [] (m, x, delete j fs).

(** The runs, with the wakers woken. *)
Inductive mpi_run : MpiWorld -> list Waker -> MpiWorld -> Prop :=
| mr_refl w : mpi_run w [] w
| mr_step w ws w1 ws' w' : mpi_step w ws w1 -> mpi_run w1 ws' w' -> mpi_run w (ws ++ ws') w'.
End reactor.

(** * Facts *)

Lemma swap_remove_spec {A} i (l : list A) e : l !! i = Some e ->
  exists p, swap_remove i l = Ok (e, p) /\ length l = S (length p) /\ take i p = take i l /\ drop i l ≡ₚ e :: drop i p.
Proof.
  intros Hi. assert (Hlt := lookup_lt_Some _ _ _ Hi). unfold swap_remove. rewrite Hi.
  destruct l as [|y l _] using rev_ind; [done|]. rewrite last_snoc. rewrite length_app in *. cbn in *.
  eexists. split; [done|]. replace (length l + 1 - 1) with (length l) by lia.
  destruct (decide (i = length l)) as [->|Hne].
  - assert (Hy := Hi). rewrite lookup_app_r, Nat.sub_diag in Hy by lia. injection Hy as ->.
    rewrite list_insert_id by done. rewrite take_app_length, firstn_all, drop_app_length, drop_all. by split; [lia|].
  - assert (i < length l) as Hl by lia. rewrite lookup_app_l in Hi by done.
    rewrite insert_app_l, take_app_length' by (rewrite ?length_insert; done).
    split; [rewrite length_insert; lia|]. rewrite take_insert_ge, take_app_le, drop_app_le by lia. split; [done|].
    rewrite drop_insert_ge, Nat.sub_diag by lia.
    rewrite (drop_S l e i Hi). cbn. constructor. by rewrite Permutation_app_comm.
Qed.

Section facts.
Context {M : Type} `{MpiLib M} (debug : bool).

(** The entries wait for distinct requests in flight, under distinct open slots. *)
Record MpiWf (x : MpiReactor) (m : M) : Prop := {
  mw_active : active x = length (pending x);
  mw_req : NoDup (map req (pending x));
  mw_inflight e : e ∈ pending x -> req e ∈ inflight m;
  mw_open e : e ∈ pending x -> cslots x !! slot e = Some false;
  mw_slot : NoDup (map slot (pending x))
}.

Lemma mpi_wf_new m : MpiWf MpiReactor_new m.
Proof. split; cbn; try done; try constructor; by intros e ?%elem_of_nil. Qed.

Lemma mpi_wf_register x m m' r k c : MpiWf x m -> start c m = (m', MPI_SUCCESS, r) -> MpiWf (register r k x).1 m'.
Proof.
  intros [W1 W2 W3 W4 W5] Hc. destruct (start_law _ _ _ _ _ Hc) as [[Hr Hi] _]. unfold register. cbn. split; cbn.
  - rewrite length_app, W1. done.
  - rewrite map_app. apply NoDup_app. split; [done|]. split; [|apply NoDup_singleton].
    intros q Hq Hq'%list_elem_of_singleton. apply list_elem_of_fmap in Hq as (e & He1 & He). cbn in Hq'.
    apply Hr. rewrite <- Hq', He1. by apply W3.
  - intros e [He| ->%list_elem_of_singleton]%elem_of_app; rewrite Hi; apply elem_of_union;
      [right; by apply W3|left; by apply elem_of_singleton].
  - intros e [He| ->%list_elem_of_singleton]%elem_of_app.
    + specialize (W4 e He). rewrite lookup_app_l; [done|]. by eapply lookup_lt_Some.
    + cbn. by rewrite lookup_app_r, Nat.sub_diag.
  - rewrite map_app. apply NoDup_app. split; [done|]. split; [|apply NoDup_singleton].
    intros q Hq Hq'%list_elem_of_singleton. apply list_elem_of_fmap in Hq as (e & Hs & He). specialize (W4 e He).
    apply lookup_lt_Some in W4. cbn in Hq'. lia.
Qed.

(** What one scan from index [i] does: the entries from [i] on are those that stay
    and those that completed. *)
Record Scan (i : nat) (x : MpiReactor) (m : M) (x' : MpiReactor) (m' : M) (kept comp : list PendingReq) : Prop := {
  sc_split : drop i (pending x) ≡ₚ kept ++ comp;
  sc_pending : pending x' = take i (pending x) ++ kept;
  sc_slots s : cslots x' !! s = if decide (s ∈ map slot comp) then Some true else cslots x !! s;
  sc_inflight : inflight m' = inflight m ∖ list_to_set (map req comp);
  sc_finished e : e ∈ drop i (pending x) -> finished m (req e) -> e ∈ comp;
  sc_wf : MpiWf x' m'
}.

Lemma wf_remove i x m m' e p : MpiWf x m -> pending x !! i = Some e ->
  take i p = take i (pending x) -> length (pending x) = S (length p) ->
  drop i (pending x) ≡ₚ e :: drop i p -> inflight m' = inflight m ∖ {[req e]} ->
  MpiWf (mkMpi p (active x - 1) (<[slot e := true]> (cslots x))) m' /\ slot e < length (cslots x).
Proof.
  intros [W1 W2 W3 W4 W5] He Ht Hl Hd Hi. assert (Hin := list_elem_of_lookup_2 _ _ _ He).
  assert (Hp : pending x ≡ₚ e :: p).
  { rewrite <- (take_drop i (pending x)), Hd, <- Ht, <- Permutation_middle. by rewrite take_drop. }
  assert (Hlt : slot e < length (cslots x)) by (eapply lookup_lt_Some; by apply W4). split; [|done].
  assert (N1 := W2). assert (N2 := W5). rewrite Hp in N1, N2. cbn in N1, N2.
  apply NoDup_cons in N1 as [N1 N1'], N2 as [N2 N2']. split; cbn.
  - lia.
  - done.
  - intros e' He'. rewrite Hi. assert (req e' <> req e) by (intros Heq; apply N1; rewrite <- Heq; by apply list_elem_of_fmap_2).
    assert (req e' ∈ inflight m) by (apply W3; rewrite Hp; by right). set_solver.
  - intros e' He'. rewrite list_lookup_insert_ne; [apply W4; rewrite Hp; by right|].
    intros Heq. apply N2. rewrite Heq. by apply list_elem_of_fmap_2.
  - done.
Qed.

Lemma scan_end i x m : length (pending x) <= i -> MpiWf x m -> Scan i x m x m [] [].
Proof.
  intros Hi HW. split; cbn; rewrite ?drop_ge, ?take_ge, ?app_nil_r by done; try done; set_solver.
Qed.

(** The request at [i] finished and the last one took its place. *)
Lemma scan_taken i x m m1 e p a m' x' kept comp :
  MpiWf x m -> pending x !! i = Some e -> take i p = take i (pending x) -> drop i (pending x) ≡ₚ e :: drop i p ->
  slot e < length (cslots x) -> inflight m1 = inflight m ∖ {[req e]} ->
  (forall r, r ∈ inflight m -> r <> req e -> finished m r -> finished m1 r) ->
  (forall e', e' ∈ pending x -> req e' = req e -> e' = e) ->
  Scan i (mkMpi p a (<[slot e := true]> (cslots x))) m1 x' m' kept comp -> Scan i x m x' m' kept (e :: comp).
Proof.
  intros HW He Htk Hd Hslot Hi1 Hmono Hothers [S1 S2 S3 S4 S5 S6]. cbn in *. split; cbn.
  - rewrite Hd, S1. by rewrite Permutation_middle.
  - by rewrite S2, Htk.
  - intros s. rewrite S3. destruct (decide (s = slot e)) as [->|Hne].
    + rewrite (decide_True (P := slot e ∈ slot e :: _)) by by left. rewrite list_lookup_insert_eq by done. by case_decide.
    + rewrite list_lookup_insert_ne by done.
      destruct (decide (s ∈ map slot comp)); [rewrite decide_True by by right|rewrite decide_False]; try done.
      by intros [?|?]%elem_of_cons.
  - by rewrite S4, Hi1, difference_difference_l_L.
  - intros e' He' Hf'. rewrite Hd in He'. apply elem_of_cons in He' as [->|He']; [by left|].
    assert (Hx : e' ∈ pending x) by (rewrite <- (take_drop i (pending x)), Hd; apply elem_of_app; right; by right).
    destruct (decide (req e' = req e)) as [Heq|Hne]; [rewrite (Hothers _ Hx Heq); by left|]. right. apply S5; [done|].
    apply Hmono; [by apply (mw_inflight _ _ HW)|done..].
  - done.
Qed.

(** The request at [i] did not finish. *)
Lemma scan_kept i x m m1 e m' x' kept comp :
  MpiWf x m -> pending x !! i = Some e -> inflight m1 = inflight m -> ~ finished m (req e) ->
  (forall r, r ∈ inflight m -> r <> req e -> finished m r -> finished m1 r) ->
  (forall e', e' ∈ pending x -> req e' = req e -> e' = e) ->
  Scan (S i) x m1 x' m' kept comp -> Scan i x m x' m' (e :: kept) comp.
Proof.
  intros HW He Hi1 Hnf Hmono Hothers [S1 S2 S3 S4 S5 S6]. split; try done.
  - by rewrite (drop_S _ _ _ He), S1.
  - rewrite S2, (take_S_r _ _ _ He). by rewrite <- app_assoc.
  - by rewrite S4, Hi1.
  - intros e' He' Hf'. rewrite (drop_S _ _ _ He) in He'. apply elem_of_cons in He' as [->|He']; [done|].
    apply S5; [done|].
    assert (e' ∈ pending x) by (rewrite <- (take_drop (S i) (pending x)); apply elem_of_app; by right).
    apply Hmono; [by apply (mw_inflight _ _ HW)| |done]. intros Heq. assert (e' = e) as -> by by apply Hothers. done.
Qed.

Lemma poll_loop_scan fuel i x m : length (pending x) <= i + fuel -> MpiWf x m ->
  exists m' x' kept comp, mpi_poll_loop debug fuel i x m = Ok (m', x', map rwaker comp) /\ Scan i x m x' m' kept comp.
Proof.
  revert i x m. induction fuel as [|fuel IH]; intros i x m Hf HW.
  { exists m, x, [], []. split; [done|]. by apply scan_end; [lia|]. }
  cbn [mpi_poll_loop]. destruct (pending x !! i) as [e|] eqn:He; cycle 1.
  { apply lookup_ge_None in He. exists m, x, [], []. split; [done|]. by apply scan_end. }
  assert (Hin := list_elem_of_lookup_2 _ _ _ He). assert (Hlt := lookup_lt_Some _ _ _ He).
  destruct (MPI_Test (req e) m) as [[m1 rc] flag] eqn:Ht.
  destruct (test_law _ _ _ _ _ Ht (mw_inflight _ _ HW e Hin)) as (-> & Hi1 & Hfin & Hmono).
  rewrite Z.eqb_refl, andb_false_r. cbn [mbind outcome_bind mret outcome_ret].
  assert (Hothers : forall e', e' ∈ pending x -> req e' = req e -> e' = e).
  { intros e' He' Heq. apply list_elem_of_lookup_1 in He' as [j Hj].
    assert (i = j) as <-; [|congruence]. eapply NoDup_lookup; [apply (mw_req _ _ HW)| |];
      rewrite list_lookup_fmap; [by rewrite He|by rewrite Hj, <- Heq]. }
  destruct flag.
  - destruct (swap_remove_spec i _ _ He) as (p & -> & Hl & Htk & Hd). cbn [mbind outcome_bind].
    destruct (wf_remove i x m m1 e p HW He Htk Hl Hd Hi1) as [HW1 Hslot].
    destruct (active x) as [|a] eqn:Ha; [rewrite (mw_active _ _ HW) in Ha; lia|].
    replace (S a - 1) with a in HW1 by lia.
    destruct (IH i (mkMpi p a (<[slot e := true]> (cslots x))) m1 ltac:(cbn; lia) HW1) as (m' & x' & kept & comp & -> & HS). cbn.
    exists m', x', kept, (e :: comp). split; [done|]. by apply (scan_taken i x m m1 e p a).
  - assert (HW1 : MpiWf x m1) by (destruct HW; split; try done; intros; rewrite Hi1; auto).
    destruct (IH (i + 1) x m1 ltac:(lia) HW1) as (m' & x' & kept & comp & -> & HS).
    exists m', x', (e :: kept), comp. split; [done|]. rewrite Nat.add_1_r in HS. apply (scan_kept i x m m1 e); try done.
    intros Hf'. by specialize (Hfin Hf').
Qed.

(** ** Runs *)

Lemma mpi_wf_inflight x m m' : MpiWf x m -> (forall r, r ∈ inflight m -> r ∈ inflight m') -> MpiWf x m'.
Proof. intros [W1 W2 W3 W4 W5] Hi. split; try done. intros e He. by apply Hi, W3. Qed.

Lemma register_keeps r k x s b : cslots x !! s = Some b -> cslots (register r k x).1 !! s = Some b.
Proof. intros Hs. cbn. rewrite lookup_app_l; [done|]. by eapply lookup_lt_Some. Qed.

(** A poll of a future leaves the reactor, or registers a request. *)
Lemma future_poll_cases k f x m m' x' f' p : MpiFuture_poll k f x m = (m', x', f', p) ->
  (x' = x /\ (m' = m \/ exists rc r, start (fcall f) m = (m', rc, r) /\ rc <> MPI_SUCCESS)) \/
  exists r, start (fcall f) m = (m', MPI_SUCCESS, r) /\ x' = (register r (clone_raw k) x).1.
Proof.
  unfold MpiFuture_poll. destruct (fstate f) as [|s|].
  - destruct (start (fcall f) m) as [[m1 rc] r] eqn:Hs. destruct (Z.eqb_spec rc MPI_SUCCESS) as [->|Hne]; cbn.
    + intros [= <- <- <- <-]. right. by exists r.
    + intros [= <- <- <- <-]. left. split; [done|]. right. by exists rc, r.
  - destruct (default false _); intros [= <- <- <- <-]; left; split; auto.
  - intros [= <- <- <- <-]. left. split; auto.
Qed.

Lemma future_poll_wf k f x m m' x' f' p : MpiWf x m -> MpiFuture_poll k f x m = (m', x', f', p) -> MpiWf x' m'.
Proof.
  intros HW Hp. apply future_poll_cases in Hp as [[-> [->|(rc & r & Hs & Hne)]]|(r & Hs & ->)].
  - done.
  - destruct (start_law _ _ _ _ _ Hs) as [Hi _]. rewrite decide_False in Hi by done.
    eapply mpi_wf_inflight; [done|]. by rewrite Hi.
  - by eapply mpi_wf_register.
Qed.

Lemma mpi_poll_scan x m : MpiWf x m ->
  exists m' x' kept comp, mpi_poll debug x m = Ok (m', x', map rwaker comp) /\ Scan 0 x m x' m' kept comp.
Proof. intros HW. by apply poll_loop_scan. Qed.

(** The request of slot [s]: still waiting with its waker, or done. *)
Definition Waiting (r : Z) (k : Waker) (s : nat) (x : MpiReactor) : Prop := mkReq r k s ∈ pending x.
Definition Landed (s : nat) (x : MpiReactor) : Prop := cslots x !! s = Some true.

Lemma scan_waiting x m x' m' kept comp r k s :
  Scan 0 x m x' m' kept comp -> Waiting r k s x ->
  (Waiting r k s x' \/ (Landed s x' /\ k ∈ map rwaker comp)) /\
  (finished m r -> Landed s x' /\ k ∈ map rwaker comp).
Proof.
  intros [S1 S2 S3 _ S5 _] Hw. unfold Waiting, Landed in *. cbn in S1, S2, S5.
  assert (Hc : forall e, e ∈ comp -> cslots x' !! slot e = Some true /\ rwaker e ∈ map rwaker comp).
  { intros e He. split; [|by apply list_elem_of_fmap_2].
    rewrite S3, decide_True; [done|]. by apply list_elem_of_fmap_2. }
  split.
  - assert (Hs := Hw). rewrite drop_0 in S1. rewrite S1 in Hs. rewrite S2. apply elem_of_app in Hs as [Hs|Hs]; [by left|right].
    by apply Hc in Hs.
  - intros Hf. rewrite drop_0 in S5. apply (Hc (mkReq r k s)). by apply S5.
Qed.

Lemma mpi_step_tracks r k s m x fs ws m' x' fs' :
  MpiWf x m -> mpi_step debug (m, x, fs) ws (m', x', fs') ->
  MpiWf x' m' /\ (Landed s x -> Landed s x') /\ (Waiting r k s x -> Waiting r k s x' \/ (Landed s x' /\ k ∈ ws)).
Proof.
  intros HW Hs. inversion Hs as [? ? ? ? Hp|? ? ? ? ? ? Hp| | ? ? ? ? ? ? ? ? ? ? Hf Hp|]; subst; clear Hs.
  - destruct (progress_law _ _ Hp) as [Hi _]. split; [|by auto]. eapply mpi_wf_inflight; [done|]. by rewrite Hi.
  - destruct (mpi_poll_scan x m HW) as (m1 & x1 & kept & comp & Hq & HS). rewrite Hq in Hp. injection Hp as <- <- <-.
    split; [apply (sc_wf _ _ _ _ _ _ _ HS)|]. split.
    + unfold Landed. rewrite (sc_slots _ _ _ _ _ _ _ HS). by case_decide.
    + intros Hw. by eapply scan_waiting.
  - split; [done|by auto].
  - split; [by eapply future_poll_wf|]. apply future_poll_cases in Hp as [[-> _]|(q & _ & ->)]; [by auto|]. split.
    + apply register_keeps.
    + intros Hw. left. unfold Waiting. cbn. apply elem_of_app. by left.
  - split; [done|by auto].
Qed.

Lemma mpi_run_tracks r k s w ws w' : mpi_run debug w ws w' -> MpiWf w.1.2 w.1.1 ->
  MpiWf w'.1.2 w'.1.1 /\ (Landed s w.1.2 -> Landed s w'.1.2) /\
  (Waiting r k s w.1.2 -> Waiting r k s w'.1.2 \/ (Landed s w'.1.2 /\ k ∈ ws)).
Proof.
  induction 1 as [w|[[m x] fs] ws [[m1 x1] fs1] ws' w' Hs _ IH]; intros HW; [by auto|]. cbn in *.
  destruct (mpi_step_tracks r k s _ _ _ _ _ _ _ HW Hs) as (HW1 & HL & Hw). destruct (IH HW1) as (HW' & HL' & Hw').
  split; [done|]. split; [by auto|]. intros Hx. destruct (Hw Hx) as [Hx1|[Hx1 Hk]].
  - destruct (Hw' Hx1) as [|[? ?]]; [by left|right]. split; [done|]. apply elem_of_app. by right.
  - right. split; [by auto|]. apply elem_of_app. by left.
Qed.

(** A poll of the MPI reactor tests every pending request and retires exactly the
    completed ones.  It does not panic (whatever order [swap_remove] leaves behind);
    the pending entries split into those kept, still in flight, and those retired,
    which the library has released, whose slots are set and whose wakers are woken,
    one each; every operation that was over when the poll began is among the retired;
    [active] stays the number of entries, and the status is [Running] exactly when
    some are left. *)
Theorem mpi_poll_exact x m : MpiWf x m ->
  exists m' x' kept retired, mpi_poll debug x m = Ok (m', x', map rwaker retired) /\
    pending x ≡ₚ kept ++ retired /\ pending x' = kept /\
    inflight m' = inflight m ∖ list_to_set (map req retired) /\
    (forall s, cslots x' !! s = if decide (s ∈ map slot retired) then Some true else cslots x !! s) /\
    (forall e, e ∈ pending x -> finished m (req e) -> e ∈ retired) /\
    MpiWf x' m' /\ mpi_status x' = (if decide (kept = []) then Stopped else Running).
Proof.
  intros HW. destruct (mpi_poll_scan x m HW) as (m' & x' & kept & comp & Hp & [S1 S2 S3 S4 S5 S6]).
  exists m', x', kept, comp. rewrite drop_0 in S1, S5. split; [done|]. split; [done|]. split; [done|]. split; [done|].
  split; [done|]. split; [done|]. split; [done|]. unfold mpi_status. rewrite (mw_active _ _ S6), S2. by destruct kept.
Qed.

(** C32. An MPI collective resolves.  When the first poll of a future starts its
    request, then in every later state of the thread, whatever its other futures and
    the library did, either the request is still in flight: the reactor is [Running],
    every poll of the future is pending (and does not replace the waker), and once
    the operation is over the next poll of the reactor wakes the waker of the first
    poll, after which the future returns [Ok]; or it was over: that waker has been
    woken and the future returns [Ok]. *)
Theorem mpi_future_completes m x fs i f k m1 x1 f1 :
  MpiWf x m -> fstate f = NotStarted -> MpiFuture_poll k f x m = (m1, x1, f1, Pending) ->
  exists r, forall ws m2 x2 fs2, mpi_run debug (m1, x1, <[i := f1]> fs) ws (m2, x2, fs2) ->
    (mpi_status x2 = Running /\ r ∈ inflight m2 /\
     (forall k', MpiFuture_poll k' f1 x2 m2 = (m2, x2, f1, Pending)) /\
     (finished m2 r -> exists m3 x3 ws3, mpi_poll debug x2 m2 = Ok (m3, x3, ws3) /\ clone_raw k ∈ ws3 /\
        forall k', (MpiFuture_poll k' f1 x3 m3).2 = Ready (ROk tt))) \/
    (clone_raw k ∈ ws /\ forall k', (MpiFuture_poll k' f1 x2 m2).2 = Ready (ROk tt)).
Proof.
  intros HW Hn Hp. assert (HW1 := future_poll_wf _ _ _ _ _ _ _ _ HW Hp).
  unfold MpiFuture_poll in Hp. rewrite Hn in Hp. destruct (start (fcall f) m) as [[m' rc] r] eqn:Hs.
  destruct (Z.eqb_spec rc MPI_SUCCESS) as [->|]; cbn in Hp; [|done]. injection Hp as <- <- <-.
  set (s := length (cslots x)) in *. exists r. intros ws m2 x2 fs2 Hr.
  assert (Hland : forall x' m', Landed s x' -> forall k',
    (MpiFuture_poll k' (mkFut (fcall f) (InFlight s)) x' m').2 = Ready (ROk tt)).
  { intros x' m3 HL k'. unfold MpiFuture_poll. cbn [fstate]. by rewrite HL. }
  destruct (mpi_run_tracks r (clone_raw k) s _ _ _ Hr HW1) as (HW2 & _ & Hw). cbn in HW2, Hw.
  destruct Hw as [Hw|[HL Hk]].
  - unfold Waiting. cbn. apply elem_of_app. right. by left.
  - left. assert (Hin := Hw). split; [|split; [|split]].
    + unfold mpi_status. rewrite (mw_active _ _ HW2). destruct (pending x2) eqn:Hx; [|done].
      unfold Waiting in Hw. rewrite Hx in Hw. by apply elem_of_nil in Hw.
    + by apply (mw_inflight _ _ HW2) in Hw.
    + intros k'. unfold MpiFuture_poll. cbn [fstate]. apply (mw_open _ _ HW2) in Hw. cbn in Hw. by rewrite Hw.
    + intros Hf. destruct (mpi_poll_scan x2 m2 HW2) as (m3 & x3 & kept & comp & Hq & HS).
      exists m3, x3, (map rwaker comp). destruct (proj2 (scan_waiting _ _ _ _ _ _ _ _ _ HS Hw) Hf) as [HL Hk].
      split; [done|]. split; [done|]. by apply Hland.
  - right. split; [done|]. by apply Hland.
Qed.
End facts.

(** * Witnesses *)

(** A library whose requests are reported complete after a number of tests. *)
Definition CountMpi : Type := (Z * gmap Z nat)%type.

#[export] Instance count_mpi : MpiLib CountMpi.
Proof.
  refine {|
    start c m := if decide (m.1 ∈ dom m.2) then (m, 1%Z, 0%Z) else (((m.1 + 1)%Z, <[m.1 := 1]> m.2), MPI_SUCCESS, m.1);
    MPI_Test r m := match m.2 !! r with
      | Some (S n) => ((m.1, <[r := n]> m.2), MPI_SUCCESS, false)
      | _ => ((m.1, delete r m.2), MPI_SUCCESS, true) end;
    MPI_Comm_rank _ := (MPI_SUCCESS, 0%Z); MPI_Comm_size _ := (MPI_SUCCESS, 1%Z);
    mpi_progress m m' := m' = m;
    inflight m := dom m.2;
    finished m r := m.2 !! r = Some 0
  |}.
  - intros c [n g] m' rc r. cbn. destruct (decide (n ∈ dom g)) as [Hd|Hd]; intros [= <- <- <-]; cbn.
    + by split.
    + split; [by split; [done|apply dom_insert_L]|]. intros r' Hr' Hf. rewrite lookup_insert_ne; [done|]. by intros <-.
  - intros r [n g] m' rc flag Ht Hr. cbn in *. apply elem_of_dom in Hr as [v Hv]. rewrite Hv in Ht.
    destruct v as [|v]; injection Ht as <- <- <-; cbn; (split; [done|]); split.
    + apply dom_delete_L.
    + split; [done|]. intros r' Hr' Hne Hf. by rewrite lookup_delete_ne.
    + rewrite dom_insert_L. apply subseteq_union_1_L. intros z ->%elem_of_singleton. by apply elem_of_dom_2 in Hv.
    + split; [by rewrite Hv|]. intros r' Hr' Hne Hf. by rewrite lookup_insert_ne.
  - by intros m m' ->.
Defined.

Definition demo_mpi : CountMpi := (7%Z, ∅).
Definition demo_call : MpiFuture := AllreduceFuture_new MPI_UINT32_T (mkSlice 4096 6) MPI_BXOR.
Definition demo_waker : Waker := mkWaker 3 TaskQueue.

Lemma mpi_poll_exact_witness : exists m' x' kept retired,
  mpi_poll true (mkMpi [mkReq 7 demo_waker 0; mkReq 8 (mkWaker 4 TaskQueue) 1] 2 [false; false])
    ((9%Z, {[7%Z := 0; 8%Z := 1]}) : CountMpi) = Ok (m', x', map rwaker retired) /\
  pending x' = kept /\ mpi_status x' = (if decide (kept = []) then Stopped else Running).
Proof.
  destruct (mpi_poll_exact true (mkMpi [mkReq 7 demo_waker 0; mkReq 8 (mkWaker 4 TaskQueue) 1] 2 [false; false])
    ((9%Z, {[7%Z := 0; 8%Z := 1]}) : CountMpi)) as (m' & x' & kept & retired & H1 & _ & H2 & _ & _ & _ & _ & H3).
  - split; cbn.
    + done.
    + by apply (bool_decide_unpack _); vm_compute.
    + intros e [->|[->|[]%elem_of_nil]%elem_of_cons]%elem_of_cons; by vm_compute.
    + by intros e [->|[->|[]%elem_of_nil]%elem_of_cons]%elem_of_cons.
    + by apply (bool_decide_unpack _); vm_compute.
  - by exists m', x', kept, retired.
Defined.

Lemma mpi_future_completes_witness :
  exists m1 x1 f1, MpiFuture_poll demo_waker demo_call MpiReactor_new demo_mpi = (m1, x1, f1, Pending) /\
    mpi_status x1 = Running.
Proof.
  destruct (MpiFuture_poll demo_waker demo_call MpiReactor_new demo_mpi) as [[[m1 x1] f1] p] eqn:Hp.
  assert (p = Pending) as -> by (injection Hp as _ _ _ <-; reflexivity).
  destruct (mpi_future_completes true demo_mpi MpiReactor_new ∅ 5 demo_call demo_waker m1 x1 f1
    (mpi_wf_new _) eq_refl Hp) as [r Hr].
  exists m1, x1, f1. split; [done|]. destruct (Hr _ _ _ _ (mr_refl true _)) as [[Hs _]|[Hk _]]; [done|].
  by apply elem_of_nil in Hk.
Defined.
