(* ===== verification/MpiFutures.v ===== *)
(** * MpiFutures: the four futures of the MPI backend as they are declared
    ([pluvio_collective/src/mpi_backend/allreduce.rs], [scatter.rs], [allgather.rs], [broadcast.rs])

    [Mpi] has one record for the four structs: the call a future makes and its state.  Here
    are the structs with their fields and their polls, one Module each, and the
    refinement: what a thread does with them is a run of [Mpi] ([fut_run_refines]).  Last,
    the program [coll_mpi_example], whose futures are built at every rank. *)

From S2P Require Import Prelude Future Executor CollBase Mpi.

Section polls.
Context {M : Type} `{MpiLib M} (dt : MPI_Datatype).

(** ** [AllreduceFuture] *)

Record AllreduceFuture : Type := mkAllreduce { ar_buf : Z; ar_len : nat; ar_op : MPI_Op; ar_state : FutState }.
Definition Allreduce_new (buf : RawSlice) (op : MPI_Op) : AllreduceFuture :=
  mkAllreduce (sl_ptr buf) (sl_len buf) op NotStarted.

Definition Allreduce_poll (k : Waker) (this : AllreduceFuture) (x : MpiReactor) (m : M) :
    M * MpiReactor * AllreduceFuture * Poll (result unit CollectiveError) :=
  let set_state s := mkAllreduce (ar_buf this) (ar_len this) (ar_op this) s in
  match ar_state this with
  | NotStarted =>
      let in_place := 1%Z in
      let '(m, rc, req) := start (MPI_Iallreduce in_place (ar_buf this) (as_i32 (ar_len this)) dt (ar_op this)) m in
      if negb (rc =? MPI_SUCCESS)%Z then (m, x, this, Ready (RErr (Mpi rc)))
      else let (x, slot) := register req (clone_raw k) x in (m, x, set_state (InFlight slot), Pending)
  | InFlight slot =>
      if default false (cslots x !! slot) then (m, x, set_state Done, Ready (ROk tt)) else (m, x, this, Pending)
  | Done => (m, x, this, Ready (ROk tt))
  end.

(** ** [ScatterFuture] *)

Record ScatterFuture : Type := mkScatter {
  sc_send_ptr : Z; sc_send_count : Z; sc_recv_ptr : Z; sc_recv_count : Z; sc_root : Z; sc_state : FutState }.
Definition Scatter_new (send : option RawSlice) (recv : RawSlice) (root rank size : nat) : result ScatterFuture CollectiveError :=
  let recv_count := as_i32 (sl_len recv) in
  let build '(send_ptr, send_count) :=
    mkScatter send_ptr send_count (sl_ptr recv) recv_count (as_i32 root) NotStarted in
  if rank =? root then
    match send with
    | None => RErr (Protocol "scatter: send_buf required at root")
    | Some sb => if negb (sl_len sb =? sl_len recv * size) then RErr BadShape else ROk (build (sl_ptr sb, recv_count))
    end
  else ROk (build (null, 0%Z)).

Definition Scatter_poll (k : Waker) (this : ScatterFuture) (x : MpiReactor) (m : M) :
    M * MpiReactor * ScatterFuture * Poll (result unit CollectiveError) :=
  let set_state s :=
    mkScatter (sc_send_ptr this) (sc_send_count this) (sc_recv_ptr this) (sc_recv_count this) (sc_root this) s in
  match sc_state this with
  | NotStarted =>
      let '(m, rc, req) := start (MPI_Iscatter (sc_send_ptr this) (sc_send_count this) dt
                                    (sc_recv_ptr this) (sc_recv_count this) dt (sc_root this)) m in
      if negb (rc =? MPI_SUCCESS)%Z then (m, x, this, Ready (RErr (Mpi rc)))
      else let (x, slot) := register req (clone_raw k) x in (m, x, set_state (InFlight slot), Pending)
  | InFlight slot =>
      if default false (cslots x !! slot) then (m, x, set_state Done, Ready (ROk tt)) else (m, x, this, Pending)
  | Done => (m, x, this, Ready (ROk tt))
  end.

(** ** [AllgatherFuture] *)

Record AllgatherFuture : Type := mkAllgather {
  ag_send_ptr : Z; ag_send_count : Z; ag_recv_ptr : Z; ag_recv_count : Z; ag_state : FutState }.
Definition Allgather_new (send recv : RawSlice) (size : nat) : result AllgatherFuture CollectiveError :=
  if negb (sl_len recv =? sl_len send * size) then RErr BadShape
  else ROk (mkAllgather (sl_ptr send) (as_i32 (sl_len send)) (sl_ptr recv) (as_i32 (sl_len send)) NotStarted).

Definition Allgather_poll (k : Waker) (this : AllgatherFuture) (x : MpiReactor) (m : M) :
    M * MpiReactor * AllgatherFuture * Poll (result unit CollectiveError) :=
  let set_state s := mkAllgather (ag_send_ptr this) (ag_send_count this) (ag_recv_ptr this) (ag_recv_count this) s in
  match ag_state this with
  | NotStarted =>
      let '(m, rc, req) := start (MPI_Iallgather (ag_send_ptr this) (ag_send_count this) dt
                                    (ag_recv_ptr this) (ag_recv_count this) dt) m in
      if negb (rc =? MPI_SUCCESS)%Z then (m, x, this, Ready (RErr (Mpi rc)))
      else let (x, slot) := register req (clone_raw k) x in (m, x, set_state (InFlight slot), Pending)
  | InFlight slot =>
      if default false (cslots x !! slot) then (m, x, set_state Done, Ready (ROk tt)) else (m, x, this, Pending)
  | Done => (m, x, this, Ready (ROk tt))
  end.

(** ** [BroadcastFuture] *)

Record BroadcastFuture : Type := mkBroadcast { bc_buf_ptr : Z; bc_count : Z; bc_root : Z; bc_state : FutState }.
Definition Broadcast_new (buf : RawSlice) (root : nat) : BroadcastFuture :=
  mkBroadcast (sl_ptr buf) (as_i32 (sl_len buf)) (as_i32 root) NotStarted.

Definition Broadcast_poll (k : Waker) (this : BroadcastFuture) (x : MpiReactor) (m : M) :
    M * MpiReactor * BroadcastFuture * Poll (result unit CollectiveError) :=
  let set_state s := mkBroadcast (bc_buf_ptr this) (bc_count this) (bc_root this) s in
  match bc_state this with
  | NotStarted =>
      let '(m, rc, req) := start (MPI_Ibcast (bc_buf_ptr this) (bc_count this) dt (bc_root this)) m in
      if negb (rc =? MPI_SUCCESS)%Z then (m, x, this, Ready (RErr (Mpi rc)))
      else let (x, slot) := register req (clone_raw k) x in (m, x, set_state (InFlight slot), Pending)
  | InFlight slot =>
      if default false (cslots x !! slot) then (m, x, set_state Done, Ready (ROk tt)) else (m, x, this, Pending)
  | Done => (m, x, this, Ready (ROk tt))
  end.

(** ** Any of the four, and what it is in [Mpi] *)

Inductive AnyFuture : Type :=
| AnAllreduce (f : AllreduceFuture) | AScatter (f : ScatterFuture) | AnAllgather (f : AllgatherFuture) | ABroadcast (f : BroadcastFuture).

Definition any_poll (k : Waker) (f : AnyFuture) (x : MpiReactor) (m : M) :
    M * MpiReactor * AnyFuture * Poll (result unit CollectiveError) :=
  match f with
  | AnAllreduce f => let '(m, x, f, p) := Allreduce_poll k f x m in (m, x, AnAllreduce f, p)
  | AScatter f => let '(m, x, f, p) := Scatter_poll k f x m in (m, x, AScatter f, p)
  | AnAllgather f => let '(m, x, f, p) := Allgather_poll k f x m in (m, x, AnAllgather f, p)
  | ABroadcast f => let '(m, x, f, p) := Broadcast_poll k f x m in (m, x, ABroadcast f, p)
  end.

Definition any_abs (f : AnyFuture) : MpiFuture :=
  match f with
  | AnAllreduce f => mkFut (MPI_Iallreduce 1 (ar_buf f) (as_i32 (ar_len f)) dt (ar_op f)) (ar_state f)
  | AScatter f =>
      mkFut (MPI_Iscatter (sc_send_ptr f) (sc_send_count f) dt (sc_recv_ptr f) (sc_recv_count f) dt (sc_root f)) (sc_state f)
  | AnAllgather f =>
      mkFut (MPI_Iallgather (ag_send_ptr f) (ag_send_count f) dt (ag_recv_ptr f) (ag_recv_count f) dt) (ag_state f)
  | ABroadcast f => mkFut (MPI_Ibcast (bc_buf_ptr f) (bc_count f) dt (bc_root f)) (bc_state f)
  end.

(** What the communicator's methods build; an error ends the async block. *)
Inductive Builds : AnyFuture -> Prop :=
| b_allreduce buf op : Builds (AnAllreduce (Allreduce_new buf op))
| b_scatter send recv root rank size f : Scatter_new send recv root rank size = ROk f -> Builds (AScatter f)
| b_allgather send recv size f : Allgather_new send recv size = ROk f -> Builds (AnAllgather f)
| b_broadcast buf root : Builds (ABroadcast (Broadcast_new buf root)).

(** A thread with such futures, as [mpi_step] has it. *)
Definition FutWorld : Type := (M * MpiReactor * gmap nat AnyFuture)%type.
Definition world_abs (w : FutWorld) : MpiWorld := let '(m, x, fs) := w in (m, x, any_abs <$> fs).

Inductive fut_step (debug : bool) : FutWorld -> list Waker -> FutWorld -> Prop :=
| fs_progress m m' x fs : mpi_progress m m' -> fut_step debug (m, x, fs) [] (m', x, fs)
| fs_reactor m x fs m' x' ws : mpi_poll debug x m = Ok (m', x', ws) -> fut_step debug (m, x, fs) ws (m', x', fs)
| fs_new m x fs j f : fs !! j = None -> Builds f -> fut_step debug (m, x, fs) [] (m, x, <[j := f]> fs)
| fs_poll m x fs j k f m' x' f' p : fs !! j = Some f -> any_poll k f x m = (m', x', f', p) ->
    fut_step debug (m, x, fs) [] (m', x', <[j := f']> fs)
| fs_drop m x fs j : fut_step debug (m, x, fs) [] (m, x, delete j fs).

Inductive fut_run (debug : bool) : FutWorld -> list Waker -> FutWorld -> Prop :=
| fr_refl w : fut_run debug w [] w
| fr_step w ws w1 ws' w' : fut_step debug w ws w1 -> fut_run debug w1 ws' w' -> fut_run debug w (ws ++ ws') w'.

(** * Facts *)

#[local] Ltac poll_cases := repeat (case_match; cbn in *; simplify_eq/=; try congruence).

(** A poll of one of the structs is the poll of what it is in [Mpi]. *)
Lemma any_poll_abs k f x m :
  (let '(m', x', f', p) := any_poll k f x m in (m', x', any_abs f', p)) = MpiFuture_poll k (any_abs f) x m.
Proof.
  destruct f as [f|f|f|f]; unfold any_poll, MpiFuture_poll; cbn [any_abs fcall fstate];
    [unfold Allreduce_poll|unfold Scatter_poll|unfold Allgather_poll|unfold Broadcast_poll]; cbv zeta; poll_cases.
Qed.

Lemma builds_not_started f : Builds f -> fstate (any_abs f) = NotStarted.
Proof.
  intros [buf op|send recv root rank size f' Hf|send recv size f' Hf|buf root]; try done.
  - unfold Scatter_new in Hf. repeat case_match; simplify_eq/=; done.
  - unfold Allgather_new in Hf. case_match; simplify_eq/=; done.
Qed.

(** The constructors build what [Mpi] has for them, errors included. *)
Lemma news_abs buf op send sendo recv root rank size :
  any_abs (AnAllreduce (Allreduce_new buf op)) = AllreduceFuture_new dt buf op /\
  (match Scatter_new sendo recv root rank size with ROk f => ROk (any_abs (AScatter f)) | RErr e => RErr e end)
    = ScatterFuture_new dt sendo recv root rank size /\
  (match Allgather_new send recv size with ROk f => ROk (any_abs (AnAllgather f)) | RErr e => RErr e end)
    = AllgatherFuture_new dt send recv size /\
  any_abs (ABroadcast (Broadcast_new buf root)) = BroadcastFuture_new dt buf root.
Proof.
  unfold Scatter_new, ScatterFuture_new, Allgather_new, AllgatherFuture_new. split_and!; try done; repeat case_match; by simplify_eq/=.
Qed.

Lemma fut_step_refines debug w ws w' : fut_step debug w ws w' -> mpi_step debug (world_abs w) ws (world_abs w').
Proof.
  intros [m m' x fs Hp|m x fs m' x' ws' Hp|m x fs j f Hj Hb|m x fs j k f m' x' f' p Hj Hp|m x fs j]; cbn.
  - by constructor.
  - by constructor.
  - rewrite fmap_insert. assert (Hs := builds_not_started f Hb). destruct (any_abs f) as [c s]. cbn in Hs. subst s.
    constructor. by rewrite lookup_fmap, Hj.
  - rewrite fmap_insert. assert (Ha := any_poll_abs k f x m). rewrite Hp in Ha. eapply ms_poll; [|by symmetry].
    by rewrite lookup_fmap, Hj.
  - rewrite fmap_delete. constructor.
Qed.

(** Every run of a thread with the four structs is a run of [Mpi], with the same wake-ups:
    what is proved of the one record holds of each struct. *)
Lemma fut_run_refines debug w ws w' : fut_run debug w ws w' -> mpi_run debug (world_abs w) ws (world_abs w').
Proof.
  induction 1 as [w|w ws w1 ws' w' Hs _ IH]; [constructor|]. econstructor; [by apply fut_step_refines|done].
Qed.
End polls.

(** ** [coll_mpi_example.rs] *)

(** The buffers of the program at a rank; [scatter_send] is given at the root only. *)
Definition PER_RANK : nat := 1024.
Definition ROOT : nat := 0.
Definition example_send_len (size : nat) : nat := length (concat (map (fun _ => replicate PER_RANK tt) (seq 0 size))).
Definition mpi_example_allreduce (buf : Z) : AllreduceFuture := Allreduce_new (mkSlice buf PER_RANK) MPI_SUM.
Definition mpi_example_scatter (rank size : nat) (send recv : Z) : result ScatterFuture CollectiveError :=
  Scatter_new (if rank =? ROOT then Some (mkSlice send (example_send_len size)) else None) (mkSlice recv PER_RANK) ROOT rank size.

(** At every rank both futures are built, so the only errors the program's [unwrap]s can
    meet are codes of MPI; the counts agree with the buffers, and every rank names the
    same root. *)
Lemma mpi_example_built rank size send recv : exists f, mpi_example_scatter rank size send recv = ROk f /\
  sc_recv_count f = 1024%Z /\ sc_root f = 0%Z /\
  (rank = ROOT -> sc_send_ptr f = send /\ (sc_send_count f * Z.of_nat size = Z.of_nat (example_send_len size))%Z) /\
  (rank <> ROOT -> sc_send_ptr f = null /\ sc_send_count f = 0%Z).
Proof.
  assert (Hl : example_send_len size = PER_RANK * size).
  { unfold example_send_len. generalize 0. induction size as [|n IH]; intros s; [by rewrite Nat.mul_0_r|].
    cbn [seq map concat]. rewrite length_app, length_replicate, IH. lia. }
  unfold mpi_example_scatter, Scatter_new. destruct (Nat.eqb_spec rank ROOT) as [->|Hr]; cbn [sl_len sl_ptr].
  - rewrite Hl, Nat.eqb_refl. eexists. split_and!; try done. intros _. split; [done|]. cbn [sc_send_count].
    change (as_i32 PER_RANK) with 1024%Z. unfold PER_RANK. lia.
  - eexists. by split_and!.
Qed.
