(* ===== verification/MpiWait.v ===== *)
(** * MpiWait: the runtime and the MPI reactor together
    ([pluvio_runtime/src/executor/mod.rs], [pluvio_collective/src/mpi_backend])

    [block_on] of an MPI collective on a runtime whose only reactor is the one of
    [mpi_backend].  That reactor reports [Running] while a request is pending, so the
    runtime keeps testing it.  What is asked of the MPI library, besides the laws of
    [MpiLib], is the record [Prompt]. *)

From S2P Require Import Prelude Spsc Future Slab Task Executor ExecutorFacts Await CollBase Mpi.

Record MpiEnv (M : Type) : Type := mkMpiEnv { mlib : M; mreactor : MpiReactor; mreads : nat }.
Arguments mkMpiEnv {M} _ _ _.
Arguments mlib {M} _.
Arguments mreactor {M} _.
Arguments mreads {M} _.

Section mpi.
Context {M : Type} `{MpiLib M} (now : nat -> Z) (debug : bool).
Implicit Types (e : MpiEnv M) (k : Waker) (f : MpiAsync).

Definition mpi_clock e : MpiEnv M * Z := (mkMpiEnv (mlib e) (mreactor e) (S (mreads e)), now (mreads e)).

(** [impl Reactor for MpiReactor]. *)
Definition mpi_dyn : DynReactor (MpiEnv M) := {|
  dyn_poll e := '(m, x, ks) ← mpi_poll debug (mreactor e) (mlib e); mret (mkMpiEnv m x (mreads e), ks);
  dyn_status e := (e, mpi_status (mreactor e))
|}.

(** A dropped future leaves its request with the reactor. *)
Definition mpi_client : Client (result unit CollectiveError) MpiAsync (MpiEnv M) := {|
  cpoll k f e := let '(m, x, f, p) := MpiAsync_poll k f (mreactor e) (mlib e) in Ok (mkMpiEnv m x (mreads e), f, p);
  cdrop _ e := e;
  cclock := mpi_clock;
  creactor := mpi_dyn
|}.

(** ** The library *)

(** One of the next [n] tests of [r] reports it complete. *)
Fixpoint completes_within (n : nat) (r : Z) (m : M) : bool :=
  match n with
  | O => false
  | S n => let '(m, _, flag) := MPI_Test r m in (flag : bool) || completes_within n r m
  end.

(** A call that is accepted with no other in flight completes within [N] tests. *)
Definition Prompt (c : MpiCall) (N : nat) : Prop := forall m m' r,
  inflight m = ∅ -> start c m = (m', MPI_SUCCESS, r) -> completes_within N r m' = true.

(** ** The states of the reactor *)

(** Nothing is pending. *)
Definition Calm e : Prop := MpiWf (mreactor e) (mlib e) /\ pending (mreactor e) = [] /\ inflight (mlib e) = ∅.

(** The request of [f] is the pending one, for at most [n] more tests. *)
Definition Requested (n : nat) k f e : Prop := exists c r s,
  f = Built (mkFut c (InFlight s)) /\ MpiWf (mreactor e) (mlib e) /\ pending (mreactor e) = [mkReq r k s] /\
  inflight (mlib e) = {[r]} /\ completes_within n r (mlib e) = true.

(** The request of [f] was retired. *)
Definition Retired f e : Prop := exists c s, f = Built (mkFut c (InFlight s)) /\ Calm e /\ Landed s (mreactor e).

Lemma calm_poll e : Calm e -> dyn_poll mpi_dyn e = Ok (e, []).
Proof. intros (_ & Hp & _). cbn. unfold mpi_poll. rewrite Hp. cbn [length mpi_poll_loop]. by destruct e. Qed.

Lemma requested_status n k f e : Requested n k f e -> mpi_status (mreactor e) = Running.
Proof. intros (c & r & s & _ & HW & Hp & _). unfold mpi_status. by rewrite (mw_active _ _ HW), Hp. Qed.

Lemma requested_poll n k f e : Requested n k f e ->
  (exists e' n', dyn_poll mpi_dyn e = Ok (e', []) /\ Requested n' k f e' /\ n' < n) \/
  (exists e', dyn_poll mpi_dyn e = Ok (e', [k]) /\ Retired f e').
Proof.
  intros (c & r & s & -> & HW & Hp & Hi & Hc). destruct n as [|n]; [done|]. cbn [completes_within] in Hc.
  destruct (mpi_poll_scan debug _ _ HW) as (m' & x' & kept & comp & Hpo & HS). assert (Hl := Hpo).
  assert (Hin : r ∈ inflight (mlib e)) by (rewrite Hi; by apply elem_of_singleton).
  cbn [mpi_dyn dyn_poll]. rewrite Hpo. cbn. unfold mpi_poll in Hl. rewrite Hp in Hl. cbn [length mpi_poll_loop] in Hl.
  rewrite Hp in Hl. cbn [lookup list_lookup req] in Hl. destruct (MPI_Test r (mlib e)) as [[m1 rc] flag] eqn:Ht.
  destruct (test_law _ _ _ _ _ Ht Hin) as (-> & Hi1 & _ & _). rewrite Z.eqb_refl, andb_false_r in Hl.
  cbn [mbind outcome_bind mret outcome_ret] in Hl. destruct flag.
  - right. cbn in Hl. rewrite (mw_active _ _ HW), Hp in Hl. cbn in Hl. injection Hl as <- <- Hk.
    rewrite <- Hk. eexists. split; [done|]. exists c, s. split; [done|]. split.
    + split; [exact (sc_wf _ _ _ _ _ _ _ HS)|]. split; [done|]. cbn. rewrite Hi1, Hi. set_solver.
    + unfold Landed. cbn. apply list_lookup_insert_eq. eapply lookup_lt_Some. apply (mw_open _ _ HW (mkReq r k s)).
      rewrite Hp. by left.
  - left. cbn in Hl, Hc. injection Hl as <- <- Hk. rewrite <- Hk. eexists _, n. split; [done|]. split; [|lia].
    exists c, r, s. split; [done|]. split; [exact (sc_wf _ _ _ _ _ _ _ HS)|]. split; [done|]. cbn. by rewrite Hi1.
Qed.

(** ** The polls of the future *)

(** A future of the communicator before its first poll. *)
Definition Fresh f (N : nat) : Prop :=
  (exists c, (f = Built (mkFut c NotStarted) \/ f = Unbuilt (ROk (mkFut c NotStarted))) /\ Prompt c N) \/
  exists err, f = Unbuilt (RErr err).

(** What it may resolve to: success, a code of the library, or the error of its shape. *)
Definition Allowed f (v : result unit CollectiveError) : Prop :=
  v = ROk tt \/ (exists rc, rc <> MPI_SUCCESS /\ v = RErr (Mpi rc)) \/ exists err, f = Unbuilt (RErr err) /\ v = RErr err.

Lemma fresh_poll N k f e : Fresh f N -> Calm e ->
  (exists e' f' v, cpoll mpi_client k f e = Ok (e', f', Ready v) /\ Calm e' /\ Allowed f v) \/
  (exists e' f', cpoll mpi_client k f e = Ok (e', f', Pending) /\ Requested N k f' e').
Proof.
  intros [(c & Hf & HP)|(err & ->)] (HW & Hp & Hi); cycle 1.
  { left. cbn. eexists _, _, _. split; [done|]. split; [done|]. right. right. by exists err. }
  assert (Hpoll : cpoll mpi_client k f e = let '(m, x, f, p) := MpiFuture_poll k (mkFut c NotStarted) (mreactor e) (mlib e) in
    Ok (mkMpiEnv m x (mreads e), Built f, p)).
  { cbn [cpoll mpi_client]. destruct Hf as [-> | ->]; cbn [MpiAsync_poll]; by destruct (MpiFuture_poll _ _ _ _) as [[[]]]. }
  rewrite Hpoll. destruct (MpiFuture_poll _ _ _ _) as [[[m' x'] f'] p] eqn:Hpo.
  assert (HW' := future_poll_wf _ _ _ _ _ _ _ _ HW Hpo). unfold MpiFuture_poll in Hpo. cbn [fstate fcall] in Hpo.
  destruct (start c (mlib e)) as [[m1 rc] r] eqn:Hs. destruct (start_law _ _ _ _ _ Hs) as [Hsl _].
  destruct (Z.eqb_spec rc MPI_SUCCESS) as [->|Hne]; cbn [negb] in Hpo.
  - destruct Hsl as [_ Hi1]. right. rewrite Hi in Hi1. unfold register in Hpo. injection Hpo as <- <- <- <-.
    eexists _, _. split; [done|]. eexists c, r, _. split; [done|]. split; [exact HW'|]. cbn. rewrite Hp. destruct k. split; [done|].
    split; [rewrite Hi1; set_solver|]. by eapply HP.
  - left. injection Hpo as <- <- <- <-. rewrite decide_False in Hsl by done. eexists _, _, _. split; [done|].
    split; [split; [exact HW'|]; split; [done|cbn; by rewrite Hsl]|]. right. left. by exists rc.
Qed.

(** ** The promise *)

Context (f0 : MpiAsync) (N0 : nat) (Hfresh : Fresh f0 N0).

#[local] Program Instance mpi_served : Served mpi_client f0 := {
  looks := 0;
  Begin N e := N = N0 /\ Calm e;
  Waiting n _ k f e := Requested n k f e;
  Due f e := Retired f e;
  Finished v e := Calm e /\ Allowed f0 v
}.
Next Obligation. done. Qed.
Next Obligation. done. Qed.
Next Obligation. done. Qed.
Next Obligation. done. Qed.
Next Obligation. done. Qed.
Next Obligation. intros N e [-> HC]. exists e. split; [by apply calm_poll|done]. Qed.
Next Obligation.
  intros N k e [-> HC]. destruct (fresh_poll N0 k f0 e Hfresh HC) as [(e' & f' & v & ?)|(e' & f' & Hp & HR)].
  - left. by exists e', f', v.
  - right. by exists e', f', N0, 0.
Qed.
Next Obligation. intros n l k f e HR. left. exists e. split; [|done]. cbn. by rewrite (requested_status _ _ _ _ HR). Qed.
Next Obligation.
  intros n l k f e HR. destruct (requested_poll n k f e HR) as [(e' & n' & Hp & HR' & Hn)|(e' & Hp & Hd)].
  - left. by exists e', n', 0.
  - right. by exists e'.
Qed.
Next Obligation.
  intros k f e (c & s & -> & HC & HL). eexists e, _, (ROk tt). split; [|split; [done|by left]]. cbn.
  unfold MpiFuture_poll. cbn [fstate]. unfold Landed in HL. rewrite HL. by destruct e.
Qed.

(** ** The call *)

Context (genv : string -> option string).
Context (ho : forall X : Type, list (string * X) -> list (string * X)).
Context (ho_perm : forall X (l : list (string * X)), ho X l ≡ₚ l).
Context {C SL : Type} `{FifoChan C} `{Slab (option (Task (TaskFuture MpiAsync))) SL}.
Context (cfg : SchedulingConfig) (name : string) (Hcfg : ConfigOk (C := C) cfg).
#[local] Instance mpi_program : Program (result unit CollectiveError) MpiAsync (MpiEnv M) :=
  client_program mpi_client (ROk tt) genv ho ho_perm.
Implicit Types (w : World (result unit CollectiveError) (MpiEnv M) C SL).

(** C24. An MPI collective ends.  On a runtime with the MPI reactor as its only one and
    nothing pending, [block_on] of a future of the communicator returns, when the library
    reports an accepted call complete within [N0] tests: with success, with the library's
    code when the call was refused, or with the error of a wrong shape, which only a
    future that was refused its shape returns.  Nothing is pending or in flight afterwards. *)
Theorem block_on_mpi nm x fuel w :
  Idle mpi_client cfg name Calm x w -> (Z.of_nat (patience cfg) < max_stuck_iterations)%Z ->
  S N0 * S (patience cfg) < fuel -> (0 <= iteration_count (rt w))%Z ->
  (iteration_count (rt w) + Z.of_nat (S N0 * S (patience cfg)) < u64_max)%Z ->
  exists w' x' v, block_on_with_name_and_runtime fuel nm f0 w = Ok (w', Some v) /\
    Allowed f0 v /\ Idle mpi_client cfg name Calm x' w'.
Proof.
  intros [I1 I2 I3 I4] Hstuck Hf Hi Hit.
  destruct (block_on_returns mpi_client (ROk tt) genv ho ho_perm cfg name f0 Hcfg nm x fuel N0 w)
    as (w' & x' & v & Hb & [J1 J2 J3 [J4 Hv]]); try done; cbn [looks mpi_served]; unfold passes; cbn [looks mpi_served];
    rewrite ?Nat.mul_1_l, ?Nat.mul_1_r; try done; [rewrite Nat2Z.inj_succ; by apply Zlt_le_succ|].
  by exists w', x', v.
Qed.
End mpi.

(** ** Witness *)

Lemma count_prompt c : Prompt (M := CountMpi) c 2.
Proof.
  intros [n g] m' r Hi Hs. cbn in Hi, Hs. apply dom_empty_inv_L in Hi as ->. rewrite dom_empty_L, decide_False in Hs by set_solver.
  injection Hs as <- <-. cbn. rewrite lookup_insert_eq. cbn. by rewrite lookup_insert_eq.
Qed.

Lemma block_on_mpi_witness :
  let ho := fun X (l : list (string * X)) => l in
  let perm := fun X (l : list (string * X)) => Permutation_refl l in
  exists (w w' : World (result unit CollectiveError) (MpiEnv CountMpi) (Inner nat) (gmap nat (option (Task (TaskFuture MpiAsync))))) v,
    fresh_world (mpi_client Z.of_nat true) (ROk tt) (fun _ => None) ho perm SchedulingConfig_default "mpi"
      (mkMpiEnv demo_mpi MpiReactor_new 0) = Ok w /\
    block_on_with_name_and_runtime (H := mpi_program Z.of_nat true (fun _ => None) ho perm) 328 "allreduce" (Built demo_call) w =
      Ok (w', Some v) /\ Allowed (Built demo_call) v.
Proof.
  intros ho perm.
  destruct (fresh_idle (C := Inner nat) (SL := gmap nat (option (Task (TaskFuture MpiAsync)))) (mpi_client Z.of_nat true)
    (ROk tt) (fun _ => None) ho perm SchedulingConfig_default "mpi" default_config_ok Calm
    (mkMpiEnv demo_mpi MpiReactor_new 0)) as (w & x & Hw & HI & Hi).
  { split; [apply mpi_wf_new|]. by split. }
  exists w. destruct (block_on_mpi (M := CountMpi) Z.of_nat true (Built demo_call) 2
    (or_introl (ex_intro _ (fcall demo_call) (conj (or_introl eq_refl) (count_prompt _)))) (fun _ => None) ho perm
    SchedulingConfig_default "mpi" default_config_ok "allreduce" x 328 w HI) as (w' & x' & v & Hb & Hv & _).
  - by vm_compute.
  - apply Nat.ltb_lt. by vm_compute.
  - by rewrite Hi.
  - rewrite Hi. by vm_compute.
  - by exists w', v.
Defined.
