(* ===== verification/Service.v ===== *)
(** * Service: what several reactors promise to several tasks

    [Await] is about one future and its reactor.  Here any number of tasks run async
    functions that await one operation after another, of any number of reactors that
    share the thread and its clock.  A [Service] is the operations with their reactors, and
    [Serves] is what it promises: an operation that was polled is woken once and then
    resolves, and while one waits some reactor reports [Running] in bounded time and
    makes progress when it is polled.  [Service_sum] puts two services side by side, so
    that the promise is shown of each reactor alone.  [ServiceRun] is the runtime's side. *)

From S2P Require Import Prelude Future Task Executor.
Local Open Scope nat_scope.

(** ** Services *)

(** Environments are a state and the number of times the clock was read. *)
Record Service (A F X : Type) : Type := mkService {
  spoll : Waker -> F -> X * nat -> outcome (X * nat * F * Poll A);
  sdrop : F -> X * nat -> X * nat;
  sreactors : list (string * DynReactor (X * nat))
}.
Arguments mkService {A F X} _ _ _.
Arguments spoll {A F X} _ _ _ _.
Arguments sdrop {A F X} _ _ _.
Arguments sreactors {A F X} _.

(** An operation that was started: as it is now, as it was, and whether it was woken. *)
Record Leaf (F : Type) : Type := mkLeaf { lcur : F; lorig : F; lwoken : bool }.
Arguments mkLeaf {F} _ _ _.
Arguments lcur {F} _.
Arguments lorig {F} _.
Arguments lwoken {F} _.

(** The operations in progress, by the task that awaits them. *)
Abbreviation Leaves F := (gmap nat (Leaf F)).

Definition wake_leaf {F} (l : Leaf F) : Leaf F := mkLeaf (lcur l) (lorig l) true.
Definition wake_leaves {F} (ids : list nat) (m : Leaves F) : Leaves F :=
  map_imap (fun id l => Some (if decide (id ∈ ids) then wake_leaf l else l)) m.

Lemma wake_leaves_lookup {F} ids (m : Leaves F) id :
  wake_leaves ids m !! id = (fun l => if decide (id ∈ ids) then wake_leaf l else l) <$> m !! id.
Proof. unfold wake_leaves. rewrite map_lookup_imap. by destruct (m !! id). Qed.

Lemma wake_leaves_nil {F} (m : Leaves F) : wake_leaves [] m = m.
Proof.
  apply map_eq. intros id. rewrite wake_leaves_lookup. destruct (m !! id) as [l|]; [|done]. cbn.
  rewrite decide_False; [done|apply not_elem_of_nil].
Qed.

Abbreviation task_waker := (new_waker TaskQueue).

(** [SvInv s n m e]: [s] more operations may be started, those in progress are [m], and
    all of them are woken after reactor polls that make progress [n] times.  [Owes nm l e]: the reactor
    [nm] has something to do, and may report [Stopped] [l] times before it does it. *)
Class Serves {A F X} (sv : Service A F X) := {
  sv_cost : nat;
  sv_looks : nat;
  sv_room : Z;
  Askable : F -> Prop;
  Replies : F -> A -> Prop;
  SvInv : nat -> nat -> Leaves F -> X * nat -> Prop;
  Owes : string -> nat -> X * nat -> Prop;
  sv_weaken s s' n m e : s' <= s -> SvInv s n m e -> SvInv s' n m e;
  sv_later s n m x t t' : t <= t' -> SvInv s n m (x, t) -> SvInv s n m (x, t');
  owes_later nm l x t t' : t <= t' -> Owes nm l (x, t) -> Owes nm l (x, t');
  sv_owes s n m e id l : SvInv s n m e -> m !! id = Some l -> lwoken l = false ->
    exists nm g, nm ∈ (sreactors sv).*1 /\ g <= sv_looks /\ Owes nm g e;
  sv_start s n m e id f : SvInv (S s) n m e -> m !! id = None -> Askable f -> (Z.of_nat (size m) < sv_room)%Z ->
    exists e' f' p, spoll sv (task_waker id) f e = Ok (e', f', p) /\ e.2 <= e'.2 /\
    match p with
    | Ready a => Replies f a /\ SvInv s n m (sdrop sv f' e') /\ e'.2 <= (sdrop sv f' e').2
    | Pending => exists n', n' <= n + sv_cost /\ SvInv s n' (<[id := mkLeaf f' f false]> m) e'
    end;
  sv_due s n m e id l : SvInv s n m e -> m !! id = Some l -> lwoken l = true ->
    exists e' f' a, spoll sv (task_waker id) (lcur l) e = Ok (e', f', Ready a) /\ e.2 <= e'.2 /\
    Replies (lorig l) a /\ SvInv s n (delete id m) (sdrop sv f' e') /\ e'.2 <= (sdrop sv f' e').2;
  sv_status s n m e nm r : SvInv s n m e -> (nm, r) ∈ sreactors sv ->
    exists e' st, dyn_status r e = (e', st) /\ e.2 <= e'.2 /\ SvInv s n m e' /\
    forall nm' l, Owes nm' l e -> exists l', l' <= l /\ Owes nm' l' e' /\ (nm' = nm -> st = Stopped -> l' < l);
  sv_poll s n m e nm r : SvInv s n m e -> (nm, r) ∈ sreactors sv ->
    exists e' ids n', dyn_poll r e = Ok (e', map task_waker ids) /\ e.2 <= e'.2 /\ NoDup ids /\
    (forall id, id ∈ ids -> exists l, m !! id = Some l /\ lwoken l = false) /\
    n' <= n /\ SvInv s n' (wake_leaves ids m) e' /\
    (ids <> [] \/ n' < n \/ forall nm' l, Owes nm' l e -> nm' <> nm /\ Owes nm' l e')
}.

(** ** Async functions *)

(** The body of an async function: return, or await an operation and go on. *)
Inductive Async (A F V : Type) : Type :=
| Return (v : V)
| AwaitThen (f : F) (k : A -> Async A F V).
Arguments Return {A F V} v.
Arguments AwaitThen {A F V} f k.

Section async.
Context {A F X V : Type} (sv : Service A F X).
Implicit Types (p : Async A F V) (e : X * nat) (m : Leaves F).

(** A poll goes on until an operation is pending; one that resolved is dropped. *)
Fixpoint async_poll (w : Waker) p e : outcome (X * nat * Async A F V * Poll V) :=
  match p with
  | Return v => mret (e, p, Ready v)
  | AwaitThen f k =>
      '(e, f, r) ← spoll sv w f e;
      match r with
      | Pending => mret (e, AwaitThen f k, Pending)
      | Ready a => async_poll w (k a) (sdrop sv f e)
      end
  end.

Definition async_drop p e : X * nat :=
  match p with Return _ => e | AwaitThen f _ => sdrop sv f e end.

Context `{HS : !Serves sv}.

(** What the function may return. *)
Inductive Returns : Async A F V -> V -> Prop :=
| returns_now v : Returns (Return v) v
| returns_later f k a v : Replies f a -> Returns (k a) v -> Returns (AwaitThen f k) v.

(** It awaits at most [j] operations, each of which may be asked for. *)
Fixpoint awaits_le (j : nat) p : Prop :=
  match p with
  | Return _ => True
  | AwaitThen f k => match j with O => False | S j => Askable f /\ forall a, Replies f a -> awaits_le j (k a) end
  end.

(** What a poll of a function of [j] more operations comes to: it returned, or it waits
    for an operation [f] and will then start [j'] more. *)
Definition advanced (s n j : nat) m id p e' p' (r : Poll V) : Prop :=
  match r with
  | Ready v => Returns p v /\ p' = Return v /\ SvInv (s - j) n m e'
  | Pending => exists f f' k j' n', p' = AwaitThen f' k /\ j' < j /\ n' <= n + sv_cost /\
      (forall a, Replies f a -> awaits_le j' (k a)) /\
      (forall a v, Replies f a -> Returns (k a) v -> Returns p v) /\
      SvInv (s - j + j') n' (<[id := mkLeaf f' f false]> m) e'
  end.

(** A poll of a function none of whose operations was started. *)
Lemma async_poll_fresh id p : forall j s n m e,
  awaits_le j p -> SvInv s n m e -> j <= s -> m !! id = None -> (Z.of_nat (size m) < sv_room)%Z ->
  exists e' p' r, async_poll (task_waker id) p e = Ok (e', p', r) /\ e.2 <= e'.2 /\ advanced s n j m id p e' p' r.
Proof.
  induction p as [v|f k IH]; intros j s n m e Hj HI Hs Hm Hr; cbn [async_poll].
  { eexists _, _, _. split; [done|]. split; [done|]. split; [constructor|]. split; [done|].
    eapply sv_weaken, HI. lia. }
  cbn [awaits_le] in Hj. destruct j as [|j]; [done|]. destruct Hj as [Hf Hk], s as [|s]; [lia|].
  destruct (sv_start s n m e id f) as (e1 & f1 & r & Hp & Ht & Hres); [done..|]. rewrite Hp. cbn [mbind outcome_bind].
  destruct r as [a|].
  - destruct Hres as (Ha & HI1 & Ht1).
    destruct (IH a j s n m (sdrop sv f1 e1)) as (e2 & p2 & r & Hp2 & Ht2 & Hadv); [by apply Hk|done|lia|done..|].
    exists e2, p2, r. split; [done|]. split; [lia|]. destruct r as [v|]; cbn [advanced] in *.
    + destruct Hadv as (Hv & -> & HI2). split; [by econstructor|]. by split.
    + destruct Hadv as (f0 & f' & k' & j' & n' & -> & Hj' & Hn & Hk' & Hret & HI2).
      exists f0, f', k', j', n'. split; [done|]. split; [lia|]. split; [done|]. split; [done|].
      split; [intros; by eapply returns_later, Hret|done].
  - destruct Hres as (n' & Hn & HI1). eexists _, _, _. split; [done|]. split; [done|].
    exists f, f1, k, j, n'. split; [done|]. split; [lia|]. split; [done|]. split; [done|].
    split; [intros; by econstructor|]. by replace (S s - S j + j) with s by lia.
Qed.

(** A poll of a function whose operation was woken: it goes on as a new one. *)
Lemma async_poll_woken id f0 f k j s n m e :
  m !! id = Some (mkLeaf f f0 true) -> SvInv s n m e -> j <= s -> (Z.of_nat (size m) <= sv_room)%Z ->
  (forall a, Replies f0 a -> awaits_le j (k a)) ->
  exists a e' p' r, Replies f0 a /\ async_poll (task_waker id) (AwaitThen f k) e = Ok (e', p', r) /\ e.2 <= e'.2 /\
    advanced s n j (delete id m) id (k a) e' p' r.
Proof.
  intros Hm HI Hs Hr Hk. destruct (sv_due s n m e id _ HI Hm eq_refl) as (e1 & f1 & a & Hp & Ht & Ha & HI1 & Ht1).
  cbn [lcur lorig] in *. cbn [async_poll]. rewrite Hp. cbn [mbind outcome_bind].
  assert (Hsz : size m = S (size (delete id m))) by by eapply map_size_delete_S.
  destruct (async_poll_fresh id (k a) j s n (delete id m) (sdrop sv f1 e1)) as (e2 & p2 & r & Hp2 & Ht2 & Hadv);
    [by apply Hk|done..|by rewrite lookup_delete_eq|lia|].
  exists a, e2, p2, r. split; [done|]. split; [done|]. split; [lia|done].
Qed.
End async.

(** ** Two services side by side *)

(** The leaves whose operations [g] takes to those of one side. *)
Definition side_leaf {F G} (g : F -> option G) (l : Leaf F) : option (Leaf G) :=
  match g (lcur l), g (lorig l) with Some f, Some f0 => Some (mkLeaf f f0 (lwoken l)) | _, _ => None end.
Definition side_leaves {F G} (g : F -> option G) (m : Leaves F) : Leaves G := omap (side_leaf g) m.

Section sides.
Context {F G : Type} (g : F -> option G).
Implicit Types (m : Leaves F) (l : Leaf F).

Lemma side_lookup m id : side_leaves g m !! id = m !! id ≫= side_leaf g.
Proof. unfold side_leaves. apply lookup_omap. Qed.

Lemma side_empty : side_leaves g ∅ = ∅.
Proof. unfold side_leaves. apply omap_empty. Qed.

Lemma side_insert_Some m (id : nat) l (l' : Leaf G) : side_leaf g l = Some l' -> side_leaves g (<[id := l]> m) = <[id := l']> (side_leaves g m).
Proof. unfold side_leaves. apply omap_insert_Some. Qed.

Lemma side_insert_None m (id : nat) l : side_leaf g l = None -> m !! id = None -> side_leaves g (<[id := l]> m) = side_leaves g m.
Proof.
  intros Hl Hm. unfold side_leaves. rewrite omap_insert_None by done. apply delete_id.
  by rewrite lookup_omap, Hm.
Qed.

Lemma side_delete m id : side_leaves g (delete id m) = delete id (side_leaves g m).
Proof. unfold side_leaves. apply omap_delete. Qed.

Lemma side_delete_other m id l : m !! id = Some l -> side_leaf g l = None -> side_leaves g (delete id m) = side_leaves g m.
Proof. intros Hm Hl. rewrite side_delete. apply delete_id. by rewrite side_lookup, Hm. Qed.

Lemma side_wake_leaf l : side_leaf g (wake_leaf l) = wake_leaf <$> side_leaf g l.
Proof. unfold side_leaf, wake_leaf. cbn. by destruct (g (lcur l)), (g (lorig l)). Qed.

Lemma side_wake ids m : side_leaves g (wake_leaves ids m) = wake_leaves ids (side_leaves g m).
Proof.
  apply map_eq. intros id. rewrite wake_leaves_lookup, !side_lookup, wake_leaves_lookup. destruct (m !! id) as [l|]; [|done].
  cbn. case_decide; [apply side_wake_leaf|by destruct (side_leaf g l)].
Qed.
End sides.

Lemma wake_others {F} ids (m : Leaves F) : (forall id, id ∈ ids -> m !! id = None) -> wake_leaves ids m = m.
Proof.
  intros Hn. apply map_eq. intros id. rewrite wake_leaves_lookup. destruct (m !! id) as [l|] eqn:Hm; [|done]. cbn.
  rewrite decide_False; [done|]. intros Hin. by rewrite (Hn id Hin) in Hm.
Qed.

Definition map_poll {A B} (g : A -> B) (p : Poll A) : Poll B :=
  match p with Ready a => Ready (g a) | Pending => Pending end.

Section sum.
Context {A1 F1 X1 A2 F2 X2 : Type} (s1 : Service A1 F1 X1) (s2 : Service A2 F2 X2).
Abbreviation E := (X1 * X2 * nat)%type.
Implicit Types (e : E) (m : Leaves (F1 + F2)).

(** Both have their own state; the clock is shared. *)
Definition in_left e : X1 * nat := (e.1.1, e.2).
Definition in_right e : X2 * nat := (e.1.2, e.2).
Definition put_left (e1 : X1 * nat) e : E := ((e1.1, e.1.2), e1.2).
Definition put_right (e2 : X2 * nat) e : E := ((e.1.1, e2.1), e2.2).

Definition left_of (f : F1 + F2) : option F1 := match f with inl f => Some f | inr _ => None end.
Definition right_of (f : F1 + F2) : option F2 := match f with inl _ => None | inr f => Some f end.

Definition sum_poll (k : Waker) (f : F1 + F2) e : outcome (E * (F1 + F2) * Poll (A1 + A2)) :=
  match f with
  | inl f => '(e1, f, p) ← spoll s1 k f (in_left e); mret (put_left e1 e, inl f, map_poll inl p)
  | inr f => '(e2, f, p) ← spoll s2 k f (in_right e); mret (put_right e2 e, inr f, map_poll inr p)
  end.

Definition sum_drop (f : F1 + F2) e : E :=
  match f with
  | inl f => put_left (sdrop s1 f (in_left e)) e
  | inr f => put_right (sdrop s2 f (in_right e)) e
  end.

Definition lift_left (r : DynReactor (X1 * nat)) : DynReactor E := {|
  dyn_poll e := '(e1, ks) ← dyn_poll r (in_left e); mret (put_left e1 e, ks);
  dyn_status e := let (e1, st) := dyn_status r (in_left e) in (put_left e1 e, st)
|}.
Definition lift_right (r : DynReactor (X2 * nat)) : DynReactor E := {|
  dyn_poll e := '(e2, ks) ← dyn_poll r (in_right e); mret (put_right e2 e, ks);
  dyn_status e := let (e2, st) := dyn_status r (in_right e) in (put_right e2 e, st)
|}.

Definition Service_sum : Service (A1 + A2) (F1 + F2) (X1 * X2) :=
  mkService sum_poll sum_drop
    (map (fun y => (y.1, lift_left y.2)) (sreactors s1) ++ map (fun y => (y.1, lift_right y.2)) (sreactors s2)).

Context `{!Serves s1, !Serves s2} (Hnames : forall nm, nm ∈ (sreactors s1).*1 -> nm ∉ (sreactors s2).*1).

Lemma sum_names : (sreactors Service_sum).*1 = (sreactors s1).*1 ++ (sreactors s2).*1.
Proof. cbn [sreactors Service_sum]. rewrite fmap_app. f_equal; apply map_map. Qed.

(** Every operation belongs to one side, and each side's part of the state is right. *)
Record SumInv (s n : nat) m e : Prop := {
  su_sides id l : m !! id = Some l -> is_Some (side_leaf left_of l) \/ is_Some (side_leaf right_of l);
  su_parts : exists n1 n2, n1 + n2 = n /\ SvInv s n1 (side_leaves left_of m) (in_left e) /\
    SvInv s n2 (side_leaves right_of m) (in_right e)
}.

Definition sum_owes (nm : string) (l : nat) e : Prop :=
  nm ∈ (sreactors s1).*1 /\ Owes nm l (in_left e) \/ nm ∈ (sreactors s2).*1 /\ Owes nm l (in_right e).

Lemma one_side l l1 : side_leaf left_of l = Some l1 -> side_leaf right_of l = None.
Proof. unfold side_leaf, left_of, right_of. by destruct (lcur l), (lorig l). Qed.

Lemma other_side l l2 : side_leaf right_of l = Some l2 -> side_leaf left_of l = None.
Proof. unfold side_leaf, left_of, right_of. by destruct (lcur l), (lorig l). Qed.

Lemma left_not_right m id l1 : side_leaves left_of m !! id = Some l1 -> side_leaves right_of m !! id = None.
Proof.
  rewrite !side_lookup. destruct (m !! id) as [l|]; [|done]. cbn. apply one_side.
Qed.
Lemma right_not_left m id l2 : side_leaves right_of m !! id = Some l2 -> side_leaves left_of m !! id = None.
Proof.
  intros Hr. destruct (side_leaves left_of m !! id) as [l1|] eqn:Hl; [|done]. apply left_not_right in Hl. congruence.
Qed.

Lemma lookup_left m id l f f0 : m !! id = Some l -> lcur l = inl f -> lorig l = inl f0 ->
  side_leaves left_of m !! id = Some (mkLeaf f f0 (lwoken l)).
Proof. intros Hm Hc Ho. rewrite side_lookup, Hm. cbn. unfold side_leaf. by rewrite Hc, Ho. Qed.
Lemma lookup_right m id l f f0 : m !! id = Some l -> lcur l = inr f -> lorig l = inr f0 ->
  side_leaves right_of m !! id = Some (mkLeaf f f0 (lwoken l)).
Proof. intros Hm Hc Ho. rewrite side_lookup, Hm. cbn. unfold side_leaf. by rewrite Hc, Ho. Qed.

Lemma to_right n1 n2 s (m1 : Leaves F1) (m2 : Leaves F2) e (e1 : X1 * nat) : SvInv s n1 m1 e1 -> SvInv s n2 m2 (in_right e) -> e.2 <= e1.2 ->
  SvInv s n1 m1 (in_left (put_left e1 e)) /\ SvInv s n2 m2 (in_right (put_left e1 e)) /\
  (forall nm l, nm ∈ (sreactors s2).*1 /\ Owes nm l (in_right e) -> sum_owes nm l (put_left e1 e)).
Proof.
  destruct e1 as [x1 t1], e as [[x0 x2] t]. cbn. intros H1 H2 Ht. split; [done|]. split; [by eapply sv_later|].
  intros nm l [Hin Ho]. right. split; [done|]. cbn. by eapply owes_later.
Qed.
Lemma to_left n1 n2 s (m1 : Leaves F1) (m2 : Leaves F2) e (e2 : X2 * nat) : SvInv s n1 m1 (in_left e) -> SvInv s n2 m2 e2 -> e.2 <= e2.2 ->
  SvInv s n1 m1 (in_left (put_right e2 e)) /\ SvInv s n2 m2 (in_right (put_right e2 e)) /\
  (forall nm l, nm ∈ (sreactors s1).*1 /\ Owes nm l (in_left e) -> sum_owes nm l (put_right e2 e)).
Proof.
  destruct e2 as [x2 t2], e as [[x1 x0] t]. cbn. intros H1 H2 Ht. split; [by eapply sv_later|]. split; [done|].
  intros nm l [Hin Ho]. left. split; [done|]. cbn. by eapply owes_later.
Qed.

(** What may be asked for, and what may come back, on either side. *)
Definition sum_askable (f : F1 + F2) : Prop := match f with inl f => Askable f | inr f => Askable f end.
Definition sum_replies (f : F1 + F2) (a : A1 + A2) : Prop :=
  match f, a with inl f, inl a => Replies f a | inr f, inr a => Replies f a | _, _ => False end.

Lemma in_put_left e (e1 : X1 * nat) : in_left (put_left e1 e) = e1.
Proof. by destruct e1. Qed.
Lemma in_put_right e (e2 : X2 * nat) : in_right (put_right e2 e) = e2.
Proof. by destruct e2. Qed.

Lemma left_leaf l l' : side_leaf left_of l = Some l' ->
  lcur l = inl (lcur l') /\ lorig l = inl (lorig l') /\ lwoken l' = lwoken l.
Proof. unfold side_leaf, left_of. destruct (lcur l), (lorig l); intros [= <-]; done. Qed.
Lemma right_leaf l l' : side_leaf right_of l = Some l' ->
  lcur l = inr (lcur l') /\ lorig l = inr (lorig l') /\ lwoken l' = lwoken l.
Proof. unfold side_leaf, right_of. destruct (lcur l), (lorig l); intros [= <-]; done. Qed.

Lemma left_asleep m id : (exists l, side_leaves left_of m !! id = Some l /\ lwoken l = false) ->
  exists l, m !! id = Some l /\ lwoken l = false.
Proof.
  intros (l' & Hl & Hw). rewrite side_lookup in Hl. apply bind_Some in Hl as (l & Hm & Hl).
  exists l. split; [done|]. destruct (left_leaf l l' Hl) as (_ & _ & Hk). congruence.
Qed.
Lemma right_asleep m id : (exists l, side_leaves right_of m !! id = Some l /\ lwoken l = false) ->
  exists l, m !! id = Some l /\ lwoken l = false.
Proof.
  intros (l' & Hl & Hw). rewrite side_lookup in Hl. apply bind_Some in Hl as (l & Hm & Hl).
  exists l. split; [done|]. destruct (right_leaf l l' Hl) as (_ & _ & Hk). congruence.
Qed.

Lemma sum_sides_wake s n m e ids : SumInv s n m e ->
  forall i l, wake_leaves ids m !! i = Some l -> is_Some (side_leaf left_of l) \/ is_Some (side_leaf right_of l).
Proof.
  intros HI i l Hl. rewrite wake_leaves_lookup in Hl. apply fmap_Some in Hl as (l0 & Hm & ->).
  pose proof (su_sides _ _ _ _ HI i l0 Hm). case_decide; [|done]. by rewrite !side_wake_leaf, !fmap_is_Some.
Qed.

Lemma sum_sides_delete s n m e id : SumInv s n m e ->
  forall i l, delete id m !! i = Some l -> is_Some (side_leaf left_of l) \/ is_Some (side_leaf right_of l).
Proof. intros HI i l [_ Hl]%lookup_delete_Some. by eapply su_sides. Qed.

Lemma sum_due s n m e id l : SumInv s n m e -> m !! id = Some l -> lwoken l = true ->
  exists e' f' a, sum_poll (task_waker id) (lcur l) e = Ok (e', f', Ready a) /\ e.2 <= e'.2 /\
    sum_replies (lorig l) a /\ SumInv s n (delete id m) (sum_drop f' e') /\ e'.2 <= (sum_drop f' e').2.
Proof.
  intros HI Hm Hw. pose proof (sum_sides_delete s n m e id HI) as Hd.
  destruct HI as [Hs (n1 & n2 & Hn & H1 & H2)]. destruct (Hs id l Hm) as [[l' Hl]|[l' Hl]].
  - assert (Hm1 : side_leaves left_of m !! id = Some l') by by rewrite side_lookup, Hm.
    destruct (left_leaf l l' Hl) as (Hc & Ho & Hwk). rewrite Hc, Ho. cbn [sum_poll sum_replies].
    destruct (sv_due s n1 _ _ id l' H1 Hm1 ltac:(congruence)) as (e1 & f1 & a & Hp & Ht & Ha & HI1 & Ht1).
    rewrite Hp. eexists _, _, _. split; [done|]. split; [done|]. split; [done|]. cbn [sum_drop]. rewrite in_put_left.
    split; [|done]. split; [done|]. exists n1, n2. split; [done|].
    rewrite (side_delete left_of), (side_delete_other right_of m id l) by (done || by eapply one_side).
    cbn in Ht |- *. destruct (to_right n1 n2 s _ _ e _ HI1 H2) as (? & ? & _); [cbn in *; lia|]. done.
  - assert (Hm2 : side_leaves right_of m !! id = Some l') by by rewrite side_lookup, Hm.
    destruct (right_leaf l l' Hl) as (Hc & Ho & Hwk). rewrite Hc, Ho. cbn [sum_poll sum_replies].
    destruct (sv_due s n2 _ _ id l' H2 Hm2 ltac:(congruence)) as (e2 & f2 & a & Hp & Ht & Ha & HI2 & Ht2).
    rewrite Hp. eexists _, _, _. split; [done|]. split; [done|]. split; [done|]. cbn [sum_drop]. rewrite in_put_right.
    split; [|done]. split; [done|]. exists n1, n2. split; [done|].
    rewrite (side_delete right_of), (side_delete_other left_of m id l) by (done || by eapply other_side).
    cbn in Ht |- *. destruct (to_left n1 n2 s _ _ e _ H1 HI2) as (? & ? & _); [cbn in *; lia|]. done.
Qed.

Lemma sum_weaken s s' n m e : s' <= s -> SumInv s n m e -> SumInv s' n m e.
Proof.
  intros Hs [Hd (n1 & n2 & Hn & H1 & H2)]. split; [done|]. exists n1, n2. split; [done|].
  split; by eapply sv_weaken.
Qed.

Lemma sum_later s n m (x : X1 * X2) t t' : t <= t' -> SumInv s n m (x, t) -> SumInv s n m (x, t').
Proof.
  intros Ht [Hd (n1 & n2 & Hn & H1 & H2)]. split; [done|]. exists n1, n2. split; [done|].
  split; by eapply sv_later.
Qed.

Lemma sum_owes_later nm l (x : X1 * X2) t t' : t <= t' -> sum_owes nm l (x, t) -> sum_owes nm l (x, t').
Proof. intros Ht [[Hin Ho]|[Hin Ho]]; [left|right]; (split; [done|]); by eapply owes_later. Qed.

(** A side that has an operation not woken has a reactor that owes. *)
Lemma sum_some_owes s n m e id l : SumInv s n m e -> m !! id = Some l -> lwoken l = false ->
  exists nm g, nm ∈ (sreactors Service_sum).*1 /\ g <= Nat.max (sv_looks (sv := s1)) (sv_looks (sv := s2)) /\ sum_owes nm g e.
Proof.
  intros [Hs (n1 & n2 & Hn & H1 & H2)] Hm Hw.
  destruct (Hs id l Hm) as [[l' Hl]|[l' Hl]].
  - destruct (left_leaf l l' Hl) as (_ & _ & Hwk).
    destruct (sv_owes s n1 _ _ id l' H1 ltac:(by rewrite side_lookup, Hm) ltac:(congruence)) as (nm & g & Hin & Hg & Ho).
    exists nm, g. split; [rewrite sum_names; apply elem_of_app; by left|]. split; [lia|by left].
  - destruct (right_leaf l l' Hl) as (_ & _ & Hwk).
    destruct (sv_owes s n2 _ _ id l' H2 ltac:(by rewrite side_lookup, Hm) ltac:(congruence)) as (nm & g & Hin & Hg & Ho).
    exists nm, g. split; [rewrite sum_names; apply elem_of_app; by right|]. split; [lia|by right].
Qed.

Lemma sum_start s n m e id f :
  SumInv (S s) n m e -> m !! id = None -> sum_askable f -> (Z.of_nat (size m) < Z.min (sv_room (sv := s1)) (sv_room (sv := s2)))%Z ->
  exists e' f' p, sum_poll (task_waker id) f e = Ok (e', f', p) /\ e.2 <= e'.2 /\
  match p with
  | Ready a => sum_replies f a /\ SumInv s n m (sum_drop f' e') /\ e'.2 <= (sum_drop f' e').2
  | Pending => exists n', n' <= n + Nat.max (sv_cost (sv := s1)) (sv_cost (sv := s2)) /\ SumInv s n' (<[id := mkLeaf f' f false]> m) e'
  end.
Proof.
  intros [Hs (n1 & n2 & Hn & H1 & H2)] Hm Hf Hr.
  pose proof (map_size_omap (side_leaf left_of) m) as Hz1. pose proof (map_size_omap (side_leaf right_of) m) as Hz2.
  assert (Hm1 : side_leaves left_of m !! id = None) by by rewrite side_lookup, Hm.
  assert (Hm2 : side_leaves right_of m !! id = None) by by rewrite side_lookup, Hm.
  assert (Hi : forall f' i l, <[id := mkLeaf f' f false]> m !! i = Some l ->
    is_Some (side_leaf left_of (mkLeaf f' f false)) \/ is_Some (side_leaf right_of (mkLeaf f' f false)) ->
    is_Some (side_leaf left_of l) \/ is_Some (side_leaf right_of l)).
  { intros f' i l [[_ <-]|[_ Hl]]%lookup_insert_Some Hnew; [done|by eapply Hs]. }
  destruct f as [f|f]; cbn [sum_poll sum_askable sum_replies] in *.
  - destruct (sv_start s n1 _ _ id f H1 Hm1 Hf) as (e1 & f1 & p & Hp & Ht & Hres); [unfold side_leaves; lia|].
    rewrite Hp. eexists _, _, _. split; [done|]. split; [done|]. destruct p as [a|]; cbn [map_poll].
    + destruct Hres as (Ha & HI & Ht1). split; [done|]. cbn [sum_drop]. rewrite in_put_left. split; [|done].
      split; [done|]. exists n1, n2. split; [done|]. cbn in Ht.
      destruct (to_right n1 n2 s _ _ e _ HI (sv_weaken (sv := s2) (S s) s _ _ _ ltac:(lia) H2)) as (? & ? & _); [cbn in *; lia|]. done.
    + destruct Hres as (n' & Hn' & HI). exists (n' + n2). split; [lia|]. split.
      { intros i l Hl. eapply Hi; [exact Hl|left; by eexists]. }
      exists n', n2. split; [done|]. rewrite (side_insert_Some left_of m id _ (mkLeaf f1 f false)) by done.
      rewrite (side_insert_None right_of) by done. cbn in Ht.
      destruct (to_right n' n2 s _ _ e _ HI (sv_weaken (sv := s2) (S s) s _ _ _ ltac:(lia) H2)) as (? & ? & _); [cbn in *; lia|]. done.
  - destruct (sv_start s n2 _ _ id f H2 Hm2 Hf) as (e2 & f2 & p & Hp & Ht & Hres); [unfold side_leaves; lia|].
    rewrite Hp. eexists _, _, _. split; [done|]. split; [done|]. destruct p as [a|]; cbn [map_poll].
    + destruct Hres as (Ha & HI & Ht1). split; [done|]. cbn [sum_drop]. rewrite in_put_right. split; [|done].
      split; [done|]. exists n1, n2. split; [done|]. cbn in Ht.
      destruct (to_left n1 n2 s _ _ e _ (sv_weaken (sv := s1) (S s) s _ _ _ ltac:(lia) H1) HI) as (? & ? & _); [cbn in *; lia|]. done.
    + destruct Hres as (n' & Hn' & HI). exists (n1 + n'). split; [lia|]. split.
      { intros i l Hl. eapply Hi; [exact Hl|right; by eexists]. }
      exists n1, n'. split; [done|]. rewrite (side_insert_Some right_of m id _ (mkLeaf f2 f false)) by done.
      rewrite (side_insert_None left_of) by done. cbn in Ht.
      destruct (to_left n1 n' s _ _ e _ (sv_weaken (sv := s1) (S s) s _ _ _ ltac:(lia) H1) HI) as (? & ? & _); [cbn in *; lia|]. done.
Qed.

Lemma sum_reactor nm (r : DynReactor E) : (nm, r) ∈ sreactors Service_sum ->
  (exists r1, (nm, r1) ∈ sreactors s1 /\ nm ∈ (sreactors s1).*1 /\ (nm ∉ (sreactors s2).*1) /\ r = lift_left r1) \/
  (exists r2, (nm, r2) ∈ sreactors s2 /\ nm ∈ (sreactors s2).*1 /\ (nm ∉ (sreactors s1).*1) /\ r = lift_right r2).
Proof.
  cbn [sreactors Service_sum]. intros [H|H]%elem_of_app; apply list_elem_of_In, in_map_iff in H as ([nm' r'] & [= <- <-] & Hin);
    apply list_elem_of_In in Hin; [left|right]; exists r'; (split; [done|]);
    assert (Hn := list_elem_of_fmap_2 fst _ _ Hin); cbn in Hn; (split; [done|]).
  - split; [by apply Hnames|done].
  - split; [|done]. intros H1. by apply (Hnames _ H1).
Qed.

Lemma sum_status s n m e nm (r : DynReactor E) : SumInv s n m e -> (nm, r) ∈ sreactors Service_sum ->
  exists e' st, dyn_status r e = (e', st) /\ e.2 <= e'.2 /\ SumInv s n m e' /\
  forall nm' l, sum_owes nm' l e -> exists l', l' <= l /\ sum_owes nm' l' e' /\ (nm' = nm -> st = Stopped -> l' < l).
Proof.
  intros [Hs (n1 & n2 & Hn & H1 & H2)] Hr.
  destruct (sum_reactor nm r Hr) as [(r1 & Hr1 & Hin & Hno & ->)|(r2 & Hr2 & Hin & Hno & ->)].
  - destruct (sv_status s n1 _ _ nm r1 H1 Hr1) as (e1 & st & Hst & Ht & HI & Ho). cbn [dyn_status lift_left]. rewrite Hst.
    destruct (to_right n1 n2 s _ _ e _ HI H2 Ht) as (HL & HR & Hoth).
    exists (put_left e1 e), st. split; [done|]. split; [done|]. split; [split; [done|by exists n1, n2]|].
    intros nm' l [[Hin' Hl]|[Hin' Hr']].
    + destruct (Ho nm' l Hl) as (l' & Hle & Hl' & Hd). exists l'. split; [done|]. split; [|done].
      left. by rewrite in_put_left.
    + exists l. split; [done|]. split; [by apply Hoth|]. by intros ->.
  - destruct (sv_status s n2 _ _ nm r2 H2 Hr2) as (e2 & st & Hst & Ht & HI & Ho). cbn [dyn_status lift_right]. rewrite Hst.
    destruct (to_left n1 n2 s _ _ e _ H1 HI Ht) as (HL & HR & Hoth).
    exists (put_right e2 e), st. split; [done|]. split; [done|]. split; [split; [done|by exists n1, n2]|].
    intros nm' l [[Hin' Hl]|[Hin' Hr']].
    + exists l. split; [done|]. split; [by apply Hoth|]. by intros ->.
    + destruct (Ho nm' l Hr') as (l' & Hle & Hl' & Hd). exists l'. split; [done|]. split; [|done].
      right. by rewrite in_put_right.
Qed.

(** A reactor wakes operations of its own side. *)
Lemma sum_turn s n m e nm (r : DynReactor E) : SumInv s n m e -> (nm, r) ∈ sreactors Service_sum ->
  exists e' ids n', dyn_poll r e = Ok (e', map task_waker ids) /\ e.2 <= e'.2 /\ NoDup ids /\
  (forall id, id ∈ ids -> exists l, m !! id = Some l /\ lwoken l = false) /\
  n' <= n /\ SumInv s n' (wake_leaves ids m) e' /\
  (ids <> [] \/ n' < n \/ forall nm' l, sum_owes nm' l e -> nm' <> nm /\ sum_owes nm' l e').
Proof.
  intros HI Hr. pose proof (su_parts _ _ _ _ HI) as (n1 & n2 & Hn & H1 & H2).
  destruct (sum_reactor nm r Hr) as [(r1 & Hr1 & Hin & Hno & ->)|(r2 & Hr2 & Hin & Hno & ->)].
  - destruct (sv_poll s n1 _ _ nm r1 H1 Hr1) as (e1 & ids & n' & Hp & Ht & Hnd & Hids & Hle & HI1 & Hpr).
    cbn [dyn_poll lift_left]. rewrite Hp. exists (put_left e1 e), ids, (n' + n2). split; [done|]. split; [done|].
    split; [done|]. split; [intros id Hid; by apply (left_asleep _ _ (Hids id Hid))|]. split; [lia|].
    destruct (to_right n' n2 s _ _ e _ HI1 H2 Ht) as (HL & HR & Hoth). split.
    { split; [by eapply sum_sides_wake|]. exists n', n2. split; [done|]. rewrite !side_wake. split; [done|].
      rewrite wake_others; [done|]. intros id Hid. destruct (Hids id Hid) as (l & Hl & _). by eapply left_not_right. }
    destruct Hpr as [?|[?|Hpr]]; [by left|right; left; lia|right; right]. intros nm' l [[Hin' Hl]|[Hin' Hr']].
    + destruct (Hpr nm' l Hl). split; [done|]. left. by rewrite in_put_left.
    + split; [by intros ->|by apply Hoth].
  - destruct (sv_poll s n2 _ _ nm r2 H2 Hr2) as (e2 & ids & n' & Hp & Ht & Hnd & Hids & Hle & HI2 & Hpr).
    cbn [dyn_poll lift_right]. rewrite Hp. exists (put_right e2 e), ids, (n1 + n'). split; [done|]. split; [done|].
    split; [done|]. split; [intros id Hid; by apply (right_asleep _ _ (Hids id Hid))|]. split; [lia|].
    destruct (to_left n1 n' s _ _ e _ H1 HI2 Ht) as (HL & HR & Hoth). split.
    { split; [by eapply sum_sides_wake|]. exists n1, n'. split; [done|]. rewrite !side_wake. split; [|done].
      rewrite wake_others; [done|]. intros id Hid. destruct (Hids id Hid) as (l & Hl & _). by eapply right_not_left. }
    destruct Hpr as [?|[?|Hpr]]; [by left|right; left; lia|right; right]. intros nm' l [[Hin' Hl]|[Hin' Hr']].
    + split; [by intros ->|by apply Hoth].
    + destruct (Hpr nm' l Hr'). split; [done|]. right. by rewrite in_put_right.
Qed.

#[local] Program Instance sum_serves : Serves Service_sum := {|
  sv_cost := Nat.max (sv_cost (sv := s1)) (sv_cost (sv := s2));
  sv_looks := Nat.max (sv_looks (sv := s1)) (sv_looks (sv := s2));
  sv_room := Z.min (sv_room (sv := s1)) (sv_room (sv := s2));
  Askable := sum_askable; Replies := sum_replies; SvInv := SumInv; Owes := sum_owes;
  sv_weaken := sum_weaken; sv_later := sum_later; owes_later := sum_owes_later; sv_owes := sum_some_owes;
  sv_start := sum_start; sv_due := sum_due; sv_status := sum_status; sv_poll := sum_turn
|}.
End sum.
