(* ===== verification/ServiceRun.v ===== *)
(** * ServiceRun: the runtime with several tasks and several reactors
    ([pluvio_runtime/src/executor/mod.rs])

    [run_queue] on a runtime whose tasks run async functions over a [Service] and whose
    reactors are those of the service, registered in any order.  [Serving] is the
    invariant: every task is either in the task queue, once, or waits for an operation in
    progress.  Each poll of a task, and each poll of a reactor that makes progress,
    lowers a potential; a pass in which nothing of the kind happens brings closer the pass
    in which a reactor that owes something is polled. *)

From S2P Require Import Prelude Spsc Future Track Slab Task Executor ExecutorFacts ExecutorLive Service.
Local Open Scope nat_scope.

Section run.
Context {A F X V : Type} (sv : Service A F X) (now : nat -> Z) (unit_value : V) (genv : string -> option string).
Context (ho : forall X : Type, list (string * X) -> list (string * X)).
Context (ho_perm : forall X (l : list (string * X)), ho X l ≡ₚ l).
Abbreviation Fn := (Async A F V).
Abbreviation E := (X * nat)%type.

(** The clock, whose [t]-th reading is [now t]. *)
Definition tick (e : E) : E := (e.1, S e.2).

(** User code: one poll of an async function.  A poll that panics is outside this
    language; the polls that [Serves] speaks of do not. *)
Definition async_act (k : Waker) (p : Fn) : Act V Fn E :=
  AEnv (fun e => match async_poll sv k p e with Ok (e, _, _) => e | Panic _ => e end)
       (fun e => match async_poll sv k p e with Ok (_, p, r) => ARet p r | Panic _ => ARet p Pending end).

#[local] Instance service_program : Program V Fn E := {|
  upoll := async_act;
  udrop := async_drop sv;
  out_type _ := 0;
  unit_type := 0;
  unit_val := unit_value;
  getenv := genv;
  clock e := (tick e, now e.2);
  hash_order := ho;
  hash_order_perm := ho_perm
|}.

Context {C SL : Type} `{FifoChan C} `{Slab (option (Task (TaskFuture Fn))) SL}.
Abbreviation SWorld := (World V E C SL).
Implicit Types (w : SWorld) (e : E) (p : Fn) (id : nat).

Lemma async_act_run k p e' p' r w :
  async_poll sv k p (env w) = Ok (e', p', r) -> run_act k (async_act k p) w = Ok (set_env e' w, p', r).
Proof. intros Hp. unfold async_act. cbn [run_act]. by rewrite Hp. Qed.

(** ** One poll of a task *)

(** The task of a spawned function, with tracking disabled. *)
Definition service_task p (addr : nat) (st : TaskStat) : Task (TaskFuture Fn) :=
  mkTask (mkTaskFuture (Some (BodySpawned 0 (Untracked p))) addr) TaskQueue addr (Some st).

(** A shared state whose task completed with [v]. *)
Definition filled (v : V) : SharedState V := mkShared None (Some (ROk (mkAny 0 v))).

Lemma service_poll_pending id p p' addr st e' w :
  async_poll sv (task_waker id) p (tick (env w)) = Ok (e', p', Pending) ->
  exists st', Task_poll_task (service_task p addr st) id w =
    Ok (set_env (tick e') w, service_task p' addr st', Pending).
Proof.
  intros Hp. unfold Task_poll_task, read_clock. cbn [clock service_program]. unfold wrapped_poll.
  cbn [fbody future service_task tsender MaybeTracked_poll]. unfold fpoll, user_future. cbn [upoll service_program].
  rewrite (async_act_run _ _ _ _ _ (set_env (tick (env w)) w) Hp). cbn [mbind outcome_bind mret outcome_ret].
  eexists. cbn. by destruct w.
Qed.

Lemma service_poll_ready id p p' v addr st e' w :
  async_poll sv (task_waker id) p (tick (env w)) = Ok (e', p', Ready v) ->
  waker (heap_get (heap w) addr) = None ->
  exists h st', Task_poll_task (service_task p addr st) id w =
    Ok (set_env (tick (async_drop sv p' e')) (set_heap h w),
        mkTask (mkTaskFuture None addr) TaskQueue addr (Some st'), Ready tt) /\
    forall a, heap_get h a = if decide (addr = a) then filled v else heap_get (heap w) a.
Proof.
  intros Hp Hw. unfold Task_poll_task, read_clock. cbn [clock service_program]. unfold wrapped_poll.
  cbn [fbody future service_task tsender MaybeTracked_poll]. unfold fpoll, user_future. cbn [upoll service_program].
  rewrite (async_act_run _ _ _ _ _ (set_env (tick (env w)) w) Hp). cbn [mbind outcome_bind mret outcome_ret].
  unfold wrapped_finish. destruct (complete_shared_spec addr (mkAny 0 v) (heap w)) as (h & Hc & Hh).
  cbn -[complete_shared] in *. rewrite Hc, Hw. exists h. cbn. eexists. split; [by destruct w|done].
Qed.

(** A pending poll changes the task and the environment. *)
Lemma retire_pending id p p' addr st e' w :
  view w !! id = Some (Some (service_task p addr st)) ->
  async_poll sv (task_waker id) p (tick (env w)) = Ok (e', p', Pending) ->
  exists pl st', poll_and_retire id w = Ok (on_rt (set_task_pool pl) (set_env (tick e') w), false) /\
    slab_view pl = <[id := Some (service_task p' addr st')]> (view w).
Proof.
  intros Hv Hp. unfold poll_and_retire, poll_task. rewrite slab_get_view. fold (view w). rewrite Hv.
  fold (take_slot id w). destruct (service_poll_pending id p p' addr st e' (take_slot id w) Hp) as [st' ->].
  cbn [mbind outcome_bind]. assert (Ht : view (take_slot id w) = <[id := None]> (view w)) by (by apply take_slot_view).
  rewrite slab_get_view. cbn [rt set_env]. unfold view in Ht at 1. rewrite Ht, lookup_insert_eq. cbn.
  eexists _, st'. split; [reflexivity|]. rewrite slab_put_view; unfold view in Ht at 1; cbn in Ht; rewrite Ht.
  - apply insert_insert_eq.
  - rewrite lookup_insert_eq. eauto.
Qed.

(** A poll that is ready stores the result and frees the slot. *)
Record finished_task id (v : V) addr e' w w' : Prop := {
  ft_view : view w' = delete id (view w);
  ft_env : env w' = e';
  ft_heap a : heap_get (heap w') a = if decide (addr = a) then filled v else heap_get (heap w) a;
  ft_frame : frame w w';
  ft_chans : task_chan (rt w') = task_chan (rt w) /\ polling_chan (rt w') = polling_chan (rt w);
  ft_shutdown : shutdown_requested (rt w') = shutdown_requested (rt w)
}.

Lemma retire_ready id p p' v addr st e' w :
  view w !! id = Some (Some (service_task p addr st)) -> waker (heap_get (heap w) addr) = None ->
  async_poll sv (task_waker id) p (tick (env w)) = Ok (e', p', Ready v) ->
  exists w', poll_and_retire id w = Ok (w', true) /\ finished_task id v addr (tick (async_drop sv p' e')) w w'.
Proof.
  intros Hv Hw Hp. unfold poll_and_retire, poll_task. rewrite slab_get_view. fold (view w). rewrite Hv.
  fold (take_slot id w).
  destruct (service_poll_ready id p p' v addr st e' (take_slot id w) Hp Hw) as (h & st' & -> & Hh).
  cbn [mbind outcome_bind]. set (w1 := set_env _ _).
  assert (Ht : view w1 = <[id := None]> (view w)) by (by apply take_slot_view).
  rewrite slab_get_view. unfold view in Ht at 1. rewrite Ht, lookup_insert_eq. cbn [mret outcome_ret mbind outcome_bind].
  destruct (retire_ok id (mkTask (mkTaskFuture None addr) TaskQueue addr (Some st')) w1) as (w' & Hr & Hrd).
  { unfold view. rewrite Ht, lookup_insert_eq. eauto. }
  { eauto. }
  unfold fill_slot in Hr. rewrite Hr. cbn.
  assert (Hen : env w' = env w1 /\ task_chan (rt w') = task_chan (rt w1) /\ polling_chan (rt w') = polling_chan (rt w1)).
  { clear Hrd. unfold retire in Hr. inv_Ok. destruct a as [[r s] o]. inv_Ok. done. }
  destruct Hen as (He & Htc & Hpc). destruct Hrd as [Hf Hvw Hhp _ _ Hsd _]. exists w'. split; [done|]. split.
  - rewrite Hvw. unfold view. rewrite Ht. apply delete_insert_eq.
  - done.
  - rewrite Hhp. apply Hh.
  - transitivity w1; [by split|done].
  - done.
  - done.
Qed.

(** ** Tasks and what is known of them *)

Context `{HS : !Serves sv}.

(** A task: its function as it was spawned and as it is, the operations it will still
    start, the operation it waits for or was woken from, and the address of its result. *)
Record Job : Type := mkJob {
  jorig : Fn;
  jnow : Fn;
  jleft : nat;
  jwait : option (F * bool);
  jaddr : nat
}.

Implicit Types (J : gmap nat Job) (j : Job).

Definition job_ok j : Prop :=
  match jwait j with
  | None => awaits_le sv (jleft j) (jnow j) /\ forall v, Returns sv (jnow j) v -> Returns sv (jorig j) v
  | Some (f0, _) => exists f k, jnow j = AwaitThen f k /\
      (forall a, Replies f0 a -> awaits_le sv (jleft j) (k a)) /\
      forall a v, Replies f0 a -> Returns sv (k a) v -> Returns sv (jorig j) v
  end.

Definition job_leaf j : option (Leaf F) :=
  match jwait j, jnow j with Some (f0, b), AwaitThen f _ => Some (mkLeaf f f0 b) | _, _ => None end.

(** Waiting jobs are not in the queue. *)
Definition runnable j : bool := match jwait j with Some (_, false) => false | _ => true end.

Definition job_woken j : Job :=
  mkJob (jorig j) (jnow j) (jleft j) (match jwait j with Some (f0, _) => Some (f0, true) | None => None end) (jaddr j).
Definition wake_jobs (ids : list nat) J : gmap nat Job :=
  map_imap (fun id j => Some (if decide (id ∈ ids) then job_woken j else j)) J.

(** The potential: polls, reactor polls and wakes that are still to come. *)
Definition job_weight j : nat :=
  jleft j * (sv_cost + 3) + match jwait j with None => 1 | Some (_, true) => 2 | Some (_, false) => 3 end.
Definition potential J (n : nat) : nat := map_sum job_weight J + n.

Lemma omap_leaf_lookup J id : omap job_leaf J !! id = J !! id ≫= job_leaf.
Proof. apply lookup_omap. Qed.

(** A job that waits for nothing adds no operation in flight. *)
Lemma leaves_insert_fresh J id j : J !! id = None -> job_leaf j = None -> omap job_leaf (<[id := j]> J) = omap job_leaf J.
Proof.
  intros HJ Hj. apply map_eq. intros i. rewrite !omap_leaf_lookup. destruct (decide (i = id)) as [->|Hne].
  - by rewrite HJ, lookup_insert_eq.
  - by rewrite lookup_insert_ne.
Qed.

Lemma wake_jobs_lookup ids J id :
  wake_jobs ids J !! id = (fun j => if decide (id ∈ ids) then job_woken j else j) <$> J !! id.
Proof. unfold wake_jobs. rewrite map_lookup_imap. by destruct (J !! id). Qed.

Lemma woken_back ids J id j : wake_jobs ids J !! id = Some j -> exists j0, J !! id = Some j0 /\
  jaddr j = jaddr j0 /\ jorig j = jorig j0 /\ jnow j = jnow j0 /\ j = if decide (id ∈ ids) then job_woken j0 else j0.
Proof. rewrite wake_jobs_lookup. destruct (J !! id) as [j0|]; [|done]. cbn. intros [= <-]. exists j0. by case_decide. Qed.

Lemma wake_jobs_size ids J : size (wake_jobs ids J) = size J.
Proof. rewrite <- !size_dom. f_equal. apply set_eq. intros id. rewrite !elem_of_dom, wake_jobs_lookup. apply fmap_is_Some. Qed.

Lemma wake_jobs_nil J : wake_jobs [] J = J.
Proof.
  apply map_eq. intros id. rewrite wake_jobs_lookup. destruct (J !! id) as [j|]; [|done]. cbn.
  rewrite decide_False; [done|apply not_elem_of_nil].
Qed.

Lemma wake_jobs_leaves ids J : omap job_leaf (wake_jobs ids J) = wake_leaves ids (omap job_leaf J).
Proof.
  apply map_eq. intros id. rewrite wake_leaves_lookup, !omap_leaf_lookup, wake_jobs_lookup.
  destruct (J !! id) as [j|]; [|done]. cbn. case_decide; [|by destruct (job_leaf j)].
  unfold job_leaf, job_woken. cbn. destruct (jwait j) as [[]|]; [|done]. by destruct (jnow j).
Qed.

(** ** The invariant *)

(** The jobs are the tasks of the pool.  Those in [pend], the rest of the buffer that is
    being polled, and in the task queue [q] are the runnable ones, and the others wait
    with an operation in progress.  A spawned function is a job or has returned. *)
Record Serving J (pend q : list nat) (n : nat) (hs : list (nat * Fn)) w : Prop := {
  sg_pool id : match J !! id with
    | Some j => exists st, view w !! id = Some (Some (service_task (jnow j) (jaddr j) st))
    | None => view w !! id = None
    end;
  sg_jobs id j : J !! id = Some j -> job_ok j;
  sg_queues : queues w [] q;
  sg_nodup : NoDup (pend ++ q);
  sg_runnable id : id ∈ pend ++ q <-> exists j, J !! id = Some j /\ runnable j = true;
  sg_inv : SvInv (map_sum jleft J) n (omap job_leaf J) (env w);
  sg_room : (Z.of_nat (size J) <= sv_room)%Z;
  sg_cells id j : J !! id = Some j -> jaddr j < next_addr w /\ heap_get (heap w) (jaddr j) = SharedState_new;
  sg_inj id id' j j' : J !! id = Some j -> J !! id' = Some j' -> jaddr j = jaddr j' -> id = id';
  sg_spawned a p : (a, p) ∈ hs -> a < next_addr w /\
    ((exists id j, J !! id = Some j /\ jaddr j = a /\ jorig j = p) \/
     exists v, Returns sv p v /\ heap_get (heap w) a = filled v)
}.

Lemma serving_same J pend q n hs w w' :
  task_pool (rt w') = task_pool (rt w) -> queues w' [] q -> env w' = env w -> heap w' = heap w ->
  next_addr w' = next_addr w -> Serving J pend q n hs w -> Serving J pend q n hs w'.
Proof.
  intros Hp Hq He Hh Hn []. split; try done; unfold view; rewrite ?Hp, ?He, ?Hh, ?Hn; done.
Qed.

Lemma leaves_delete id J : omap job_leaf (delete id J) = delete id (omap job_leaf J).
Proof. apply omap_delete. Qed.

Lemma leaves_size J : size (omap job_leaf J) <= size J.
Proof. apply map_size_omap. Qed.

(** A runnable job is polled with the tick of the clock that [Task::poll_task] makes. *)
Lemma job_polled id j J n w pend q hs :
  Serving J pend q n hs w -> J !! id = Some j -> runnable j = true ->
  exists p0 e' p' r, async_poll sv (task_waker id) (jnow j) (tick (env w)) = Ok (e', p', r) /\
    (forall v, Returns sv p0 v -> Returns sv (jorig j) v) /\
    advanced sv (map_sum jleft J) n (jleft j) (delete id (omap job_leaf J)) id p0 e' p' r.
Proof.
  intros HS0 Hj Hr. assert (HI := sg_inv _ _ _ _ _ _ HS0). assert (Hok := sg_jobs _ _ _ _ _ _ HS0 _ _ Hj).
  assert (Hrm := sg_room _ _ _ _ _ _ HS0). assert (Hle : jleft j <= map_sum jleft J)
    by (rewrite (map_sum_delete _ _ _ _ Hj); lia).
  assert (HI' : SvInv (map_sum jleft J) n (omap job_leaf J) (tick (env w))).
  { destruct (env w) as [x t]. apply (sv_later _ _ _ _ t (S t)); [lia|done]. }
  assert (Hsz := map_size_delete_S _ _ _ Hj). assert (Hlv := leaves_size (delete id J)). rewrite leaves_delete in Hlv.
  unfold job_ok, runnable in *. destruct (jwait j) as [[f0 [|]]|] eqn:Hw; [|done|].
  - destruct Hok as (f & k & Hp & Hk & Hret). rewrite Hp.
    destruct (async_poll_woken sv id f0 f k (jleft j) (map_sum jleft J) n (omap job_leaf J) (tick (env w)))
      as (a & e' & p' & r & Ha & Hpo & _ & Hadv); try done.
    + rewrite omap_leaf_lookup, Hj. cbn. unfold job_leaf. by rewrite Hw, Hp.
    + assert (Hl := leaves_size J). lia.
    + exists (k a), e', p', r. split; [done|]. split; [|done]. intros v Hv. by eapply Hret.
  - destruct Hok as [Haw Hret]. assert (Hn : omap job_leaf J !! id = None).
    { rewrite omap_leaf_lookup, Hj. cbn. unfold job_leaf. by rewrite Hw. }
    rewrite (delete_id _ _ Hn) in *.
    destruct (async_poll_fresh sv id (jnow j) (jleft j) (map_sum jleft J) n (omap job_leaf J) (tick (env w)))
      as (e' & p' & r & Hpo & _ & Hadv); try done; [lia|].
    by exists (jnow j), e', p', r.
Qed.

Lemma still_queued id pend q J J' :
  NoDup ((id :: pend) ++ q) -> (forall i, i ∈ (id :: pend) ++ q <-> exists j, J !! i = Some j /\ runnable j = true) ->
  (forall i, i <> id -> J' !! i = J !! i) -> (forall j, J' !! id = Some j -> runnable j = false) ->
  NoDup (pend ++ q) /\ forall i, i ∈ pend ++ q <-> exists j, J' !! i = Some j /\ runnable j = true.
Proof.
  intros Hnd Hr Ho Hi. apply NoDup_cons in Hnd as [Hni Hnd]. fold (pend ++ q) in *. split; [done|].
  intros i. destruct (decide (i = id)) as [->|Hne].
  - split; [done|]. intros (j' & Hj & Hrun). by rewrite (Hi _ Hj) in Hrun.
  - rewrite Ho by done. rewrite <- Hr. cbn. rewrite elem_of_cons. tauto.
Qed.

(** What a poll of a task does: it lowers the potential. *)
Record went_on J n pend q hs w' J' n' : Prop := {
  wo_serving : Serving J' pend q n' hs w';
  wo_less : potential J' n' < potential J n;
  wo_size : size J' <= size J
}.

Lemma poll_waits id j J n pend q hs w f f' k left n' e' pl st :
  Serving J (id :: pend) q n hs w -> J !! id = Some j -> left < jleft j -> n' <= n + sv_cost ->
  (forall a, Replies f a -> awaits_le sv left (k a)) ->
  (forall a v, Replies f a -> Returns sv (k a) v -> Returns sv (jorig j) v) ->
  SvInv (map_sum jleft J - jleft j + left) n' (<[id := mkLeaf f' f false]> (delete id (omap job_leaf J))) e' ->
  slab_view pl = <[id := Some (service_task (AwaitThen f' k) (jaddr j) st)]> (view w) ->
  went_on J n pend q hs (on_rt (set_task_pool pl) (set_env (tick e') w))
    (<[id := mkJob (jorig j) (AwaitThen f' k) left (Some (f, false)) (jaddr j)]> J) n'.
Proof.
  intros HS0 Hj Hlt Hn Hk Hret HI Hpl. set (jb := mkJob _ _ _ _ _). destruct HS0 as [Sp Sj Sq Sn Sr Si Sm Sc Sx Ss].
  assert (Hsum : map_sum jleft (<[id := jb]> J) = map_sum jleft J - jleft j + left).
  { assert (Hu := map_sum_update jleft J id j jb Hj). assert (Hd := map_sum_delete jleft J id j Hj).
    change (jleft jb) with left in Hu. lia. }
  assert (Hsize : size (<[id := jb]> J) = size J) by (by rewrite map_size_insert, Hj).
  destruct (still_queued id pend q J (<[id := jb]> J)) as [Hnd Hrun]; [done..| | |].
  { intros i Hne. by apply lookup_insert_ne. }
  { intros x. rewrite lookup_insert_eq. by intros [= <-]. }
  assert (Hold : forall i x, <[id := jb]> J !! i = Some x -> exists y, J !! i = Some y /\ jaddr x = jaddr y /\ jorig x = jorig y).
  { intros i x [ [-> ->]|[_ ?] ]%insert_cases; [by exists j|by exists x]. }
  split; [split|..].
  - intros i. unfold view. cbn. rewrite Hpl. destruct (decide (i = id)) as [->|Hne].
    + rewrite !lookup_insert_eq. by exists st.
    + rewrite !lookup_insert_ne by done. apply Sp.
  - intros i x [ [-> ->]|[_ Hx] ]%insert_cases; [by exists f', k|by apply (Sj i)].
  - done.
  - done.
  - done.
  - rewrite Hsum. cbn. destruct e' as [x t]. apply (sv_later _ _ _ _ t (S t)); [lia|].
    replace (omap job_leaf (<[id := jb]> J)) with (<[id := mkLeaf f' f false]> (delete id (omap job_leaf J))); [done|].
    rewrite insert_delete_eq. symmetry. by apply omap_insert_Some.
  - by rewrite Hsize.
  - intros i x Hx. destruct (Hold _ _ Hx) as (y & Hy & -> & _). by apply (Sc i y).
  - intros i i' x x' Hx Hx' Ha. destruct (Hold _ _ Hx) as (y & Hy & Ha1 & _), (Hold _ _ Hx') as (y' & Hy' & Ha2 & _).
    rewrite Ha1, Ha2 in Ha. by eapply Sx.
  - intros a p Hin. destruct (Ss a p Hin) as (Ha & [(i & x & Hx & Hxa & Hxo)|?]); (split; [done|]); [left|by right].
    destruct (decide (i = id)) as [->|Hne].
    + rewrite Hj in Hx. injection Hx as <-. exists id, jb. by rewrite lookup_insert_eq.
    + exists i, x. by rewrite lookup_insert_ne.
  - unfold potential. assert (Hu := map_sum_update job_weight J id j jb Hj).
    assert (Hm : S left * (sv_cost + 3) <= jleft j * (sv_cost + 3)) by (by apply Nat.mul_le_mono_r).
    assert (Hb : job_weight jb = left * (sv_cost + 3) + 3) by done.
    assert (Hw : jleft j * (sv_cost + 3) + 1 <= job_weight j)
      by (unfold job_weight; destruct (jwait j) as [[? []]|]; lia).
    cbn [Nat.mul] in Hm. lia.
  - lia.
Qed.

Lemma poll_returns id j J n pend q hs w v e' w' :
  Serving J (id :: pend) q n hs w -> J !! id = Some j -> Returns sv (jorig j) v ->
  SvInv (map_sum jleft J - jleft j) n (delete id (omap job_leaf J)) e' ->
  finished_task id v (jaddr j) (tick e') w w' -> went_on J n pend q hs w' (delete id J) n.
Proof.
  intros HS0 Hj Hv HI [F1 F2 F3 F4 [F5 F6] F7]. destruct HS0 as [Sp Sj Sq Sn Sr Si Sm Sc Sx Ss].
  assert (Hsum := map_sum_delete jleft J id j Hj). assert (Hsize := map_size_delete_S _ _ _ Hj).
  destruct (still_queued id pend q J (delete id J)) as [Hnd Hrun]; [done..| | |].
  { intros i Hne. by apply lookup_delete_ne. }
  { intros x. by rewrite lookup_delete_eq. }
  assert (Hother : forall i x, delete id J !! i = Some x -> J !! i = Some x /\ i <> id /\ jaddr x <> jaddr j).
  { intros i x [Hne Hx]%lookup_delete_Some. split; [done|]. split; [done|]. intros Ha. by destruct Hne; eapply Sx. }
  split; [split|..].
  - intros i. rewrite F1. destruct (decide (i = id)) as [->|Hne]; [by rewrite !lookup_delete_eq|].
    rewrite !lookup_delete_ne by done. apply Sp.
  - intros i x (Hx & _)%Hother. by eapply Sj.
  - unfold queues. by rewrite F5, F6.
  - done.
  - done.
  - rewrite F2, leaves_delete. destruct e' as [x t]. apply (sv_later _ _ _ _ t (S t)); [lia|].
    by replace (map_sum jleft (delete id J)) with (map_sum jleft J - jleft j) by lia.
  - lia.
  - intros i x (Hx & _ & Hne)%Hother. destruct (Sc i x Hx) as [Ha Hh]. assert (Hnx := fr_next _ _ F4).
    split; [lia|]. by rewrite F3, decide_False.
  - intros i i' x x' (Hx & _)%Hother (Hx' & _)%Hother. by apply Sx.
  - intros a p Hin. assert (Hnx := fr_next _ _ F4). destruct (Ss a p Hin) as (Ha & Hor). split; [lia|].
    destruct Hor as [(i & x & Hx & <- & <-)|(v' & Hv' & Hh)].
    + destruct (decide (i = id)) as [->|Hne].
      * right. rewrite Hj in Hx. injection Hx as <-. exists v. split; [done|]. by rewrite F3, decide_True.
      * left. exists i, x. by rewrite lookup_delete_ne.
    + right. exists v'. split; [done|]. rewrite F3, decide_False; [done|]. intros <-.
      destruct (Sc id j Hj) as [_ Hc]. by rewrite Hc in Hh.
  - unfold potential. rewrite (map_sum_delete job_weight J id j Hj).
    assert (Hw : 1 <= job_weight j) by (unfold job_weight; destruct (jwait j) as [[? []]|]; lia). lia.
  - lia.
Qed.

Lemma poll_one id J n pend q hs w : Serving J (id :: pend) q n hs w ->
  exists w' b J' n', poll_and_retire id w = Ok (w', b) /\ went_on J n pend q hs w' J' n' /\ frame w w' /\
    shutdown_requested (rt w') = shutdown_requested (rt w).
Proof.
  intros HS0. destruct (proj1 (sg_runnable _ _ _ _ _ _ HS0 id)) as (j & Hj & Hr); [by left|].
  destruct (job_polled id j J n w _ _ _ HS0 Hj Hr) as (p0 & e' & p' & r & Hp & Hret & Hadv).
  assert (Hv := sg_pool _ _ _ _ _ _ HS0 id). rewrite Hj in Hv. destruct Hv as [st Hv]. destruct r as [v|].
  - destruct Hadv as (Hv' & -> & HI).
    destruct (retire_ready id (jnow j) (Return v) v (jaddr j) st e' w Hv) as (w' & Hpr & Hf); [|done|].
    { by destruct (sg_cells _ _ _ _ _ _ HS0 id j Hj) as [_ ->]. }
    exists w', true, (delete id J), n. split; [done|]. split; [|split; [apply Hf|by rewrite (ft_shutdown _ _ _ _ _ _ Hf)]].
    eapply poll_returns; [done|done|by apply Hret|done|done].
  - destruct Hadv as (f & f' & k & left & n' & -> & Hl & Hn & Hk & Hrt & HI).
    destruct (retire_pending id (jnow j) (AwaitThen f' k) (jaddr j) st e' w Hv Hp) as (pl & st' & Hpr & Hpl).
    eexists _, false, _, n'. split; [exact Hpr|]. split; [|split; [by split|done]].
    eapply poll_waits; try done. intros a v Ha Hv0. by eapply Hret, Hrt.
Qed.

(** A buffer of runnable tasks. *)
Lemma poll_many ids : forall J n q hs w, Serving J ids q n hs w ->
  exists w' b J' n', poll_buffer ids w = Ok (w', b) /\ Serving J' [] q n' hs w' /\ frame w w' /\
    shutdown_requested (rt w') = shutdown_requested (rt w) /\
    potential J' n' + length ids <= potential J n /\ size J' <= size J /\
    (ids = [] -> b = false /\ J' = J /\ n' = n /\ w' = w).
Proof.
  induction ids as [|id ids IH]; intros J n q hs w HS0; cbn [poll_buffer length].
  { exists w, false, J, n. do 4 (split; [done|]). split; [lia|done]. }
  destruct (poll_one id J n ids q hs w HS0) as (w1 & b1 & J1 & n1 & Hp1 & [HS1 Hl1 Hz1] & Hf1 & Hd1). rewrite Hp1.
  cbn [mbind outcome_bind].
  destruct (IH J1 n1 q hs w1 HS1) as (w2 & b2 & J2 & n2 & Hp2 & HS2 & Hf2 & Hd2 & Hl2 & Hz2 & _). rewrite Hp2.
  cbn [mbind outcome_bind mret outcome_ret]. eexists w2, _, J2, n2. split; [done|]. split; [done|].
  split; [by transitivity w1|]. split; [congruence|]. split; [lia|]. split; [lia|done].
Qed.

(** ** Waking tasks *)

Lemma wake_jobs_sum ids (g : Job -> nat) J : (forall j, g (job_woken j) <= g j) ->
  map_sum g (wake_jobs ids J) <= map_sum g J.
Proof. intros Hg. apply (map_sum_mono g (fun id j => if decide (id ∈ ids) then job_woken j else j)). intros i j _. by case_decide. Qed.

Lemma job_woken_weight j : job_weight (job_woken j) <= job_weight j.
Proof. unfold job_weight, job_woken. cbn. destruct (jwait j) as [[? []]|]; lia. Qed.

Lemma wake_jobs_potential id ids J j : J !! id = Some j -> runnable j = false -> id ∈ ids ->
  map_sum job_weight (wake_jobs ids J) < map_sum job_weight J.
Proof.
  intros Hj Hr Hin. rewrite (map_sum_delete job_weight J id j Hj).
  assert (Hw : wake_jobs ids J !! id = Some (job_woken j)) by (rewrite wake_jobs_lookup, Hj; cbn; by rewrite decide_True).
  rewrite (map_sum_delete job_weight _ id _ Hw).
  assert (Hd : delete id (wake_jobs ids J) = wake_jobs ids (delete id J)).
  { apply map_eq. intros i. rewrite wake_jobs_lookup. destruct (decide (i = id)) as [->|Hne].
    - by rewrite !lookup_delete_eq.
    - by rewrite !lookup_delete_ne, wake_jobs_lookup by done. }
  rewrite Hd. assert (Hle := wake_jobs_sum ids job_weight (delete id J) job_woken_weight).
  assert (Hlt : job_weight (job_woken j) < job_weight j); [|lia].
  unfold runnable, job_weight, job_woken in *. cbn. destruct (jwait j) as [[? []]|]; try done. lia.
Qed.

Lemma wake_all_tasks ids : forall q w, queues w [] q -> room (length q + length ids) ->
  exists c, wake_all (map task_waker ids) w = Ok (on_rt (set_task_chan c) w) /\ chan_rep c (q ++ ids).
Proof.
  induction ids as [|id ids IH]; intros q w [Hp Hq] Hr; cbn [wake_all map length] in *.
  { exists (task_chan (rt w)). rewrite app_nil_r. split; [|done]. by destruct w as [[]]. }
  destruct (chan_send_rep _ _ id Hq) as (c & Hs & Hc); [unfold room in Hr; lia|].
  unfold wake_by_ref. cbn [send_to task_sender task_id new_waker]. rewrite Hs. cbn [mbind outcome_bind mret outcome_ret].
  destruct (IH (q ++ [id]) (on_rt (set_task_chan c) w)) as (c' & Hw & Hc').
  { by split. }
  { unfold room in *. rewrite length_app. cbn. lia. }
  exists c'. rewrite Hw. rewrite <- app_assoc in Hc'. split; [by destruct w as [[]]|done].
Qed.

Lemma serving_queue J pend q n hs w : Serving J pend q n hs w -> length (pend ++ q) <= size J.
Proof.
  intros HS0. apply NoDup_map_size; [apply HS0|]. intros id (j & Hj & _)%(sg_runnable _ _ _ _ _ _ HS0). by eexists.
Qed.

(** Waking waiting tasks after a poll of a reactor. *)
Lemma woken_serving ids J q n n' hs w e' :
  Serving J [] q n hs w -> NoDup ids -> room (size J) ->
  (forall id, id ∈ ids -> exists l, omap job_leaf J !! id = Some l /\ lwoken l = false) ->
  SvInv (map_sum jleft J) n' (wake_leaves ids (omap job_leaf J)) e' ->
  exists w', wake_all (map task_waker ids) (set_env e' w) = Ok w' /\ Serving (wake_jobs ids J) [] (q ++ ids) n' hs w' /\
    frame w w' /\ shutdown_requested (rt w') = shutdown_requested (rt w) /\ env w' = e' /\
    size (wake_jobs ids J) = size J /\ (ids <> [] -> map_sum job_weight (wake_jobs ids J) < map_sum job_weight J).
Proof.
  intros HS0 Hnd Hroom Hids HI.
  assert (Hwait : forall id, id ∈ ids -> exists j, J !! id = Some j /\ runnable j = false).
  { intros id (l & Hl & Hw)%Hids. rewrite omap_leaf_lookup in Hl. apply bind_Some in Hl as (j & Hj & Hl). exists j.
    split; [done|]. unfold job_leaf, runnable in *. destruct (jwait j) as [[f0 b]|]; [|done].
    destruct (jnow j); [done|]. injection Hl as <-. cbn in Hw. by rewrite Hw. }
  assert (Hall : NoDup (q ++ ids)).
  { apply NoDup_app. split; [apply HS0|]. split; [|done]. intros id Hq Hi.
    destruct (Hwait id Hi) as (j & Hj & Hr). destruct (proj1 (sg_runnable _ _ _ _ _ _ HS0 id) Hq) as (j' & Hj' & Hr').
    rewrite Hj in Hj'. injection Hj' as <-. by rewrite Hr in Hr'. }
  assert (Hlen : length (q ++ ids) <= size J).
  { apply NoDup_map_size; [done|]. intros id [Hq|Hi]%elem_of_app.
    - destruct (proj1 (sg_runnable _ _ _ _ _ _ HS0 id) Hq) as (j & Hj & _). by eexists.
    - destruct (Hwait id Hi) as (j & Hj & _). by eexists. }
  destruct (wake_all_tasks ids q (set_env e' w) (sg_queues _ _ _ _ _ _ HS0)) as (c & Hw & Hc).
  { unfold room in *. rewrite length_app in Hlen. lia. }
  assert (Hback := woken_back ids J).
  eexists. split; [exact Hw|]. split; [|do 3 (split; [done|]); split; [|]]; cycle 1.
  { apply wake_jobs_size. }
  { destruct ids as [|id ids]; [done|]. intros _. destruct (Hwait id) as (j & Hj & Hr); [by left|].
    eapply wake_jobs_potential; [done..|by left]. }
  destruct HS0 as [Sp Sj Sq Sn Sr Si Sm Sc Sx Ss]. split.
  - intros id. rewrite wake_jobs_lookup. specialize (Sp id). destruct (J !! id) as [j|]; [|done]. by cbn; case_decide.
  - intros id j (j0 & Hj0 & _ & _ & _ & ->)%Hback. specialize (Sj id j0 Hj0). case_decide; [|done].
    unfold job_ok, job_woken in *. cbn. by destruct (jwait j0) as [[]|].
  - split; [apply Sq|done].
  - done.
  - intros id. cbn [app] in *. rewrite elem_of_app, Sr. split.
    + intros [(j & Hj & Hr)|Hi].
      * eexists. rewrite wake_jobs_lookup, Hj. split; [done|]. case_decide; [|done].
        unfold runnable, job_woken in *. cbn. by destruct (jwait j) as [[]|].
      * destruct (Hwait id Hi) as (j & Hj & Hr). eexists. rewrite wake_jobs_lookup, Hj. split; [done|].
        rewrite decide_True by done. unfold runnable, job_woken in *. cbn. by destruct (jwait j) as [[]|].
    + intros (j & (j0 & Hj0 & _ & _ & _ & ->)%Hback & Hr). case_decide; [by right|left]. by exists j0.
  - rewrite wake_jobs_leaves. cbn. eapply sv_weaken, HI. apply wake_jobs_sum. done.
  - by rewrite wake_jobs_size.
  - intros id j (j0 & Hj0 & -> & _)%Hback. by apply (Sc id).
  - intros id id' j j' (j0 & Hj0 & -> & _)%Hback (j1 & Hj1 & -> & _)%Hback. by apply Sx.
  - intros a p Hin. destruct (Ss a p Hin) as (Ha & [(id & j & Hj & Hja & Hjo)|?]); (split; [done|]); [left|by right].
    exists id. eexists. rewrite wake_jobs_lookup, Hj. split; [done|]. by case_decide.
Qed.

(** ** The reactors *)

Context (cfg : SchedulingConfig).
Implicit Types (x : ReactorWrapper E) (nm : string).

(** Its status is read, or cached as [Running], in pass [it]. *)
Definition ready (it : Z) x : Prop := cached_status x = Running \/ (cache_valid_until_iteration x <= it)%Z.

(** A registered reactor of the service. *)
Record registered (it : Z) (y : string * ReactorWrapper E) : Prop := {
  rg_in : (y.1, reactor y.2) ∈ sreactors sv;
  rg_enabled : enable y.2 = true;
  rg_valid : (cache_valid_until_iteration y.2 <= it + status_cache_iterations cfg)%Z
}.

(** What the reactor phase does to the jobs: it lowers the potential, or leaves them and
    looks at every reactor that was ready, so that those that owe something come closer
    to doing it.  [same y] holds of the entries that were left as they are. *)
Definition stepped (it : Z) (same : string * ReactorWrapper E -> Prop) (seen : list (string * ReactorWrapper E))
    J n q hs w w' (b : bool) : Prop :=
  exists J' n' q', Serving J' [] q' n' hs w' /\ frame w w' /\ shutdown_requested (rt w') = shutdown_requested (rt w) /\
    size J' = size J /\
    (potential J' n' < potential J n /\ b = true \/
     J' = J /\ n' = n /\ q' = q /\ forall nm l, Owes nm l (env w) -> exists l', l' <= l /\ Owes nm l' (env w') /\
       forall x, (nm, x) ∈ seen -> l' < l \/ same (nm, x) /\ ~ ready it x).

Lemma reactor_polled nm x J n q hs w :
  Serving J [] q n hs w -> (nm, reactor x) ∈ sreactors sv -> room (size J) ->
  exists w', poll_reactor x w = Ok (w', mkWrapper (reactor x) (wrap64 (poll_counter x + 1)) (enable x) (cached_status x)
      (cache_valid_until_iteration x)) /\
    exists J' n' q', Serving J' [] q' n' hs w' /\ frame w w' /\ shutdown_requested (rt w') = shutdown_requested (rt w) /\
      size J' = size J /\
      (potential J' n' < potential J n \/
       J' = J /\ n' = n /\ q' = q /\ forall nm' l, Owes nm' l (env w) -> nm' <> nm /\ Owes nm' l (env w')).
Proof.
  intros HS0 Hin Hroom. unfold poll_reactor.
  destruct (sv_poll _ _ _ _ _ _ (sg_inv _ _ _ _ _ _ HS0) Hin) as (e' & ids & n' & Hp & _ & Hnd & Hids & Hn & HI & Hor).
  destruct (woken_serving ids J q n n' hs w e' HS0 Hnd Hroom Hids HI) as (w' & Hw & HS' & Hf & Hd & He & Hz & Hlt).
  rewrite Hp. cbn [mbind outcome_bind]. rewrite Hw. cbn [mbind outcome_bind mret outcome_ret].
  exists w'. split; [done|]. exists (wake_jobs ids J), n', (q ++ ids). do 4 (split; [done|]).
  assert (Hle := wake_jobs_sum ids job_weight J job_woken_weight). unfold potential.
  destruct (decide (ids = [])) as [->|Hne].
  - rewrite wake_jobs_nil, app_nil_r. destruct Hor as [?|[Hlt'|Ho]]; [done|left; lia|].
    destruct (decide (n' = n)) as [->|]; [|left; lia]. right. do 3 (split; [done|]). by rewrite He.
  - left. specialize (Hlt Hne). lia.
Qed.

(** The body of the loop over the reactors. *)
Lemma entry_step it nm x J n q hs w :
  Serving J [] q n hs w -> scheduling_config (rt w) = cfg -> room (size J) -> registered (it + 1) (nm, x) ->
  (0 <= it + status_cache_iterations cfg)%Z ->
  exists w' x' b, (let '(w, x, status) := get_cached_reactor_status x it w in
      match status with
      | Running => '(w, x) ← poll_reactor x w; mret (w, x, true)
      | Stopped => mret (w, x, false)
      end) = Ok (w', x', b) /\ registered (it + 1) (nm, x') /\
    stepped it (eq (nm, x')) [(nm, x)] J n q hs w w' b.
Proof.
  intros HS0 Hc Hroom [Hin Hen Hva] Hit. cbn [fst snd] in *. unfold get_cached_reactor_status.
  destruct (Z.ltb_spec it (cache_valid_until_iteration x)) as [Hlt|Hge].
  - destruct (cached_status x) eqn:Hst.
    + destruct (reactor_polled nm x J n q hs w HS0 Hin Hroom) as (w' & Hp & J' & n' & q' & HS' & Hf & Hd & Hz & Hor).
      rewrite Hp. cbn [mbind outcome_bind mret outcome_ret]. eexists _, _, _. split; [done|]. split; [by split|].
      exists J', n', q'. do 4 (split; [done|]). destruct Hor as [?|(-> & -> & -> & Ho)]; [by left|right].
      do 3 (split; [done|]). intros nm' l Hl. destruct (Ho nm' l Hl) as [Hne Hl']. exists l. split; [done|]. split; [done|].
      intros y [=]%list_elem_of_singleton. by destruct Hne.
    + eexists _, _, _. split; [done|]. split; [by split|]. exists J, n, q. do 4 (split; [done|]). right.
      do 3 (split; [done|]). intros nm' l Hl. exists l. do 2 (split; [done|]). intros y [= -> ->]%list_elem_of_singleton. right.
      split; [done|]. intros [Hr|Hr]; [congruence|lia].
  - destruct (sv_status _ _ _ _ _ _ (sg_inv _ _ _ _ _ _ HS0) Hin) as (e' & st & Hs & Ht & HI & Ho). rewrite Hs.
    set (x1 := mkWrapper _ _ _ _ _).
    assert (HS1 : Serving J [] q n hs (set_env e' w)) by (destruct HS0; by split).
    assert (Hr1 : registered (it + 1) (nm, x1)).
    { split; [done|done|]. cbn. rewrite Hc. assert (Hm := Z.mod_le (it + status_cache_iterations cfg) (2 ^ 64)).
      unfold wrap64. lia. }
    destruct st.
    + destruct (reactor_polled nm x1 J n q hs _ HS1 Hin Hroom) as (w' & Hp & J' & n' & q' & HS' & Hf & Hd & Hz & Hor).
      rewrite Hp. cbn [mbind outcome_bind mret outcome_ret]. eexists _, _, _. split; [done|].
      split; [destruct Hr1; by split|].
      exists J', n', q'. split; [done|]. split; [by transitivity (set_env e' w)|]. do 2 (split; [done|]).
      destruct Hor as [?|(-> & -> & -> & Ho')]; [by left|right].
      do 3 (split; [done|]). intros nm' l Hl. destruct (Ho nm' l Hl) as (l' & Hl' & Hl1 & _).
      destruct (Ho' nm' l' Hl1) as [Hne Hl2]. exists l'. split; [done|]. split; [done|].
      intros y [=]%list_elem_of_singleton. by destruct Hne.
    + eexists _, _, _. split; [done|]. split; [done|]. exists J, n, q. split; [done|]. do 3 (split; [done|]). right.
      do 3 (split; [done|]). intros nm' l Hl. destruct (Ho nm' l Hl) as (l' & Hl' & Hl1 & Hlt). exists l'. split; [done|].
      split; [done|]. intros y [= -> ->]%list_elem_of_singleton. left. by apply Hlt.
Qed.

Lemma loop_step it l : forall J n q hs w,
  Serving J [] q n hs w -> scheduling_config (rt w) = cfg -> room (size J) -> Forall (registered (it + 1)) l ->
  (0 <= it + status_cache_iterations cfg)%Z ->
  exists w' l' b, poll_reactors_loop it l w = Ok (w', l', b) /\ Forall (registered (it + 1)) l' /\
    l'.*1 = l.*1 /\ stepped it (fun y => y ∈ l') l J n q hs w w' b.
Proof.
  induction l as [|[nm x] l IH]; intros J n q hs w HS0 Hc Hroom Hreg Hit; cbn [poll_reactors_loop].
  { exists w, [], false. do 3 (split; [done|]). exists J, n, q. do 4 (split; [done|]). right.
    do 3 (split; [done|]). intros nm l0 Hl. exists l0. do 2 (split; [done|]). by intros y ?%elem_of_nil. }
  apply Forall_cons in Hreg as [Hx Hreg]. assert (Hen := rg_enabled _ _ Hx). cbn [snd] in Hen. rewrite Hen. cbn [negb].
  destruct (entry_step it nm x J n q hs w HS0 Hc Hroom Hx Hit) as (w1 & x1 & b1 & He & Hx1 & HT1).
  destruct (get_cached_reactor_status x it w) as [[w0 x0] st]. rewrite He. cbn [mbind outcome_bind].
  destruct HT1 as (J1 & n1 & q1 & HS1 & Hf1 & Hd1 & Hz1 & Hor1).
  destruct (IH J1 n1 q1 hs w1 HS1) as (w2 & l2 & b2 & Hl & Hreg2 & Hnm2 & J2 & n2 & q2 & HS2 & Hf2 & Hd2 & Hz2 & Hor2).
  { by rewrite (fr_config _ _ Hf1). }
  { by rewrite Hz1. }
  { done. }
  { done. }
  rewrite Hl. cbn [mbind outcome_bind mret outcome_ret]. eexists w2, _, _. split; [done|]. split; [by constructor|].
  split; [cbn; by f_equal|]. exists J2, n2, q2. split; [done|]. split; [by transitivity w1|]. split; [congruence|]. split; [congruence|].
  assert (Hb : b1 = true \/ b2 = true -> b1 || b2 = true) by (intros [-> | ->]; [done|apply orb_true_r]).
  destruct Hor1 as [[Hl1 ->]|(-> & -> & -> & Ho1)], Hor2 as [[Hl2 ->]|(-> & -> & -> & Ho2)].
  - left. split; [lia|done].
  - left. split; [lia|done].
  - left. split; [lia|apply orb_true_r].
  - right. do 3 (split; [done|]). intros nm' k Hk. destruct (Ho1 nm' k Hk) as (k1 & Hk1 & Ho & Hs1).
    destruct (Ho2 nm' k1 Ho) as (k2 & Hk2 & Ho' & Hs2). exists k2. split; [lia|]. split; [done|].
    intros y [Heq|Hy]%elem_of_cons.
    + destruct (Hs1 y) as [?|[<- ?]]; [rewrite Heq; by left|left; lia|right]. split; [by left|done].
    + destruct (Hs2 y Hy) as [?|[? ?]]; [left; lia|right]. split; [by right|done].
Qed.

(** The registered reactors are those of the service. *)
Record Reactors w : Prop := {
  rc_config : scheduling_config (rt w) = cfg;
  rc_registered : Forall (registered (iteration_count (rt w))) (reactors (rt w));
  rc_all nm : nm ∈ (sreactors sv).*1 -> nm ∈ (reactors (rt w)).*1;
  rc_running : shutdown_requested (rt w) = false;
  rc_iter : (0 <= iteration_count (rt w))%Z
}.

Lemma registered_later it it' y : (it <= it')%Z -> registered it y -> registered it' y.
Proof. intros Hi [? ? ?]. split; [done|done|lia]. Qed.

Record SchedOk : Prop := {
  so_interval : (0 < reactor_poll_interval cfg)%Z;
  so_batch : 1 <= task_batch_size cfg;
  so_cache : (0 <= status_cache_iterations cfg)%Z;
  so_reactor_only : (1 <= env_u64 "PLUVIO_MAX_REACTOR_ONLY" 1000000)%Z
}.
Context (Hok : SchedOk).

(** Pass [it] polls the reactors, unless the safety bound says otherwise. *)
Definition polls_in (it : Z) : Prop := (it <= 1 \/ it `mod` reactor_poll_interval cfg = 0)%Z.

#[local] Instance polls_in_dec it : Decision (polls_in it).
Proof. unfold polls_in. apply _. Defined.

(** The world when the reactors are polled in a pass of [run_queue]. *)
Definition opened (c : C) (over : bool) w : SWorld :=
  let w := on_rt (fun r => set_polling_task_buffer [] (set_polling_chan c r))
    (on_rt (set_iteration_count (wrap64 (iteration_count (rt w) + 1))) w) in
  if over then on_rt (set_reactor_only_count 0) w else w.

(** The safety bound suspends the reactors in this pass. *)
Definition suspended w : bool := (env_u64 "PLUVIO_MAX_REACTOR_ONLY" 1000000 <=? reactor_only_count (rt w))%Z.

(** A pass with an empty polling queue. *)
Lemma pass_unfold w q : queues w [] q -> scheduling_config (rt w) = cfg ->
  exists c, chan_rep c [] /\
  let w0 := opened c (suspended w) w in
  let pn := negb (suspended w) && bool_decide (polls_in (iteration_count (rt w))) in
  forall w1 b1, (if pn then poll_reactors (iteration_count (rt w)) w0 else mret (w0, false)) = Ok (w1, b1) ->
  polling_task_buffer (rt w1) = [] -> scheduling_config (rt w1) = cfg ->
  forall q1, queues w1 [] q1 ->
  exists c1, chan_rep c1 (drop (task_batch_size cfg) q1) /\ forall w2 b2,
    poll_buffer (take (task_batch_size cfg) q1)
      (on_rt (fun r => set_task_buffer (take (task_batch_size cfg) q1) (set_task_chan c1 r)) w1) = Ok (w2, b2) ->
    run_queue_pass w = Ok (idle_park b2 (update_reactor_only b2 pn w2), b1 || b2).
Proof.
  intros Hq Hc.
  destruct (drain_polling_spec (on_rt (set_iteration_count (wrap64 (iteration_count (rt w) + 1))) w) [] q Hq) as (c & Hd & Hc0).
  exists c. split; [done|]. intros w0 pn w1 b1 Hr Hb Hc1 q1 Hq1. destruct (take_batch_spec w1 [] q1 Hq1) as (c1 & Ht & Hc1').
  rewrite Hc1 in Ht, Hc1'. exists c1. split; [done|]. intros w2 b2 Hp. unfold run_queue_pass, next_iteration. cbv zeta.
  rewrite Hd. cbn [mbind outcome_bind]. unfold check_safety_bound. cbn [rt on_rt set_rt reactor_only_count set_iteration_count
    set_polling_task_buffer set_polling_chan]. fold (suspended w). fold (opened c (suspended w) w). fold w0.
  assert (Hsp : should_poll (suspended w) (iteration_count (rt w)) w0 = Ok pn).
  { unfold should_poll, on_interval, pn, polls_in. destruct (suspended w) eqn:Hs; [done|]. unfold w0, opened. cbn.
    rewrite Hc. destruct (Z.leb_spec (iteration_count (rt w)) 1); [by rewrite bool_decide_true by by left|].
    destruct (Z.eqb_spec (reactor_poll_interval cfg) 0); [destruct Hok; lia|]. unfold mret, outcome_ret. f_equal.
    destruct (Z.eqb_spec (iteration_count (rt w) `mod` reactor_poll_interval cfg) 0).
    - symmetry. apply bool_decide_true. by right.
    - symmetry. apply bool_decide_false. intros []; lia. }
  rewrite Hsp. cbn [mbind outcome_bind]. rewrite Hr. cbn [mbind outcome_bind]. rewrite Hb. cbn [poll_buffer mbind outcome_bind mret outcome_ret].
  rewrite Ht. cbn [mbind outcome_bind]. cbn [rt on_rt set_rt task_buffer set_task_buffer]. rewrite Hp. cbn [mbind outcome_bind mret outcome_ret].
  by rewrite orb_false_r.
Qed.

(** The reactor phase of a pass. *)
Definition phase (c : C) w : outcome (SWorld * bool) :=
  let w0 := opened c (suspended w) w in
  if negb (suspended w) && bool_decide (polls_in (iteration_count (rt w)))
  then poll_reactors (iteration_count (rt w)) w0 else mret (w0, false).

Definition polled_now w : bool := negb (suspended w) && bool_decide (polls_in (iteration_count (rt w))).

(** What the jobs owe after it: it lowered the potential, or every reactor that owes
    something still does, and the status of those that were ready was read, unless the
    phase was skipped. *)
Definition phased J n (q : list nat) w J' n' q' w' (b : bool) : Prop :=
  potential J' n' < potential J n /\ b = true \/
  J' = J /\ n' = n /\ q' = q /\ forall nm l, Owes nm l (env w) -> exists l', l' <= l /\ Owes nm l' (env w') /\
    forall x, (nm, x) ∈ reactors (rt w) ->
      l' < l \/ (nm, x) ∈ reactors (rt w') /\ (polled_now w = true -> ~ ready (iteration_count (rt w)) x).

Lemma opened_reactors c o w : Reactors w -> (iteration_count (rt w) < u64_max)%Z ->
  Reactors (opened c o w) /\ iteration_count (rt (opened c o w)) = (iteration_count (rt w) + 1)%Z.
Proof.
  intros [R1 R2 R3 R4 R5] Hi.
  assert (Hw : wrap64 (iteration_count (rt w) + 1) = (iteration_count (rt w) + 1)%Z)
    by (apply wrap64_small; unfold in_u64, u64_max in *; lia).
  assert (Hi' : iteration_count (rt (opened c o w)) = (iteration_count (rt w) + 1)%Z) by (by destruct o).
  assert (Hr : reactors (rt (opened c o w)) = reactors (rt w)) by (by destruct o).
  split; [|done]. split.
  - by destruct o.
  - rewrite Hi', Hr. eapply Forall_impl; [exact R2|]. intros y. apply registered_later. lia.
  - by rewrite Hr.
  - by destruct o.
  - rewrite Hi'. lia.
Qed.

Lemma phase_ok c J n q hs w :
  Serving J [] q n hs w -> Reactors w -> chan_rep c [] -> room (size J) -> (iteration_count (rt w) < u64_max)%Z ->
  exists w' b J' n' q', phase c w = Ok (w', b) /\ Serving J' [] q' n' hs w' /\ Reactors w' /\ size J' = size J /\
    polling_task_buffer (rt w') = [] /\ iteration_count (rt w') = (iteration_count (rt w) + 1)%Z /\
    reactor_only_count (rt w') = (if suspended w then 0%Z else reactor_only_count (rt w)) /\
    phased J n q w J' n' q' w' b.
Proof.
  intros HS0 HR Hc Hroom Hi. destruct (opened_reactors c (suspended w) w HR Hi) as [HR0 Hi0].
  assert (HS1 : Serving J [] q n hs (opened c (suspended w) w)).
  { eapply serving_same, HS0; try (by destruct (suspended w)). destruct (sg_queues _ _ _ _ _ _ HS0) as [_ Hq].
    by destruct (suspended w). }
  unfold phase. fold (polled_now w). destruct (polled_now w) eqn:Hpn.
  - destruct HR0 as [R1 R2 R3 R4 R5]. rewrite Hi0 in R2. assert (Hpos := rc_iter _ HR). assert (Hca := so_cache Hok).
    destruct (loop_step (iteration_count (rt w)) (reactors (rt (opened c (suspended w) w))) J n q hs _ HS1 R1 Hroom R2)
      as (w1 & l1 & b1 & Hl & Hreg1 & Hnm1 & J1 & n1 & q1 & HS2 & Hf & Hd & Hz & Hor); [lia|].
    unfold poll_reactors. rewrite Hl. cbn [mbind outcome_bind mret outcome_ret].
    eexists _, _, J1, n1, q1. split; [done|]. split; [eapply serving_same, HS2; try done; by destruct (sg_queues _ _ _ _ _ _ HS2)|].
    split; [split|].
    + change (scheduling_config (rt w1) = cfg). by rewrite (fr_config _ _ Hf).
    + change (Forall (registered (iteration_count (rt w1))) l1). by rewrite (fr_iter _ _ Hf), Hi0.
    + intros nm Hnm. change (nm ∈ l1.*1). rewrite Hnm1. by apply R3.
    + change (shutdown_requested (rt w1) = false). by rewrite Hd.
    + change (0 <= iteration_count (rt w1))%Z. by rewrite (fr_iter _ _ Hf).
    + split; [done|]. split; [change (polling_task_buffer (rt w1) = []); rewrite (fr_pbuf _ _ Hf); by destruct (suspended w)|].
      split; [change (iteration_count (rt w1) = (iteration_count (rt w) + 1)%Z); by rewrite (fr_iter _ _ Hf), Hi0|].
      split; [change (reactor_only_count (rt w1) = (if suspended w then 0%Z else reactor_only_count (rt w)));
        rewrite (fr_ronly _ _ Hf); by destruct (suspended w)|].
      destruct Hor as [?|(-> & -> & -> & Ho)]; [by left|right]. do 3 (split; [done|]). intros nm l Hl0.
      destruct (Ho nm l) as (l' & Hle & Hl' & Hsn); [by destruct (suspended w)|]. exists l'. split; [done|]. split; [done|].
      intros x Hx. destruct (Hsn x) as [?|[? ?]]; [by destruct (suspended w)|by left|by right].
  - eexists _, _, J, n, q. split; [done|]. split; [done|]. split; [done|]. split; [done|].
    split; [by destruct (suspended w)|]. split; [done|]. split; [by destruct (suspended w)|]. right.
    do 3 (split; [done|]). intros nm l Hl. exists l. split; [done|]. split; [by destruct (suspended w)|].
    intros x Hx. right. split; [by destruct (suspended w)|]. rewrite Hpn. done.
Qed.

(** The reactor [nm] will be polled or looked at within [P] passes.  The safety bound may
    suspend the pass in which it is due; then its counter starts again and the next
    one is not suspended. *)
Definition Soon (P : nat) nm w : Prop := exists x (i : Z), (nm, x) ∈ reactors (rt w) /\ (0 <= i)%Z /\
  ((iteration_count (rt w) + i) `mod` reactor_poll_interval cfg = 0)%Z /\ ready (iteration_count (rt w) + i) x /\
  ((i + reactor_poll_interval cfg <= Z.of_nat P)%Z \/
   (i <= Z.of_nat P)%Z /\ reactor_only_count (rt w) = 0%Z /\ ready (iteration_count (rt w)) x).

(** What is left of a pass after its tasks were polled. *)
Definition closed (b pn : bool) w : SWorld := idle_park b (update_reactor_only b pn w).

Lemma closed_same b pn w :
  task_pool (rt (closed b pn w)) = task_pool (rt w) /\ task_chan (rt (closed b pn w)) = task_chan (rt w) /\
  polling_chan (rt (closed b pn w)) = polling_chan (rt w) /\ env (closed b pn w) = env w /\
  heap (closed b pn w) = heap w /\ next_addr (closed b pn w) = next_addr w /\
  reactors (rt (closed b pn w)) = reactors (rt w) /\ scheduling_config (rt (closed b pn w)) = scheduling_config (rt w) /\
  iteration_count (rt (closed b pn w)) = iteration_count (rt w) /\
  shutdown_requested (rt (closed b pn w)) = shutdown_requested (rt w) /\
  (pn = false -> reactor_only_count (rt w) = 0%Z -> reactor_only_count (rt (closed b pn w)) = 0%Z).
Proof.
  unfold closed, idle_park, update_reactor_only, yield_thread.
  repeat case_match; cbn; repeat split; try done; destruct b, pn; done.
Qed.

Lemma soon_later P nm w w' :
  iteration_count (rt w') = (iteration_count (rt w) + 1)%Z ->
  (suspended w = true -> reactor_only_count (rt w') = 0%Z) ->
  (polled_now w = false -> reactor_only_count (rt w) = 0%Z -> reactor_only_count (rt w') = 0%Z) ->
  (forall x, (nm, x) ∈ reactors (rt w) ->
     (nm, x) ∈ reactors (rt w') /\ (polled_now w = true -> ~ ready (iteration_count (rt w)) x)) ->
  Soon P nm w -> exists P', P = S P' /\ Soon P' nm w'.
Proof.
  intros Hi Hsus Hcnt Hkept (x & i & Hy & Hi0 & Hm & Hr & Hor). destruct (Hkept x Hy) as [Hx Hnr].
  set (it := iteration_count (rt w)) in *. set (iv := reactor_poll_interval cfg) in *.
  assert (Hiv := so_interval Hok). fold iv in Hiv. assert (Hro := so_reactor_only Hok).
  assert (Hmono : forall a b, (a <= b)%Z -> ready a x -> ready b x) by (intros a b Hab [?|?]; [by left|right; lia]).
  destruct (decide (i = 0)%Z) as [->|Hne].
  - rewrite Z.add_0_r in *.
    assert (Hpl : polls_in it) by (by right).
    destruct (suspended w) eqn:Hs; cycle 1.
    { destruct Hnr; [|done]. unfold polled_now. by rewrite Hs, bool_decide_true. }
    destruct Hor as [Hor|(_ & H0' & _)].
    + destruct P as [|P]; [lia|]. exists P. split; [done|]. exists x, (iv - 1)%Z. rewrite Hi. split; [done|]. split; [lia|].
      replace (it + 1 + (iv - 1))%Z with (it + 1 * iv)%Z by lia.
      split; [by rewrite Z_mod_plus_full|]. split; [eapply Hmono, Hr; lia|]. right. split; [lia|].
      split; [by apply Hsus|]. eapply Hmono, Hr. lia.
    + unfold suspended in Hs. rewrite H0' in Hs. apply Z.leb_le in Hs. lia.
  - destruct P as [|P]; [lia|]. exists P. split; [done|]. exists x, (i - 1)%Z. rewrite Hi. split; [done|]. split; [lia|].
    replace (it + 1 + (i - 1))%Z with (it + i)%Z by lia. split; [done|]. split; [done|].
    destruct Hor as [Hor|(Hor & H0' & Hrd)]; [left; lia|right]. split; [lia|].
    assert (Hpn : polled_now w = false) by (destruct (polled_now w); [by destruct Hnr|done]).
    split; [by apply Hcnt|]. eapply Hmono, Hrd. lia.
Qed.

(** The queue's oldest ids move to the buffer. *)
Lemma batched_serving J q n hs w c1 k :
  Serving J [] q n hs w -> chan_rep c1 (drop k q) ->
  Serving J (take k q) (drop k q) n hs (on_rt (fun r => set_task_buffer (take k q) (set_task_chan c1 r)) w).
Proof.
  intros [Sp Sj Sq Sn Sr Si Sm Sc Sx Ss] Hc. split; try done.
  - split; [apply Sq|done].
  - by rewrite take_drop.
  - by rewrite take_drop.
Qed.

(** One pass of [run_queue]. *)
Lemma pass_ok J n q hs w :
  Serving J [] q n hs w -> Reactors w -> room (size J) -> (iteration_count (rt w) < u64_max)%Z ->
  exists w' b J' n' q', run_queue_pass w = Ok (w', b) /\ Serving J' [] q' n' hs w' /\ Reactors w' /\
    iteration_count (rt w') = (iteration_count (rt w) + 1)%Z /\ size J' <= size J /\
    (potential J' n' < potential J n /\ (b = true \/ length q' < length q) \/
     q = [] /\ J' = J /\ n' = n /\ q' = [] /\ forall nm l, Owes nm l (env w) -> exists l', l' <= l /\ Owes nm l' (env w') /\
       forall P, Soon P nm w -> l' < l \/ exists P', P = S P' /\ Soon P' nm w').
Proof.
  intros HS0 HR Hroom Hi. destruct (pass_unfold w q (sg_queues _ _ _ _ _ _ HS0) (rc_config _ HR)) as (c & Hc & Hgo).
  destruct (phase_ok c J n q hs w HS0 HR Hc Hroom Hi) as (w1 & b1 & J1 & n1 & q1 & Hp & HS1 & HR1 & Hz1 & Hb1 & Hi1 & Hro1 & Hph).
  destruct (Hgo w1 b1 Hp Hb1 (rc_config _ HR1) q1 (sg_queues _ _ _ _ _ _ HS1)) as (c1 & Hc1 & Hfin).
  set (k := task_batch_size cfg) in *. assert (Hk : 1 <= k) by apply Hok.
  destruct (poll_many (take k q1) J1 n1 (drop k q1) hs _ (batched_serving J1 q1 n1 hs w1 c1 k HS1 Hc1))
    as (w2 & b2 & J2 & n2 & Hp2 & HS2 & Hf2 & Hd2 & Hl2 & Hz2 & Hnil).
  specialize (Hfin w2 b2 Hp2). fold (polled_now w) in Hfin. fold (closed b2 (polled_now w) w2) in Hfin.
  destruct (closed_same b2 (polled_now w) w2) as (C1 & C2 & C3 & C4 & C5 & C6 & C7 & C8 & C9 & C10 & C11).
  set (w3 := closed b2 (polled_now w) w2) in *. rewrite length_take in Hl2.
  assert (HS3 : Serving J2 [] (drop k q1) n2 hs w3).
  { eapply serving_same, HS2; try done. unfold queues. rewrite C2, C3. apply HS2. }
  assert (Hr3 : reactors (rt w3) = reactors (rt w1)) by (rewrite C7; apply (fr_reactors _ _ Hf2)).
  assert (Hi3 : iteration_count (rt w3) = (iteration_count (rt w) + 1)%Z) by (rewrite C9, (fr_iter _ _ Hf2); exact Hi1).
  exists w3, (b1 || b2), J2, n2, (drop k q1). split; [done|]. split; [done|]. split; [|split; [done|split; [lia|]]].
  { destruct HR1 as [R1 R2 R3 R4 R5]. split; rewrite ?Hr3, ?Hi3, <- ?Hi1; try done.
    - rewrite C8, (fr_config _ _ Hf2). exact R1.
    - rewrite C10, Hd2. exact R4. }
  destruct Hph as [[Hlt ->]|(-> & -> & -> & Ho)]; [left; split; [lia|by left]|].
  destruct q as [|i q]; cycle 1.
  { left. rewrite length_drop. cbn [length] in *. split; [lia|right; lia]. }
  right. rewrite take_nil, drop_nil in *. destruct (Hnil eq_refl) as (-> & -> & -> & Hw2). split; [done|].
  do 3 (split; [done|]). intros nm l Hl. destruct (Ho nm l Hl) as (l' & Hle & Hl' & Hkept).
  exists l'. split; [done|]. split; [rewrite C4, Hw2; exact Hl'|]. intros P HP.
  destruct (decide (l' < l)) as [|Hnl]; [by left|right]. apply (soon_later P nm w); [done|..|exact HP].
  - intros Hs. rewrite Hs in Hro1. apply C11; [unfold polled_now; by rewrite Hs|by rewrite Hw2].
  - intros Hpn Hz. apply C11; [done|]. rewrite Hw2. change (reactor_only_count (rt w1) = 0%Z). rewrite Hro1, Hz. by destruct (suspended w).
  - intros x Hx. rewrite Hr3. by destruct (Hkept x Hx).
Qed.

(** ** The loop *)

(** Passes within which a reactor is polled or its status read. *)
Definition patience2 : nat := Z.to_nat (status_cache_iterations cfg + 2 * reactor_poll_interval cfg).

Lemma soon_at_first nm w : Reactors w -> nm ∈ (sreactors sv).*1 -> Soon patience2 nm w.
Proof.
  intros HR ([nm' x] & Hnm & Hx)%(rc_all _ HR)%list_elem_of_fmap. cbn in Hnm. subst nm'.
  destruct Hok as [Hiv _ Hca _]. assert (Hg := rc_registered _ HR). rewrite Forall_forall in Hg.
  destruct (Hg _ Hx) as [_ _ Hv]. cbn in Hv. set (iv := reactor_poll_interval cfg) in *.
  set (a := (iteration_count (rt w) + status_cache_iterations cfg)%Z) in *. assert (Hm := Z.mod_pos_bound (- a) iv Hiv).
  exists x, (status_cache_iterations cfg + (- a) mod iv)%Z. split; [done|]. split; [lia|].
  replace (iteration_count (rt w) + _)%Z with (a + (- a) mod iv)%Z by lia. fold iv.
  split; [rewrite Zplus_mod_idemp_r; replace (a + - a)%Z with 0%Z by lia; apply Z.mod_0_l; lia|].
  split; [right; lia|]. left. unfold patience2. fold iv. lia.
Qed.

(** A yield of the thread changes nothing of this. *)
Lemma yield_serving J q n hs o w : Serving J [] q n hs w -> Serving J [] q n hs (yield_thread o w).
Proof. intros HS0. eapply serving_same, HS0; try done. apply HS0. Qed.
Lemma yield_reactors o w : Reactors w -> Reactors (yield_thread o w).
Proof. intros []. by split. Qed.

Lemma stuck_step max_stuck (b : bool) stuck sleep w : (max_stuck <= u64_max)%Z -> (0 <= stuck)%Z ->
  (b = false -> (stuck + 1 <= max_stuck)%Z) ->
  exists w' stuck' sleep', stuck_check max_stuck b stuck sleep w = (w', stuck', sleep', false) /\
    (w' = w \/ exists o, w' = yield_thread o w) /\ stuck' = (if b then 0 else stuck + 1)%Z.
Proof.
  intros Hm Hs Hb. unfold stuck_check. destruct b; [eexists _, _, _; split; [done|]; by auto|].
  specialize (Hb eq_refl). rewrite (wrap64_small (stuck + 1)) by (unfold in_u64, u64_max in *; lia).
  rewrite (proj2 (Z.ltb_ge _ _)) by lia.
  destruct (_ =? _)%Z.
  - eexists _, _, _. split; [done|]. split; [right; by eexists|done].
  - exists w, (stuck + 1)%Z, sleep. split; [done|]. split; [by left|done].
Qed.

Lemma pool_empty J pend q n hs w : Serving J pend q n hs w -> slab_len (task_pool (rt w)) = 0 <-> J = ∅.
Proof.
  intros HS0. rewrite slab_len_view. fold (view w). rewrite map_size_empty_iff. split.
  - intros Hv. apply map_eq. intros id. assert (Hp := sg_pool _ _ _ _ _ _ HS0 id). rewrite lookup_empty.
    destruct (J !! id) as [j|]; [|done]. destruct Hp as [st Hp]. by rewrite Hv, lookup_empty in Hp.
  - intros ->. apply map_eq. intros id. assert (Hp := sg_pool _ _ _ _ _ _ HS0 id). by rewrite lookup_empty in *.
Qed.

(** With nothing queued, some task waits, and a reactor owes it something. *)
Lemma someone_owes J n hs w : Serving J [] [] n hs w -> J <> ∅ ->
  exists nm l, nm ∈ (sreactors sv).*1 /\ l <= sv_looks /\ Owes nm l (env w).
Proof.
  intros HS0 (id & j & Hj)%map_choose. assert (Hr : runnable j = false).
  { destruct (runnable j) eqn:Hr; [|done]. exfalso. apply (not_elem_of_nil (A := nat) id).
    apply (sg_runnable _ _ _ _ _ _ HS0). by exists j. }
  assert (Hjo := sg_jobs _ _ _ _ _ _ HS0 _ _ Hj). unfold runnable, job_ok in *.
  destruct (jwait j) as [[f0 [|]]|] eqn:Hw; try done. destruct Hjo as (f & k & Hp & _).
  apply (sv_owes _ _ _ _ id (mkLeaf f f0 false) (sg_inv _ _ _ _ _ _ HS0)); [|done].
  rewrite omap_leaf_lookup, Hj. cbn. unfold job_leaf. by rewrite Hw, Hp.
Qed.

(** Passes between two events. *)
Definition round : nat := S sv_looks * S patience2.

Context (T : nat) (HT : room (C := C) T) (max_stuck : Z) (H64 : (max_stuck <= u64_max)%Z).
Context (Hmax : (Z.of_nat (T + round) <= max_stuck)%Z).

(** The run ends with every task finished. *)
Definition served_out (hs : list (nat * Fn)) (r : outcome (SWorld * Exit)) : Prop :=
  exists w' n', r = Ok (w', PoolEmpty) /\ Serving ∅ [] [] n' hs w' /\ Reactors w'.

(** From any state of potential at most [P]. *)
Definition runs_out (P : nat) : Prop := forall J n q hs w fuel stuck sleep,
  potential J n = P -> Serving J [] q n hs w -> Reactors w -> size J <= T -> (0 <= stuck)%Z ->
  (stuck + Z.of_nat (length q + round) <= max_stuck)%Z -> S P * round <= fuel ->
  (iteration_count (rt w) + Z.of_nat (S P * round) <= u64_max)%Z ->
  served_out hs (run_queue_loop fuel max_stuck stuck sleep w).

Lemma round_pos : 1 <= round.
Proof. unfold round. cbn. lia. Qed.

Lemma loop_empty J q n hs w fuel stuck sleep : Serving J [] q n hs w -> Reactors w -> J = ∅ ->
  served_out hs (run_queue_loop fuel max_stuck stuck sleep w).
Proof.
  intros HS0 HR ->. assert (Hl := proj2 (pool_empty _ _ _ _ _ _ HS0) eq_refl). exists w, n.
  destruct fuel; cbn [run_queue_loop]; rewrite Hl; (split; [done|]); split; try done.
  all: assert (q = []) as -> by (destruct q as [|id q]; [done|];
    destruct (proj1 (sg_runnable _ _ _ _ _ _ HS0 id)) as (j & Hj & _); [by left|by rewrite lookup_empty in Hj]); done.
Qed.

(** A pass that lowered the potential. *)
Lemma after_event P J' n' q' hs w' fuel stuck sleep :
  (forall P', P' < P -> runs_out P') -> potential J' n' < P -> Serving J' [] q' n' hs w' -> Reactors w' -> size J' <= T ->
  (0 <= stuck)%Z -> (stuck = 0 \/ stuck + Z.of_nat (length q' + round) <= max_stuck)%Z ->
  P * round <= fuel -> (iteration_count (rt w') + Z.of_nat (P * round) <= u64_max)%Z ->
  served_out hs (run_queue_loop fuel max_stuck stuck sleep w').
Proof.
  intros IH Hlt HS' HR' Hz Hst Hor Hf Hi.
  assert (Hm : S (potential J' n') * round <= P * round) by (by apply Nat.mul_le_mono_r).
  assert (Hq := serving_queue _ _ _ _ _ _ HS'). cbn [app] in Hq.
  apply (IH _ Hlt J' n' q'); try done; lia.
Qed.

(** One turn of the loop. *)
Lemma loop_turn J n q hs w fuel stuck sleep w1 b :
  Serving J [] q n hs w -> Reactors w -> J <> ∅ -> run_queue_pass w = Ok (w1, b) -> (0 <= stuck)%Z ->
  (b = false -> (stuck + 1 <= max_stuck)%Z) ->
  exists w' sleep', (w' = w1 \/ exists o, w' = yield_thread o w1) /\
    run_queue_loop (S fuel) max_stuck stuck sleep w =
    run_queue_loop fuel max_stuck (if b then 0 else stuck + 1) sleep' w'.
Proof.
  intros HS0 HR HJ Hp Hst Hb. cbn [run_queue_loop]. destruct (Nat.eqb_spec (slab_len (task_pool (rt w))) 0) as [Hl|_].
  { by apply (pool_empty _ _ _ _ _ _ HS0) in Hl. }
  rewrite (rc_running _ HR). unfold run_queue_iter. rewrite Hp. cbn [mbind outcome_bind mret outcome_ret].
  destruct (stuck_step max_stuck b stuck sleep w1 H64 Hst Hb) as (w' & stuck' & sleep' & -> & Hw & ->). by exists w', sleep'.
Qed.

(** The states in which every task waits: [l] looks and then [P] passes until the reactor
    [nm], which owes something, does it. *)
Lemma waiting_runs_out N : (forall N', N' < N -> runs_out N') -> forall l P J n hs w nm fuel stuck sleep,
  potential J n = N -> Serving J [] [] n hs w -> Reactors w -> J <> ∅ -> size J <= T ->
  Owes nm l (env w) -> nm ∈ (sreactors sv).*1 -> Soon P nm w -> l <= sv_looks -> P <= patience2 ->
  (0 <= stuck)%Z -> (stuck + Z.of_nat (l * S patience2 + P) <= max_stuck)%Z ->
  N * round + l * S patience2 + P < fuel ->
  (iteration_count (rt w) + Z.of_nat (N * round + l * S patience2 + P) < u64_max)%Z ->
  served_out hs (run_queue_loop fuel max_stuck stuck sleep w).
Proof.
  intros IH l. induction l as [l IHl] using lt_wf_ind. intros P. induction P as [P IHP] using lt_wf_ind.
  intros J n hs w nm fuel stuck sleep HN HS0 HR HJ Hz Ho Hnm Hsoon Hl HP Hst Hsum Hf Hi.
  destruct fuel as [|fuel]; [lia|].
  assert (Hroom : room (C := C) (size J)) by (unfold room in *; lia).
  destruct (pass_ok J n [] hs w HS0 HR Hroom) as (w1 & b & J1 & n1 & q1 & Hp & HS1 & HR1 & Hi1 & Hz1 & Hres); [lia|].
  destruct Hres as [[Hlt Hb]|(_ & -> & -> & -> & Hres)].
  - assert (Hbt : b = true) by (destruct Hb as [|Hb]; [done|cbn in Hb; lia]). subst b.
    destruct (loop_turn J n [] hs w fuel stuck sleep w1 true HS0 HR HJ Hp Hst) as (w' & sleep' & Hw & ->); [done|].
    rewrite HN in Hlt. apply (after_event N J1 n1 q1); try done; try (by left); try lia.
    + destruct Hw as [->|[o ->]]; [done|by apply yield_serving].
    + destruct Hw as [->|[o ->]]; [done|by apply yield_reactors].
    + replace (iteration_count (rt w')) with (iteration_count (rt w1)) by (by destruct Hw as [->|[o ->]]). lia.
  - destruct (Hres nm l Ho) as (l' & Hle & Ho' & Hs). specialize (Hs P Hsoon).
    assert (Hmul : l' < l -> l' * S patience2 + S patience2 <= l * S patience2).
    { intros Hlt. assert (Hm : S l' * S patience2 <= l * S patience2) by (by apply Nat.mul_le_mono_r). cbn in Hm. lia. }
    assert (Hnext : exists P', Soon P' nm w1 /\ P' <= patience2 /\ l' * S patience2 + P' + 1 <= l * S patience2 + P /\
      (l' < l \/ l' = l /\ P' < P)).
    { destruct (decide (l' < l)) as [Hlt|Hge].
      - exists patience2. specialize (Hmul Hlt). split; [by apply soon_at_first|]. split; [done|]. split; [lia|by left].
      - destruct Hs as [?|(P' & -> & HP')]; [done|]. assert (l' = l) as -> by lia. exists P'.
        split; [done|]. split; [lia|]. split; [lia|right; lia]. }
    destruct Hnext as (P' & HP' & HP2 & Hdec & Hor).
    destruct (loop_turn J n [] hs w fuel stuck sleep w1 b HS0 HR HJ Hp Hst) as (w' & sleep' & Hw & ->); [lia|].
    assert (Hgo : forall stuck', (0 <= stuck')%Z -> (stuck' + Z.of_nat (l' * S patience2 + P') <= max_stuck)%Z ->
      served_out hs (run_queue_loop fuel max_stuck stuck' sleep' w')).
    { intros stuck' Hst' Hsum'.
      assert (HS' : Serving J [] [] n hs w') by (destruct Hw as [->|[o ->]]; [done|by apply yield_serving]).
      assert (HR' : Reactors w') by (destruct Hw as [->|[o ->]]; [done|by apply yield_reactors]).
      assert (Ho2 : Owes nm l' (env w')) by (by destruct Hw as [->|[o ->]]).
      assert (Hs2 : Soon P' nm w') by (by destruct Hw as [->|[o ->]]).
      assert (Hi2 : iteration_count (rt w') = (iteration_count (rt w) + 1)%Z)
        by (replace (iteration_count (rt w')) with (iteration_count (rt w1)) by (by destruct Hw as [->|[o ->]]); done).
      destruct Hor as [Hlt|[-> Hlt]].
      - apply (IHl l' Hlt P' J n hs w' nm); try done; lia.
      - apply (IHP P' Hlt J n hs w' nm); try done; lia. }
    destruct b; apply Hgo; lia.
Qed.

Lemma all_run_out N : runs_out N.
Proof.
  induction N as [N IH] using lt_wf_ind. intros J n q hs w fuel stuck sleep HN HS0 HR Hz Hst Hsum Hf Hi.
  assert (Hrp := round_pos). destruct (decide (J = ∅)) as [HJ|HJ]; [by eapply loop_empty|].
  destruct q as [|i q].
  - destruct (someone_owes J n hs w HS0 HJ) as (nm & l & Hnm & Hl & Ho).
    assert (Hm : S l * S patience2 <= round) by (apply Nat.mul_le_mono_r; lia).
    cbn [Nat.mul length] in *. apply (waiting_runs_out N IH l patience2 J n hs w nm); try done; try lia.
    by apply soon_at_first.
  - destruct fuel as [|fuel]; [cbn [Nat.mul] in Hf; lia|].
    assert (Hroom : room (C := C) (size J)) by (unfold room in *; lia).
    destruct (pass_ok J n (i :: q) hs w HS0 HR Hroom) as (w1 & b & J1 & n1 & q1 & Hp & HS1 & HR1 & Hi1 & Hz1 & Hres);
      [cbn [Nat.mul] in Hi; lia|].
    destruct Hres as [[Hlt Hb]|(? & _)]; [|done].
    destruct (loop_turn J n (i :: q) hs w fuel stuck sleep w1 b HS0 HR HJ Hp Hst) as (w' & sleep' & Hw & ->);
      [intros _; cbn [length] in Hsum; lia|].
    rewrite HN in Hlt. cbn [Nat.mul] in *. apply (after_event N J1 n1 q1); try done; try lia.
    + destruct Hw as [->|[o ->]]; [done|by apply yield_serving].
    + destruct Hw as [->|[o ->]]; [done|by apply yield_reactors].
    + by destruct b; lia.
    + destruct b; [by left|right]. destruct Hb as [?|Hb]; [done|]. lia.
    + replace (iteration_count (rt w')) with (iteration_count (rt w1)) by (by destruct Hw as [->|[o ->]]). lia.
Qed.

(** ** Spawning *)

Fixpoint spawn_all (ps : list (option string * Fn)) w : outcome (SWorld * list JoinHandle) :=
  match ps with
  | [] => mret (w, [])
  | (name, p) :: ps => '(w, h) ← spawn_any TaskQueue name p w; '(w, hs) ← spawn_all ps w; mret (w, h :: hs)
  end.

Lemma spawn_job J q n hs w name p left :
  enable_perfetto_tracks cfg = false -> Serving J [] q n hs w -> Reactors w -> awaits_le sv left p ->
  SvInv (map_sum jleft J + left) n (omap job_leaf J) (env w) -> S (size J) <= T -> (Z.of_nat (S (size J)) <= sv_room)%Z ->
  exists w' id, spawn_any TaskQueue name p w = Ok (w', mkJoin (next_addr w) 0) /\ J !! id = None /\
    Serving (<[id := mkJob p p left None (next_addr w)]> J) [] (q ++ [id]) n ((next_addr w, p) :: hs) w' /\
    Reactors w' /\ env w' = env w /\ iteration_count (rt w') = iteration_count (rt w).
Proof.
  intros Htr HS0 HR Hp HI Hz Hrm. assert (Hq := serving_queue _ _ _ _ _ _ HS0). cbn [app] in Hq.
  rewrite spawn_any_unfold, (rc_config _ HR), Htr. cbn [maybe_tracked].
  destruct (insert_and_send_ok (BodySpawned (out_type p) (Untracked p)) (out_type p) TaskQueue name w [] q)
    as (w' & id & Hs & [Hv Hvac Hh Hn Hf Hsd] & Hq'); [apply HS0|unfold room in *; cbn; lia|].
  assert (He := insert_and_send_env _ _ _ _ _ _ _ _ Hs). rewrite Hs. cbn [mbind outcome_bind mret outcome_ret].
  destruct HS0 as [Sp Sj Sq Sn Sr Si Sm Sc Sx Ss]. set (jb := mkJob _ _ _ _ _).
  assert (HJ : J !! id = None).
  { specialize (Sp id). destruct (J !! id); [|done]. destruct Sp as [st Hst]. by rewrite Hst in Hvac. }
  exists w', id. split; [done|]. split; [done|]. split; [|split; [|split; [done|by rewrite (fr_iter _ _ Hf)]]]; cycle 1.
  { destruct HR as [R1 R2 R3 R4 R5]. split; rewrite ?(fr_config _ _ Hf), ?(fr_reactors _ _ Hf), ?(fr_iter _ _ Hf), ?Hsd; done. }
  assert (Hold := fun i y => insert_cases J id i jb y).
  split.
  - intros i. rewrite Hv. destruct (decide (i = id)) as [->|Hne].
    + rewrite !lookup_insert_eq. by eexists.
    + rewrite !lookup_insert_ne by done. apply Sp.
  - intros i y [[-> ->]|[_ Hy]]%Hold; [by split|by eapply Sj].
  - exact Hq'.
  - cbn [app] in *. apply NoDup_app. split; [exact Sn|]. split; [|apply NoDup_singleton].
    intros i Hi ->%list_elem_of_singleton. apply Sr in Hi as (y & Hy & _). by rewrite HJ in Hy.
  - intros i. cbn [app] in *. rewrite elem_of_app, Sr, list_elem_of_singleton. split.
    + intros [(y & Hy & Hr)| ->].
      * exists y. rewrite lookup_insert_ne; [done|]. intros <-. by rewrite HJ in Hy.
      * exists jb. by rewrite lookup_insert_eq.
    + intros (y & [[-> ->]|[_ Hy]]%Hold & Hr); [by right|left]. by exists y.
  - rewrite He, map_sum_insert by done. cbn [jleft jb].
    rewrite leaves_insert_fresh by done. by rewrite Nat.add_comm.
  - by rewrite map_size_insert_None.
  - intros i y [[-> ->]|[_ Hy]]%Hold.
    + cbn. rewrite Hn, Hh. split; [lia|]. by rewrite heap_get_set, decide_True.
    + destruct (Sc i y Hy) as [Ha Hc]. rewrite Hn, Hh. split; [lia|]. rewrite heap_get_set, decide_False by lia. done.
  - intros i i' y y' [[-> ->]|[_ Hy]]%Hold [[-> ->]|[_ Hy']]%Hold; cbn [jaddr jb].
    + done.
    + intros Ha. destruct (Sc _ _ Hy'). lia.
    + intros Ha. destruct (Sc _ _ Hy). lia.
    + by apply Sx.
  - intros a p' [[= -> ->]|Hin]%elem_of_cons.
    + rewrite Hn. split; [lia|]. left. exists id, jb. by rewrite lookup_insert_eq.
    + destruct (Ss a p' Hin) as (Ha & Hor). rewrite Hn. split; [lia|]. destruct Hor as [(i & y & Hy & Hxa & Hxo)|(v & Hv' & Hc)].
      * left. exists i, y. rewrite lookup_insert_ne; [done|]. intros <-. by rewrite HJ in Hy.
      * right. exists v. split; [done|]. rewrite Hh, heap_get_set, decide_False by lia. done.
Qed.

(** What the spawned functions will cost. *)
Definition list_total (ls : list nat) : nat := foldr Nat.add 0 ls.
Definition async_cost (ls : list nat) : nat := list_total (map (fun l => l * (sv_cost + 3) + 1) ls).

Lemma spawn_all_ok ps : forall ls J q n hs w,
  enable_perfetto_tracks cfg = false -> Serving J [] q n hs w -> Reactors w -> Forall2 (awaits_le sv) ls ps.*2 ->
  SvInv (map_sum jleft J + list_total ls) n (omap job_leaf J) (env w) -> size J + length ps <= T ->
  (Z.of_nat (size J + length ps) <= sv_room)%Z ->
  exists w' jhs J' q' hs', spawn_all ps w = Ok (w', jhs) /\ Serving J' [] q' n hs' w' /\ Reactors w' /\
    size J' = size J + length ps /\ potential J' n = potential J n + async_cost ls /\
    iteration_count (rt w') = iteration_count (rt w) /\ (forall y, y ∈ hs -> y ∈ hs') /\
    Forall2 (fun p h => type_data h = 0 /\ (shared_state h, p) ∈ hs') ps.*2 jhs.
Proof.
  induction ps as [|[name p] ps IH]; intros ls J q n hs w Htr HS0 HR Hls HI HT1 Hrm; cbn [spawn_all length fmap list_fmap] in *.
  { apply Forall2_nil_inv_r in Hls as ->. exists w, [], J, q, hs. split; [done|]. do 2 (split; [done|]). split; [lia|].
    split; [cbn; lia|]. split; [done|]. split; [done|]. constructor. }
  apply Forall2_cons_inv_r in Hls as (left & ls' & Hp & Hls & ->). cbn [list_total foldr] in HI. fold (list_total ls') in HI.
  destruct (spawn_job J q n hs w name p left Htr HS0 HR Hp) as (w1 & id & Hs & HJ & HS1 & HR1 & He1 & Hi1); [|lia|lia|].
  { eapply sv_weaken, HI. lia. }
  rewrite Hs. cbn [mbind outcome_bind]. set (jb := mkJob _ _ _ _ _) in *. assert (Hz : size (<[id := jb]> J) = S (size J)) by by apply map_size_insert_None.
  destruct (IH ls' _ _ n _ w1 Htr HS1 HR1 Hls) as (w2 & jhs & J2 & q2 & hs2 & Hs2 & HS2 & HR2 & Hz2 & Hp2 & Hi2 & Hsub & Hall).
  { rewrite He1, map_sum_insert by done. cbn [jleft jb].
    replace (omap job_leaf (<[id := jb]> J)) with (omap job_leaf J).
    - eapply sv_weaken, HI. lia.
    - apply map_eq. intros i. rewrite !omap_leaf_lookup. destruct (decide (i = id)) as [->|Hne].
      + by rewrite HJ, lookup_insert_eq.
      + by rewrite lookup_insert_ne. }
  { lia. }
  { lia. }
  rewrite Hs2. cbn [mbind outcome_bind mret outcome_ret]. eexists w2, _, J2, q2, hs2. split; [done|]. do 2 (split; [done|]).
  split; [lia|]. split; [|split; [congruence|]].
  - rewrite Hp2. unfold potential. rewrite map_sum_insert by done. unfold async_cost. cbn [map list_total foldr].
    fold (list_total (map (fun l => l * (sv_cost + 3) + 1) ls')). unfold job_weight at 1. cbn [jleft jwait jb]. lia.
  - split; [intros y Hy; apply Hsub; by right|]. constructor; [|done]. split; [done|]. apply Hsub. by left.
Qed.

(** ** The run *)

(** No task and no operation in progress. *)
Record Resting_service (s n : nat) w : Prop := {
  rs_reactors : Reactors w;
  rs_view : view w = ∅;
  rs_queues : queues w [] [];
  rs_inv : SvInv s n ∅ (env w)
}.

Lemma resting_serving s n w : (0 <= sv_room)%Z -> Resting_service s n w -> Serving ∅ [] [] n [] w.
Proof.
  intros Hrm [HR Hv Hq HI]. split; try done.
  - intros id. by rewrite Hv, lookup_empty.
  - constructor.
  - intros id. cbn. split; [by intros ?%elem_of_nil|]. intros (j & Hj & _). by rewrite lookup_empty in Hj.
  - rewrite omap_empty. eapply sv_weaken, HI. unfold map_sum. rewrite map_fold_empty. lia.
  - by intros a p ?%elem_of_nil.
Qed.

Lemma serving_resting n hs w : Serving ∅ [] [] n hs w -> Reactors w -> Resting_service 0 n w.
Proof.
  intros HS0 HR. split; [done| |apply HS0|].
  - assert (Hl := proj2 (pool_empty _ _ _ _ _ _ HS0) eq_refl). rewrite slab_len_view in Hl.
    by apply map_size_empty_iff in Hl.
  - assert (HI := sg_inv _ _ _ _ _ _ HS0). rewrite omap_empty in HI. eapply sv_weaken, HI. lia.
Qed.

(** A result that was stored is what the handle delivers. *)
Lemma filled_handle k h v (hp : Heap V) : type_data h = 0 -> heap_get hp (shared_state h) = filled v ->
  (JoinHandle_poll k h hp).2 = Ready (ROk v).
Proof. intros Ht Hh. unfold JoinHandle_poll. rewrite Hh. cbn. by rewrite Ht. Qed.

(** Passes that are enough for functions that await [ls] operations. *)
Definition enough (ls : list nat) (n : nat) : nat := S (async_cost ls + n) * round.

(** What the runtime promises: the functions spawned all return, and the handles have
    what they returned. *)
Lemma spawned_run_out ps ls s n fuel w :
  enable_perfetto_tracks cfg = false -> max_stuck_iterations = max_stuck -> Resting_service s n w ->
  Forall2 (awaits_le sv) ls ps.*2 -> list_total ls <= s -> length ps <= T -> (Z.of_nat (length ps) <= sv_room)%Z ->
  enough ls n <= fuel -> (iteration_count (rt w) + Z.of_nat (enough ls n) <= u64_max)%Z ->
  exists w1 jhs w2 n', spawn_all ps w = Ok (w1, jhs) /\ run_queue fuel w1 = Ok (w2, PoolEmpty) /\
    Resting_service 0 n' w2 /\
    Forall2 (fun p h => exists v, Returns sv p v /\ forall k, (JoinHandle_poll k h (heap w2)).2 = Ready (ROk v)) ps.*2 jhs.
Proof.
  intros Htr Hms HRS Hls Hs HT1 Hrm Hf Hi. assert (HS0 := resting_serving s n w ltac:(lia) HRS).
  assert (Hz0 : map_sum jleft (∅ : gmap nat Job) = 0) by (unfold map_sum; by rewrite map_fold_empty).
  destruct (spawn_all_ok ps ls ∅ [] n [] w Htr HS0 (rs_reactors _ _ _ HRS) Hls)
    as (w1 & jhs & J1 & q1 & hs1 & Hsp & HS1 & HR1 & Hz & Hp & Hi1 & _ & Hall).
  { rewrite omap_empty, Hz0. eapply sv_weaken, (rs_inv _ _ _ HRS). lia. }
  { by rewrite map_size_empty. }
  { by rewrite map_size_empty. }
  rewrite map_size_empty in Hz. cbn [Nat.add] in Hz.
  assert (Hpot : potential J1 n = async_cost ls + n).
  { rewrite Hp. unfold potential, map_sum. rewrite map_fold_empty. lia. }
  assert (Hq := serving_queue _ _ _ _ _ _ HS1). cbn [app] in Hq. fold (enough ls n) in *.
  destruct (all_run_out (async_cost ls + n) J1 n q1 hs1 w1 fuel 0%Z 1%Z Hpot HS1 HR1) as (w2 & n' & Hr & HS2 & HR2).
  { lia. }
  { done. }
  { lia. }
  { exact Hf. }
  { rewrite Hi1. exact Hi. }
  exists w1, jhs, w2, n'. split; [done|]. unfold run_queue. rewrite Hms. split; [done|]. split; [by eapply serving_resting|].
  eapply Forall2_impl; [exact Hall|]. intros p h [Ht Hin].
  destruct (sg_spawned _ _ _ _ _ _ HS2 _ _ Hin) as (_ & [(i & j & Hj & _)|(v & Hv & Hh)]); [by rewrite lookup_empty in Hj|].
  exists v. split; [done|]. intros k. by apply filled_handle.
Qed.

(** ** A new runtime *)

Definition register_all (l : list (string * DynReactor E)) w : SWorld :=
  foldl (fun w y => register_reactor y.1 y.2 w) w l.

Definition service_world e : outcome SWorld :=
  r ← with_config cfg;
  mret (register_all (sreactors sv) (mkWorld r ∅ 0 ∅ TrackIdAllocator_new e None None [])).

(** A reactor as it is registered. *)
Definition wrapped (y : string * DynReactor E) : string * ReactorWrapper E := (y.1, mkWrapper y.2 0 true Stopped 0).

Lemma register_all_reactors l : forall w, NoDup ((reactors (rt w)).*1 ++ l.*1) ->
  reactors (rt (register_all l w)) ≡ₚ reactors (rt w) ++ map wrapped l /\
  register_all l w = on_rt (set_reactors (reactors (rt (register_all l w)))) w.
Proof.
  induction l as [|[name r] l IH]; intros w Hnd; [cbn; rewrite app_nil_r; split; [done|by destruct w as [[]]]|].
  change (register_all ((name, r) :: l) w) with (register_all l (register_reactor name r w)). set (w1 := register_reactor name r w).
  assert (Hr : reactors (rt w1) ≡ₚ wrapped (name, r) :: reactors (rt w)).
  { unfold w1, register_reactor, hash_insert. cbn. rewrite ho_perm. apply Permutation_cons; [done|].
    rewrite filter_all; [done|]. rewrite Forall_forall. intros y Hy Heq. cbn in Hnd.
    apply NoDup_app in Hnd as (_ & Hd & _). apply (Hd name); [|by left]. rewrite <- Heq. by apply list_elem_of_fmap_2. }
  destruct (IH w1) as [Hp Heq].
  { rewrite Hr. cbn in *. by rewrite Permutation_middle. }
  split.
  - rewrite Hp, Hr. cbn. by rewrite Permutation_middle.
  - rewrite Heq at 1. by destruct w as [[]].
Qed.

Lemma service_world_resting s n e : NoDup (sreactors sv).*1 -> SvInv s n ∅ e ->
  exists w, service_world e = Ok w /\ Resting_service s n w /\ iteration_count (rt w) = 0%Z.
Proof.
  intros Hnd HI. unfold service_world, with_config. destruct chan_new_rep as (c & Hn & Hr). rewrite Hn.
  cbn [mbind outcome_bind mret outcome_ret]. set (w0 := mkWorld _ _ _ _ _ _ _ _ _).
  destruct (register_all_reactors (sreactors sv) w0 Hnd) as [Hp Heq]. cbn in Hp.
  eexists. split; [reflexivity|]. rewrite Heq. split; [|done]. split; [split|..]; try done.
  - cbn. rewrite Hp. rewrite Forall_forall. intros y (r & -> & Hin)%list_elem_of_fmap. destruct r as [nm r].
    split; [exact Hin|done|]. cbn. assert (Hca := so_cache Hok). lia.
  - intros nm Hnm. cbn. rewrite Hp. unfold wrapped. by rewrite map_map.
  - apply slab_new_view.
Qed.
End run.
