(* ===== verification/TimerService.v ===== *)
(** * TimerService: any number of sleeping tasks ([pluvio_timer/src/lib.rs])

    The timer keeps the promise of [Service.Serves]: any number of tasks may sleep at the
    same time, for durations or until instants, on any clock that is monotone and
    passes the deadlines. *)

From S2P Require Import Prelude Future Executor Timer Service.
Local Open Scope nat_scope.

(** [sleep(d).await] makes its delay when it is reached, [sleep_until(i).await] is given
    its instant. *)
Inductive Nap : Type :=
| NapFor (duration : Z)
| NapUntil (x : Delay).

Section naps.
Context (now : nat -> Z) (name : string).

#[local] Program Instance nap_timer : HasTimer (TimerState * nat) := {
  get_timer e := e.1;
  put_timer t e := (t, e.2);
  read_now e := ((e.1, S e.2), now e.2)
}.
Next Obligation. done. Qed.
Next Obligation. done. Qed.

Definition nap_poll (k : Waker) (f : Nap) (e : TimerState * nat) : outcome (TimerState * nat * Nap * Poll unit) :=
  let '(e, x) := match f with NapFor d => sleep d e | NapUntil x => (e, x) end in
  '(e, x, p) ← Delay_poll k x e; mret (e, NapUntil x, p).

Definition nap_drop (f : Nap) (e : TimerState * nat) : TimerState * nat :=
  match f with NapFor _ => e | NapUntil x => Delay_drop x e end.

Definition timer_service : Service unit Nap TimerState := mkService nap_poll nap_drop [(name, timer_reactor)].

(** ** The invariant *)

Context (N : nat) (now_step : forall t, (now t <= now (S t))%Z).
Implicit Types (m : Leaves Nap) (ts : TimerState).

Lemma nap_mono t t' : t <= t' -> (now t <= now t')%Z.
Proof. induction 1 as [|t' _ IH]; [done|]. specialize (now_step t'). lia. Qed.

(** It ends within [N] readings of the clock. *)
Definition nap_askable (f : Nap) : Prop :=
  match f with
  | NapFor d => forall t, (now t + d <= now (t + N))%Z
  | NapUntil x => exists d, x = Delay_new_at d /\ (d <= now N)%Z
  end.

(** The sleeping tasks and the timers correspond; a woken one has no timer left. *)
Record NapInv (s n : nat) m ts (t : nat) : Prop := {
  ni_inv : TimerInv ts;
  ni_counter : (COUNTER ts + Z.of_nat s <= u64_max)%Z;
  ni_leaf id l : m !! id = Some l -> exists h, lcur l = NapUntil (mkDelay (deadline h) (Some h)) /\
    (hid h < COUNTER ts)%Z /\
    if lwoken l then (deadline h <= now t)%Z /\ h ∉ (timers ts).*1
    else (h, task_waker id) ∈ timers ts /\ (deadline h <= now (t + n))%Z;
  ni_timer h k : (h, k) ∈ timers ts -> exists id l, k = task_waker id /\ m !! id = Some l /\ lwoken l = false /\
    lcur l = NapUntil (mkDelay (deadline h) (Some h))
}.

Lemma nap_later s s' n n' m ts t t' : s' <= s -> t + n <= t' + n' -> t <= t' -> NapInv s n m ts t -> NapInv s' n' m ts t'.
Proof.
  intros Hs Hn Ht [N1 N2 N3 N4]. split; [done|lia| |done].
  intros id l Hl. destruct (N3 id l Hl) as (h & Hc & Hh & Hw). exists h. split; [done|]. split; [done|].
  assert (Hm1 := nap_mono t t' Ht). assert (Hm2 := nap_mono _ _ Hn). destruct (lwoken l), Hw; (split; [lia || done|lia || done]).
Qed.

(** Timers are told apart by their tasks. *)
Lemma nap_timer_inj s n m ts t a b : NapInv s n m ts t -> a ∈ timers ts -> b ∈ timers ts ->
  task_id a.2 = task_id b.2 -> a = b.
Proof.
  intros HI Ha Hb Heq. destruct a as [h k], b as [h' k'].
  destruct (ni_timer _ _ _ _ _ HI h k Ha) as (id & l & -> & Hl & _ & Hc).
  destruct (ni_timer _ _ _ _ _ HI h' k' Hb) as (id' & l' & -> & Hl' & _ & Hc'). cbn in Heq. subst id'.
  rewrite Hl in Hl'. injection Hl' as <-. rewrite Hc in Hc'. by injection Hc' as _ ->.
Qed.

Lemma timers_nodup ts : TimerInv ts -> NoDup (timers ts).
Proof.
  intros HI. apply (NoDup_fmap_1 fst). assert (Hs := ti_sorted _ HI). unfold btree_wf in Hs.
  induction Hs as [|h l _ IH Hall]; constructor; [|done].
  intros Hin. rewrite Forall_forall in Hall. by destruct (klt_irrefl h (Hall h Hin)).
Qed.

Lemma nap_ids s n m ts t l : NapInv s n m ts t -> NoDup l -> (forall y, y ∈ l -> y ∈ timers ts) ->
  NoDup (map (fun y => task_id y.2) l).
Proof.
  intros HI Hn Hsub. apply NoDup_fmap_2_strong; [|done]. intros a b Ha Hb.
  by apply (nap_timer_inj s n m ts t); [|apply Hsub|apply Hsub].
Qed.

Lemma nap_length s n m ts t : NapInv s n m ts t -> length (timers ts) <= size m.
Proof.
  intros HI. assert (Hn := nap_ids s n m ts t _ HI (timers_nodup _ (ni_inv _ _ _ _ _ HI)) (fun y H => H)).
  rewrite <- (length_map (fun y => task_id y.2)). apply NoDup_map_size; [done|].
  intros id ([h k] & -> & Hin)%list_elem_of_fmap. destruct (ni_timer _ _ _ _ _ HI h k Hin) as (id & l & -> & Hl & _). by exists l.
Qed.

(** ** The laws *)

(** The first poll of a delay. *)
Lemma nap_delay s n n' m ts t id f0 d :
  NapInv (S s) n m ts t -> m !! id = None -> (Z.of_nat (size m) < 2 ^ 64 - 1)%Z -> n <= n' ->
  (d <= now (S t + n'))%Z ->
  exists ts' x p, Delay_poll (task_waker id) (Delay_new_at d) (ts, t) = Ok ((ts', S t), x, p) /\
  match p with
  | Ready _ => x = Delay_new_at d /\ NapInv s n m ts' (S t)
  | Pending => NapInv s n' (<[id := mkLeaf (NapUntil x) f0 false]> m) ts' (S t)
  end.
Proof.
  intros HI Hm Hsz Hn Hd. unfold Delay_poll. cbn [read_now nap_timer fst snd ddeadline timer_handle Delay_new_at get_timer put_timer].
  destruct (d <=? now t)%Z.
  { eexists _, _, _. split; [done|]. split; [done|]. eapply nap_later, HI; lia. }
  assert (Hlen := nap_length _ _ _ _ _ HI). destruct HI as [N1 N2 N3 N4].
  destruct (register_inv d (task_waker id) ts N1) as (ts' & Hr & HI' & Hp & Hc); [lia|lia|].
  change (clone_raw (task_waker id)) with (task_waker id). rewrite Hr.
  set (h := Timer.mkHandle d (COUNTER ts)) in *. exists ts', (mkDelay d (Some h)), Pending. split; [done|].
  assert (Hm1 := nap_mono t (S t) ltac:(lia)). split; [done|lia| |].
  - intros i l. destruct (decide (i = id)) as [->|Hne].
    + rewrite lookup_insert_eq. intros [= <-]. exists h. split; [done|]. split; [cbn; lia|]. cbn.
      split; [rewrite Hp; by left|exact Hd].
    + rewrite lookup_insert_ne by done. intros Hl. destruct (N3 i l Hl) as (h' & Hc' & Hh & Hw). exists h'.
      split; [done|]. split; [lia|]. destruct (lwoken l), Hw as [Hw1 Hw2].
      * split; [lia|]. intros ([h2 k2] & Hh2 & Hin)%list_elem_of_fmap. cbn in Hh2. subst h2. rewrite Hp in Hin.
        apply elem_of_cons in Hin as [[= -> ->]|Hin]; [cbn in Hh; lia|]. apply Hw2. by apply (list_elem_of_fmap_2 fst _ (h', k2)).
      * split; [rewrite Hp; by right|]. assert (Hm2 := nap_mono (t + n) (S t + n') ltac:(lia)). lia.
  - intros h' k. rewrite Hp. intros [[= -> ->]|Hin]%elem_of_cons.
    + exists id. eexists. by rewrite lookup_insert_eq.
    + destruct (N4 h' k Hin) as (i & l & -> & Hl & ?). exists i, l. rewrite lookup_insert_ne; [done|]. intros <-. congruence.
Qed.

Lemma nap_due s n m ts t id l : NapInv s n m ts t -> m !! id = Some l -> lwoken l = true ->
  exists x, nap_poll (task_waker id) (lcur l) (ts, t) = Ok ((ts, S t), NapUntil x, Ready tt) /\
    exists ts', Delay_drop x (ts, S t) = (ts', S t) /\ NapInv s n (delete id m) ts' (S t).
Proof.
  intros HI Hl Hw. assert (HI' : NapInv s n m ts (S t)) by (eapply nap_later, HI; lia).
  destruct (ni_leaf _ _ _ _ _ HI id l Hl) as (h & Hc & Hh & Hwk). rewrite Hw in Hwk. destruct Hwk as [Hd Hk]. rewrite Hc.
  exists (mkDelay (deadline h) (Some h)). unfold nap_poll, Delay_poll. cbn. rewrite (proj2 (Z.leb_le _ _) Hd).
  split; [done|]. unfold Delay_drop. cbn.
  destruct (cancel_inv h ts (ni_inv _ _ _ _ _ HI)) as (ts' & b & Hcn & Hti & Hct & _ & Hel). rewrite Hcn. exists ts'. split; [done|].
  assert (Hsame : forall y, y ∈ timers ts' <-> y ∈ timers ts).
  { intros [h' k]. rewrite Hel. split; [tauto|]. intros Hy. split; [done|]. cbn. intros ->. apply Hk. by apply (list_elem_of_fmap_2 fst _ (h, k)). }
  destruct HI' as [N1 N2 N3 N4]. split; [done|lia| |].
  - intros i l' [Hne Hl']%lookup_delete_Some. destruct (N3 i l' Hl') as (h' & Hc' & Hh' & Hw'). exists h'. split; [done|].
    split; [lia|]. destruct (lwoken l'), Hw' as [Hw1 Hw2].
    + split; [done|]. intros ([h2 k2] & Hh2 & Hin%Hsame)%list_elem_of_fmap. cbn in Hh2. subst h2. apply Hw2.
      by apply (list_elem_of_fmap_2 fst _ (h', k2)).
    + split; [by apply Hsame|done].
  - intros h' k Hin%Hsame. destruct (N4 h' k Hin) as (i & l' & -> & Hl' & Hw' & Hc'). exists i, l'. split; [done|].
    rewrite lookup_delete_ne; [done|]. intros <-. rewrite Hl in Hl'. injection Hl' as <-. by rewrite Hw in Hw'.
Qed.

(** The timers that a poll leaves, and the tasks of those it does not. *)
Definition left_timers t ts : Timers := filter (fun e => ~ expired_at (now t) e) (timers ts).
Definition due_tasks t ts : list nat := map (fun y => task_id y.2) (filter (expired_at (now t)) (timers ts)).

Lemma left_timers_in t ts h k : (h, k) ∈ left_timers t ts <-> (h, k) ∈ timers ts /\ (now t < deadline h)%Z.
Proof. unfold left_timers. rewrite list_elem_of_filter. unfold expired_at. cbn. rewrite Z.nle_gt. tauto. Qed.

Lemma due_tasks_in s n m ts t id : NapInv s n m ts t ->
  id ∈ due_tasks t ts <-> exists h, (h, task_waker id) ∈ timers ts /\ (deadline h <= now t)%Z.
Proof.
  intros HI. unfold due_tasks. rewrite list_elem_of_fmap. split.
  - intros ([h k] & -> & [Hd Hin]%list_elem_of_filter). destruct (ni_timer _ _ _ _ _ HI h k Hin) as (i & l & -> & _). by exists h.
  - intros (h & Hin & Hd). exists (h, task_waker id). split; [done|]. by apply list_elem_of_filter.
Qed.

(** A sleeping task, and one that was woken, after the poll. *)
Lemma nap_leaf_polled s n m ts t id (l : Leaf Nap) h : NapInv s n m ts t ->
  (if lwoken l then (deadline h <= now t)%Z /\ h ∉ (timers ts).*1
   else (h, task_waker id) ∈ timers ts /\ (deadline h <= now (t + n))%Z) ->
  if lwoken (if decide (id ∈ due_tasks t ts) then wake_leaf l else l)
  then (deadline h <= now (S t))%Z /\ h ∉ (left_timers t ts).*1
  else (h, task_waker id) ∈ left_timers t ts /\ (deadline h <= now (S t + pred n))%Z.
Proof.
  intros HI Hw. assert (Hm1 := nap_mono t (S t) ltac:(lia)).
  assert (Hgone : (deadline h <= now t)%Z -> h ∉ (left_timers t ts).*1).
  { intros Hd ([h2 k2] & Hh2 & [_ Hin]%left_timers_in)%list_elem_of_fmap. cbn in Hh2. subst h2. lia. }
  destruct (lwoken l) eqn:Hwk.
  - destruct Hw as [Hw1 _]. case_decide; cbn [wake_leaf lwoken]; [|rewrite Hwk]; (split; [lia|by apply Hgone]).
  - destruct Hw as [Hw1 Hw2]. case_decide as Hin; cbn [wake_leaf lwoken].
    + apply (due_tasks_in s n m) in Hin as (h' & Hin & Hd); [|done].
      assert (Heq : (h', task_waker id) = (h, task_waker id)) by by apply (nap_timer_inj s n m ts t).
      injection Heq as ->. split; [lia|by apply Hgone].
    + rewrite Hwk. assert (Hd : (now t < deadline h)%Z).
      { destruct (Z.le_gt_cases (deadline h) (now t)); [|lia]. destruct Hin. apply (due_tasks_in s n m); [done|]. by exists h. }
      split; [by apply left_timers_in|]. destruct n as [|n]; [rewrite Nat.add_0_r in Hw2; lia|].
      by replace (S t + pred (S n)) with (t + S n) by (cbn; lia).
Qed.

Lemma nap_polled s n m ts t : NapInv s n m ts t ->
  NapInv s (pred n) (wake_leaves (due_tasks t ts) m)
    (mkTimers (left_timers t ts) (Z.of_nat (length (left_timers t ts))) (COUNTER ts)) (S t).
Proof.
  intros HI. assert (HT := ni_inv _ _ _ _ _ HI). split.
  - assert (HT' := poll_inv (now t) ts HT). rewrite wake_expired_eq in HT' by done. exact HT'.
  - exact (ni_counter _ _ _ _ _ HI).
  - intros id l. rewrite wake_leaves_lookup. destruct (m !! id) as [l0|] eqn:Hl0; [|done]. cbn [fmap option_fmap option_map]. intros [= <-].
    destruct (ni_leaf _ _ _ _ _ HI id l0 Hl0) as (h & Hc & Hh & Hw). exists h. split; [by case_decide|]. split; [done|].
    by apply (nap_leaf_polled s n m).
  - cbn [timers]. intros h k [Hin Hd]%left_timers_in. destruct (ni_timer _ _ _ _ _ HI h k Hin) as (i & l & -> & Hl & Hw & Hc).
    exists i, l. split; [done|]. split; [|done]. rewrite wake_leaves_lookup, Hl. cbn. rewrite decide_False; [done|].
    intros (h' & Hin' & Hd')%(due_tasks_in s n m); [|done].
    assert (Heq : (h', task_waker i) = (h, task_waker i)) by by apply (nap_timer_inj s n m ts t).
    injection Heq as ->. lia.
Qed.

(** A poll of the reactor wakes the tasks whose deadline has passed, and otherwise the
    clock comes closer to the next one. *)
Lemma nap_reactor s n m ts t : NapInv s n m ts t ->
  exists ts' ids, dyn_poll timer_reactor (ts, t) = Ok ((ts', S t), map task_waker ids) /\ NoDup ids /\
    (forall id, id ∈ ids -> exists l, m !! id = Some l /\ lwoken l = false) /\
    NapInv s (pred n) (wake_leaves ids m) ts' (S t) /\ (n = 0 -> ids = [] -> timers ts = []).
Proof.
  intros HI. assert (HT := ni_inv _ _ _ _ _ HI).
  eexists _, (due_tasks t ts). split; [|split; [|split; [|split; [by apply nap_polled|]]]].
  - cbn [dyn_poll timer_reactor read_now nap_timer fst snd get_timer]. rewrite wake_expired_eq by done. cbn [put_timer nap_timer snd].
    do 2 f_equal. unfold due_tasks. rewrite map_map. apply map_ext_in. intros [h k] Hin. apply list_elem_of_In in Hin.
    apply list_elem_of_filter in Hin as [_ Hin]. destruct (ni_timer _ _ _ _ _ HI h k Hin) as (i & l & -> & _). done.
  - apply (nap_ids s n m ts t); [done|by apply NoDup_filter, timers_nodup|]. by intros [h k] [_ Hin]%list_elem_of_filter.
  - intros id (h & Hin & _)%(due_tasks_in s n m); [|done].
    destruct (ni_timer _ _ _ _ _ HI h _ Hin) as (i & l & [= <-] & Hl & Hw & _). by exists l.
  - intros -> Hnil. assert (Hno : forall y, y ∈ timers ts -> False); cycle 1.
    { destruct (timers ts) as [|y l]; [done|]. destruct (Hno y). by left. }
    intros [h k] Hin. destruct (ni_timer _ _ _ _ _ HI h k Hin) as (i & l0 & -> & Hl & Hw & Hc).
    destruct (ni_leaf _ _ _ _ _ HI i l0 Hl) as (h' & Hc' & _ & Hw'). rewrite Hw in Hw'. rewrite Hc in Hc'. injection Hc' as _ <-.
    destruct Hw' as [_ Hd]. rewrite Nat.add_0_r in Hd. assert (Hi : i ∈ due_tasks t ts) by (apply (due_tasks_in s 0 m); [done|by exists h]).
    rewrite Hnil in Hi. by apply elem_of_nil in Hi.
Qed.

#[local] Program Instance timer_serves : Serves timer_service := {
  sv_cost := N;
  sv_looks := 0;
  sv_room := 2 ^ 64 - 1;
  Askable := nap_askable;
  Replies _ _ := True;
  SvInv s n m e := NapInv s n m e.1 e.2;
  Owes nm _ e := nm = name /\ timers e.1 <> []
}.
Next Obligation. intros s s' n m e Hs HI. eapply nap_later, HI; lia. Qed.
Next Obligation. intros s n m ts t t' Ht HI. eapply nap_later, HI; cbn; lia. Qed.
Next Obligation. done. Qed.
Next Obligation.
  intros s n m [ts t] id l HI Hl Hw. exists name, 0. split; [by left|]. split; [done|]. split; [done|].
  destruct (ni_leaf _ _ _ _ _ HI id l Hl) as (h & _ & _ & Hin). rewrite Hw in Hin. destruct Hin as [Hin _].
  intros Hnil. cbn in *. rewrite Hnil in Hin. by apply elem_of_nil in Hin.
Qed.
Next Obligation.
  intros s n m [ts t] id f HI Hm Hf Hsz. cbn [fst snd] in *.
  assert (Hd : exists d t' n', nap_poll (task_waker id) f (ts, t) =
      ('(e, x, p) ← Delay_poll (task_waker id) (Delay_new_at d) (ts, t'); mret (e, NapUntil x, p)) /\
      t <= t' /\ n <= n' <= n + N /\ (d <= now (S t' + n'))%Z).
  { destruct f as [d|x]; cbn in Hf.
    - exists (now t + d)%Z, (S t), (n + N). split; [done|]. split; [lia|]. split; [lia|]. specialize (Hf t).
      assert (Hmn := nap_mono (t + N) (S (S t) + (n + N)) ltac:(lia)). lia.
    - destruct Hf as (d & -> & Hd). exists d, t, (n + N). split; [done|]. split; [lia|]. split; [lia|].
      assert (Hmn := nap_mono N (S t + (n + N)) ltac:(lia)). lia. }
  destruct Hd as (d & t' & n' & Hp & Ht & Hn & Hd).
  assert (HI' : NapInv (S s) n m ts t') by (eapply nap_later, HI; lia).
  destruct (nap_delay s n n' m ts t' id f d HI' Hm Hsz) as (ts' & x & p & Hpo & Hres); [lia|done|].
  cbn [spoll timer_service]. rewrite Hp, Hpo. cbn [mbind outcome_bind mret outcome_ret].
  eexists _, _, _. split; [done|]. cbn [fst snd]. split; [lia|]. destruct p as [[]|].
  - destruct Hres as [-> Hres]. split; [done|]. split; [exact Hres|done].
  - exists n'. split; [lia|done].
Qed.
Next Obligation.
  intros s n m [ts t] id l HI Hl Hw. destruct (nap_due s n m ts t id l HI Hl Hw) as (x & Hp & ts' & Hdr & HI').
  cbn [spoll sdrop timer_service nap_drop]. rewrite Hp. eexists _, _, _. split; [done|]. cbn [sdrop timer_service nap_drop]. rewrite Hdr. cbn [fst snd]. by auto.
Qed.
Next Obligation.
  intros s n m [ts t] nm r HI [= -> ->]%list_elem_of_singleton. eexists _, _. split; [done|]. cbn [fst snd get_timer nap_timer].
  split; [done|]. split; [done|]. intros nm' l [-> Ht]. exists l. split; [done|]. split; [done|]. intros _ Hst.
  exfalso. unfold timer_status in Hst. cbn [fst snd] in *. rewrite (ti_count _ (ni_inv _ _ _ _ _ HI)) in Hst. by destruct (timers ts).
Qed.
Next Obligation.
  intros s n m [ts t] nm r HI [= -> ->]%list_elem_of_singleton.
  destruct (nap_reactor s n m ts t HI) as (ts' & ids & Hp & Hnd & Hids & HI' & Hz).
  exists (ts', S t), ids, (pred n). split; [done|]. cbn [fst snd] in *. split; [lia|]. do 2 (split; [done|]). split; [lia|].
  split; [done|]. destruct n as [|n]; [|right; left; cbn; lia]. destruct (decide (ids = [])) as [Hnil|]; [right; right|by left].
  intros nm' l [_ Ht]. by destruct (Ht (Hz eq_refl Hnil)).
Qed.
End naps.
