(* ===== verification/RingService.v ===== *)
(** * RingService: any number of file operations in flight ([pluvio_uring/src/reactor.rs], [file.rs])

    The io_uring reactor keeps the promise of [Service.Serves]: any number of tasks may
    await operations at the same time, as long as the kernel takes their entries.  What
    is asked of the kernel is the record [KernelSpec]. *)

From S2P Require Import Prelude Future Executor UringAlloc UringReactor UringIo RingWait Service.
Local Open Scope nat_scope.

(** The entries in flight that the kernel has not reported. *)
Definition forget (us : list Z) (es : gmap Z Entry) : gmap Z Entry := filter (fun y => y.1 ∉ us) es.

Lemma forget_lookup us es u : forget us es !! u = if decide (u ∈ us) then None else es !! u.
Proof.
  unfold forget. case_decide as Hu.
  - apply map_lookup_filter_None. right. intros sqe _ Hn. by apply Hn.
  - destruct (es !! u) as [sqe|] eqn:He.
    + by apply map_lookup_filter_Some.
    + apply map_lookup_filter_None. by left.
Qed.

(** [good es r]: the entries in flight are [es].  Fewer than [cap] of them leave room for
    another, no submission fails, a reported number is one its entry allows, and every
    poll that finds nothing while something is in flight lowers [left], to which an entry
    adds at most [N]. *)
Record KernelSpec {R : Type} `{Ring Entry R} (p : IoUringParams) (thread : bool) (good : gmap Z Entry -> R -> Prop)
    (left : R -> nat) (N : nat) (cap : Z) (Answer : Entry -> Z -> Prop) : Prop := {
  kn_push es r u sqe : good es r -> es !! u = None -> (Z.of_nat (size es) < cap)%Z ->
    exists r', ring_push sqe u r = Some r' /\ good (<[u := sqe]> es) r' /\ left r' <= left r + N;
  kn_turn es r : good es r -> exists r' cqes, ring_turn p thread r = Some (r', cqes) /\
    (forall u res, (u, res) ∈ cqes -> exists sqe, es !! u = Some sqe /\ Answer sqe res) /\
    good (forget cqes.*1 es) r' /\ left r' <= left r /\ (cqes = [] -> es <> ∅ -> left r' < left r)
}.

Section ops.
Context {R : Type} `{Ring Entry R} (now : nat -> Z) (always_poll : bool) (name : string).
Abbreviation S := (IoUringReactor R).
Implicit Types (x : S) (m : Leaves SqeFuture).

Definition op_poll (k : Waker) (f : SqeFuture) (e : S * nat) : outcome (S * nat * SqeFuture * Poll (result Z Z)) :=
  '(x, f, p) ← SqeFuture_poll k f e.1; mret (x, e.2, f, p).

(** [impl Reactor for IoUringReactor]. *)
Definition op_dyn : DynReactor (S * nat) := {|
  dyn_poll e := '(x, ks) ← poll_submit_and_completions (now e.2) e.1; mret (x, Datatypes.S e.2, ks);
  dyn_status e := ((e.1, Datatypes.S e.2), uring_status always_poll (now e.2) e.1)
|}.

Definition ring_service : Service (result Z Z) SqeFuture S := mkService op_poll (fun _ e => e) [(name, op_dyn)].

Context (p : IoUringParams) (thread : bool) (good : gmap Z Entry -> R -> Prop) (left : R -> nat).
Context (N W : nat) (cap : Z) (Answer : Entry -> Z -> Prop) (HK : KernelSpec p thread good left N cap Answer).
Context (now_step : forall t, (now t <= now (Datatypes.S t))%Z).
Context (now_passes : forall t, (now t + wait_complete_timeout p <= now (t + W))%Z).

(** ** The invariant *)

(** The operation of a leaf: in flight with the waker of its task, or its result lies in
    the handle. *)
Definition op_ok x (id : nat) (lf : Leaf SqeFuture) : Prop := exists h sqe,
  lcur lf = SqeWait h /\ lorig lf = SqeStart sqe /\ h < next_handle x /\
  if lwoken lf then (exists res, handle_at h x = mkHandleState None (Some (cqe_result res)) /\ Answer sqe res) /\
    forall u, completions x !! u <> Some h
  else exists u, completions x !! u = Some h /\ handle_at h x = mkHandleState (Some (task_waker id)) None.

Record OpsInv (s n : nat) m x (t : nat) : Prop := {
  op_built : Built now p thread (mkRingEnv x t);
  op_counter : (user_data_counter x + Z.of_nat s < 2 ^ 64)%Z;
  op_kernel : exists es, good es (ring x) /\ left (ring x) <= n /\
    forall u, match completions x !! u with
      | Some h => exists id sqe, es !! u = Some sqe /\ m !! id = Some (mkLeaf (SqeWait h) (SqeStart sqe) false)
      | None => es !! u = None
      end;
  op_leaf id lf : m !! id = Some lf -> op_ok x id lf;
  op_inj id id' lf lf' : m !! id = Some lf -> m !! id' = Some lf' -> lcur lf = lcur lf' -> id = id'
}.

Lemma ops_later s s' n m x t t' : s' <= s -> t <= t' -> OpsInv s n m x t -> OpsInv s' n m x t'.
Proof.
  intros Hs Ht [[B1 B2 B3 B4] O2 O3 O4 O5]. split; try done; [|lia]. split; try done. cbn in *.
  assert (Hm := ring_now_mono now now_step t t' Ht). lia.
Qed.

(** The operation that [u] belongs to. *)
Lemma op_of s n m x t u h : OpsInv s n m x t -> completions x !! u = Some h ->
  exists id sqe, m !! id = Some (mkLeaf (SqeWait h) (SqeStart sqe) false) /\
    handle_at h x = mkHandleState (Some (task_waker id)) None.
Proof.
  intros HI Hu. destruct (op_kernel _ _ _ _ _ HI) as (es & _ & _ & He). specialize (He u). rewrite Hu in He.
  destruct He as (id & sqe & _ & Hl). exists id, sqe. split; [done|].
  destruct (op_leaf _ _ _ _ _ HI id _ Hl) as (h' & sqe' & [= <-] & _ & _ & u' & _ & Hh). done.
Qed.

Lemma ops_waited s n m x t : OpsInv s n m x t -> Waited x.
Proof. intros HI u h Hu. destruct (op_of _ _ _ _ _ _ _ HI Hu) as (id & sqe & _ & ->). by eexists. Qed.

(** There are no more entries than operations. *)
Lemma ops_size s n m x t es : OpsInv s n m x t -> (forall u, is_Some (es !! u) -> is_Some (completions x !! u)) ->
  size (es : gmap Z Entry) <= size m.
Proof.
  intros HI Hes. set (f := fun u => match completions x !! u with
    | Some h => match hwaker (handle_at h x) with Some k => task_id k | None => 0 end | None => 0 end).
  assert (Hf : forall u, is_Some (es !! u) -> exists h sqe, completions x !! u = Some h /\
    m !! f u = Some (mkLeaf (SqeWait h) (SqeStart sqe) false)).
  { intros u Hu. destruct (Hes u Hu) as [h Hh]. destruct (op_of _ _ _ _ _ _ _ HI Hh) as (id & sqe & Hl & Hk).
    exists h, sqe. split; [done|]. unfold f. by rewrite Hh, Hk. }
  rewrite <- (length_map_to_list es), <- (length_map fst), <- (length_map f).
  assert (Hin : forall u, u ∈ map fst (map_to_list es) -> is_Some (es !! u)).
  { intros u ([u' sqe] & -> & Hu)%list_elem_of_fmap. apply elem_of_map_to_list in Hu. by exists sqe. }
  apply NoDup_map_size.
  - apply NoDup_fmap_2_strong; [|apply NoDup_fst_map_to_list]. intros u u' Hu Hu' Heq.
    destruct (Hf u (Hin u Hu)) as (h & sqe & Hh & Hl), (Hf u' (Hin u' Hu')) as (h' & sqe' & Hh' & Hl').
    rewrite Heq, Hl' in Hl. injection Hl as -> _. by apply (ui_inj _ (bu_inv _ _ _ _ (op_built _ _ _ _ _ HI)) u u' h).
  - intros id (u & -> & Hu)%list_elem_of_fmap. destruct (Hf u (Hin u Hu)) as (h & sqe & _ & Hl). by eexists.
Qed.

(** ** The laws *)

(** The first poll pushes the entry under a fresh number and a fresh handle. *)
Lemma op_pushed x t id sqe r : Built now p thread (mkRingEnv x t) -> (user_data_counter x + 1 < 2 ^ 64)%Z ->
  ring_push sqe (user_data_counter x) (ring x) = Some r ->
  exists x', SqeFuture_poll (task_waker id) (SqeStart sqe) x = Ok (x', SqeWait (next_handle x), Pending) /\
    Built now p thread (mkRingEnv x' t) /\ ring x' = r /\ user_data_counter x' = (user_data_counter x + 1)%Z /\
    next_handle x' = Datatypes.S (next_handle x) /\ completions x' = <[user_data_counter x := next_handle x]> (completions x) /\
    forall h, handle_at h x' = if decide (h = next_handle x) then mkHandleState (Some (task_waker id)) None else handle_at h x.
Proof.
  intros [B1 B2 B3 B4] Hu Hr. cbn in B1, B2, B3, B4.
  assert (Hpush : exists x1, push_sqe sqe x = Ok (x1, next_handle x) /\ ring x1 = r /\ io_uring_params x1 = p /\
    threaded x1 = thread /\ last_submit_time x1 = last_submit_time x /\ user_data_counter x1 = (user_data_counter x + 1)%Z /\
    next_handle x1 = Datatypes.S (next_handle x)).
  { unfold push_sqe. rewrite Hr. cbn. eexists. split; [done|]. cbn. do 4 (split; [done|]). split; [|done].
    apply wrap64_small. unfold in_u64. destruct B1. lia. }
  destruct Hpush as (x1 & Hpush & Hr1 & Hp1 & Ht1 & Hl1 & Hu1 & Hn1).
  destruct (push_sqe_inv _ _ _ _ B1 ltac:(lia) Hpush) as (HI1 & _ & Hh1 & Hc1 & Ho1).
  cbn [SqeFuture_poll]. rewrite Hpush. cbn [mbind outcome_bind].
  assert (HI2 := wait_poll_inv (task_waker id) (next_handle x) x1 HI1). unfold WaitHandle_poll in *. rewrite Hh1 in *.
  cbn [hresult HandleState_new fst] in HI2 |- *. eexists. split; [done|]. split; [split; cbn; try done; by rewrite Hl1|].
  do 4 (split; [done|]). intros h. unfold handle_at. cbn. destruct (decide (h = next_handle x)) as [->|Hne]; [by rewrite lookup_insert_eq|].
  rewrite lookup_insert_ne by done. exact (Ho1 h Hne).
Qed.

Lemma op_first s n m x t id sqe : OpsInv (Datatypes.S s) n m x t -> m !! id = None -> (Z.of_nat (size m) < cap)%Z ->
  exists x' h, SqeFuture_poll (task_waker id) (SqeStart sqe) x = Ok (x', SqeWait h, Pending) /\
    OpsInv s (n + N) (<[id := mkLeaf (SqeWait h) (SqeStart sqe) false]> m) x' t.
Proof.
  intros HI Hm Hcap. destruct (op_kernel _ _ _ _ _ HI) as (es & Hg & Hn & He). assert (Hu := op_counter _ _ _ _ _ HI).
  assert (Hes : forall u, is_Some (es !! u) -> is_Some (completions x !! u)).
  { intros u [q Hq]. specialize (He u). destruct (completions x !! u); [by eexists|congruence]. }
  assert (Hsz := ops_size _ _ _ _ _ es HI Hes). assert (HB := op_built _ _ _ _ _ HI).
  assert (Hfresh : completions x !! user_data_counter x = None).
  { destruct (completions x !! user_data_counter x) as [h|] eqn:Hc; [|done]. destruct (ui_below _ (bu_inv _ _ _ _ HB) _ _ Hc). cbn in *. lia. }
  assert (Hef := He (user_data_counter x)). rewrite Hfresh in Hef.
  destruct (kn_push _ _ _ _ _ _ _ HK es (ring x) (user_data_counter x) sqe Hg Hef) as (r' & Hr & Hg' & Hl'); [lia|].
  destruct (op_pushed x t id sqe r' HB ltac:(lia) Hr) as (x2 & Hpo & HB2 & Hr2 & Hu2 & Hn2 & Hcm & Hat).
  set (h := next_handle x) in *. exists x2, h. split; [done|].
  assert (Hold : forall i lf, m !! i = Some lf -> exists h', lcur lf = SqeWait h' /\ h' < h).
  { intros i lf Hl. destruct (op_leaf _ _ _ _ _ HI i lf Hl) as (h' & q & Hc' & _ & Hlt & _). by exists h'. }
  split.
  - done.
  - lia.
  - exists (<[user_data_counter x := sqe]> es). rewrite Hr2. split; [done|]. split; [lia|].
    intros u. rewrite Hcm. destruct (decide (u = user_data_counter x)) as [->|Hne].
    + rewrite !lookup_insert_eq. exists id, sqe. by rewrite lookup_insert_eq.
    + rewrite !lookup_insert_ne by done. specialize (He u). destruct (completions x !! u) as [h'|]; [|done].
      destruct He as (i & q & Hq & Hl). exists i, q. split; [done|]. rewrite lookup_insert_ne; [done|]. intros <-. congruence.
  - intros i lf. destruct (decide (i = id)) as [->|Hne].
    + rewrite lookup_insert_eq. intros [= <-]. exists h, sqe. do 2 (split; [done|]). split; [lia|].
      exists (user_data_counter x). rewrite Hcm, lookup_insert_eq, Hat. by rewrite decide_True.
    + rewrite lookup_insert_ne by done. intros Hl. destruct (op_leaf _ _ _ _ _ HI i lf Hl) as (h' & q & Hc & Ho & Hlt & Hw).
      exists h', q. do 2 (split; [done|]). split; [lia|].
      rewrite Hat, decide_False by (unfold h; lia). destruct (lwoken lf).
      * destruct Hw as [Hw1 Hw2]. split; [done|]. intros u. rewrite Hcm. destruct (decide (u = user_data_counter x)) as [->|Hne'].
        -- rewrite lookup_insert_eq. intros [= Heq]. unfold h in Heq. lia.
        -- by rewrite lookup_insert_ne.
      * destruct Hw as (u & Hu' & Hh). exists u. rewrite Hcm, lookup_insert_ne; [done|]. intros <-. congruence.
  - intros i i' lf lf'. destruct (decide (i = id)) as [->|Hne], (decide (i' = id)) as [->|Hne'];
      rewrite ?lookup_insert_eq, ?lookup_insert_ne by done.
    + done.
    + intros [= <-] (h' & -> & Hlt)%Hold [= <-]. lia.
    + intros (h' & -> & Hlt)%Hold [= <-] [= ->]. lia.
    + apply (op_inj _ _ _ _ _ HI).
Qed.

Lemma op_due s n m x t id lf : OpsInv s n m x t -> m !! id = Some lf -> lwoken lf = true ->
  exists x' res sqe, SqeFuture_poll (task_waker id) (lcur lf) x = Ok (x', SqeDone, Ready (cqe_result res)) /\
    lorig lf = SqeStart sqe /\ Answer sqe res /\ OpsInv s n (delete id m) x' t.
Proof.
  intros HI Hl Hw. destruct (op_leaf _ _ _ _ _ HI id lf Hl) as (h & sqe & Hc & Ho & Hlt & Hk). rewrite Hw in Hk.
  destruct Hk as [(res & Hh & HA) Hno]. rewrite Hc. cbn [SqeFuture_poll].
  destruct (op_built _ _ _ _ _ HI) as [B1 B2 B3 B4]. cbn in B1, B2, B3, B4.
  assert (HI2 := wait_poll_inv (task_waker id) h x B1). unfold WaitHandle_poll in *. rewrite Hh in *. cbn [hresult hwaker fst] in HI2 |- *.
  set (x' := set_handles _ x) in *. exists x', res, sqe. split; [done|]. split; [done|]. split; [done|].
  assert (Hat : forall h', h' <> h -> handle_at h' x' = handle_at h' x).
  { intros h' Hne. unfold handle_at, x'. cbn. by rewrite lookup_insert_ne. }
  split.
  - by split.
  - exact (op_counter _ _ _ _ _ HI).
  - destruct (op_kernel _ _ _ _ _ HI) as (es & Hg & Hn & He). exists es. split; [done|]. split; [done|]. intros u.
    change (completions x') with (completions x). specialize (He u). destruct (completions x !! u) as [h'|]; [|done].
    destruct He as (i & q & Hq & Hi). exists i, q. split; [done|]. rewrite lookup_delete_ne; [done|]. intros <-.
    rewrite Hl in Hi. injection Hi as ->. done.
  - intros i lf' [Hne Hl']%lookup_delete_Some. destruct (op_leaf _ _ _ _ _ HI i lf' Hl') as (h' & q & Hc' & Ho' & Hlt' & Hw').
    exists h', q. rewrite Hat; [done|]. intros ->. apply Hne. apply (op_inj _ _ _ _ _ HI id i lf lf'); congruence.
  - intros i i' lf1 lf2 [_ H1]%lookup_delete_Some [_ H2]%lookup_delete_Some. by apply (op_inj _ _ _ _ _ HI).
Qed.

(** What a poll of the reactor did: the completions [cqes] were reported, and [ks] are the
    wakers of their operations. *)
Record Turned m x x' (cqes : list (Z * Z)) (ks : list Waker) : Prop := {
  tu_each i u res : cqes !! i = Some (u, res) -> exists h id sqe, completions x !! u = Some h /\
    m !! id = Some (mkLeaf (SqeWait h) (SqeStart sqe) false) /\ ks !! i = Some (task_waker id) /\
    handle_at h x' = mkHandleState None (Some (cqe_result res)) /\ Answer sqe res;
  tu_length : length ks = length cqes;
  tu_nodup : NoDup cqes.*1;
  tu_completions u : completions x' !! u = if decide (u ∈ cqes.*1) then None else completions x !! u;
  tu_others h : (forall u, u ∈ cqes.*1 -> completions x !! u <> Some h) -> handle_at h x' = handle_at h x
}.

Lemma reported u (cqes : list (Z * Z)) : u ∈ cqes.*1 <-> exists res, (u, res) ∈ cqes.
Proof.
  rewrite list_elem_of_fmap. split; [intros ([v res] & -> & Hv); by exists res|intros [res Hv]; by exists (u, res)].
Qed.

Section turned.
Context (s n : nat) m x (t : nat) x' (cqes : list (Z * Z)) (ks : list Waker).
Context (HI : OpsInv s n m x t) (HT : Turned m x x' cqes ks).
Abbreviation ids := (map task_id ks).

Lemma handles_inj u u' h : completions x !! u = Some h -> completions x !! u' = Some h -> u = u'.
Proof. apply (ui_inj _ (bu_inv _ _ _ _ (op_built _ _ _ _ _ HI))). Qed.

Lemma turned_at i k : ks !! i = Some k -> exists u res h id sqe, cqes !! i = Some (u, res) /\ completions x !! u = Some h /\
  m !! id = Some (mkLeaf (SqeWait h) (SqeStart sqe) false) /\ k = task_waker id /\
  handle_at h x' = mkHandleState None (Some (cqe_result res)) /\ Answer sqe res.
Proof.
  intros Hi. destruct (lookup_lt_is_Some_2 cqes i) as [[u res] Hc].
  { rewrite <- (tu_length _ _ _ _ _ HT). by eapply lookup_lt_Some. }
  destruct (tu_each _ _ _ _ _ HT i u res Hc) as (h & id & sqe & Hch & Hl & Hki & Hh & HA). rewrite Hi in Hki. injection Hki as ->.
  by exists u, res, h, id, sqe.
Qed.

(** The tasks that are woken are those of the operations reported. *)
Lemma turned_woken id : id ∈ ids <-> exists u res h sqe, (u, res) ∈ cqes /\ completions x !! u = Some h /\
  m !! id = Some (mkLeaf (SqeWait h) (SqeStart sqe) false) /\ handle_at h x' = mkHandleState None (Some (cqe_result res)) /\
  Answer sqe res.
Proof.
  rewrite list_elem_of_fmap. split.
  - intros (k & -> & [i Hi]%list_elem_of_lookup_1). destruct (turned_at i k Hi) as (u & res & h & id & sqe & Hc & Hch & Hl & -> & ?).
    exists u, res, h, sqe. split; [by eapply list_elem_of_lookup_2|done].
  - intros (u & res & h & sqe & [i Hi]%list_elem_of_lookup_1 & Hc & Hl & _).
    destruct (tu_each _ _ _ _ _ HT i u res Hi) as (h' & id' & sqe' & Hc' & Hl' & Hki & _). rewrite Hc in Hc'. injection Hc' as <-.
    exists (task_waker id'). split; [|by eapply list_elem_of_lookup_2]. cbn. by eapply (op_inj _ _ _ _ _ HI).
Qed.

Lemma turned_wakers : ks = map task_waker ids.
Proof.
  rewrite map_map. rewrite <- (map_id ks) at 1. apply map_ext_in. intros k [i Hi]%list_elem_of_In%list_elem_of_lookup_1.
  by destruct (turned_at i k Hi) as (u & res & h & id & sqe & _ & _ & _ & -> & _).
Qed.

Lemma turned_nodup : NoDup ids.
Proof.
  apply NoDup_alt. intros i j id Hi Hj. rewrite list_lookup_fmap in Hi, Hj.
  destruct (ks !! i) as [ki|] eqn:Hki; [|done]. destruct (ks !! j) as [kj|] eqn:Hkj; [|done]. injection Hi as Hi. injection Hj as Hj.
  destruct (turned_at i ki Hki) as (u & res & h & id1 & sqe & Hc & Hch & Hl & -> & _).
  destruct (turned_at j kj Hkj) as (u' & res' & h' & id2 & sqe' & Hc' & Hch' & Hl' & -> & _). cbn in Hi, Hj. subst id1 id2.
  rewrite Hl in Hl'. injection Hl' as <- _. assert (u' = u) as -> by (by eapply handles_inj).
  apply (NoDup_lookup _ i j u (tu_nodup _ _ _ _ _ HT)); rewrite list_lookup_fmap; [by rewrite Hc|by rewrite Hc'].
Qed.

(** An operation that waits is woken when its entry is reported, and only then. *)
Lemma turned_entry id h sqe u : m !! id = Some (mkLeaf (SqeWait h) (SqeStart sqe) false) -> completions x !! u = Some h ->
  id ∈ ids <-> u ∈ cqes.*1.
Proof.
  intros Hl Hch. rewrite turned_woken, reported. split.
  - intros (u' & res & h' & sqe' & Hin & Hch' & Hl' & _). rewrite Hl in Hl'. injection Hl' as <- _.
    assert (u' = u) as -> by (by eapply handles_inj). by exists res.
  - intros [res Hin]. assert (Hi := Hin). apply list_elem_of_lookup_1 in Hi as [i Hi].
    destruct (tu_each _ _ _ _ _ HT i u res Hi) as (h' & id' & sqe' & Hch' & Hl' & _ & Hh & HA). rewrite Hch in Hch'. injection Hch' as <-.
    assert (id' = id) as -> by (by eapply (op_inj _ _ _ _ _ HI)). by exists u, res, h, sqe'.
Qed.

Lemma turned_leaf id lf : wake_leaves ids m !! id = Some lf -> next_handle x' = next_handle x -> op_ok x' id lf.
Proof.
  rewrite wake_leaves_lookup. destruct (m !! id) as [lf0|] eqn:Hl; [|done]. cbn [fmap option_fmap option_map]. intros [= <-] Hnx.
  destruct (op_leaf _ _ _ _ _ HI id lf0 Hl) as (h & sqe & Hc & Ho & Hlt & Hw). exists h, sqe.
  split; [by case_decide|]. split; [by case_decide|]. split; [by rewrite Hnx|]. destruct (lwoken lf0) eqn:Hwk.
  - replace (lwoken (if decide (id ∈ ids) then _ else _)) with true by (by case_decide).
    destruct Hw as [(res & Hh & HA) Hno]. split.
    + exists res. by rewrite (tu_others _ _ _ _ _ HT) by (intros u _; apply Hno).
    + intros u. rewrite (tu_completions _ _ _ _ _ HT). by case_decide.
  - destruct Hw as (u & Hch & Hh). assert (Hl' : m !! id = Some (mkLeaf (SqeWait h) (SqeStart sqe) false)).
    { rewrite Hl. destruct lf0. cbn in *. by subst. }
    assert (He := turned_entry id h sqe u Hl' Hch). case_decide as Hin; cbn [wake_leaf lwoken].
    + apply turned_woken in Hin as (u' & res & h' & sqe' & Hin & Hch' & Hl2 & Hh' & HA). rewrite Hl' in Hl2. injection Hl2 as <- <-.
      split; [by exists res|]. intros v. rewrite (tu_completions _ _ _ _ _ HT). case_decide as Hv; [done|]. intros Hcv. apply Hv, reported.
      assert (v = u') as -> by (by eapply handles_inj). by exists res.
    + rewrite Hwk. exists u. rewrite (tu_completions _ _ _ _ _ HT), decide_False by tauto. split; [done|].
      rewrite (tu_others _ _ _ _ _ HT); [done|]. intros v Hv Hcv. assert (v = u) as -> by (by eapply handles_inj). tauto.
Qed.

(** What the kernel still has in flight. *)
Lemma turned_kernel es : (forall u, match completions x !! u with
    | Some h => exists id sqe, es !! u = Some sqe /\ m !! id = Some (mkLeaf (SqeWait h) (SqeStart sqe) false)
    | None => es !! u = None end) ->
  forall u, match completions x' !! u with
    | Some h => exists id sqe, forget cqes.*1 es !! u = Some sqe /\
        wake_leaves ids m !! id = Some (mkLeaf (SqeWait h) (SqeStart sqe) false)
    | None => forget cqes.*1 es !! u = None end.
Proof.
  intros He u. rewrite (tu_completions _ _ _ _ _ HT), forget_lookup. destruct (decide (u ∈ cqes.*1)) as [Hin|Hni]; [done|].
  specialize (He u). destruct (completions x !! u) as [h|] eqn:Hch; [|done]. destruct He as (id & sqe & Hq & Hl).
  exists id, sqe. split; [done|]. rewrite wake_leaves_lookup, Hl. cbn. rewrite decide_False; [done|]. by rewrite turned_entry.
Qed.
End turned.

(** A poll of the reactor wakes the tasks whose operations the kernel reports. *)
Lemma op_turn s n m x t es r cqes : OpsInv s n m x t -> good es (ring x) ->
  (forall u, match completions x !! u with
    | Some h => exists id sqe, es !! u = Some sqe /\ m !! id = Some (mkLeaf (SqeWait h) (SqeStart sqe) false)
    | None => es !! u = None end) ->
  ring_turn p thread (ring x) = Some (r, cqes) ->
  (forall u res, (u, res) ∈ cqes -> exists sqe, es !! u = Some sqe /\ Answer sqe res) ->
  exists x' ks, poll_submit_and_completions (now t) x = Ok (x', ks) /\ Turned m x x' cqes ks /\
    Built now p thread (mkRingEnv x' (Datatypes.S t)) /\ ring x' = r /\ user_data_counter x' = user_data_counter x /\
    next_handle x' = next_handle x.
Proof.
  intros HI Hg He Hr Hans.
  destruct (built_turn now always_poll p thread now_step (mkRingEnv x t) r cqes (op_built _ _ _ _ _ HI) (ops_waited _ _ _ _ _ HI) Hr)
    as (x' & ks & Hp & HB' & Hx & Hlen & Hnd & Hu & _ & Hd & Hcm & Hoth & Hnx).
  cbn [rreactor rreads dyn_poll uring_dyn ring_clock] in *. exists x', ks. split.
  { destruct (poll_submit_and_completions (now t) x) as [[x1 ks1]|]; [|done]. cbn in Hp. by injection Hp as -> ->. }
  split; [|done]. split; try done. intros i u res Hi. destruct (Hd i u res Hi) as (h & k & Hc & Hw & Hks & Hh). exists h.
  destruct (Hans u res (list_elem_of_lookup_2 _ _ _ Hi)) as (sqe & Hq & HA). assert (Heu := He u). rewrite Hc in Heu.
  destruct Heu as (id & sqe' & Hq' & Hl). rewrite Hq in Hq'. injection Hq' as <-. exists id, sqe.
  destruct (op_of _ _ _ _ _ _ _ HI Hc) as (id' & q & Hl' & Hh'). rewrite Hh' in Hw. injection Hw as <-.
  assert (id' = id) as -> by (by eapply (op_inj _ _ _ _ _ HI)). done.
Qed.

Lemma op_reactor s n m x t : OpsInv s n m x t ->
  exists x' ids n', poll_submit_and_completions (now t) x = Ok (x', map task_waker ids) /\ NoDup ids /\
    (forall id, id ∈ ids -> exists lf, m !! id = Some lf /\ lwoken lf = false) /\ n' <= n /\
    OpsInv s n' (wake_leaves ids m) x' (Datatypes.S t) /\ (ids = [] -> completions x <> ∅ -> n' < n).
Proof.
  intros HI. destruct (op_kernel _ _ _ _ _ HI) as (es & Hg & Hn & He).
  destruct (kn_turn _ _ _ _ _ _ _ HK es (ring x) Hg) as (r & cqes & Hr & Hans & Hg' & Hle & Hlt).
  destruct (op_turn s n m x t es r cqes HI Hg He Hr Hans) as (x' & ks & Hpo & HT & HB' & Hx & Hu & Hnx).
  exists x', (map task_id ks), (left r). rewrite <- (turned_wakers _ _ _ _ _ HT). split; [done|].
  split; [by eapply turned_nodup|]. split.
  { intros id (u & res & h & sqe & _ & _ & Hl & _)%(turned_woken s n m x t x' cqes ks HI HT). by eexists. }
  split; [lia|]. split.
  - split; [done|by rewrite Hu; apply (op_counter _ _ _ _ _ HI)| | |].
    + exists (forget cqes.*1 es). rewrite Hx. split; [done|]. split; [done|]. by eapply turned_kernel.
    + intros id lf Hl. by eapply turned_leaf.
    + intros i i' l1 l2. rewrite !wake_leaves_lookup. destruct (m !! i) as [a|] eqn:Ha; [|done]. destruct (m !! i') as [b|] eqn:Hb; [|done].
      cbn. intros [= <-] [= <-] Heq. apply (op_inj _ _ _ _ _ HI i i' a b Ha Hb). by do 2 case_decide.
  - intros Hnil Hne. assert (Hz : cqes = []).
    { assert (Hl := tu_length _ _ _ _ _ HT). destruct cqes; [done|]. by destruct ks. }
    assert (Hes : es <> ∅); [|specialize (Hlt Hz Hes); lia]. intros ->. apply Hne. apply map_eq. intros u. specialize (He u).
    rewrite lookup_empty in *. destruct (completions x !! u); [|done]. by destruct He as (? & ? & ? & _).
Qed.

Lemma pending_io s n m x t : OpsInv s n m x t -> completions x <> ∅ -> has_pending_io x = true.
Proof.
  intros HI Hne. unfold has_pending_io. assert (Hct := ui_count _ (bu_inv _ _ _ _ (op_built _ _ _ _ _ HI))). cbn in Hct.
  assert (Hs : size (completions x) <> 0) by (by intros Hs%map_size_empty_iff). lia.
Qed.

#[local] Program Instance ring_serves : Serves ring_service := {
  sv_cost := N;
  sv_looks := ring_looks always_poll W;
  sv_room := cap;
  Askable f := exists sqe, f = SqeStart sqe;
  Replies f v := exists sqe res, f = SqeStart sqe /\ v = cqe_result res /\ Answer sqe res;
  SvInv s n m e := OpsInv s n m e.1 e.2;
  Owes nm l e := nm = name /\ completions e.1 <> ∅ /\ Ripe now always_poll p l (mkRingEnv e.1 e.2)
}.
Next Obligation. intros s s' n m e Hs HI. eapply ops_later, HI; lia. Qed.
Next Obligation. intros s n m x t t' Ht HI. eapply ops_later, HI; cbn; lia. Qed.
Next Obligation.
  intros nm l x t t' Ht (Hn & Hc & Hr). split; [done|]. split; [done|]. destruct Hr as [|Hr]; [by left|right]. cbn in *.
  assert (Hm := ring_now_mono now now_step (t + l) (t' + l) ltac:(lia)). lia.
Qed.
Next Obligation.
  intros s n m [x t] id lf HI Hl Hw. exists name, (ring_looks always_poll W). split; [by left|]. split; [done|]. split; [done|].
  cbn [fst snd] in *. destruct (op_leaf _ _ _ _ _ HI id lf Hl) as (h & sqe & _ & _ & _ & Hu). rewrite Hw in Hu.
  destruct Hu as (u & Hu & _). split; [intros Hc; by rewrite Hc, lookup_empty in Hu|].
  unfold Ripe, ring_looks. destruct always_poll; [by left|right]. cbn. assert (Hp' := now_passes t).
  assert (Hlast := bu_last _ _ _ _ (op_built _ _ _ _ _ HI)). cbn in Hlast. lia.
Qed.
Next Obligation.
  intros s n m [x t] id f HI Hm [sqe ->] Hsz. cbn [fst snd] in *.
  destruct (op_first s n m x t id sqe HI Hm Hsz) as (x' & h & Hp & HI'). cbn [spoll ring_service]. unfold op_poll. cbn [fst snd].
  rewrite Hp. eexists _, _, _. split; [done|]. split; [done|]. exists (n + N). by split.
Qed.
Next Obligation.
  intros s n m [x t] id lf HI Hl Hw. cbn [fst snd] in *.
  destruct (op_due s n m x t id lf HI Hl Hw) as (x' & res & sqe & Hp & Ho & HA & HI'). cbn [spoll ring_service]. unfold op_poll.
  cbn [fst snd]. rewrite Hp. eexists _, _, _. split; [done|]. split; [done|]. split; [by exists sqe, res|]. by split.
Qed.
Next Obligation.
  intros s n m [x t] nm r HI [= -> ->]%list_elem_of_singleton. cbn [dyn_status op_dyn fst snd]. eexists _, _. split; [done|].
  cbn [fst snd]. split; [lia|]. split; [apply (ops_later s s n m x t (Datatypes.S t)); [lia|lia|done]|]. intros nm' l (-> & Hc & Hr).
  assert (Hclk := ripe_clock now always_poll p now_step l (mkRingEnv x t) Hr).
  destruct (ripe_status now always_poll p thread l (mkRingEnv x t) (op_built _ _ _ _ _ HI) (pending_io _ _ _ _ _ HI Hc) Hr)
    as [Hst|(l' & -> & Hr')].
  - exists l. split; [done|]. split; [done|]. intros _ Hs. cbn in Hst. by rewrite Hst in Hs.
  - exists l'. split; [lia|]. split; [done|]. lia.
Qed.
Next Obligation.
  intros s n m [x t] nm r HI [= -> ->]%list_elem_of_singleton. cbn [fst snd] in *.
  destruct (op_reactor s n m x t HI) as (x' & ids & n' & Hp & Hnd & Hids & Hn & HI' & Hz).
  exists (x', Datatypes.S t), ids, n'. cbn [dyn_poll op_dyn fst snd]. rewrite Hp. split; [done|]. split; [lia|].
  do 2 (split; [done|]). split; [done|]. split; [done|]. destruct (decide (ids = [])) as [Hnil|]; [right|by left].
  destruct (decide (completions x = ∅)) as [Hc|Hc].
  - right. by intros nm' l (_ & ? & _).
  - left. by apply Hz.
Qed.
End ops.
