(* ===== verification/MpiService.v ===== *)
(** * MpiService: any number of MPI collectives in flight ([pluvio_collective/src/mpi_backend])

    The MPI reactor keeps the promise of [Service.Serves]: any number of tasks may await
    requests at the same time.  What is asked of the library, besides the laws of
    [MpiLib], is the record [Patience]: a number of tests after which its requests are
    complete, which every test that finds a request incomplete lowers. *)

From S2P Require Import Prelude Future Executor CollBase Mpi MpiWait Service.
Local Open Scope nat_scope.

(** [tests m]: how many more tests of requests in flight may find them incomplete; a
    call adds at most [N], and a call that is refused none. *)
Record Patience {M : Type} `{MpiLib M} (tests : M -> nat) (N : nat) : Prop := {
  pt_test r m m' rc flag : MPI_Test r m = (m', rc, flag) -> r ∈ inflight m ->
    tests m' <= tests m /\ (flag = false -> tests m' < tests m);
  pt_start c m m' rc r : start c m = (m', rc, r) -> tests m' <= tests m + (if decide (rc = MPI_SUCCESS) then N else 0)
}.

Section requests.
Context {M : Type} `{MpiLib M} (debug : bool) (name : string).
Implicit Types (x : MpiReactor) (l : M).
Abbreviation S := (M * MpiReactor)%type.

Definition request_poll (k : Waker) (f : MpiAsync) (e : S * nat) :
    outcome (S * nat * MpiAsync * Poll (result unit CollectiveError)) :=
  let '(l, x, f, p) := MpiAsync_poll k f e.1.2 e.1.1 in Ok ((l, x), e.2, f, p).

(** [impl Reactor for MpiReactor]. *)
Definition request_dyn : DynReactor (S * nat) := {|
  dyn_poll e := '(l, x, ks) ← mpi_poll debug e.1.2 e.1.1; mret ((l, x), e.2, ks);
  dyn_status e := (e, mpi_status e.1.2)
|}.

Definition mpi_service : Service (result unit CollectiveError) MpiAsync S :=
  mkService request_poll (fun _ e => e) [(name, request_dyn)].

Context (tests : M -> nat) (N : nat) (HP : Patience tests N).

(** A poll of the reactor that retires nothing lowers the number of tests. *)
Lemma poll_tests fuel : forall i x l l' x' ws, length (pending x) <= i + fuel -> MpiWf x l ->
  mpi_poll_loop debug fuel i x l = Ok (l', x', ws) ->
  tests l' <= tests l /\ (ws = [] -> i < length (pending x) -> tests l' < tests l).
Proof.
  induction fuel as [|fuel IH]; intros i x l l' x' ws Hf HW Hp; cbn [mpi_poll_loop] in Hp.
  { injection Hp as <- <- <-. split; [done|lia]. }
  destruct (pending x !! i) as [e|] eqn:He; cycle 1.
  { injection Hp as <- <- <-. apply lookup_ge_None in He. split; [done|lia]. }
  destruct (MPI_Test (req e) l) as [[l1 rc] flag] eqn:Ht.
  assert (Hin : req e ∈ inflight l) by (apply (mw_inflight _ _ HW); by eapply list_elem_of_lookup_2).
  destruct (test_law _ _ _ _ _ Ht Hin) as (-> & Hi & _ & _). destruct (pt_test _ _ HP _ _ _ _ _ Ht Hin) as [Hle Hlt].
  rewrite Z.eqb_refl, andb_false_r in Hp. cbn [mbind outcome_bind mret outcome_ret] in Hp. destruct flag.
  - destruct (swap_remove_spec i _ _ He) as (p & Hsw & Hlen & Htk & Hd). rewrite Hsw in Hp. cbn [mbind outcome_bind] in Hp.
    destruct (wf_remove i x l l1 e p HW He Htk Hlen Hd Hi) as [HW1 _].
    assert (Ha := mw_active _ _ HW). destruct (active x) as [|a]; [done|].
    replace (Datatypes.S a - 1) with a in HW1 by lia.
    destruct (mpi_poll_loop _ _ _ _ _) as [[[l2 x2] ws2]|] eqn:Hl; [|done]. injection Hp as <- <- <-.
    apply IH in Hl as [Hle2 _]; [|cbn; lia|exact HW1]. split; [lia|done].
  - apply IH in Hp as [Hle2 _]; [|lia|by eapply mpi_wf_inflight; [exact HW|rewrite Hi]]. split; [lia|]. specialize (Hlt eq_refl). lia.
Qed.

(** ** The invariant *)

Implicit Types (m : Leaves MpiAsync).

(** A future of the communicator before its first poll. *)
Definition request_askable (f : MpiAsync) : Prop :=
  (exists c, f = Built (mkFut c NotStarted) \/ f = Unbuilt (ROk (mkFut c NotStarted))) \/
  exists err, f = Unbuilt (RErr err).

(** The waiting futures and the pending requests correspond; the slot of a woken one is
    set. *)
Record RequestInv (n : nat) m (e : S) : Prop := {
  ri_wf : MpiWf e.2 e.1;
  ri_tests : tests e.1 <= n;
  ri_leaf id lf : m !! id = Some lf -> exists c s, lcur lf = Built (mkFut c (InFlight s)) /\
    if lwoken lf then Landed s e.2 else exists r, mkReq r (task_waker id) s ∈ pending e.2;
  ri_pending q : q ∈ pending e.2 -> exists id lf c, rwaker q = task_waker id /\ m !! id = Some lf /\ lwoken lf = false /\
    lcur lf = Built (mkFut c (InFlight (slot q)))
}.

(** Requests are told apart by their tasks. *)
Lemma request_inj n m e q q' : RequestInv n m e -> q ∈ pending e.2 -> q' ∈ pending e.2 ->
  task_id (rwaker q) = task_id (rwaker q') -> q = q'.
Proof.
  intros HI Hq Hq' Heq. destruct (ri_pending _ _ _ HI q Hq) as (id & lf & c & Hk & Hl & _ & Hc).
  destruct (ri_pending _ _ _ HI q' Hq') as (id' & lf' & c' & Hk' & Hl' & _ & Hc').
  rewrite Hk, Hk' in Heq. cbn in Heq. subst id'. rewrite Hl in Hl'. injection Hl' as <-. rewrite Hc in Hc'. injection Hc' as _ Hs.
  apply list_elem_of_lookup_1 in Hq as [i Hi], Hq' as [j Hj].
  assert (i = j) as <-; [|congruence]. apply (NoDup_lookup _ i j (slot q) (mw_slot _ _ (ri_wf _ _ _ HI)));
    rewrite list_lookup_fmap; [by rewrite Hi|rewrite Hj; cbn; by f_equal].
Qed.

(** ** The laws *)

(** The first poll of a future that starts a request. *)
Lemma request_first n m e id c : RequestInv n m e -> m !! id = None ->
  exists l x f p, MpiFuture_poll (task_waker id) (mkFut c NotStarted) e.2 e.1 = (l, x, f, p) /\
  match p with
  | Ready v => (exists rc, rc <> MPI_SUCCESS /\ v = RErr (CollBase.Mpi rc)) /\ RequestInv n m (l, x)
  | Pending => forall f0, RequestInv (n + N) (<[id := mkLeaf (Built f) f0 false]> m) (l, x)
  end.
Proof.
  destruct e as [l x]. intros HI Hm. destruct (MpiFuture_poll _ _ _ _) as [[[l' x'] f] p] eqn:Hp. exists l', x', f, p.
  split; [done|]. assert (HW' := future_poll_wf _ _ _ _ _ _ _ _ (ri_wf _ _ _ HI) Hp).
  destruct HI as [R1 R2 R3 R4]. cbn [fst snd] in *. unfold MpiFuture_poll in Hp. cbn [fstate fcall] in Hp.
  destruct (start c l) as [[l1 rc] r] eqn:Hs. assert (Ht := pt_start _ _ HP _ _ _ _ _ Hs).
  destruct (Z.eqb_spec rc MPI_SUCCESS) as [->|Hne]; cbn [negb] in Hp.
  - rewrite decide_True in Ht by done. unfold register in Hp. injection Hp as <- <- <- <-. intros f0. split; cbn [fst snd].
    + exact HW'.
    + lia.
    + intros i lf. destruct (decide (i = id)) as [->|Hne].
      * rewrite lookup_insert_eq. intros [= <-]. exists c, (length (cslots x)). split; [done|]. cbn [lwoken]. exists r.
        cbn. apply elem_of_app. right. by left.
      * rewrite lookup_insert_ne by done. intros Hl. destruct (R3 i lf Hl) as (c' & s & Hc & Hw). exists c', s. split; [done|].
        destruct (lwoken lf); [by apply (register_keeps r (clone_raw (task_waker id)) x)|]. destruct Hw as [r' Hw]. exists r'.
        cbn. apply elem_of_app. by left.
    + cbn [pending]. intros q [Hq| ->%list_elem_of_singleton]%elem_of_app.
      * destruct (R4 q Hq) as (i & lf & c' & Hk & Hl & ?). exists i, lf, c'. rewrite lookup_insert_ne; [done|]. intros <-. congruence.
      * exists id. eexists _, c. by rewrite lookup_insert_eq.
  - rewrite decide_False in Ht by done. injection Hp as <- <- <- <-. split; [by exists rc|]. split; cbn [fst snd]; try done. lia.
Qed.

(** A poll of the reactor. *)
Lemma request_reactor n m e : RequestInv n m e ->
  exists l' x' ids n', mpi_poll debug e.2 e.1 = Ok (l', x', map task_waker ids) /\ NoDup ids /\
    (forall id, id ∈ ids -> exists lf, m !! id = Some lf /\ lwoken lf = false) /\ n' <= n /\
    RequestInv n' (wake_leaves ids m) (l', x') /\ (ids = [] -> pending e.2 <> [] -> n' < n).
Proof.
  intros HI. destruct (mpi_poll_scan debug _ _ (ri_wf _ _ _ HI)) as (l' & x' & kept & comp & Hp & HS).
  assert (Ht := Hp). apply poll_tests in Ht as [Hle Hlt]; [|lia|apply (ri_wf _ _ _ HI)].
  destruct HS as [S1 S2 S3 _ _ S6]. rewrite drop_0 in S1. cbn in S2. set (ids := map (fun q => task_id (rwaker q)) comp).
  assert (Hsub : forall q, q ∈ comp -> q ∈ pending e.2) by (intros q Hq; rewrite S1; apply elem_of_app; by right).
  assert (Hkept : forall q, q ∈ kept -> q ∈ pending e.2) by (intros q Hq; rewrite S1; apply elem_of_app; by left).
  assert (Hnp : NoDup (pending e.2)) by (apply (NoDup_fmap_1 req), (mw_req _ _ (ri_wf _ _ _ HI))).
  rewrite S1 in Hnp. apply NoDup_app in Hnp as (_ & Hdis & Hnc).
  assert (Hids : forall id, id ∈ ids <-> exists q, q ∈ comp /\ rwaker q = task_waker id).
  { intros id. unfold ids. rewrite list_elem_of_fmap. split.
    - intros (q & -> & Hq). exists q. split; [done|]. by destruct (ri_pending _ _ _ HI q (Hsub q Hq)) as (i & lf & c & -> & _).
    - intros (q & Hq & Hk). exists q. by rewrite Hk. }
  assert (Hin : forall q id, q ∈ pending e.2 -> rwaker q = task_waker id -> id ∈ ids -> q ∈ comp).
  { intros q id Hq Hk (q' & Hq' & Hk')%Hids. replace q with q'; [done|].
    apply (request_inj n m e); [done|by apply Hsub|done|by rewrite Hk, Hk']. }
  exists l', x', ids, (tests l'). split; [|split; [|split; [|split; [|split]]]].
  - rewrite Hp. do 2 f_equal. unfold ids. rewrite map_map. apply map_ext_in. intros q Hq%list_elem_of_In.
    by destruct (ri_pending _ _ _ HI q (Hsub q Hq)) as (i & lf & c & -> & _).
  - apply NoDup_fmap_2_strong; [|done]. intros q q' Hq Hq'. by apply (request_inj n m e); [|apply Hsub|apply Hsub].
  - intros id (q & Hq & Hk)%Hids. destruct (ri_pending _ _ _ HI q (Hsub q Hq)) as (i & lf & c & Hk' & Hl & Hw & _).
    rewrite Hk in Hk'. injection Hk' as <-. by exists lf.
  - assert (Hn := ri_tests _ _ _ HI). lia.
  - split; cbn [fst snd].
    + exact S6.
    + done.
    + intros id lf. rewrite wake_leaves_lookup. destruct (m !! id) as [lf0|] eqn:Hl; [|done]. cbn [fmap option_fmap option_map].
      intros [= <-]. destruct (ri_leaf _ _ _ HI id lf0 Hl) as (c & s & Hc & Hw). exists c, s. split; [by case_decide|].
      destruct (lwoken lf0) eqn:Hwk.
      * assert (HL : Landed s x') by (unfold Landed in *; rewrite S3; by case_decide).
        case_decide; cbn [wake_leaf lwoken]; [done|by rewrite Hwk].
      * destruct Hw as [r Hq]. destruct (decide (id ∈ ids)) as [Hi|Hi]; cbn [wake_leaf lwoken].
        -- apply (Hin _ id Hq eq_refl) in Hi. unfold Landed. rewrite S3, decide_True; [done|].
           by apply (list_elem_of_fmap_2 slot _ (mkReq r (task_waker id) s)).
        -- rewrite Hwk. exists r. rewrite S2. rewrite S1 in Hq. apply elem_of_app in Hq as [Hq|Hq]; [done|].
           destruct Hi. apply Hids. by eexists.
    + intros q Hq. rewrite S2 in Hq. destruct (ri_pending _ _ _ HI q (Hkept q Hq)) as (id & lf & c & Hk & Hl & Hw & Hc).
      exists id, lf, c. split; [done|]. split; [|done]. rewrite wake_leaves_lookup, Hl. cbn. rewrite decide_False; [done|].
      intros Hi. apply (Hdis q Hq). by apply (Hin q id); [apply Hkept| |].
  - intros Hnil Hpe. assert (Hn := ri_tests _ _ _ HI). destruct comp; [|done].
    destruct (pending e.2) eqn:Hpd; [done|]. specialize (Hlt eq_refl ltac:(cbn; lia)). lia.
Qed.

#[local] Program Instance mpi_serves : Serves mpi_service := {
  sv_cost := N;
  sv_looks := 0;
  sv_room := 2 ^ 64;
  Askable := request_askable;
  Replies := MpiWait.Allowed;
  SvInv s n m e := RequestInv n m e.1;
  Owes nm _ e := nm = name /\ pending e.1.2 <> []
}.
Next Obligation. done. Qed.
Next Obligation. done. Qed.
Next Obligation. done. Qed.
Next Obligation.
  intros s n m [[l x] t] id lf HI Hl Hw. exists name, 0. split; [by left|]. split; [done|]. split; [done|].
  destruct (ri_leaf _ _ _ HI id lf Hl) as (c & sl & _ & Hq). rewrite Hw in Hq. destruct Hq as [r Hq].
  intros Hnil. cbn in *. rewrite Hnil in Hq. by apply elem_of_nil in Hq.
Qed.
Next Obligation.
  intros s n m [[l x] t] id f HI Hm Hf _. cbn [spoll mpi_service request_poll fst snd].
  destruct Hf as [(c & Hf)|(err & ->)]; cycle 1.
  { cbn. eexists _, _, _. split; [done|]. split; [done|]. split; [|done]. right. right. by exists err. }
  destruct (request_first n m (l, x) id c HI Hm) as (l' & x' & f' & p & Hp & Hres). cbn [fst snd] in Hp.
  assert (Hpo : MpiAsync_poll (task_waker id) f x l = (l', x', Built f', p)) by (destruct Hf as [-> | ->]; cbn [MpiAsync_poll]; by rewrite Hp).
  unfold request_poll. cbn [fst snd]. rewrite Hpo. eexists _, _, p. split; [done|]. split; [done|]. destruct p as [v|].
  - destruct Hres as [(rc & Hrc & ->) HI']. split; [|done]. right. left. by exists rc.
  - exists (n + N). by split.
Qed.
Next Obligation.
  intros s n m [[l x] t] id lf HI Hl Hw. destruct (ri_leaf _ _ _ HI id lf Hl) as (c & sl & Hc & HL). rewrite Hw in HL.
  cbn [spoll mpi_service]. unfold request_poll. rewrite Hc. cbn [fst snd MpiAsync_poll]. unfold MpiFuture_poll. cbn [fstate].
  unfold Landed in HL. cbn in HL. rewrite HL. eexists _, _, _. split; [done|]. split; [done|]. split; [by left|]. split; [|done].
  destruct HI as [R1 R2 R3 R4]. split; cbn [fst snd sdrop mpi_service] in *; try done.
  - intros i lf' [_ Hl']%lookup_delete_Some. by apply R3.
  - intros q Hq. destruct (R4 q Hq) as (i & lf' & c' & Hk & Hl' & Hw' & Hc'). exists i, lf', c'. split; [done|].
    rewrite lookup_delete_ne; [done|]. intros <-. rewrite Hl in Hl'. injection Hl' as <-. by rewrite Hw in Hw'.
Qed.
Next Obligation.
  intros s n m [[l x] t] nm r HI [= -> ->]%list_elem_of_singleton. eexists _, _. split; [done|]. cbn [fst snd].
  split; [done|]. split; [done|]. intros nm' k [-> Hpe]. exists k. split; [done|]. split; [done|]. intros _ Hst.
  exfalso. unfold mpi_status in Hst. cbn [fst snd] in *. assert (Ha := mw_active _ _ (ri_wf _ _ _ HI)). cbn [fst snd] in Ha. rewrite Ha in Hst. cbn in *. by destruct (pending x).
Qed.
Next Obligation.
  intros s n m [[l x] t] nm r HI [= -> ->]%list_elem_of_singleton.
  destruct (request_reactor n m (l, x) HI) as (l' & x' & ids & n' & Hp & Hnd & Hids & Hn & HI' & Hz). cbn [fst snd] in *.
  exists ((l', x'), t), ids, n'. cbn [dyn_poll request_dyn fst snd]. rewrite Hp. split; [done|]. split; [done|].
  do 2 (split; [done|]). split; [done|]. split; [done|].
  destruct (decide (ids = [])) as [Hnil|]; [right|by left]. destruct (decide (pending x = [])) as [Hpe|Hpe].
  - right. by intros nm' k [_ ?].
  - left. by apply Hz.
Qed.
End requests.
