(* ===== verification/UcxService.v ===== *)
(** * UcxService: any number of UCX operations in flight ([pluvio_ucx])

    The UCX reactor keeps the promise of [Service.Serves] while one of its workers has a
    listener, or a stream that was waited for: such a worker stays counted whatever its
    operations do, so the reactor stays [Running], and each of its polls progresses every
    registered worker.  Then operations may overlap, on one worker or on several.  Without
    it they may starve each other ([UcxWorker.overlapping_ops_stop_reactor]).  What is
    asked of the crate [async_ucx] is the record [LibrarySpec]. *)

From S2P Require Import Prelude Future Slab Executor UcxWorker UcxWait Service.
Local Open Scope nat_scope.

(** What an operation does to the state of its worker: [activate] and [deactivate],
    [activate] alone ([am_send]), or [wait_connect] and [deactivate] ([wait_msg]). *)
Inductive CallKind : Type := Bracketed | Sends | Waits (id : Z).

Record UcxCall (I : Type) : Type := mkCall { ckind : CallKind; cworker : nat; cstage : OpStage; cinner : I }.
Arguments mkCall {I} _ _ _ _.
Arguments ckind {I} _.
Arguments cworker {I} _.
Arguments cstage {I} _.
Arguments cinner {I} _.

(** [async_ucx]: [InFlight m l], the operations in flight are [m]; [Waiting l] says that one of
    them was not woken.  Every round of progress that wakes none of these lowers [rounds],
    to which an operation adds at most [N]; a woken operation resolves at its next poll. *)
Record LibrarySpec {L I A : Type} (op_poll : Waker -> I -> L -> L * I * Poll A) (round : L -> L * list Waker)
    (Starts : I -> Prop) (Reply : I -> A -> Prop) (InFlight : Leaves I -> L -> Prop) (Waiting : L -> Prop)
    (rounds : L -> nat) (N : nat) : Prop := {
  lb_first m l id i : InFlight m l -> m !! id = None -> Starts i -> exists l' i' p, op_poll (task_waker id) i l = (l', i', p) /\
    match p with
    | Ready a => Reply i a /\ InFlight m l' /\ rounds l' <= rounds l
    | Pending => InFlight (<[id := mkLeaf i' i false]> m) l' /\ rounds l' <= rounds l + N
    end;
  lb_woken m l id f : InFlight m l -> m !! id = Some f -> lwoken f = true -> exists l' i' a,
    op_poll (task_waker id) (lcur f) l = (l', i', Ready a) /\ Reply (lorig f) a /\ InFlight (delete id m) l' /\ rounds l' <= rounds l;
  lb_waiting m l id f : InFlight m l -> m !! id = Some f -> lwoken f = false -> Waiting l;
  lb_progress m l : InFlight m l -> exists l' ids, round l = (l', map task_waker ids) /\ NoDup ids /\
    (forall id, id ∈ ids -> exists f, m !! id = Some f /\ lwoken f = false) /\
    InFlight (wake_leaves ids m) l' /\ rounds l' <= rounds l /\ (Waiting l -> ids = [] -> rounds l' < rounds l)
}.

(** ** Steps that keep every worker with a listener or a stream counted *)

Section steps.
Context {RS : Type} `{Slab nat RS} (bound : Z) (Hbound : (bound < 2 ^ 64)%Z).
Implicit Types (u : UCXReactor RS) (w : nat).

Record Keeps u u' : Prop := {
  ke_registered : registered_workers u' = registered_workers u;
  ke_count : CountOk bound u -> CountOk bound u';
  ke_there w : is_Some (uworkers u !! w) -> is_Some (uworkers u' !! w);
  ke_ids w : worker_ids w u' = worker_ids w u;
  ke_busy w : worker_ids w u <> ∅ -> worker_state w u <> Inactive -> worker_state w u' <> Inactive
}.

Lemma keeps_refl u : Keeps u u.
Proof. by split. Qed.

Lemma keeps_ends u u' w : Keeps u u' -> ends_counted w u -> ends_counted w u'.
Proof.
  intros HK He Hs. rewrite (ke_ids _ _ HK). destruct (decide (worker_ids w u = ∅)) as [|Hi]; [done|exfalso].
  apply (ke_busy _ _ HK w Hi); [|done]. intros Hu. by apply Hi, He.
Qed.

(** A change of one worker that leaves its listeners and, if it has any, counts it. *)
Lemma keeps_alter u u' w f : (CountOk bound u -> CountOk bound u') -> registered_workers u' = registered_workers u ->
  uworkers u' = alter f w (uworkers u) -> (forall x, listener_ids (f x) = listener_ids x) ->
  worker_ids w u = ∅ \/ (forall x, wstate (f x) <> Inactive) -> Keeps u u'.
Proof.
  intros HC Hr Hw Hi Hs. split; [done|done|..].
  - intros w' Hx. rewrite Hw. by apply lookup_alter_is_Some.
  - intros w'. unfold worker_ids. rewrite Hw. destruct (decide (w = w')) as [->|]; [|by rewrite lookup_alter_ne].
    rewrite lookup_alter_eq. destruct (uworkers u !! w'); [apply Hi|done].
  - intros w'. unfold worker_ids, worker_state in *. rewrite Hw. destruct (decide (w = w')) as [->|]; [|by rewrite lookup_alter_ne].
    rewrite lookup_alter_eq. destruct (uworkers u !! w') as [x|]; [|done]. cbn. destruct Hs as [Hs|Hs]; [by intros []|done].
Qed.

Lemma busy_ends u w : worker_state w u <> Inactive -> ends_counted w u.
Proof. by intros Hs Hi. Qed.

Lemma activate_keeps u w : CountOk bound u -> is_Some (uworkers u !! w) -> Keeps u (activate w u) /\ ends_counted w (activate w u).
Proof.
  intros HC Hx. split; [|by apply busy_ends, activate_busy].
  apply (keeps_alter _ _ w (set_state Active)); [|unfold activate; by case_decide|unfold activate; by case_decide|done|by right].
  intros _. by apply activate_count.
Qed.

Lemma wait_connect_keeps t u w : CountOk bound u -> is_Some (uworkers u !! w) ->
  Keeps u (wait_connect t w u) /\ ends_counted w (wait_connect t w u).
Proof.
  intros HC Hx. split.
  - apply (keeps_alter _ _ w (fun x => set_start (Some t) (set_state WaitConnect x))); [|unfold wait_connect; by case_decide| |done|by right].
    + intros _. by apply wait_connect_count.
    + unfold wait_connect. case_decide; apply alter_alter_eq.
  - apply busy_ends. unfold wait_connect, increment_active_count.
    destruct Hx as [x Hx]. case_decide; unfold worker_state; cbn; by rewrite !lookup_alter_eq, Hx.
Qed.

Lemma deactivate_keeps t u w : CountOk bound u -> is_Some (uworkers u !! w) -> ends_counted w u -> Keeps u (deactivate t w u).
Proof.
  intros HC Hx He. assert (HC' := deactivate_count bound t u w HC Hbound Hx He). revert HC'. unfold deactivate, take_wait_connect_start.
  destruct (decide (worker_ids w u = ∅)) as [Hi|Hi]; intros HC'.
  - apply (keeps_alter _ _ w (set_state Inactive)); [done|by case_decide|by case_decide|done|by left].
  - apply (keeps_alter _ _ w (fun x => set_start (Some t) (set_state WaitConnect x))); [done|done|apply alter_alter_eq|done|by right].
Qed.

Lemma poll_keeps t u : Keeps u (ucx_poll t u).1.
Proof. unfold ucx_poll. destruct (stats_enabled u); [|apply keeps_refl]. split; try done. by intros [C1 C2 C3]. Qed.
End steps.

(** ** The service *)

Section calls.
Context {L RS I A : Type} `{Slab nat RS}.
Context (op_poll : Waker -> I -> L -> L * I * Poll A) (progress : nat -> L -> L * list Waker).
Context (now : nat -> Z) (name : string).
Abbreviation S := (L * UCXReactor RS)%type.
Implicit Types (u : UCXReactor RS) (f : UcxCall I) (m : Leaves (UcxCall I)).

(** A poll reads the clock, which [deactivate] and [wait_connect] note. *)
Definition call_poll (k : Waker) f (e : S * nat) : outcome (S * nat * UcxCall I * Poll A) :=
  let t := now e.2 in
  '(l, u, st, i, p) ←
    match ckind f with
    | Bracketed => worker_op_poll op_poll t (cworker f) k (cstage f) (cinner f) e.1.1 e.1.2
    | Sends => am_send_poll op_poll (cworker f) k (cstage f) (cinner f) e.1.1 e.1.2
    | Waits id => wait_msg_poll op_poll t (mkStream (cworker f) id) k (cstage f) (cinner f) e.1.1 e.1.2
    end;
  mret ((l, u), Datatypes.S e.2, mkCall (ckind f) (cworker f) st i, p).

(** [impl Reactor for UCXReactor]. *)
Definition call_dyn : DynReactor (S * nat) := {|
  dyn_poll e :=
    let (u, ws) := ucx_poll (now e.2) e.1.2 in
    let (l, ks) := progress_all progress ws e.1.1 in
    Ok ((l, u), Datatypes.S e.2, ks);
  dyn_status e := (e, ucx_status e.1.2)
|}.

Definition ucx_service : Service A (UcxCall I) S := mkService call_poll (fun _ e => e) [(name, call_dyn)].

Context (ws : list nat) (Starts : I -> Prop) (Reply : I -> A -> Prop) (InFlight : Leaves I -> L -> Prop) (Waiting : L -> Prop).
Context (rounds : L -> nat) (N : nat) (HL : LibrarySpec op_poll (progress_all progress ws) Starts Reply InFlight Waiting rounds N).
(** [kept]: the worker with a listener; [bound]: at most so many workers. *)
Context (kept : nat) (bound : Z) (Hbound : (bound < 2 ^ 64)%Z).

Definition inner_leaf (lf : Leaf (UcxCall I)) : Leaf I := mkLeaf (cinner (lcur lf)) (cinner (lorig lf)) (lwoken lf).

(** The reactor is right, and progresses the workers [ws]; [kept] is counted for good. *)
Record WorkersOk u : Prop := {
  wo_count : CountOk bound u;
  wo_registered : (slab_iter (registered_workers u)).*2 = ws;
  wo_there w : w ∈ ws -> is_Some (uworkers u !! w);
  wo_kept : worker_ids kept u <> ∅ /\ worker_state kept u <> Inactive
}.

Record CallsInv (n : nat) m e : Prop := {
  ca_workers : WorkersOk e.2;
  ca_leaf id lf : m !! id = Some lf -> cstage (lcur lf) = OpWait /\ cworker (lcur lf) ∈ ws /\ ends_counted (cworker (lcur lf)) e.2;
  ca_library : InFlight (inner_leaf <$> m) e.1;
  ca_rounds : rounds e.1 <= n
}.

Definition call_askable f : Prop := cstage f = OpStart /\ cworker f ∈ ws /\ Starts (cinner f).

Lemma workers_keep u u' : WorkersOk u -> Keeps bound u u' -> WorkersOk u'.
Proof.
  intros [W1 W2 W3 [W4 W5]] HK. split.
  - by apply (ke_count _ _ _ HK).
  - by rewrite (ke_registered _ _ _ HK).
  - intros w Hw. by apply (ke_there _ _ _ HK), W3.
  - split; [by rewrite (ke_ids _ _ _ HK)|by apply (ke_busy _ _ _ HK)].
Qed.

Lemma workers_running u : WorkersOk u -> ucx_status u = Running.
Proof. intros HW. apply (busy_runs bound u kept); apply HW. Qed.

(** The beginning and the end of an operation. *)
Definition enter (t : Z) f u : UCXReactor RS :=
  match cstage f with
  | OpStart => match ckind f with Waits _ => wait_connect t (cworker f) u | _ => activate (cworker f) u end
  | _ => u
  end.
Definition leave (t : Z) f u : UCXReactor RS :=
  match ckind f with Sends => u | _ => deactivate t (cworker f) u end.

Lemma call_poll_eq k f e t l i p : cstage f <> OpDone -> op_poll k (cinner f) e.1 = (l, i, p) ->
  call_poll k f (e, t) = Ok (match p with
    | Ready a => ((l, leave (now t) f (enter (now t) f e.2)), Datatypes.S t, mkCall (ckind f) (cworker f) OpDone i, Ready a)
    | Pending => ((l, enter (now t) f e.2), Datatypes.S t, mkCall (ckind f) (cworker f) OpWait i, Pending)
    end).
Proof.
  intros Hd Hp. unfold call_poll, worker_op_poll, am_send_poll, wait_msg_poll, bracket_poll, enter, leave. cbn [fst snd sworker].
  destruct (ckind f), (cstage f); try done; rewrite Hp; by destruct p.
Qed.

Lemma enter_keeps t f u : WorkersOk u -> cworker f ∈ ws -> (cstage f <> OpStart -> ends_counted (cworker f) u) ->
  Keeps bound u (enter t f u) /\ ends_counted (cworker f) (enter t f u).
Proof.
  intros HW Hw He. assert (Hx := wo_there _ HW _ Hw). assert (HC := wo_count _ HW). unfold enter.
  destruct (cstage f); [|split; [apply keeps_refl|by apply He]..].
  destruct (ckind f); [by apply activate_keeps..|by apply wait_connect_keeps].
Qed.

Lemma leave_keeps t f u : WorkersOk u -> cworker f ∈ ws -> ends_counted (cworker f) u -> Keeps bound u (leave t f u).
Proof.
  intros HW Hw He. unfold leave. assert (Hx := wo_there _ HW _ Hw). assert (HC := wo_count _ HW).
  destruct (ckind f); [|apply keeps_refl|]; by apply deactivate_keeps.
Qed.

(** The leaves stay right when the reactor keeps its workers. *)
Lemma leaves_keep m u u' : Keeps bound u u' ->
  (forall id lf, m !! id = Some lf -> cstage (lcur lf) = OpWait /\ cworker (lcur lf) ∈ ws /\ ends_counted (cworker (lcur lf)) u) ->
  forall id lf, m !! id = Some lf -> cstage (lcur lf) = OpWait /\ cworker (lcur lf) ∈ ws /\ ends_counted (cworker (lcur lf)) u'.
Proof. intros HK Hm id lf Hl. destruct (Hm id lf Hl) as (? & ? & ?). do 2 (split; [done|]). by apply (keeps_ends bound u). Qed.

Lemma call_first n m e t id f : CallsInv n m e -> m !! id = None -> call_askable f ->
  exists e' f' p, call_poll (task_waker id) f (e, t) = Ok (e', Datatypes.S t, f', p) /\
  match p with
  | Ready a => Reply (cinner f) a /\ CallsInv n m e'
  | Pending => CallsInv (n + N) (<[id := mkLeaf f' f false]> m) e'
  end.
Proof.
  intros [HW HF HI HR] Hm (Hst & Hw & Hi).
  destruct (lb_first _ _ _ _ _ _ _ _ HL _ e.1 id (cinner f) HI) as (l' & i' & p & Hp & Hres); [by rewrite lookup_fmap, Hm|done|].
  rewrite (call_poll_eq _ f e t l' i' p); [|by rewrite Hst|exact Hp].
  destruct (enter_keeps (now t) f e.2 HW Hw) as [HK He]; [congruence|]. assert (HW1 := workers_keep _ _ HW HK).
  destruct p as [a|].
  - destruct Hres as (Ha & HI' & HR'). eexists _, _, _. do 2 (split; [done|]). assert (HK' := leave_keeps (now t) f _ HW1 Hw He).
    split; [by eapply workers_keep|apply (leaves_keep _ _ _ HK'), (leaves_keep _ _ _ HK), HF|done|cbn; lia].
  - destruct Hres as [HI' HR']. eexists _, _, _. split; [done|]. split; [done| |by rewrite fmap_insert|cbn; lia]. intros id' lf [(<- & <-)|[Hne Hl]]%lookup_insert_Some; [done|].
    by eapply leaves_keep.
Qed.

Lemma call_woken n m e t id lf : CallsInv n m e -> m !! id = Some lf -> lwoken lf = true ->
  exists e' f' a, call_poll (task_waker id) (lcur lf) (e, t) = Ok (e', Datatypes.S t, f', Ready a) /\
    Reply (cinner (lorig lf)) a /\ CallsInv n (delete id m) e'.
Proof.
  intros [HW HF HI HR] Hm Hwk. destruct (HF id lf Hm) as (Hst & Hw & He).
  destruct (lb_woken _ _ _ _ _ _ _ _ HL _ e.1 id (inner_leaf lf) HI) as (l' & i' & a & Hp & Ha & HI' & HR'); [by rewrite lookup_fmap, Hm|done|].
  rewrite (call_poll_eq _ (lcur lf) e t l' i' (Ready a)); [|by rewrite Hst|exact Hp]. eexists _, _, a. split; [done|]. split; [done|].
  destruct (enter_keeps (now t) (lcur lf) e.2 HW Hw (fun _ => He)) as [HK He']. assert (HW1 := workers_keep _ _ HW HK).
  assert (HK' := leave_keeps (now t) (lcur lf) _ HW1 Hw He'). split; [by eapply workers_keep| |by rewrite fmap_delete|cbn; lia].
  intros id' lf' [_ Hl]%lookup_delete_Some. eapply (leaves_keep _ _ _ HK'), Hl. by apply (leaves_keep _ _ _ HK).
Qed.

Lemma inner_wake ids m : inner_leaf <$> wake_leaves ids m = wake_leaves ids (inner_leaf <$> m).
Proof.
  apply map_eq. intros id. rewrite wake_leaves_lookup, !lookup_fmap, wake_leaves_lookup.
  destruct (m !! id); [|done]. cbn. by case_decide.
Qed.

Lemma call_progress n m e t : CallsInv n m e -> exists e' ids n',
  dyn_poll call_dyn (e, t) = Ok (e', Datatypes.S t, map task_waker ids) /\ NoDup ids /\
  (forall id, id ∈ ids -> exists lf, m !! id = Some lf /\ lwoken lf = false) /\ n' <= n /\
  CallsInv n' (wake_leaves ids m) e' /\ (Waiting e.1 -> ids = [] -> n' < n).
Proof.
  intros [HW HF HI HR]. destruct (lb_progress _ _ _ _ _ _ _ _ HL _ e.1 HI) as (l' & ids & Hp & Hnd & Hids & HI' & Hn & Hz).
  assert (HK := poll_keeps bound (now t) e.2). assert (Hws : (ucx_poll (now t) e.2).2 = ws).
  { unfold ucx_poll. by destruct (stats_enabled e.2); cbn; rewrite (wo_registered _ HW). }
  exists (l', (ucx_poll (now t) e.2).1), ids, (rounds l'). split.
  { cbn [dyn_poll call_dyn fst snd]. destruct (ucx_poll (now t) e.2) as [u' ws'] eqn:Hu. cbn in Hws |- *. subst ws'. by rewrite Hp. }
  split; [done|]. split.
  { intros id Hin. destruct (Hids id Hin) as (f & Hf & Hw). rewrite lookup_fmap in Hf. apply fmap_Some in Hf as (lf & Hl & ->). by exists lf. }
  split; [lia|]. split; [|intros Hw Hi; specialize (Hz Hw Hi); lia]. split; cbn [fst snd].
  - by eapply workers_keep.
  - intros id lf. rewrite wake_leaves_lookup. destruct (m !! id) as [lf0|] eqn:Hl; [|done]. cbn. intros [= <-].
    destruct (leaves_keep m e.2 _ HK HF id lf0 Hl) as (? & ? & ?). by case_decide.
  - by rewrite inner_wake.
  - done.
Qed.

#[local] Program Instance ucx_serves : Serves ucx_service := {
  sv_cost := N;
  sv_looks := 0;
  sv_room := 2 ^ 64;
  Askable := call_askable;
  Replies f a := Reply (cinner f) a;
  SvInv s n m e := CallsInv n m e.1;
  Owes nm _ e := nm = name /\ Waiting e.1.1
}.
Next Obligation. done. Qed.
Next Obligation. done. Qed.
Next Obligation. done. Qed.
Next Obligation.
  intros s n m [e t] id lf HI Hl Hw. exists name, 0. split; [by left|]. split; [done|]. split; [done|].
  apply (lb_waiting _ _ _ _ _ _ _ _ HL (inner_leaf <$> m) _ id (inner_leaf lf)); [apply HI|by rewrite lookup_fmap, Hl|done].
Qed.
Next Obligation.
  intros s n m [e t] id f HI Hm Hf _. destruct (call_first n m e t id f HI Hm Hf) as (e' & f' & p & Hp & Hres).
  cbn [spoll ucx_service]. rewrite Hp. eexists _, _, p. split; [done|]. cbn [fst snd]. split; [lia|]. destruct p as [a|].
  - by destruct Hres.
  - exists (n + N). by split.
Qed.
Next Obligation.
  intros s n m [e t] id lf HI Hl Hw. destruct (call_woken n m e t id lf HI Hl Hw) as (e' & f' & a & Hp & Ha & HI').
  cbn [spoll ucx_service]. rewrite Hp. eexists _, _, a. split; [done|]. cbn [fst snd]. by split; [lia|].
Qed.
Next Obligation.
  intros s n m [e t] nm r HI [= -> ->]%list_elem_of_singleton. eexists _, _. split; [done|]. cbn [fst snd].
  split; [done|]. split; [done|]. intros nm' k Ho. exists k. split; [done|]. split; [done|]. intros _ Hst.
  assert (HR := workers_running _ (ca_workers _ _ _ HI)). cbn [fst snd] in *. congruence.
Qed.
Next Obligation.
  intros s n m [e t] nm r HI [= -> ->]%list_elem_of_singleton.
  destruct (call_progress n m e t HI) as (e' & ids & n' & Hp & Hnd & Hids & Hn & HI' & Hz). cbn [fst snd] in *.
  exists (e', Datatypes.S t), ids, n'. split; [done|]. split; [cbn; lia|]. do 3 (split; [done|]). split; [done|].
  destruct (decide (ids = [])) as [Hnil|]; [right|by left]. destruct (decide (n' < n)) as [|Hge]; [by left|right].
  intros nm' k [_ HW]. exfalso. by apply Hge, Hz.
Qed.
End calls.
