(* ===== verification/Concurrent.v ===== *)
(** * Concurrent: tasks that sleep, read files, send messages and reduce arrays on one thread

    The composition of [Executor] with the four reactors of the repository: any number of
    tasks, each of which awaits sleeps, file operations, MPI collectives and UCX operations
    in an order it chooses as it goes.  [ServiceRun] shows what the runtime does with any
    reactors that keep the promise of [Service.Serves]; [TimerService], [RingService],
    [MpiService] and [UcxService] show that these do, and [Service_sum] that they still do
    side by side.  Here everything is put together, from [Runtime::new] to the result of
    the last [JoinHandle]. *)

From S2P Require Import Prelude Spsc Future Track Slab Task Executor ExecutorFacts ExecutorLive Timer UringAlloc.
From S2P Require Import UringReactor UringIo RingWait CollBase Mpi MpiWait UcxWorker UcxWait Service ServiceRun TimerService RingService MpiService UcxService.
Local Open Scope nat_scope.

(** What a task of the thread may await, and what it gets; [I] and [A] are the futures of
    [async_ucx] and their values. *)
Abbreviation ThreadOp I := (Nap + SqeFuture + MpiAsync + UcxCall I)%type.
Abbreviation ThreadAnswer A := (unit + result Z Z + result unit CollectiveError + A)%type.

Section await.
Context {I A V : Type}.
Abbreviation Fn := (Async (ThreadAnswer A) (ThreadOp I) V).

Definition nap (f : Nap) (k : Fn) : Fn := AwaitThen (inl (inl (inl f))) (fun _ => k).
Definition file_op (f : SqeFuture) (k : result Z Z -> Fn) : Fn :=
  AwaitThen (inl (inl (inr f))) (fun a => match a with inl (inl (inr r)) => k r | _ => k (RErr 0%Z) end).
Definition collective (f : MpiAsync) (k : result unit CollectiveError -> Fn) : Fn :=
  AwaitThen (inl (inr f)) (fun a => match a with inl (inr r) => k r | _ => k (ROk tt) end).
Definition message (f : UcxCall I) (dflt : A) (k : A -> Fn) : Fn :=
  AwaitThen (inr f) (fun a => match a with inr a => k a | _ => k dflt end).
End await.

Section thread.
(** The clock moves forward, passes every sleep within [N] readings and
    [wait_complete_timeout] within [W]. *)
Context (now : nat -> Z) (N : nat) (now_step : forall t, (now t <= now (S t))%Z).
(** The kernel, *)
Context {R : Type} `{Ring Entry R} (always_poll : bool) (p : IoUringParams) (thread : bool).
Context (good : gmap Z Entry -> R -> Prop) (left : R -> nat) (NR W : nat) (cap : Z) (Answer : Entry -> Z -> Prop).
Context (HK : KernelSpec p thread good left NR cap Answer).
Context (now_passes : forall t, (now t + wait_complete_timeout p <= now (t + W))%Z).
(** the MPI library *)
Context {M : Type} `{MpiLib M} (debug : bool) (tests : M -> nat) (NM : nat) (HP : Patience tests NM).
(** and [async_ucx], with at most [bound] workers, of which [kept] has a listener. *)
Context {L RS I A : Type} `{Slab nat RS} (lib_poll : Waker -> I -> L -> L * I * Poll A) (progress : nat -> L -> L * list Waker).
Context (ws : list nat) (Starts : I -> Prop) (Reply : I -> A -> Prop) (InFlight : Leaves I -> L -> Prop) (Waiting : L -> Prop).
Context (rounds : L -> nat) (NU : nat) (HU : LibrarySpec lib_poll (progress_all progress ws) Starts Reply InFlight Waiting rounds NU).
Context (kept : nat) (bound : Z) (Hbound : (bound < 2 ^ 64)%Z).

#[local] Existing Instance sum_serves.

Definition thread_service : Service (ThreadAnswer A) (ThreadOp I)
    (TimerState * IoUringReactor R * (M * MpiReactor) * (L * UCXReactor RS)) :=
  Service_sum (Service_sum (Service_sum (timer_service now "timer") (ring_service now always_poll "io_uring"))
    (mpi_service debug "mpi")) (ucx_service lib_poll progress now "ucx").

#[local] Instance thread_serves : Serves thread_service.
Proof.
  unshelve eapply sum_serves; [|by eapply ucx_serves|].
  - unshelve eapply sum_serves; [|by eapply mpi_serves|].
    + unshelve eapply sum_serves; [by apply (timer_serves _ _ N)|by eapply ring_serves|].
      by intros nm [= ->]%list_elem_of_singleton [=]%list_elem_of_singleton.
    + intros nm Hnm [= ->]%list_elem_of_singleton. by apply elem_of_cons in Hnm as [|[=]%list_elem_of_singleton].
  - intros nm Hnm [= ->]%list_elem_of_singleton. change ("ucx"%string ∈ ["timer"; "io_uring"; "mpi"]%string) in Hnm.
    rewrite !elem_of_cons in Hnm. by destruct Hnm as [|[|[|?%elem_of_nil]]].
Defined.

Abbreviation ThreadEnv := (TimerState * IoUringReactor R * (M * MpiReactor) * (L * UCXReactor RS) * nat)%type.
Implicit Types (e : ThreadEnv).

(** Nothing is in flight, and the counters of the timer and of the ring will last for [s]
    more operations. *)
Record Idle_thread (s : nat) e : Prop := {
  th_timer : TimerInv e.1.1.1.1 /\ timers e.1.1.1.1 = [] /\ (COUNTER e.1.1.1.1 + Z.of_nat s <= u64_max)%Z;
  th_ring : RingWait.Built now p thread (mkRingEnv e.1.1.1.2 e.2) /\ completions e.1.1.1.2 = ∅ /\ good ∅ (ring e.1.1.1.2) /\
    (user_data_counter e.1.1.1.2 + Z.of_nat s < 2 ^ 64)%Z;
  th_mpi : MpiWf e.1.1.2.2 e.1.1.2.1 /\ pending e.1.1.2.2 = [];
  th_ucx : WorkersOk ws kept bound e.1.2.2 /\ InFlight ∅ e.1.2.1
}.

(** What was left in flight by earlier operations. *)
Definition leftover e : nat := left (ring e.1.1.1.2) + tests e.1.1.2.1 + rounds e.1.2.1.

Lemma idle_thread_inv s e : Idle_thread s e -> SvInv s (leftover e) ∅ e.
Proof.
  destruct e as [[[[ts x] [l mx]] [ul ur]] t]. intros [(Ht1 & Ht2 & Ht3) (Hr1 & Hr2 & Hr3 & Hr4) (Hm1 & Hm2) (Hu1 & Hu2)]. cbn [fst snd] in *.
  assert (He : forall F (P : nat -> Leaf F -> Prop) id l', (∅ : Leaves F) !! id = Some l' -> P id l')
    by (intros F P id l' Hl; by rewrite lookup_empty in Hl).
  split; [by apply He|]. rewrite !side_empty. exists (left (ring x) + tests l), (rounds ul). split; [done|]. split.
  - split; [by apply He|]. rewrite !side_empty. exists (left (ring x)), (tests l). split; [done|]. split.
    + split; [by apply He|]. rewrite !side_empty. exists 0, (left (ring x)). split; [done|]. split.
      * split; cbn; [done|lia|by apply He|]. intros h k. rewrite Ht2. by intros ?%elem_of_nil.
      * split; cbn; [done|done| |by apply He|by intros id id' l' l'' Hl; rewrite lookup_empty in Hl].
        exists ∅. split; [done|]. split; [done|]. intros u. by rewrite Hr2, lookup_empty.
    + split; cbn; [done|done|by apply He|]. intros q. rewrite Hm2. by intros ?%elem_of_nil.
  - split; cbn; [done|by apply He|by rewrite fmap_empty|done].
Qed.

(** Nothing is in flight when no task waits. *)
Lemma inv_idle_thread s n e : SvInv s n ∅ e -> Idle_thread s e.
Proof.
  destruct e as [[[[ts x] [l mx]] [ul ur]] t].
  intros [_ (n1 & n2 & _ & K1 & K4)].
  rewrite side_empty in K1. rewrite side_empty in K4. destruct K1 as [_ (n3 & n4 & _ & K1 & K2)].
  rewrite side_empty in K1. rewrite side_empty in K2. destruct K1 as [_ (n5 & n6 & _ & K1 & K3)].
  rewrite side_empty in K1. rewrite side_empty in K3.
  cbn in *. split; cbn.
  - destruct K1 as [N1 N2 _ N4]. split; [done|]. split; [|done]. cbn in *. destruct (timers ts) as [|[h k] l']; [done|].
    destruct (N4 h k ltac:(by left)) as (id & l0 & _ & Hl & _). by rewrite lookup_empty in Hl.
  - destruct K3 as [O1 O2 O3 O4 O5]. split; [done|]. destruct O3 as (es & Hg & _ & Hes). cbn in *.
    assert (Hc : completions x = ∅).
    { apply map_eq. intros u. rewrite lookup_empty. specialize (Hes u). destruct (completions x !! u); [|done].
      destruct Hes as (id & sqe & _ & Hl). by rewrite lookup_empty in Hl. }
    split; [done|]. split; [|done]. replace ∅ with es; [done|]. apply map_eq. intros u. specialize (Hes u).
    by rewrite Hc, lookup_empty in *.
  - destruct K2 as [R1 _ _ R4]. split; [done|]. cbn in *. destruct (pending mx) as [|q l']; [done|].
    destruct (R4 q ltac:(by left)) as (id & lf & c & _ & Hl & _). by rewrite lookup_empty in Hl.
  - destruct K4 as [U1 _ U3 _]. split; [done|]. by rewrite fmap_empty in U3.
Qed.

(** ** Async functions of the thread *)

Context {V : Type}.
Implicit Types (v : V).

Abbreviation ThreadFn := (Async (ThreadAnswer A) (ThreadOp I) V).

Lemma awaits_nap j f (k : ThreadFn) : nap_askable now N f -> awaits_le thread_service j k -> awaits_le thread_service (S j) (nap f k).
Proof. intros Hf Hk. split; [exact Hf|by intros]. Qed.

Lemma awaits_file_op j sqe (k : result Z Z -> ThreadFn) : (forall res, Answer sqe res -> awaits_le thread_service j (k (cqe_result res))) ->
  awaits_le thread_service (S j) (file_op (SqeStart sqe) k).
Proof.
  intros Hk. split; [by exists sqe|]. intros [[[a|a]|a]|a]; [done| |done..]. intros (sqe' & res & [= <-] & -> & HA). by apply Hk.
Qed.

Lemma awaits_collective j f (k : result unit CollectiveError -> ThreadFn) : request_askable f ->
  (forall r, Allowed f r -> awaits_le thread_service j (k r)) -> awaits_le thread_service (S j) (collective f k).
Proof. intros Hf Hk. split; [exact Hf|]. intros [[[a|a]|a]|a]; try done. apply Hk. Qed.

Lemma awaits_message j f dflt (k : A -> ThreadFn) : call_askable ws Starts f ->
  (forall a, Reply (cinner f) a -> awaits_le thread_service j (k a)) -> awaits_le thread_service (S j) (message f dflt k).
Proof. intros Hf Hk. split; [exact Hf|]. intros [a|a]; [by destruct a as [[?|?]|?]|]. apply Hk. Qed.

Lemma returns_nap f (k : ThreadFn) v : Returns thread_service (nap f k) v -> Returns thread_service k v.
Proof. by inversion 1. Qed.

Lemma returns_file_op sqe (k : result Z Z -> ThreadFn) v : Returns thread_service (file_op (SqeStart sqe) k) v ->
  exists res, Answer sqe res /\ Returns thread_service (k (cqe_result res)) v.
Proof.
  inversion 1 as [|f k' a v' Ha Hr]; subst. destruct a as [[[a|a]|a]|a]; [done| |done..]. destruct Ha as (sqe' & res & [= <-] & -> & HA).
  by exists res.
Qed.

Lemma returns_collective f (k : result unit CollectiveError -> ThreadFn) v : Returns thread_service (collective f k) v ->
  exists r, Allowed f r /\ Returns thread_service (k r) v.
Proof. inversion 1 as [|f' k' a v' Ha Hr]; subst. destruct a as [[[a|a]|a]|a]; try done. by exists a. Qed.

Lemma returns_message f dflt (k : A -> ThreadFn) v : Returns thread_service (message f dflt k) v ->
  exists a, Reply (cinner f) a /\ Returns thread_service (k a) v.
Proof. inversion 1 as [|f' k' a v' Ha Hr]; subst. destruct a as [a|a]; [by destruct a as [[?|?]|?]|]. by exists a. Qed.

(** ** The run *)

Context (unit_value : V) (genv : string -> option string).
Context (ho : forall X : Type, list (string * X) -> list (string * X)).
Context (ho_perm : forall X (l : list (string * X)), ho X l ≡ₚ l).
Context {C SL : Type} `{FifoChan C} `{Slab (option (Task (TaskFuture ThreadFn))) SL}.
Context (cfg : SchedulingConfig) (Hcfg : SchedOk thread_service now unit_value genv ho ho_perm cfg).
#[local] Instance thread_program : Program V ThreadFn ThreadEnv :=
  service_program thread_service now unit_value genv ho ho_perm.
Abbreviation ThreadWorld := (World V ThreadEnv C SL).

(** [Runtime::new] with the three reactors, and [spawn] of every function. *)
Definition thread_start (ps : list (option string * ThreadFn)) (e : ThreadEnv) :
    outcome (ThreadWorld * list JoinHandle) :=
  w ← service_world thread_service now unit_value genv ho ho_perm cfg e;
  spawn_all thread_service now unit_value genv ho ho_perm ps w.

Definition passes_enough (ls : list nat) (n : nat) : nat := enough thread_service cfg ls n.

(** C4. Everything that was spawned returns.  Any number of async functions, each of which
    awaits sleeps, file operations, MPI collectives and UCX operations one after another
    and chooses the next by the results so far, spawned on one runtime with the timer, the
    io_uring, the MPI and the UCX reactor, one worker of which has a listener: [run_queue]
    ends with the pool empty, no operation is left in any of the reactors, and each
    [JoinHandle] delivers a value that its function returns for answers the timer, the
    kernel and the libraries may give.  [passes_enough] passes are enough, [ls] being
    bounds on the operations of each function. *)
Theorem run_queue_completes_all T ps ls fuel e :
  enable_perfetto_tracks cfg = false -> room (C := C) T ->
  (Z.of_nat (T + round thread_service cfg) <= max_stuck_iterations)%Z ->
  Idle_thread (list_total ls) e -> Forall2 (awaits_le thread_service) ls ps.*2 ->
  length ps <= T -> (Z.of_nat (length ps) <= Z.min cap (2 ^ 64 - 1))%Z ->
  passes_enough ls (leftover e) <= fuel -> (Z.of_nat (passes_enough ls (leftover e)) <= u64_max)%Z ->
  exists w1 jhs w2, thread_start ps e = Ok (w1, jhs) /\ run_queue fuel w1 = Ok (w2, PoolEmpty) /\
    Idle_thread 0 (env w2) /\
    Forall2 (fun p h => exists v, Returns thread_service p v /\ forall k, (JoinHandle_poll k h (heap w2)).2 = Ready (ROk v))
      ps.*2 jhs.
Proof.
  intros Htr HT Hst He Hls Hlen Hroom Hf Hu. assert (Hmax : (max_stuck_iterations <= u64_max)%Z).
  { assert (Hm : in_u64 max_stuck_iterations) by by apply env_u64_range. unfold in_u64, u64_max in *. lia. }
  destruct (service_world_resting thread_service now unit_value genv ho ho_perm cfg Hcfg T max_stuck_iterations Hst
    (list_total ls) (leftover e) e) as (w & Hw & HR & Hi).
  { by apply (bool_decide_unpack (NoDup ["timer"; "io_uring"; "mpi"; "ucx"]%string)); vm_compute. }
  { by apply idle_thread_inv. }
  destruct (spawned_run_out thread_service now unit_value genv ho ho_perm cfg Hcfg T HT max_stuck_iterations Hmax Hst
    ps ls (list_total ls) (leftover e) fuel w) as (w1 & jhs & w2 & n' & Hs & Hr & HR2 & Hall); try done.
  { cbn. lia. }
  { by rewrite Hi. }
  exists w1, jhs, w2. unfold thread_start. rewrite Hw. split; [exact Hs|]. split; [done|]. split; [|done].
  by eapply inv_idle_thread, rs_inv.
Qed.
End thread.

(** ** Witness *)

(** [ListRing] lists the entries in flight and answers all of them at the next turn. *)
Record Listed (es : gmap Z Entry) (r : ListRing.t) : Prop := {
  ld_in u : u ∈ ListRing.inflight r <-> is_Some (es !! u);
  ld_size : length (ListRing.inflight r) = size es;
  ld_seven u res : (u, res) ∈ ListRing.cq r ++ ListRing.sq r -> res = 7%Z
}.

Lemma list_turn thread (r : ListRing.t) :
  ring_turn (mkParams 64 50 100 None) thread r = Some (ListRing.mk [] [], ListRing.cq r ++ ListRing.sq r).
Proof.
  destruct r as [[|x sq] cq]; unfold ring_turn; cbn; [by rewrite app_nil_r|by destruct thread].
Qed.

Lemma list_kernel thread : KernelSpec (mkParams 64 50 100 None) thread Listed (fun _ => 0) 0 4 (fun _ res => res = 7%Z) (R := ListRing.t).
Proof.
  split.
  - intros es [sq cq] u sqe [L1 L2 L3] Hu Hz. cbn. unfold ListRing.push, ListRing.inflight in *. cbn [ListRing.sq ListRing.cq] in *.
    rewrite length_fmap, length_app in L2. rewrite (proj2 (Nat.ltb_lt _ _)) by lia. eexists. split; [done|]. split; [|done].
    split; unfold ListRing.inflight; cbn [ListRing.sq ListRing.cq]; rewrite app_assoc.
    + intros v. rewrite fmap_app, elem_of_app, L1, lookup_insert_is_Some. cbn. rewrite list_elem_of_singleton.
      destruct (decide (u = v)) as [->|Hne]; split; [by left|by right|intros [?| ->]; auto|intros [?|[_ ?]]; auto].
    + rewrite length_fmap, !length_app, map_size_insert_None by done. cbn. lia.
    + intros v res [Hin|[= -> ->]%list_elem_of_singleton]%elem_of_app; [by eapply L3|done].
  - intros es r [L1 L2 L3]. rewrite list_turn. eexists _, _. split; [done|]. split; [|split; [|split; [done|]]].
    + intros u res Hin. destruct (proj1 (L1 u)) as [sqe Hsqe]; [by apply (list_elem_of_fmap_2 fst) in Hin|].
      exists sqe. split; [done|]. by eapply L3.
    + assert (Hf : forget (ListRing.cq r ++ ListRing.sq r).*1 es = ∅).
      { apply map_eq. intros u. rewrite forget_lookup, lookup_empty. case_decide as Hu; [done|].
        destruct (es !! u) eqn:Hes; [|done]. destruct Hu. apply L1. by rewrite Hes. }
      rewrite Hf. split; cbn; [|done|by intros ? ? ?%elem_of_nil]. intros u. rewrite lookup_empty.
      split; [by intros ?%elem_of_nil|by intros []].
    + intros Hnil Hne. destruct Hne. apply map_size_empty_iff. rewrite <- L2. unfold ListRing.inflight. by rewrite Hnil.
Qed.

Definition tests_left (m : CountMpi) : nat := map_sum (fun n => n) m.2.

Lemma count_patience : Patience (M := CountMpi) tests_left 1.
Proof.
  split.
  - intros r [n g] m' rc flag Ht Hr. cbn in *. apply elem_of_dom in Hr as [v Hv]. rewrite Hv in Ht. unfold tests_left. cbn.
    destruct v as [|v]; injection Ht as <- <- <-; cbn.
    + rewrite (map_sum_delete _ g r 0 Hv). split; [lia|done].
    + assert (Hs := map_sum_update (fun n => n) g r (S v) v Hv). cbn in Hs. split; [lia|intros _; lia].
  - intros c [n g] m' rc r. cbn. destruct (decide (n ∈ dom g)) as [Hd|Hd]; intros [= <- <- <-]; cbn; [lia|].
    unfold tests_left. cbn [snd]. rewrite map_sum_insert by (by apply not_elem_of_dom). rewrite decide_True by done. lia.
Qed.

(** A messaging library that completes everything in flight at the next round of progress:
    its state lists the wakers. *)
Inductive BellCall : Type := Ring | Rung.
Definition bell_poll (k : Waker) (i : BellCall) (l : list Waker) : list Waker * BellCall * Poll Z :=
  match i with Ring => (l ++ [k], Rung, Pending) | Rung => (l, Rung, Ready 9%Z) end.
Definition bell_progress (w : nat) (l : list Waker) : list Waker * list Waker := ([], l).

Record BellInv (m : Leaves BellCall) (l : list Waker) : Prop := {
  bl_waits id : task_waker id ∈ l <-> exists lf, m !! id = Some lf /\ lwoken lf = false;
  bl_nodup : NoDup l;
  bl_tasks k : k ∈ l -> k = task_waker (task_id k);
  bl_rung id lf : m !! id = Some lf -> lcur lf = Rung
}.

Lemma bell_library : LibrarySpec bell_poll (progress_all bell_progress [0]) (eq Ring) (fun _ a => a = 9%Z) BellInv
  (fun l => l <> []) (fun _ => 0) 0.
Proof.
  split.
  - intros m l id i [B1 B2 B3 B4] Hm <-. eexists _, _, Pending. split; [done|]. split; [|done].
    assert (Hn : task_waker id ∉ l) by (intros (lf & Hl & _)%B1; congruence). split.
    + intros id'. rewrite elem_of_app, list_elem_of_singleton, B1. destruct (decide (id' = id)) as [->|Hne].
      * rewrite lookup_insert_eq. split; [eauto|by right].
      * rewrite lookup_insert_ne by done. split; [intros [?|[= ?]]; done|by left].
    + apply NoDup_app. split; [done|]. split; [|apply NoDup_singleton]. by intros k Hk ->%list_elem_of_singleton.
    + intros k [Hk| ->%list_elem_of_singleton]%elem_of_app; [by apply B3|done].
    + intros id' lf [(_ & <-)|[_ Hl]]%lookup_insert_Some; [done|by apply (B4 id')].
  - intros m l id lf [B1 B2 B3 B4] Hl Hw. rewrite (B4 id lf Hl). eexists _, _, _. split; [done|]. split; [done|]. split; [|done].
    split; [|done|done|by intros id' lf' [_ ?]%lookup_delete_Some; apply (B4 id')]. intros id'. rewrite B1.
    destruct (decide (id' = id)) as [->|Hne]; [|by rewrite lookup_delete_ne]. rewrite lookup_delete_eq.
    split; [intros (lf' & Hl' & ?); congruence|by intros (? & [=] & _)].
  - intros m l id lf [B1 _ _ _] Hl Hw ->. apply (not_elem_of_nil (task_waker id)), B1. by exists lf.
  - intros m l [B1 B2 B3 B4]. exists [], (map task_id l).
    assert (Hids : forall id, id ∈ map task_id l <-> task_waker id ∈ l).
    { intros id. rewrite list_elem_of_fmap. split; [|by exists (task_waker id)]. intros (k & -> & Hk). by rewrite <- (B3 k Hk). }
    split; [|split; [|split; [|split; [|split; [done|]]]]].
    + cbn. rewrite app_nil_r, map_map. f_equal. rewrite <- (map_id l) at 1. apply map_ext_in. intros k Hk%list_elem_of_In. by apply B3.
    + apply NoDup_fmap_2_strong; [|done]. intros k k' Hk Hk' He. by rewrite (B3 k Hk), (B3 k' Hk'), He.
    + intros id Hid%Hids. by apply B1.
    + split; [|apply NoDup_nil_2|by intros k ?%elem_of_nil|].
      * intros id. split; [by intros ?%elem_of_nil|]. rewrite wake_leaves_lookup. intros (lf & Hl & Hw).
        apply fmap_Some in Hl as (lf0 & Hl & ->). revert Hw. case_decide as Hd; [done|]. intros Hw.
        destruct Hd. apply Hids, B1. by exists lf0.
      * intros id lf. rewrite wake_leaves_lookup. intros (lf0 & Hl & ->)%fmap_Some. case_decide; exact (B4 id lf0 Hl).
    + intros Hne Hnil. by destruct l.
Qed.

(** A reactor with one worker, which has a listener. *)
Definition demo_ucx : UCXReactor (gmap nat nat) :=
  ucx_run [UNew; UCreateListener 0 "[::]:7" 5] (UCXReactor_new (fun _ => None) (fun _ => None)).

Lemma demo_ucx_ok : WorkersOk [0] 0 2 demo_ucx.
Proof.
  assert (HC : CountOk 0 (SL := gmap nat nat) (UCXReactor_new (fun _ => None) (fun _ => None)))
    by (split; cbn; [done|done|by intros w [x ?]]).
  split.
  - apply (ucx_run_count 0 [UNew; UCreateListener 0 "[::]:7" 5] _ HC eq_refl). split; [by split|]. split; [|done].
    split; [intros w [= <-]; eexists; by vm_compute|done].
  - by vm_compute.
  - intros w ->%list_elem_of_singleton. eexists. by vm_compute.
  - split; [by intros Hn; vm_compute in Hn|by vm_compute].
Qed.

(** One task sleeps, reads a file and reduces an array; two others sleep and then use the
    same worker at the same time. *)
Abbreviation DemoFn := (Async (ThreadAnswer Z) (ThreadOp BellCall) Z).
Definition demo_sensor : DemoFn :=
  nap (NapFor 5) (file_op (DmaFile_read (mkFile 3) [0; 0]%Z 16) (fun r =>
    match r with
    | ROk n => collective (Built demo_call) (fun r => Return (match r with ROk _ => n | RErr _ => (-1)%Z end))
    | RErr err => Return err
    end)).
Definition demo_caller (kind : CallKind) : DemoFn :=
  nap (NapFor 3) (nap (NapUntil (Delay_new_at 5)) (message (mkCall kind 0 OpStart Ring) 0%Z Return)).

Abbreviation DemoState := (TimerState * IoUringReactor ListRing.t * (CountMpi * MpiReactor) * (list Waker * UCXReactor (gmap nat nat)))%type.
Definition demo_thread : DemoState * nat :=
  (TimerReactor_new 1, mkUring (ListRing.mk [] []) ∅ ∅ 0 0 (mkAlloc [] [] ∅ 0) 0 (mkParams 64 50 100 None) 0 None,
   (demo_mpi, MpiReactor_new), ([], demo_ucx), 0).
Definition demo_tasks : list (option string * DemoFn) :=
  [(Some "sensor"%string, demo_sensor); (None, demo_caller Bracketed); (None, demo_caller (Waits 12))].

Abbreviation DemoSlab := (gmap nat (option (Task (TaskFuture DemoFn)))).
Definition same_order : forall X : Type, list (string * X) -> list (string * X) := fun X l => l.
Definition same_order_perm X (l : list (string * X)) : same_order X l ≡ₚ l := Permutation_refl l.

Definition demo_started : outcome (World Z (DemoState * nat) (Inner nat) DemoSlab * list JoinHandle) :=
  thread_start Z.of_nat false true bell_poll bell_progress 0%Z (fun _ => None) same_order same_order_perm SchedulingConfig_default demo_tasks demo_thread.

(** Three thousand passes are enough here; the functions return 7, 9 and 9. *)
Example demo_thread_returns :
  ('(w, jhs) ← demo_started;
   '(w, ex) ← run_queue (H := thread_program Z.of_nat false true bell_poll bell_progress 0%Z (fun _ => None) same_order same_order_perm) 3000 w;
   mret (ex, map (fun h => (JoinHandle_poll (mkWaker 9 TaskQueue) h (heap w)).2) jhs)) =
  Ok (PoolEmpty, [Ready (ROk 7%Z); Ready (ROk 9%Z); Ready (ROk 9%Z)]).
Proof. vm_compute. reflexivity. Qed.

Lemma default_sched_ok :
  SchedOk (V := Z) (thread_service (M := CountMpi) (R := ListRing.t) (RS := gmap nat nat) Z.of_nat false true bell_poll bell_progress) Z.of_nat 0%Z (fun _ => None)
    same_order same_order_perm SchedulingConfig_default.
Proof. split; cbn; lia || by vm_compute. Qed.

Lemma demo_thread_idle s : (Z.of_nat s <= 1000)%Z ->
  Idle_thread Z.of_nat (mkParams 64 50 100 None) false Listed [0] BellInv 0 2 s demo_thread.
Proof.
  intros Hs. split; cbn.
  - split; [apply timer_inv_new; unfold u64_max; lia|]. split; [done|]. unfold u64_max. lia.
  - split; [|split; [done|split; [|lia]]].
    + split; [|done|done|cbn; lia]. split; cbn; [done|done|done|done|by intros u h [=]|by intros u u' h [=]].
    + split; [|done|by intros ? ? ?%elem_of_nil]. intros u. rewrite lookup_empty. split; [by intros ?%elem_of_nil|by intros []].
  - split; [apply mpi_wf_new|done].
  - split; [apply demo_ucx_ok|]. split; [|apply NoDup_nil_2|by intros k ?%elem_of_nil|by intros id lf Hl; rewrite lookup_empty in Hl].
    intros id. split; [by intros ?%elem_of_nil|]. intros (lf & Hl & _). by rewrite lookup_empty in Hl.
Qed.

Lemma run_queue_completes_all_witness :
  exists (w1 w2 : World Z (DemoState * nat) (Inner nat) DemoSlab) h1 h2 h3 v,
    demo_started = Ok (w1, [h1; h2; h3]) /\
    run_queue (H := thread_program Z.of_nat false true bell_poll bell_progress 0%Z (fun _ => None) same_order same_order_perm) 1200000 w1 = Ok (w2, PoolEmpty) /\
    (v = 7 \/ v = -1)%Z /\ forall k, (JoinHandle_poll k h1 (heap w2)).2 = Ready (ROk v) /\
    (JoinHandle_poll k h2 (heap w2)).2 = Ready (ROk 9%Z) /\ (JoinHandle_poll k h3 (heap w2)).2 = Ready (ROk 9%Z).
Proof.
  assert (Hp : forall t : nat, (Z.of_nat t + wait_complete_timeout (mkParams 64 50 100 None) <= Z.of_nat (t + 100))%Z) by (cbn; lia).
  assert (Hs : forall t : nat, (Z.of_nat t <= Z.of_nat (S t))%Z) by lia.
  destruct (run_queue_completes_all Z.of_nat 5 Hs false (mkParams 64 50 100 None) false Listed (fun _ => 0) 0 100 4
    (fun _ res => res = 7%Z) (list_kernel false) Hp true tests_left 1 count_patience bell_poll bell_progress [0]
    (eq Ring) (fun _ a => a = 9%Z) BellInv (fun l => l <> []) (fun _ => 0) 0 bell_library 0 2 eq_refl 0%Z (fun _ => None) same_order same_order_perm
    (C := Inner nat) (SL := DemoSlab) SchedulingConfig_default default_sched_ok 3 demo_tasks [3; 3; 3] 1200000 demo_thread)
    as (w1 & jhs & w2 & Hst & Hr & _ & Hall).
  - done.
  - unfold room. by vm_compute.
  - vm_compute. discriminate.
  - by apply demo_thread_idle.
  - repeat apply Forall2_cons_2; [| | |constructor].
    + apply awaits_nap; [cbn; lia|]. apply awaits_file_op. intros res ->. apply awaits_collective; [left; by eexists; left|done].
    + apply awaits_nap; [cbn; lia|]. apply awaits_nap; [by exists 5%Z|]. apply awaits_message; [|done]. split; [done|]. split; [by left|done].
    + apply awaits_nap; [cbn; lia|]. apply awaits_nap; [by exists 5%Z|]. apply awaits_message; [|done]. split; [done|]. split; [by left|done].
  - cbn. lia.
  - cbn. lia.
  - apply Nat.leb_le. by vm_compute.
  - vm_compute. discriminate.
  - apply Forall2_cons_inv_l in Hall as (h1 & jhs' & (v & Hv & H1) & Hall & ->).
    apply Forall2_cons_inv_l in Hall as (h2 & jhs2 & (v2 & Hv2 & H2) & Hall & ->).
    apply Forall2_cons_inv_l in Hall as (h3 & jhs3 & (v3 & Hv3 & H3) & Hall & ->). apply Forall2_nil_inv_l in Hall as ->.
    exists w1, w2, h1, h2, h3, v. split; [exact Hst|]. split; [exact Hr|]. split.
    + apply returns_nap, returns_file_op in Hv as (res & -> & Hv). apply returns_collective in Hv as (r & _ & Hv).
      inversion Hv; subst. destruct r; auto.
    + intros k. split; [apply H1|]. do 2 apply returns_nap in Hv2. do 2 apply returns_nap in Hv3.
      apply returns_message in Hv2 as (a2 & -> & Hv2). apply returns_message in Hv3 as (a3 & -> & Hv3).
      inversion Hv2; inversion Hv3; subst. split; [apply H2|apply H3].
Defined.
