(* ===== verification/Window.v ===== *)
(** * Window: clients that keep a window of requests in flight, and servers that answer them
    ([examples/mpi_example], [examples/remoteio_example], [examples/ucx_example])

    The three networked programs of [src/examples] share a shape.  The client sends
    [num_transfers] requests and lets at most [window] of them be unanswered; the server takes
    a given number of requests, one after another, and works on at most [width] of them at a
    time.  Active messages are delivered in any order, and the client, the server and the
    tasks of the server take their steps in any order.  A send of an active message does not
    fail here: all three programs stop at its first error.  What a request asks for and
    what the server does with it are parameters here; [ReadBench] and [RemoteIo] give the
    three programs. *)

From S2P Require Import Prelude.
Local Open Scope nat_scope.

(** ** Lists of tasks *)

Section tasks.
Context {A B : Type} (f : A -> option B).

Lemma omap_delete_perm l k x : l !! k = Some x -> omap f l ≡ₚ option_list (f x) ++ omap f (delete k l).
Proof. intros Hl. rewrite (omap_Permutation f _ _ (delete_Permutation l k x Hl)). cbn. by destruct (f x). Qed.

Lemma insert_perm (l : list A) k x y : l !! k = Some x -> <[k := y]> l ≡ₚ y :: delete k l.
Proof.
  intros Hl. rewrite insert_take_drop by (by eapply lookup_lt_Some). rewrite delete_take_drop. by rewrite Permutation_middle.
Qed.

Lemma omap_insert_perm l k x y : l !! k = Some x -> omap f (<[k := y]> l) ≡ₚ option_list (f y) ++ omap f (delete k l).
Proof. intros Hl. rewrite (insert_perm l k x y Hl). cbn. by destruct (f y). Qed.

Lemma elem_of_delete (l : list A) a b y : a <> b -> l !! b = Some y -> y ∈ delete a l.
Proof.
  intros Hne Hb. apply list_elem_of_lookup. destruct (decide (b < a)) as [Hlt|Hge].
  - exists b. by rewrite list_lookup_delete_lt.
  - exists (b - 1). rewrite list_lookup_delete_ge by lia. by replace (S (b - 1)) with b by lia.
Qed.

Lemma omap_lookup_inj l a b x y z : NoDup (omap f l) -> l !! a = Some x -> l !! b = Some y ->
  f x = Some z -> f y = Some z -> a = b.
Proof.
  intros Hnd Ha Hb Hx Hy. destruct (decide (a = b)) as [|Hne]; [done|exfalso].
  rewrite (omap_delete_perm l a x Ha), Hx in Hnd. cbn in Hnd. apply NoDup_cons in Hnd as [Hz _]. apply Hz.
  apply list_elem_of_omap. exists y. split; [|done]. by apply (elem_of_delete l a b).
Qed.

Lemma weight_delete (w : A -> nat) l k x : l !! k = Some x -> sum_list_with w l = w x + sum_list_with w (delete k l).
Proof. intros Hl. apply (sum_list_with_Permutation_proper w _ _ (delete_Permutation l k x Hl)). Qed.

Lemma weight_insert (w : A -> nat) l k x y : l !! k = Some x -> sum_list_with w (<[k := y]> l) + w x = sum_list_with w l + w y.
Proof.
  intros Hl. rewrite (weight_delete w l k x Hl), (sum_list_with_Permutation_proper w _ _ (insert_perm l k x y Hl)). cbn. lia.
Qed.
End tasks.

Section window.
Context {Req Resp Out F St : Type}.

(** ** The client *)

Record Client : Type := mkClient { next_request : nat; inflight : nat; broken : bool }.

Inductive ClientWant : Type := WantSend (i : nat) | WantResponse | ClientDone.

(** The loop over requests, which first makes room in the window, and the one that
    waits for the remaining responses.  A client that met an error is [broken]. *)
Definition client_wants (num_transfers window : nat) (c : Client) : ClientWant :=
  if broken c then ClientDone
  else if next_request c <? num_transfers then
    if window <=? inflight c then WantResponse else WantSend (next_request c)
  else if 0 <? inflight c then WantResponse else ClientDone.

(** ** The server *)

(** A request that was taken: not looked at, worked on with the given outcome,
    answered, or given up because of an error. *)
Inductive Job : Type := Arrived (r : Req) | Worked (r : Req) (o : Out) | Answered | Lost.

Record Server : Type := mkServer { accepted : nat; running : list Job }.

Inductive ServerWant : Type := WantRequest | WantFinished | ServerDone.

Definition server_wants (count width : nat) (s : Server) : ServerWant :=
  if width <=? length (running s) then WantFinished
  else if accepted s <? count then WantRequest
  else match running s with [] => ServerDone | _ :: _ => WantFinished end.

Definition finished (swallow : bool) (j : Job) : bool :=
  match j with Answered => true | Lost => swallow | _ => false end.

(** ** Both, and the network *)

Record WinWorld : Type := mkWin {
  wclient : Client; wstate : St; wserver : Server; wfiles : F; requests : list Req; responses : list Resp
}.

Context (num_transfers window count width : nat) (swallow : bool).
Context (make_request : nat -> Req) (on_response : Resp -> St -> option St).
Context (serve : Req -> F -> option (F * Out)) (reply : Req -> Out -> Resp).

(** One step, with the response that the client took in it. *)
Inductive win_step : WinWorld -> list Resp -> WinWorld -> Prop :=
| client_sends c st s f qs rs i : client_wants num_transfers window c = WantSend i ->
    win_step (mkWin c st s f qs rs) []
      (mkWin (mkClient (S (next_request c)) (S (inflight c)) false) st s f (qs ++ [make_request i]) rs)
| client_receives c st st' s f qs rs k r : client_wants num_transfers window c = WantResponse ->
    rs !! k = Some r -> on_response r st = Some st' ->
    win_step (mkWin c st s f qs rs) [r] (mkWin (mkClient (next_request c) (inflight c - 1) false) st' s f qs (delete k rs))
| client_fails c st s f qs rs k r : client_wants num_transfers window c = WantResponse ->
    rs !! k = Some r -> on_response r st = None ->
    win_step (mkWin c st s f qs rs) [r] (mkWin (mkClient (next_request c) (inflight c) true) st s f qs (delete k rs))
| server_accepts c st s f qs rs k r : server_wants count width s = WantRequest -> qs !! k = Some r ->
    win_step (mkWin c st s f qs rs) []
      (mkWin c st (mkServer (S (accepted s)) (running s ++ [Arrived r])) f (delete k qs) rs)
| job_works c st s f f' qs rs k r o : running s !! k = Some (Arrived r) -> serve r f = Some (f', o) ->
    win_step (mkWin c st s f qs rs) []
      (mkWin c st (mkServer (accepted s) (<[k := Worked r o]> (running s))) f' qs rs)
| job_fails c st s f qs rs k r : running s !! k = Some (Arrived r) -> serve r f = None ->
    win_step (mkWin c st s f qs rs) [] (mkWin c st (mkServer (accepted s) (<[k := Lost]> (running s))) f qs rs)
| job_answers c st s f qs rs k r o : running s !! k = Some (Worked r o) ->
    win_step (mkWin c st s f qs rs) []
      (mkWin c st (mkServer (accepted s) (<[k := Answered]> (running s))) f qs (rs ++ [reply r o]))
| server_reaps c st s f qs rs k j : server_wants count width s = WantFinished ->
    running s !! k = Some j -> finished swallow j = true ->
    win_step (mkWin c st s f qs rs) [] (mkWin c st (mkServer (accepted s) (delete k (running s))) f qs rs).

Definition win_start (st : St) (f : F) : WinWorld := mkWin (mkClient 0 0 false) st (mkServer 0 []) f [] [].

(** Runs, with their length and the responses the client took. *)
Inductive win_run (w0 : WinWorld) : nat -> list Resp -> WinWorld -> Prop :=
| run_start : win_run w0 0 [] w0
| run_step n got w o w' : win_run w0 n got w -> win_step w o w' -> win_run w0 (S n) (got ++ o) w'.

Definition blocked (w : WinWorld) : Prop := forall o w', ~ win_step w o w'.

(** ** What the workload must do *)

(** The work on request [i] succeeds and is answered with [resp i], and the client accepts
    it.  [FI D f]: the files after the work on [D]; [CI n st]: the client after [n] responses. *)
Record Workload (resp : nat -> Resp) (FI : gset nat -> F -> Prop) (CI : nat -> St -> Prop) : Prop := {
  wl_serve i D f : i < num_transfers -> i ∉ D -> FI D f -> exists f' o,
    serve (make_request i) f = Some (f', o) /\ FI ({[i]} ∪ D) f' /\ reply (make_request i) o = resp i;
  wl_response i n st : i < num_transfers -> n < num_transfers -> CI n st -> exists st',
    on_response (resp i) st = Some st' /\ CI (S n) st'
}.

Context (resp : nat -> Resp) (FI : gset nat -> F -> Prop) (CI : nat -> St -> Prop) (HW : Workload resp FI CI).

(** ** The invariant *)

(** A task of the server works on request [i], or has answered. *)
Definition job_ok (D : gset nat) (o : option nat) (j : Job) : Prop :=
  match o, j with
  | Some i, Arrived r => r = make_request i /\ i ∉ D
  | Some i, Worked r o => r = make_request i /\ reply r o = resp i /\ i ∈ D
  | None, Answered => True
  | _, _ => False
  end.

(** Where every request is: on the network, with a task, answered, received. *)
Record Tracks (w : WinWorld) (got : list Resp) (qs : list nat) (js : list (option nat)) (rs gs : list nat) (D : gset nat) : Prop := {
  tr_client : broken (wclient w) = false /\ next_request (wclient w) = length gs + inflight (wclient w) /\
    next_request (wclient w) <= num_transfers /\ inflight (wclient w) <= window;
  tr_once : qs ++ omap id js ++ rs ++ gs ≡ₚ seq 0 (next_request (wclient w));
  tr_requests : requests w = map make_request qs;
  tr_jobs : Forall2 (job_ok D) js (running (wserver w));
  tr_width : length (running (wserver w)) <= width;
  tr_accepted : accepted (wserver w) = length (omap id js) + length rs + length gs;
  tr_responses : responses w = map resp rs;
  tr_got : got = map resp gs;
  tr_done i : i ∈ rs ++ gs -> i ∈ D;
  tr_files : FI D (wfiles w);
  tr_fresh i : i ∈ qs -> i ∉ D;
  tr_below i : i ∈ D -> i < next_request (wclient w);
  tr_state : CI (length gs) (wstate w)
}.

(** Steps that are left. *)
Definition job_weight (j : Job) : nat := match j with Arrived _ => 4 | Worked _ _ => 3 | Answered => 1 | Lost => 0 end.
Definition steps_left (w : WinWorld) : nat :=
  6 * (num_transfers - next_request (wclient w)) + 5 * length (requests w) +
  sum_list_with job_weight (running (wserver w)) + length (responses w).

Definition tracked (n : nat) (got : list Resp) (w : WinWorld) : Prop :=
  exists qs js rs gs D, Tracks w got qs js rs gs D /\ n + steps_left w = 6 * num_transfers.

Lemma tracked_start st f : FI ∅ f -> CI 0 st -> tracked 0 [] (win_start st f).
Proof.
  intros Hf Hs. exists [], [], [], [], ∅. split; [|unfold steps_left; cbn; lia].
  split; cbn; try done; try lia; by intros i ?%elem_of_nil.
Qed.

Lemma tracks_nodup w got qs js rs gs D : Tracks w got qs js rs gs D -> NoDup (qs ++ omap id js ++ rs ++ gs).
Proof. intros HT. rewrite (tr_once _ _ _ _ _ _ _ HT). apply NoDup_seq. Qed.

Lemma tracks_below w got qs js rs gs D i : Tracks w got qs js rs gs D -> i ∈ qs ++ omap id js ++ rs ++ gs ->
  i < next_request (wclient w).
Proof. intros HT. rewrite (tr_once _ _ _ _ _ _ _ HT), elem_of_seq. lia. Qed.

Lemma client_wants_send c i : client_wants num_transfers window c = WantSend i ->
  broken c = false /\ i = next_request c /\ next_request c < num_transfers /\ inflight c < window.
Proof.
  unfold client_wants. destruct (broken c); [done|]. destruct (Nat.ltb_spec (next_request c) num_transfers); [|by destruct (_ <? _)].
  destruct (Nat.leb_spec window (inflight c)); [done|]. by intros [= <-].
Qed.

Lemma client_wants_response c : client_wants num_transfers window c = WantResponse -> broken c = false.
Proof. unfold client_wants. by destruct (broken c). Qed.

(** The client sends. *)
Lemma tracked_sends n got c st s f qs rs i : client_wants num_transfers window c = WantSend i ->
  tracked n got (mkWin c st s f qs rs) ->
  tracked (S n) got (mkWin (mkClient (S (next_request c)) (S (inflight c)) false) st s f (qs ++ [make_request i]) rs).
Proof.
  intros (Hb & -> & Hn & Hi)%client_wants_send (qi & js & ri & gs & D & HT & Hl).
  exists (qi ++ [next_request c]), js, ri, gs, D. split.
  - destruct HT as [T1 T2 T3 T4 T5 T6 T7 T8 T9 T10 T11 T12 T13]. cbn [wclient wstate wserver wfiles requests responses] in *.
    split; cbn [wclient wstate wserver wfiles requests responses next_request inflight broken]; try done.
    + split; [done|]. lia.
    + rewrite seq_S, <- T2. cbn. rewrite <- !app_assoc. by rewrite (Permutation_app_comm [_]), <- !app_assoc.
    + by rewrite T3, map_app.
    + intros j [Hj| ->%list_elem_of_singleton]%elem_of_app; [by apply T11|]. intros Hd%T12. lia.
    + intros j Hj%T12. lia.
  - unfold steps_left in *. cbn in *. rewrite length_app. cbn. lia.
Qed.

(** It receives; a response on the network is that of a request it waits for. *)
Lemma response_of w got qs js rs gs D k r : Tracks w got qs js rs gs D -> responses w !! k = Some r ->
  exists i, rs !! k = Some i /\ r = resp i /\ i < num_transfers /\ length gs < num_transfers /\ 0 < inflight (wclient w).
Proof.
  intros HT Hr. rewrite (tr_responses _ _ _ _ _ _ _ HT) in Hr. apply list_lookup_fmap_Some in Hr as (i & -> & Hi).
  exists i. split; [done|]. split; [done|].
  assert (Hin : i ∈ rs) by by eapply list_elem_of_lookup_2.
  assert (Hlt := tracks_below _ _ _ _ _ _ _ i HT). rewrite !elem_of_app in Hlt.
  assert (Hlen := Permutation_length (tr_once _ _ _ _ _ _ _ HT)). rewrite !length_app, length_seq in Hlen.
  assert (Hk := lookup_lt_Some _ _ _ Hi). destruct (tr_client _ _ _ _ _ _ _ HT) as (_ & Hg & Hn & _).
  split; [|split]; [specialize (Hlt ltac:(auto)); lia|lia|lia].
Qed.

Lemma tracked_receives n got c st s f qs rs k r : client_wants num_transfers window c = WantResponse -> rs !! k = Some r ->
  tracked n got (mkWin c st s f qs rs) -> exists st', on_response r st = Some st' /\
  tracked (S n) (got ++ [r]) (mkWin (mkClient (next_request c) (inflight c - 1) false) st' s f qs (delete k rs)).
Proof.
  intros Hw Hr (qi & js & ri & gs & D & HT & Hl).
  destruct (response_of _ _ _ _ _ _ _ _ _ HT Hr) as (i & Hi & -> & HiN & Hgs & Hin).
  destruct (wl_response _ _ _ HW i (length gs) st HiN Hgs (tr_state _ _ _ _ _ _ _ HT)) as (st' & Hst & HC).
  exists st'. split; [done|]. exists qi, js, (delete k ri), (gs ++ [i]), D. split.
  - destruct HT as [T1 T2 T3 T4 T5 T6 T7 T8 T9 T10 T11 T12 T13]. cbn [wclient wstate wserver wfiles requests responses] in *.
    assert (Hlr := length_delete ri k ltac:(by rewrite Hi)). assert (Hk := lookup_lt_Some _ _ _ Hi).
    assert (Hp := delete_Permutation ri k i Hi).
    split; cbn [wclient wstate wserver wfiles requests responses next_request inflight broken]; try done.
    + rewrite length_app. cbn. split; [done|]. lia.
    + rewrite <- T2. do 2 apply Permutation_app_head. etrans; [|symmetry; apply (Permutation_app_tail gs Hp)].
      by rewrite app_assoc, (Permutation_app_comm _ [i]).
    + rewrite length_app. cbn. lia.
    + by rewrite T7, list_fmap_delete.
    + by rewrite T8, map_app.
    + intros j. rewrite !elem_of_app, list_elem_of_singleton. intros Hj. apply T9. rewrite Hp, elem_of_app, elem_of_cons. tauto.
    + rewrite length_app. cbn. by replace (length gs + 1) with (S (length gs)) by lia.
  - unfold steps_left in *. cbn in *. assert (Hlr := length_delete rs k ltac:(by rewrite Hr)).
    assert (Hk := lookup_lt_Some _ _ _ Hr). lia.
Qed.

(** The server takes a request. *)
Lemma server_wants_request sv : server_wants count width sv = WantRequest -> length (running sv) < width /\ accepted sv < count.
Proof.
  unfold server_wants. destruct (Nat.leb_spec width (length (running sv))); [done|].
  destruct (Nat.ltb_spec (accepted sv) count); [done|]. by destruct (running sv).
Qed.

Lemma tracked_accepts n got c st s f qs rs k r : server_wants count width s = WantRequest -> qs !! k = Some r ->
  tracked n got (mkWin c st s f qs rs) ->
  tracked (S n) got (mkWin c st (mkServer (S (accepted s)) (running s ++ [Arrived r])) f (delete k qs) rs).
Proof.
  intros [Hwd _]%server_wants_request Hr (qi & js & ri & gs & D & HT & Hl).
  assert (Hq := tr_requests _ _ _ _ _ _ _ HT). cbn in Hq. assert (Hqi := Hr). rewrite Hq in Hqi.
  apply list_lookup_fmap_Some in Hqi as (i & -> & Hi). exists (delete k qi), (js ++ [Some i]), ri, gs, D. split.
  - assert (Hfr := tr_fresh _ _ _ _ _ _ _ HT i ltac:(by eapply list_elem_of_lookup_2)).
    destruct HT as [T1 T2 T3 T4 T5 T6 T7 T8 T9 T10 T11 T12 T13]. cbn [wclient wstate wserver wfiles requests responses] in *.
    assert (Hp := delete_Permutation qi k i Hi).
    split; cbn [wclient wstate wserver wfiles requests responses accepted running]; try done.
    + rewrite omap_app. cbn. rewrite <- T2. etrans; [|symmetry; apply (Permutation_app_tail _ Hp)]. cbn.
      rewrite <- app_assoc. cbn. by rewrite <- !Permutation_middle.
    + by rewrite T3, list_fmap_delete.
    + apply Forall2_app; [done|]. by repeat constructor.
    + rewrite length_app. cbn. lia.
    + rewrite omap_app, length_app. cbn. lia.
    + intros j Hj. apply T11. rewrite Hp. by right.
  - unfold steps_left in *. cbn in *. rewrite sum_list_with_app. cbn.
    assert (Hlq := length_delete qs k ltac:(by rewrite Hr)). assert (Hk := lookup_lt_Some _ _ _ Hr). lia.
Qed.

(** A task works on its request, *)
Lemma job_lookup w got qs js rs gs D k j : Tracks w got qs js rs gs D -> running (wserver w) !! k = Some j ->
  exists o, js !! k = Some o /\ job_ok D o j.
Proof.
  intros HT Hj. destruct (Forall2_lookup_r _ _ _ _ _ (tr_jobs _ _ _ _ _ _ _ HT) Hj) as (o & Ho & Hok). by exists o.
Qed.

Lemma tracked_works n got c st s f qs rs k r : running s !! k = Some (Arrived r) ->
  tracked n got (mkWin c st s f qs rs) -> exists f' o, serve r f = Some (f', o) /\
  tracked (S n) got (mkWin c st (mkServer (accepted s) (<[k := Worked r o]> (running s))) f' qs rs).
Proof.
  intros Hr (qi & js & ri & gs & D & HT & Hl). destruct (job_lookup _ _ _ _ _ _ _ _ _ HT Hr) as ([i|] & Hi & Hok); [|done].
  destruct Hok as [-> HiD]. assert (Hp := omap_delete_perm id js k _ Hi). cbn in Hp.
  assert (Hnd := tracks_nodup _ _ _ _ _ _ _ HT).
  assert (Hlt := tracks_below _ _ _ _ _ _ _ i HT ltac:(rewrite Hp; set_solver)).
  assert (HN := proj1 (proj2 (proj2 (tr_client _ _ _ _ _ _ _ HT)))).
  destruct (wl_serve _ _ _ HW i D f ltac:(lia) HiD (tr_files _ _ _ _ _ _ _ HT)) as (f' & o & Hs & HF & Hre).
  exists f', o. split; [done|]. exists qi, js, ri, gs, ({[i]} ∪ D). split.
  - destruct HT as [T1 T2 T3 T4 T5 T6 T7 T8 T9 T10 T11 T12 T13]. cbn [wclient wstate wserver wfiles requests responses] in *.
    split; cbn [wclient wstate wserver wfiles requests responses accepted running]; try done.
    + apply Forall2_same_length_lookup. split; [rewrite length_insert; by eapply Forall2_length|].
      intros a x y Hx Hy. apply list_lookup_insert_Some in Hy as [(<- & <- & _)|[Hne Hy]].
      * rewrite Hi in Hx. injection Hx as <-. cbn. split; [done|]. split; [done|]. set_solver.
      * assert (Hok := Forall2_lookup_lr _ _ _ _ _ _ T4 Hx Hy). destruct x as [i'|], y as [r'|r' o'| |]; cbn in *; try done.
        -- destruct Hok as [-> Hd]. split; [done|]. intros [->%elem_of_singleton|Hin]%elem_of_union; [|done].
           apply Hne. apply (omap_lookup_inj id js k a (Some i) (Some i) i); [|done..].
           by apply NoDup_app in Hnd as (_ & _ & (Hnd & _ & _)%NoDup_app).
        -- destruct Hok as (-> & ? & ?). split; [done|]. split; [done|]. set_solver.
    + by rewrite length_insert.
    + intros j Hj%T9. set_solver.
    + intros j Hj [->%elem_of_singleton|Hin]%elem_of_union; [|by apply (T11 j)].
      apply NoDup_app in Hnd as (_ & Hd & _). apply (Hd i Hj). rewrite Hp. set_solver.
    + intros j [->%elem_of_singleton|Hin]%elem_of_union; [done|by apply T12].
  - unfold steps_left in *. cbn in *. assert (Hwt := weight_insert job_weight (running s) k _ (Worked (make_request i) o) Hr). cbn in Hwt. lia.
Qed.

(** answers it, *)
Lemma tracked_answers n got c st s f qs rs k r o : running s !! k = Some (Worked r o) ->
  tracked n got (mkWin c st s f qs rs) ->
  tracked (S n) got (mkWin c st (mkServer (accepted s) (<[k := Answered]> (running s))) f qs (rs ++ [reply r o])).
Proof.
  intros Hr (qi & js & ri & gs & D & HT & Hl). destruct (job_lookup _ _ _ _ _ _ _ _ _ HT Hr) as ([i|] & Hi & Hok); [|done].
  destruct Hok as (-> & Hre & HiD). exists qi, (<[k := None]> js), (ri ++ [i]), gs, D. split.
  - assert (Hp := omap_delete_perm id js k _ Hi). assert (Hp' := omap_insert_perm id js k _ None Hi). cbn in Hp, Hp'.
    destruct HT as [T1 T2 T3 T4 T5 T6 T7 T8 T9 T10 T11 T12 T13]. cbn [wclient wstate wserver wfiles requests responses] in *.
    split; cbn [wclient wstate wserver wfiles requests responses accepted running]; try done.
    + rewrite <- T2. apply Permutation_app_head. etrans; [apply (Permutation_app_tail _ Hp')|].
      etrans; [|symmetry; apply (Permutation_app_tail _ Hp)]. rewrite <- app_assoc. cbn. by rewrite <- !Permutation_middle.
    + apply Forall2_same_length_lookup. split; [rewrite !length_insert; by eapply Forall2_length|].
      intros a x y Hx Hy. apply list_lookup_insert_Some in Hy as [(<- & <- & _)|[Hne Hy]].
      * rewrite list_lookup_insert_eq in Hx by (by eapply lookup_lt_Some). by injection Hx as <-.
      * rewrite list_lookup_insert_ne in Hx by done. by eapply Forall2_lookup_lr.
    + by rewrite length_insert.
    + rewrite length_app. cbn. rewrite (Permutation_length Hp'), T6, (Permutation_length Hp). cbn. lia.
    + rewrite map_app. cbn. by rewrite T7, Hre.
    + intros j. rewrite !elem_of_app, list_elem_of_singleton. intros [[Hj| ->]|Hj]; [apply T9; set_solver|done|apply T9; set_solver].
  - unfold steps_left in *. cbn in *. rewrite length_app. cbn.
    assert (Hwt := weight_insert job_weight (running s) k _ Answered Hr). cbn in Hwt. lia.
Qed.

(** and is taken off the set of tasks. *)
Lemma tracked_reaps n got c st s f qs rs k j : running s !! k = Some j -> finished swallow j = true ->
  tracked n got (mkWin c st s f qs rs) ->
  tracked (S n) got (mkWin c st (mkServer (accepted s) (delete k (running s))) f qs rs).
Proof.
  intros Hr Hfin (qi & js & ri & gs & D & HT & Hl). destruct (job_lookup _ _ _ _ _ _ _ _ _ HT Hr) as (o & Ho & Hok).
  destruct o as [i|], j as [r|r x| |]; try done. exists qi, (delete k js), ri, gs, D. split.
  - assert (Hp := omap_delete_perm id js k _ Ho). cbn in Hp.
    destruct HT as [T1 T2 T3 T4 T5 T6 T7 T8 T9 T10 T11 T12 T13]. cbn [wclient wstate wserver wfiles requests responses] in *.
    split; cbn [wclient wstate wserver wfiles requests responses accepted running]; try done.
    + rewrite <- T2. apply Permutation_app_head. by rewrite Hp.
    + by apply Forall2_delete.
    + rewrite length_delete by (by rewrite Hr). lia.
    + by rewrite <- (Permutation_length Hp).
  - unfold steps_left in *. cbn in *. rewrite (weight_delete job_weight _ k _ Hr) in Hl. cbn in Hl. lia.
Qed.

Lemma tracked_step n got w o w' : win_step w o w' -> tracked n got w -> tracked (S n) (got ++ o) w'.
Proof.
  intros Hs Ht. destruct Hs; rewrite ?app_nil_r.
  - by apply tracked_sends with (i := i).
  - destruct (tracked_receives _ _ _ _ _ _ _ _ _ _ ltac:(done) ltac:(done) Ht) as (st2 & Hst & Ht'). congruence.
  - destruct (tracked_receives _ _ _ _ _ _ _ _ _ _ ltac:(done) ltac:(done) Ht) as (st2 & Hst & Ht'). congruence.
  - by apply tracked_accepts.
  - destruct (tracked_works _ _ _ _ _ _ _ _ _ _ ltac:(done) Ht) as (f2 & o2 & Hse & Ht'). congruence.
  - destruct (tracked_works _ _ _ _ _ _ _ _ _ _ ltac:(done) Ht) as (f2 & o2 & Hse & Ht'). congruence.
  - by apply tracked_answers.
  - by apply tracked_reaps with (j := j).
Qed.

Lemma tracked_run st f n got w : FI ∅ f -> CI 0 st -> win_run (win_start st f) n got w -> tracked n got w.
Proof.
  intros Hf Hs. induction 1 as [|n got w o w' _ IH Hst]; [by apply tracked_start|by eapply tracked_step].
Qed.

(** ** The end of a run *)

(** Everything was sent, worked on and answered.  A server that expects more requests
    than were sent waits for them. *)
Record all_answered (got : list Resp) (w : WinWorld) : Prop := {
  aa_client : client_wants num_transfers window (wclient w) = ClientDone /\ broken (wclient w) = false;
  aa_network : requests w = [] /\ responses w = [];
  aa_got : got ≡ₚ map resp (seq 0 num_transfers);
  aa_files : FI (set_seq 0 num_transfers) (wfiles w);
  aa_state : CI num_transfers (wstate w);
  aa_server : if num_transfers <? count then server_wants count width (wserver w) = WantRequest
    else server_wants count width (wserver w) = ServerDone
}.

(** In a run that cannot go on every task has answered, *)
Lemma blocked_jobs got w qs js rs gs D : Tracks w got qs js rs gs D -> blocked w ->
  omap id js = [] /\ Forall (fun j => j = Answered) (running (wserver w)).
Proof.
  intros HT Hb. assert (Hall : Forall (fun j => j = Answered) (running (wserver w))).
  { apply Forall_lookup. intros k j Hj. destruct (job_lookup _ _ _ _ _ _ _ _ _ HT Hj) as ([i|] & Hi & Hok); [|by destruct j].
    exfalso. destruct w as [c st s f qs' rs']. destruct j as [r|r o| |]; try done; cbn in Hj.
    - destruct (serve r f) as [[f' o]|] eqn:Hs; eapply Hb; [by eapply job_works|by eapply job_fails].
    - eapply Hb. by eapply job_answers. }
  split; [|done]. assert (HJ := tr_jobs _ _ _ _ _ _ _ HT). clear -HJ Hall.
  induction HJ as [|o j js' l Hok _ IH]; [done|]. apply Forall_cons in Hall as [-> Hall]. destruct o; [done|]. by apply IH.
Qed.

(** the server took every request, *)
Lemma blocked_server got w qs js rs gs D : 1 <= width -> num_transfers <= count ->
  Tracks w got qs js rs gs D -> blocked w -> qs = [] /\
  server_wants count width (wserver w) <> WantFinished.
Proof.
  intros Hwd Hc HT Hb. destruct (blocked_jobs _ _ _ _ _ _ _ HT Hb) as [Hus Hall].
  assert (Hw : server_wants count width (wserver w) <> WantFinished).
  { intros Hsw. destruct w as [c st s f qs' rs']. cbn in *. destruct (running s) as [|j l] eqn:Hr.
    - unfold server_wants in Hsw. rewrite Hr in Hsw.
      destruct (Nat.leb_spec width (length (@nil Job))); [cbn in *; lia|]. by destruct (accepted s <? count).
    - apply Forall_cons in Hall as [-> _]. eapply Hb. eapply (server_reaps _ _ _ _ _ _ 0); [done|by rewrite Hr|done]. }
  split; [|done]. assert (Hq := tr_requests _ _ _ _ _ _ _ HT). destruct qs as [|q qs]; [done|exfalso].
  destruct (server_wants count width (wserver w)) eqn:Hsw; [|done|].
  - destruct w as [c st s f qs' rs']. cbn in *. subst qs'. eapply Hb. by eapply (server_accepts _ _ _ _ _ _ 0).
  - unfold server_wants in Hsw. destruct (_ <=? _); [done|]. destruct (Nat.ltb_spec (accepted (wserver w)) count); [done|].
    rewrite (tr_accepted _ _ _ _ _ _ _ HT) in *. assert (Hlen := Permutation_length (tr_once _ _ _ _ _ _ _ HT)).
    rewrite !length_app, length_seq in Hlen. cbn in Hlen. destruct (tr_client _ _ _ _ _ _ _ HT) as (_ & _ & Hn & _). lia.
Qed.

(** and so did the client every response. *)
Lemma blocked_client got w qs js rs gs D : 1 <= window -> 1 <= width -> num_transfers <= count ->
  Tracks w got qs js rs gs D -> blocked w -> rs = [] /\ client_wants num_transfers window (wclient w) = ClientDone.
Proof.
  intros Hwi Hwd Hc HT Hb. destruct (blocked_jobs _ _ _ _ _ _ _ HT Hb) as [Hus _].
  destruct (blocked_server _ _ _ _ _ _ _ Hwd Hc HT Hb) as [-> _].
  destruct (tr_client _ _ _ _ _ _ _ HT) as (Hbr & Hg & Hn & Hin).
  assert (Hlen := Permutation_length (tr_once _ _ _ _ _ _ _ HT)). rewrite !length_app, length_seq, Hus in Hlen. cbn in Hlen.
  destruct (client_wants num_transfers window (wclient w)) as [i| |] eqn:Hcw.
  - exfalso. destruct w. eapply Hb. by eapply client_sends.
  - exfalso. assert (Hr := tr_responses _ _ _ _ _ _ _ HT). destruct rs as [|r rs].
    + unfold client_wants in Hcw. rewrite Hbr in Hcw. cbn in Hlen.
      destruct (_ <? _); [destruct (Nat.leb_spec window (inflight (wclient w))); [lia|done]|].
      destruct (Nat.ltb_spec 0 (inflight (wclient w))); [lia|done].
    + destruct w as [c st s f qs' rs']. cbn in *. destruct (on_response (resp r) st) as [st'|] eqn:Ho; eapply Hb;
        [eapply (client_receives _ _ _ _ _ _ _ 0)|eapply (client_fails _ _ _ _ _ _ 0)]; try done; by rewrite Hr.
  - split; [|done]. unfold client_wants in Hcw. rewrite Hbr in Hcw. destruct (_ <? _); [by destruct (_ <=? _)|].
    destruct (Nat.ltb_spec 0 (inflight (wclient w))); [done|]. destruct rs; [done|]. cbn in Hlen. lia.
Qed.

(** Every run ends, in at most six steps for each request, and one that cannot go on
    has answered everything. *)
Lemma window_runs st f : 1 <= window -> 1 <= width -> num_transfers <= count -> FI ∅ f -> CI 0 st ->
  forall n got w, win_run (win_start st f) n got w ->
  n <= 6 * num_transfers /\ (blocked w -> all_answered got w).
Proof.
  intros Hwi Hwd Hc Hf Hs n got w Hr. destruct (tracked_run _ _ _ _ _ Hf Hs Hr) as (qs & js & rs & gs & D & HT & Hl).
  split; [lia|]. intros Hb. destruct (blocked_jobs _ _ _ _ _ _ _ HT Hb) as [Hus Hall].
  destruct (blocked_server _ _ _ _ _ _ _ Hwd Hc HT Hb) as [-> Hsw]. destruct (blocked_client _ _ _ _ _ _ _ Hwi Hwd Hc HT Hb) as [-> Hcw].
  assert (Hcl := Hcw). assert (Hswn := Hsw). destruct HT as [T1 T2 T3 T4 T5 T6 T7 T8 T9 T10 T11 T12 T13].
  destruct T1 as (Hbr & Hg & Hn & Hin). unfold client_wants in Hcl. rewrite Hbr in Hcl.
  destruct (Nat.ltb_spec (next_request (wclient w)) num_transfers); [by destruct (_ <=? _)|].
  replace (next_request (wclient w)) with num_transfers in * by lia. rewrite Hus in *. cbn [app length] in *.
  assert (Hlen := Permutation_length T2). rewrite length_seq in Hlen. split; try done.
  - by rewrite T8, T2.
  - replace (set_seq 0 num_transfers) with D; [done|]. apply set_eq. intros i. rewrite elem_of_set_seq. split.
    + intros Hi%T12. lia.
    + intros Hi. apply T9. cbn. rewrite T2, elem_of_seq. lia.
  - by rewrite <- Hlen.
  - rewrite Hlen in T6. unfold server_wants in *. rewrite T6 in *. cbn [length Nat.add] in *. destruct (Nat.ltb_spec num_transfers count).
    + by destruct (_ <=? _).
    + destruct (_ <=? _); [done|]. by destruct (running (wserver w)).
Qed.

(** No more than [window] requests are unanswered. *)
Lemma window_outstanding st f : FI ∅ f -> CI 0 st -> forall n got w, win_run (win_start st f) n got w ->
  length (requests w) + length (responses w) <= inflight (wclient w) <= window.
Proof.
  intros Hf Hs n got w Hr. destruct (tracked_run _ _ _ _ _ Hf Hs Hr) as (qs & js & rs & gs & D & HT & _).
  destruct (tr_client _ _ _ _ _ _ _ HT) as (_ & Hg & _ & Hin). split; [|done].
  assert (Hlen := Permutation_length (tr_once _ _ _ _ _ _ _ HT)). rewrite !length_app, length_seq in Hlen.
  rewrite (tr_requests _ _ _ _ _ _ _ HT), (tr_responses _ _ _ _ _ _ _ HT), !length_map. lia.
Qed.

(** A window of no requests: the client waits for a response before it has asked for
    anything, for ever. *)
Lemma window_zero_hangs st f : window = 0 -> 1 <= width -> 0 < num_transfers <= count ->
  blocked (win_start st f) /\ client_wants num_transfers window (mkClient 0 0 false) = WantResponse.
Proof.
  intros H0 Hwd [Hn Hc]. assert (Hcw : client_wants num_transfers window (mkClient 0 0 false) = WantResponse).
  { unfold client_wants. rewrite H0. cbn. by destruct num_transfers; [lia|]. }
  split; [|done]. intros o w' Hs. unfold win_start in Hs. inversion Hs; subst; try congruence; cbn [running] in *;
    match goal with Hl : [] !! _ = Some _ |- _ => by rewrite lookup_nil in Hl end.
Qed.

(** ** A schedule *)

Definition first_some {A} (g : nat -> option A) (n : nat) : option A :=
  head (omap g (seq 0 n)).

(** The step of the [k]-th task. *)
Definition job_next (w : WinWorld) (k : nat) : option WinWorld :=
  let put j := mkServer (accepted (wserver w)) (<[k := j]> (running (wserver w))) in
  match running (wserver w) !! k with
  | Some (Arrived r) =>
      match serve r (wfiles w) with
      | Some (f', o) => Some (mkWin (wclient w) (wstate w) (put (Worked r o)) f' (requests w) (responses w))
      | None => Some (mkWin (wclient w) (wstate w) (put Lost) (wfiles w) (requests w) (responses w))
      end
  | Some (Worked r o) => Some (mkWin (wclient w) (wstate w) (put Answered) (wfiles w) (requests w) (responses w ++ [reply r o]))
  | _ => None
  end.

Lemma job_next_step w k w' : job_next w k = Some w' -> win_step w [] w'.
Proof.
  destruct w as [c st s f qs rs]. unfold job_next. cbn. destruct (running s !! k) as [[r|r o| |]|] eqn:Hk; try done.
  - destruct (serve r f) as [[f' o]|] eqn:Hs; intros [= <-]; [by eapply job_works|by eapply job_fails].
  - intros [= <-]. by eapply job_answers.
Qed.

(** The step of the client. *)
Definition client_next (w : WinWorld) : option (list Resp * WinWorld) :=
  let c := wclient w in
  let put c st rs := mkWin c st (wserver w) (wfiles w) (requests w) rs in
  match client_wants num_transfers window c, responses w with
  | WantSend i, rs => Some ([], mkWin (mkClient (S (next_request c)) (S (inflight c)) false) (wstate w) (wserver w) (wfiles w)
      (requests w ++ [make_request i]) rs)
  | WantResponse, r :: rs =>
      match on_response r (wstate w) with
      | Some st => Some ([r], put (mkClient (next_request c) (inflight c - 1) false) st rs)
      | None => Some ([r], put (mkClient (next_request c) (inflight c) true) (wstate w) rs)
      end
  | _, _ => None
  end.

(** Tasks first, then the server's loop, then the client. *)
Definition win_next (w : WinWorld) : option (list Resp * WinWorld) :=
  let s := wserver w in
  match first_some (job_next w) (length (running s)) with
  | Some w' => Some ([], w')
  | None =>
      match server_wants count width s, running s, requests w with
      | WantFinished, j :: js, qs =>
          if finished swallow j then
            Some ([], mkWin (wclient w) (wstate w) (mkServer (accepted s) js) (wfiles w) qs (responses w))
          else None
      | WantRequest, js, r :: qs =>
          Some ([], mkWin (wclient w) (wstate w) (mkServer (S (accepted s)) (js ++ [Arrived r])) (wfiles w) qs (responses w))
      | _, _, _ => client_next w
      end
  end.

Lemma client_next_step w o w' : client_next w = Some (o, w') -> win_step w o w'.
Proof.
  destruct w as [c st s f qs rs]. unfold client_next. cbn. destruct (client_wants num_transfers window c) as [i| |] eqn:Hc; [| |done].
  - intros [= <- <-]. by apply client_sends with (i := i).
  - destruct rs as [|r rs]; [done|]. destruct (on_response r st) as [st'|] eqn:Ho; intros [= <- <-].
    + by apply (client_receives c st st' s f qs (r :: rs) 0 r).
    + by apply (client_fails c st s f qs (r :: rs) 0 r).
Qed.

Lemma win_next_step w o w' : win_next w = Some (o, w') -> win_step w o w'.
Proof.
  unfold win_next. destruct (first_some (job_next w) (length (running (wserver w)))) as [w1|] eqn:Hj.
  { intros [= <- <-]. unfold first_some in Hj. apply head_Some_elem_of, list_elem_of_omap in Hj as (k & _ & Hk). by eapply job_next_step. }
  destruct (server_wants count width (wserver w)) eqn:Hs; [|..].
  - destruct (requests w) as [|r qs] eqn:Hq; [apply client_next_step|]. intros [= <- <-].
    destruct w as [c st s f qs' rs]. cbn in *. subst. by apply (server_accepts c st s f (r :: qs) rs 0 r).
  - destruct (running (wserver w)) as [|j js] eqn:Hr; [apply client_next_step|].
    destruct (finished swallow j) eqn:Hf; [|done]. intros [= <- <-]. destruct w as [c st [a ru] f qs' rs]. cbn in *. subst.
    by apply (server_reaps c st (mkServer a (j :: js)) f qs' rs 0 j).
  - destruct (running (wserver w)); apply client_next_step.
Qed.

(** [n] steps of it. *)
Fixpoint win_drive (n : nat) (w : WinWorld) : list Resp * WinWorld :=
  match n with
  | O => ([], w)
  | S n => match win_next w with Some (o, w) => let (got, w) := win_drive n w in (o ++ got, w) | None => ([], w) end
  end.

Lemma win_drive_run n : forall w0 m got w, win_run w0 m got w -> exists m', win_run w0 m' (got ++ (win_drive n w).1) (win_drive n w).2.
Proof.
  induction n as [|n IH]; intros w0 m got w Hr; cbn [win_drive]; [exists m; by rewrite app_nil_r|].
  destruct (win_next w) as [[o w1]|] eqn:Hn; [|exists m; by rewrite app_nil_r].
  destruct (IH w0 (S m) (got ++ o) w1) as [m' Hm']; [by eapply run_step, win_next_step|].
  exists m'. destruct (win_drive n w1) as [got' w']. cbn in *. by rewrite app_assoc.
Qed.
End window.
