(* ===== verification/ReadBench.v ===== *)
(** * ReadBench: the remote READ benchmark ([examples/mpi_example])

    The server fills a file with a pattern and answers READ requests from it; the client
    asks for the blocks of the file in order with a window of requests.  [Window] has the
    loops; here are their requests and responses, the work of the server, the
    configuration and the statistics. *)

From stdpp Require Import sorting.
From Stdlib Require Import Ascii.
From S2P Require Import Prelude Window.
Local Open Scope nat_scope.

(** ** Files as the kernel keeps them *)

(** A file created with a length can be read and written within it. *)
Class Files (F : Type) := {
  fsize : F -> nat;
  pread : F -> nat -> nat -> option (list Z);
  pwrite : F -> nat -> list Z -> option F;
  created : nat -> F;
  created_size n : fsize (created n) = n;
  pread_total f off len : off + len <= fsize f -> exists bs, pread f off len = Some bs /\ length bs = len;
  pwrite_total f off bs : off + length bs <= fsize f -> exists f', pwrite f off bs = Some f' /\ fsize f' = fsize f /\
    pread f' off (length bs) = Some bs /\
    forall o l, o + l <= off \/ off + length bs <= o -> o + l <= fsize f -> pread f' o l = pread f o l
}.

(** The length of a buffer as the calls of the ring take it, [buffer.len() as u32]. *)
Definition len_u32 (buffer : list Z) : nat := Z.to_nat (wrap32 (Z.of_nat (length buffer))).

Lemma len_u32_small buffer : (Z.of_nat (length buffer) < 2 ^ 32)%Z -> len_u32 buffer = length buffer.
Proof. intros Hl. unfold len_u32, wrap32. rewrite Z.mod_small by lia. apply Nat2Z.id. Qed.

(** [read_fixed] of [len] bytes into a buffer, which keeps the rest, and [write_fixed] of its
    first [len] bytes. *)
Definition read_fixed {F} `{Files F} (f : F) (off len : nat) (buffer : list Z) : option (list Z) :=
  bs ← pread f off len; Some (bs ++ drop (length bs) buffer).
Definition write_fixed {F} `{Files F} (f : F) (off len : nat) (buffer : list Z) : option F := pwrite f off (take len buffer).

(** ** Configuration *)

Section config.
Context (genv : string -> option string).

Definition env_usize (name : string) (dflt : Z) : Z :=
  match genv name with
  | Some s => match parse_uint u64_max s with Some z => z | None => dflt end
  | None => dflt
  end.
Definition get_data_size : Z := env_usize "DATA_SIZE"%string (4 * 2 ^ 20).
Definition get_num_transfers : Z := env_usize "NUM_TRANSFERS"%string 256.
Definition get_window_size : Z := env_usize "WINDOW_SIZE"%string 32.
End config.

Inductive Role : Type := RoleServer | RoleClient.

(** [str::parse::<i32>]. *)
Definition parse_i32 (s : string) : option Z :=
  match s with
  | String "-"%char EmptyString => None
  | String "-"%char s => z ← parse_digits (2 ^ 31) 0 s; Some (- z)%Z
  | s => parse_uint (2 ^ 31 - 1) s
  end.

(** What [main] does with its arguments: it exits with 1, or has a role. *)
Inductive Started : Type :=
| Exits
| Starts (role : Role) (registry_dir : string) (data_dir : option string) (num_servers : Z).

Definition main_args (args : list string) : Started :=
  match args with
  | _ :: role :: registry_dir :: rest =>
      if decide (role = "server"%string) then
        match rest with dir :: _ => Starts RoleServer registry_dir (Some dir) 0 | [] => Exits end
      else if decide (role = "client"%string) then
        match rest with
        | n :: _ => match parse_i32 n with Some n => Starts RoleClient registry_dir None n | None => Exits end
        | [] => Exits
        end
      else Exits
  | _ => Exits
  end.

(** Clients are assigned to servers round-robin; ports follow the server's rank. *)
Definition server_of (mpi_rank num_servers : Z) : outcome Z :=
  if Z.eqb num_servers 0 then Panic "attempt to calculate the remainder with a divisor of zero"
  else Ok (Z.rem mpi_rank num_servers).
Definition server_port (server_index : Z) : Z := wrap16 (20000 + wrap16 server_index).

(** The client sleeps up to 120 times while its [i]-th look finds no socket file, and then
    looks once more. *)
Fixpoint wait_socket_file (fuel retries : nat) (exists_now : nat -> bool) : nat :=
  match fuel with
  | O => retries
  | S fuel => if negb (exists_now retries) && (retries <? 120) then wait_socket_file fuel (S retries) exists_now else retries
  end.
Definition socket_file_found (exists_now : nat -> bool) : bool := exists_now (S (wait_socket_file 121 0 exists_now)).

(** ** Headers *)

Record ReadRequestHeader : Type := mkRequest { offset : Z; hlength : Z; request_id : Z }.
Record ReadResponseHeader : Type := mkResponse { rsp_id : Z; bytes_read : Z; status : Z; rsp_padding : Z }.

Definition request_bytes (h : ReadRequestHeader) : list Z :=
  le_bytes 8 (offset h) ++ le_bytes 8 (hlength h) ++ le_bytes 8 (request_id h).
Definition response_bytes (h : ReadResponseHeader) : list Z :=
  le_bytes 8 (rsp_id h) ++ le_bytes 8 (bytes_read h) ++ le_bytes 4 (status h) ++ le_bytes 4 (rsp_padding h).

(** [u64::from_le_bytes(header[i..i + 8].try_into().unwrap())]. *)
Definition u64_at (i : nat) (header : list Z) : outcome Z :=
  if i + 8 <=? length header then Ok (of_le_bytes (slice i 8 header)) else Panic "range end index out of range for slice".

Definition parse_request (header : list Z) : outcome ReadRequestHeader :=
  off ← u64_at 0 header; len ← u64_at 8 header; id ← u64_at 16 header; mret (mkRequest off len id).

(** ** Client and server *)

Record ReadState : Type := mkRead { total_received : Z; recv_buffer : list Z }.

Section bench.
Context {F : Type} `{Files F} (data_size num_transfers window_size : nat).
(** What is in a buffer of the pool when it is acquired, and the call of [async_ucx] that
    copies the data of a message. *)
Context (stale : list Z -> list Z) (recv_data_single : list Z -> list Z -> option (list Z)).

Definition pattern (i : nat) : Z := Z.land (Z.of_nat i) 255.
Definition block (i : nat) : list Z := replicate data_size (pattern i).

(** The server writes the initial data, *)
Fixpoint fill_file (n i : nat) (f : F) : option F :=
  match n with
  | O => Some f
  | S n => f ← write_fixed f (i * data_size) (len_u32 (block i)) (block i); fill_file n (S i) f
  end.
Definition server_setup : option F := fill_file num_transfers 0 (created (num_transfers * data_size)).

(** and answers a request from the file. *)
Definition read_serve (header : list Z) (f : F) : option (F * (ReadResponseHeader * list Z)) :=
  match parse_request header with
  | Ok h =>
      buffer ← read_fixed f (Z.to_nat (offset h)) (len_u32 (stale header)) (stale header);
      if Z.to_nat (hlength h) <=? length buffer then
        Some (f, (mkResponse (request_id h) (hlength h) 0 0, take (Z.to_nat (hlength h)) buffer))
      else None
  | Panic _ => None
  end.
Definition read_reply (header : list Z) (o : ReadResponseHeader * list Z) : list Z * list Z := (response_bytes o.1, o.2).

Definition read_request (i : nat) : list Z :=
  request_bytes (mkRequest (Z.of_nat (i * data_size)) (Z.of_nat data_size) (Z.of_nat i)).

(** The client takes the data and counts it. *)
Definition take_response (r : list Z * list Z) (st : ReadState) : option ReadState :=
  buf ← recv_data_single r.2 (recv_buffer st);
  Some (mkRead (wrap64 (total_received st + Z.of_nat data_size)) buf).

(** One client with one server, which takes one request at a time. *)
Abbreviation ReadWorld := (WinWorld (Req := list Z) (Resp := list Z * list Z) (Out := ReadResponseHeader * list Z) (F := F) (St := ReadState)).
Definition read_step : ReadWorld -> list (list Z * list Z) -> ReadWorld -> Prop :=
  win_step num_transfers window_size num_transfers 1 false read_request take_response read_serve read_reply.
Definition read_run : ReadWorld -> nat -> list (list Z * list Z) -> ReadWorld -> Prop :=
  win_run num_transfers window_size num_transfers 1 false read_request take_response read_serve read_reply.
Definition read_start (f : F) : ReadWorld := win_start (mkRead 0 (replicate data_size 0%Z)) f.
End bench.

(** ** Statistics *)

Definition index (l : list Z) (i : nat) : outcome Z := expect "index out of bounds" (l !! i).

Definition percentiles (times : list Z) : outcome (Z * Z * Z) :=
  p50 ← index times (length times / 2);
  p95 ← index times (length times * 95 / 100);
  p99 ← index times (length times * 99 / 100);
  mret (p50, p95, p99).

(** The sum of [u64]s, and the mean of a list that is not empty. *)
Definition sum_u64 (l : list Z) : Z := foldr (fun z s => wrap64 (z + s)) 0%Z l.
Definition average (l : list Z) : outcome Z :=
  match l with [] => Panic "attempt to divide by zero" | _ => Ok (sum_u64 l / Z.of_nat (length l))%Z end.

Definition sort_times (l : list Z) : list Z := merge_sort Z.le l.

(** The summary of the server, and that of the client, which looks whether there are any. *)
Definition server_summary (request_times : list Z) : outcome (Z * (Z * Z * Z)) :=
  let times := sort_times request_times in avg ← average times; ps ← percentiles times; mret (avg, ps).
Definition client_summary (request_times : list Z) : outcome (Z * (Z * Z * Z)) :=
  match request_times with [] => mret (0, (0, 0, 0))%Z | _ => server_summary request_times end.

(** ** Theorems *)

Definition u64_ok (z : Z) : Prop := (0 <= z < 2 ^ 64)%Z.

(** A request header survives the network. *)
Lemma request_roundtrip h : u64_ok (offset h) -> u64_ok (hlength h) -> u64_ok (request_id h) ->
  parse_request (request_bytes h) = Ok h /\ length (request_bytes h) = 24.
Proof.
  intros Ho Hl Hi. assert (Hlen : length (request_bytes h) = 24) by (unfold request_bytes; by rewrite !length_app, !le_bytes_length).
  split; [|done]. unfold parse_request, u64_at. rewrite Hlen. cbn [Nat.add Nat.leb mbind outcome_bind mret outcome_ret].
  assert (H0 : slice 0 8 (request_bytes h) = le_bytes 8 (offset h)) by done.
  assert (H1 : slice 8 8 (request_bytes h) = le_bytes 8 (hlength h)) by done.
  assert (H2 : slice 16 8 (request_bytes h) = le_bytes 8 (request_id h)) by done.
  rewrite H0, H1, H2, !of_le_bytes_le_bytes. rewrite !Z.mod_small by assumption. by destruct h.
Qed.

(** A socket file that stays once it is there is found when it is there at the last of
    the 122 looks. *)
Lemma wait_socket_file_spec exists_now (stays : forall a b, a <= b -> exists_now a = true -> exists_now b = true) :
  forall fuel retries, retries + fuel = 121 -> 1 <= fuel ->
  exists_now (S (wait_socket_file fuel retries exists_now)) = exists_now 121.
Proof.
  induction fuel as [|fuel IH]; intros retries Hr Hf; [lia|]. cbn [wait_socket_file].
  destruct (exists_now retries) eqn:He; cbn [negb andb].
  - rewrite (stays retries (S retries)), (stays retries 121); [done|lia|done|lia|done].
  - destruct (Nat.ltb_spec retries 120); [apply IH; lia|]. by replace (S retries) with 121 by lia.
Qed.

Lemma socket_file_found_spec exists_now : (forall a b, a <= b -> exists_now a = true -> exists_now b = true) ->
  socket_file_found exists_now = exists_now 121.
Proof. intros Hs. apply wait_socket_file_spec; [done|lia|lia]. Qed.

Section proofs.
Context {F : Type} `{Files F} (data_size num_transfers window_size : nat).
Context (stale : list Z -> list Z) (stale_length : forall r, length (stale r) = data_size).
Context (recv_data_single : list Z -> list Z -> option (list Z)).
Context (recv_exact : forall data buf, length data = length buf -> recv_data_single data buf = Some data).
Context (Htotal : (Z.of_nat (num_transfers * data_size) < 2 ^ 64)%Z) (HN : (Z.of_nat num_transfers < 2 ^ 64)%Z).
Context (Hds : (Z.of_nat data_size < 2 ^ 32)%Z).

Lemma fill_file_ok n : forall i (f : F), (i + n) * data_size <= fsize f ->
  exists f', fill_file data_size n i f = Some f' /\ fsize f' = fsize f /\
    (forall j, i <= j < i + n -> pread f' (j * data_size) data_size = Some (block data_size j)) /\
    forall o l, o + l <= i * data_size -> o + l <= fsize f -> pread f' o l = pread f o l.
Proof.
  induction n as [|n IH]; intros i f Hsz; cbn [fill_file]; [exists f; split; [done|]; split; [done|]; split; [lia|done]|].
  assert (Hlen : length (block data_size i) = data_size) by apply length_replicate.
  destruct (pwrite_total f (i * data_size) (block data_size i)) as (f1 & Hw & Hs1 & Hr1 & Ho1); [lia|].
  unfold write_fixed. rewrite len_u32_small, firstn_all by (by rewrite Hlen). rewrite Hw. cbn [mbind option_bind]. destruct (IH (S i) f1) as (f2 & Hf & Hs2 & Hb2 & Ho2); [lia|].
  exists f2. split; [done|]. split; [congruence|]. rewrite Hlen in Hr1. split.
  - intros j Hj. destruct (decide (j = i)) as [->|Hne]; [|apply Hb2; lia]. rewrite <- Hr1. apply Ho2; lia.
  - intros o l Hol Hl. rewrite Ho2 by lia. apply Ho1; [by left|done].
Qed.

(** The file as the server prepared it. *)
Definition prepared (f : F) : Prop :=
  forall i, i < num_transfers -> pread f (i * data_size) data_size = Some (block data_size i).

Lemma server_setup_ok : exists f, server_setup data_size num_transfers = Some f /\ prepared f.
Proof.
  destruct (fill_file_ok num_transfers 0 (created (num_transfers * data_size))) as (f & Hf & _ & Hb & _).
  { rewrite created_size. lia. }
  exists f. split; [done|]. intros i Hi. apply Hb. lia.
Qed.

(** The response to request [i]. *)
Definition read_response (i : nat) : list Z * list Z :=
  (response_bytes (mkResponse (Z.of_nat i) (Z.of_nat data_size) 0 0), block data_size i).

(** The client after [n] responses. *)
Definition received (n : nat) (st : ReadState) : Prop :=
  total_received st = Z.of_nat (n * data_size) /\ length (recv_buffer st) = data_size /\
  (0 < n -> exists i, i < num_transfers /\ recv_buffer st = block data_size i).

Lemma read_workload : Workload num_transfers (read_request data_size) (take_response data_size recv_data_single)
  (read_serve stale) read_reply read_response (fun _ => prepared) received.
Proof.
  split.
  - intros i D f Hi _ Hf. exists f. unfold read_serve, read_request.
    destruct (request_roundtrip (mkRequest (Z.of_nat (i * data_size)) (Z.of_nat data_size) (Z.of_nat i))) as [Hp _];
      [unfold u64_ok; cbn; nia..|]. rewrite Hp. cbn [offset hlength request_id]. rewrite !Nat2Z.id.
    unfold read_fixed. rewrite len_u32_small, stale_length, (Hf i Hi) by (by rewrite stale_length). cbn [mbind option_bind]. rewrite drop_ge by (by rewrite stale_length; unfold block; rewrite length_replicate).
    rewrite app_nil_r. assert (Hb : length (block data_size i) = data_size) by apply length_replicate.
    rewrite Hb, Nat.leb_refl. eexists. split; [done|]. split; [done|]. unfold read_reply, read_response. cbn.
    by rewrite take_ge by (by rewrite Hb).
  - intros i n st Hi Hn (Ht & Hl & _). unfold take_response. rewrite recv_exact.
    + cbn. eexists. split; [done|]. unfold received. cbn [total_received recv_buffer]. rewrite Ht. split.
      * unfold wrap64. rewrite Z.mod_small by nia. lia.
      * split; [apply length_replicate|]. intros _. by exists i.
    + rewrite Hl. apply length_replicate.
Qed.

(** C5. The READ benchmark ends and every byte is right.  With a window of at least one request, whatever
    order messages, client and server take their turns in: every run of one client with
    its server takes at most six steps for each request, and when nothing can go on both
    have finished, each request was answered once, with [data_size] bytes of the pattern the server
    wrote at its offset and with its id, the client has counted all bytes, and the
    network is empty.  At no time are more than [window_size] requests unanswered. *)
Theorem read_benchmark_correct : 1 <= window_size ->
  exists f : F, server_setup data_size num_transfers = Some f /\
  forall n got w, read_run data_size num_transfers window_size stale recv_data_single (read_start data_size f) n got w ->
    n <= 6 * num_transfers /\
    length (requests w) + length (responses w) <= inflight (wclient w) <= window_size /\
    ((forall o w', ~ read_step data_size num_transfers window_size stale recv_data_single w o w') ->
      client_wants num_transfers window_size (wclient w) = ClientDone /\
      server_wants num_transfers 1 (wserver w) = ServerDone /\ requests w = [] /\ responses w = [] /\
      got ≡ₚ map read_response (seq 0 num_transfers) /\
      total_received (wstate w) = Z.of_nat (num_transfers * data_size)).
Proof.
  intros Hw. destruct server_setup_ok as (f & Hf & Hp). exists f. split; [done|]. intros n got w Hr.
  assert (H0 : received 0 (mkRead 0 (replicate data_size 0%Z))) by (split; [done|split; [apply length_replicate|lia]]).
  assert (Hout := window_outstanding _ _ _ _ _ _ _ _ _ _ _ _ read_workload _ _ Hp H0 _ _ _ Hr).
  destruct (window_runs _ _ _ _ _ _ _ _ _ _ _ _ read_workload _ _ Hw (le_n 1) (le_n _) Hp H0 _ _ _ Hr) as [Hn Hend].
  split; [done|]. split; [done|]. intros Hb. destruct (Hend Hb) as [[A1 _] [A2 A3] A4 _ (A6 & _) A7].
  rewrite Nat.ltb_irrefl in A7. done.
Qed.
End proofs.

(** The last percentiles are elements, in order, and the mean lies between the bounds of
    the elements. *)
Lemma average_between lo hi l : Forall (fun z => lo <= z <= hi)%Z l -> (0 <= lo)%Z -> (Z.of_nat (length l) * hi < 2 ^ 64)%Z ->
  (Z.of_nat (length l) * lo <= sum_u64 l <= Z.of_nat (length l) * hi)%Z.
Proof.
  intros Hl Hlo. induction Hl as [|z l Hz _ IH]; cbn [sum_u64 foldr length]; [lia|]. fold (sum_u64 l). intros Hhi.
  specialize (IH ltac:(nia)). unfold wrap64. rewrite Z.mod_small by nia. nia.
Qed.

Lemma index_ok l i : i < length l -> exists z, index l i = Ok z /\ l !! i = Some z.
Proof. intros Hi. apply lookup_lt_is_Some_2 in Hi as [z Hz]. exists z. unfold index. by rewrite Hz. Qed.

Lemma sorted_lookup l i j x y : Sorted Z.le l -> i <= j -> l !! i = Some x -> l !! j = Some y -> (x <= y)%Z.
Proof.
  intros Hs Hij Hx Hy. apply Sorted_StronglySorted in Hs; [|by intros ? ? ?; apply Z.le_trans].
  destruct (decide (i = j)) as [->|Hne]; [rewrite Hx in Hy; injection Hy as <-; lia|].
  rewrite <- (take_drop j l) in Hs. apply (StronglySorted_app_1_elem_of _ _ _ _ _ Hs).
  - apply list_elem_of_lookup. exists i. by rewrite lookup_take_lt by lia.
  - apply list_elem_of_lookup. exists 0. by rewrite lookup_drop, Nat.add_0_r.
Qed.

(** The statistics.  The summary of the server panics exactly when no request was timed
    (that of the client then reports zeros); otherwise the three percentiles are among
    the times, in order, and the mean lies within any bounds of the times. *)
Theorem summary_total times lo hi : Forall (fun z => lo <= z <= hi)%Z times -> (0 <= lo)%Z ->
  (Z.of_nat (length times) * hi < 2 ^ 64)%Z ->
  match times with
  | [] => server_summary times = Panic "attempt to divide by zero" /\ client_summary times = Ok (0, (0, 0, 0))%Z
  | _ => exists avg p50 p95 p99, server_summary times = Ok (avg, (p50, p95, p99)) /\ client_summary times = Ok (avg, (p50, p95, p99)) /\
      p50 ∈ times /\ p95 ∈ times /\ p99 ∈ times /\ (p50 <= p95 <= p99)%Z /\ (lo <= avg <= hi)%Z
  end.
Proof.
  intros Hb Hlo Hhi. destruct times as [|t ts] eqn:Ht; [done|]. rewrite <- Ht in *. assert (Hne : times <> []) by by rewrite Ht.
  assert (Hc : client_summary times = server_summary times) by by rewrite Ht.
  set (l := sort_times times).
  assert (Hp : l ≡ₚ times) by apply merge_sort_Permutation. assert (Hs : Sorted Z.le l) by apply (Sorted_merge_sort Z.le).
  assert (Hl : length l = length times) by by rewrite Hp. assert (Hpos : 0 < length times) by by destruct times; [|cbn; lia].
  assert (Ha : average l = Ok (sum_u64 l / Z.of_nat (length l))%Z) by by destruct l; [cbn in Hl; lia|].
  destruct (index_ok l (length l / 2)) as (p50 & E50 & L50); [rewrite Hl; apply Nat.Div0.div_lt_upper_bound; lia|].
  destruct (index_ok l (length l * 95 / 100)) as (p95 & E95 & L95); [rewrite Hl; apply Nat.Div0.div_lt_upper_bound; lia|].
  destruct (index_ok l (length l * 99 / 100)) as (p99 & E99 & L99); [rewrite Hl; apply Nat.Div0.div_lt_upper_bound; lia|].
  exists (sum_u64 l / Z.of_nat (length l))%Z, p50, p95, p99. rewrite Hc.
  assert (Hss : server_summary times = Ok (sum_u64 l / Z.of_nat (length l), (p50, p95, p99))%Z).
  { unfold server_summary, percentiles. fold l. rewrite Ha. cbn [mbind outcome_bind]. by rewrite E50, E95, E99. }
  split; [done|]. split; [done|]. rewrite <- !Hp. do 3 (split; [by eapply list_elem_of_lookup_2|]).
  assert (H1 : length l / 2 <= length l * 95 / 100).
  { apply Nat.div_le_lower_bound; [lia|]. assert (Hd := Nat.div_mod_eq (length l) 2). nia. }
  assert (H2 : length l * 95 / 100 <= length l * 99 / 100) by (apply Nat.Div0.div_le_mono; lia).
  split; [split; [apply (sorted_lookup l _ _ _ _ Hs H1)|apply (sorted_lookup l _ _ _ _ Hs H2)]; done|].
  rewrite <- Hl in Hhi. rewrite <- Hp in Hb. destruct (average_between lo hi l Hb Hlo Hhi) as [HL HU]. split.
  - apply Z.div_le_lower_bound; lia.
  - apply Z.div_le_upper_bound; lia.
Qed.

(** ** Witnesses *)

#[export] Instance list_files : Files (list Z).
Proof.
  refine {| fsize := length; pread f off len := Some (slice off len f);
    pwrite f off bs := if off + length bs <=? length f then Some (splice off bs f) else None;
    created n := replicate n 0%Z |}.
  - intros n. apply length_replicate.
  - intros f off len Hl. eexists. split; [done|]. by apply slice_length.
  - intros f off bs Hl. rewrite (proj2 (Nat.leb_le _ _) Hl). eexists. split; [done|]. split; [by apply splice_length|].
    split; [f_equal; by apply slice_splice_eq|]. intros o l Ho _. f_equal. apply slice_splice_ne; [done|]. lia.
Defined.

Definition copy_message (data buf : list Z) : option (list Z) := if length data <=? length buf then Some data else None.

(** Three blocks of two bytes, two requests at a time: eighteen steps later the client has
    the three answers. *)
Example read_benchmark_runs :
  option_map (fun f => let (got, w) := win_drive 3 2 3 1 false (read_request 2) (take_response 2 copy_message)
      (read_serve (fun _ => [9; 9]%Z)) read_reply 18 (read_start 2 f) in
    (map (fun r => r.2) got, total_received (wstate w), client_wants 3 2 (wclient w), server_wants 3 1 (wserver w)))
    (server_setup (F := list Z) 2 3) =
  Some ([[0; 0]; [1; 1]; [2; 2]]%Z, 6%Z, ClientDone, ServerDone).
Proof. vm_compute. reflexivity. Qed.

Lemma read_benchmark_correct_witness : exists f : list Z, server_setup 2 3 = Some f /\
  forall n got w, read_run 2 3 2 (fun _ => [9; 9]%Z) copy_message (read_start 2 f) n got w -> n <= 18.
Proof.
  destruct (read_benchmark_correct (F := list Z) 2 3 2 (fun _ => [9; 9]%Z) (fun _ => eq_refl) copy_message) as (f & Hf & Hr).
  - intros data buf Hl. unfold copy_message. by rewrite Hl, Nat.leb_refl.
  - done.
  - done.
  - done.
  - lia.
  - exists f. split; [done|]. intros n got w Hw. apply (Hr n got w Hw).
Defined.

Lemma summary_total_witness : exists avg p50 p95 p99, server_summary [30; 10; 20]%Z = Ok (avg, (p50, p95, p99)) /\
  (p50 <= p95 <= p99)%Z /\ (10 <= avg <= 30)%Z.
Proof.
  destruct (summary_total [30; 10; 20]%Z 10 30) as (avg & p50 & p95 & p99 & Hs & _ & _ & _ & _ & Hp & Ha).
  - repeat constructor; lia.
  - lia.
  - by vm_compute.
  - exists avg, p50, p95, p99. done.
Defined.
