(* ===== verification/Exchange.v ===== *)
(** * Exchange: how client and server of the READ benchmark get to know each other
    ([examples/mpi_example/src/main.rs])

    After they are connected the two exchange the addresses of their workers over the
    endpoint's streams, each address behind its length.  The streams belong to the UCX
    library: what is sent arrives in order, and a receive waits for bytes to arrive and
    says how many it took.  Whether it may take fewer than there is room for is a
    parameter ([partial]); the program ignores the number, and is right if it may not. *)

From S2P Require Import Prelude.
Local Open Scope nat_scope.

(** ** Programs over a stream *)

(** [SRecv n k]: [k] gets the whole buffer of [n] bytes. *)
Inductive SProg : Type :=
| SSend (bytes : list Z) (k : SProg)
| SRecv (n : nat) (k : list Z -> SProg)
| SRet (their_address : list Z).

(** [addr_len.to_le_bytes()]. *)
Definition header (a : list Z) : list Z := le_bytes 4 (wrap32 (Z.of_nat (length a))).

(** [endpoint.stream_send(&addr_len.to_le_bytes())] and [endpoint.stream_send(our_addr_bytes)]. *)
Definition send_address (our_addr_bytes : list Z) (k : SProg) : SProg :=
  SSend (header our_addr_bytes) (SSend our_addr_bytes k).
Definition recv_address (k : list Z -> SProg) : SProg :=
  SRecv 4 (fun len_buf => SRecv (Z.to_nat (of_le_bytes len_buf)) k).

Definition client_exchange (addr : list Z) : SProg := send_address addr (recv_address SRet).
Definition server_exchange (addr : list Z) : SProg := recv_address (fun their => send_address addr (SRet their)).

(** ** The two ends *)

Record Duplex : Type := mkDuplex { client : SProg; server : SProg; to_server : list Z; to_client : list Z }.

(** What one end does with its outgoing and incoming bytes.  A receive takes [got] bytes;
    the rest of the buffer, which was not initialised, holds [junk]. *)
Inductive end_step (partial : bool) : SProg -> list Z -> list Z -> SProg -> list Z -> list Z -> Prop :=
| es_send bytes k out inc : end_step partial (SSend bytes k) out inc k (out ++ bytes) inc
| es_recv n k out inc : n <= length inc -> end_step partial (SRecv n k) out inc (k (take n inc)) out (drop n inc)
| es_part n k got junk out inc : partial = true -> 1 <= got -> got <= length inc -> got + length junk = n ->
    end_step partial (SRecv n k) out inc (k (take got inc ++ junk)) out (drop got inc).

Inductive duplex_step (partial : bool) : Duplex -> Duplex -> Prop :=
| ds_client c s ts tc c' ts' tc' : end_step partial c ts tc c' ts' tc' ->
    duplex_step partial (mkDuplex c s ts tc) (mkDuplex c' s ts' tc')
| ds_server c s ts tc s' ts' tc' : end_step partial s tc ts s' tc' ts' ->
    duplex_step partial (mkDuplex c s ts tc) (mkDuplex c s' ts' tc').

Inductive duplex_run (partial : bool) : nat -> Duplex -> Duplex -> Prop :=
| dr_refl d : duplex_run partial 0 d d
| dr_step n d d1 d' : duplex_step partial d d1 -> duplex_run partial n d1 d' -> duplex_run partial (S n) d d'.

Definition exchange_start (ca sa : list Z) : Duplex := mkDuplex (client_exchange ca) (server_exchange sa) [] [].

(** ** The states of an exchange *)

Section exchange.
Context (ca sa : list Z).
Context (Hca : (Z.of_nat (length ca) < 2 ^ 32)%Z) (Hsa : (Z.of_nat (length sa) < 2 ^ 32)%Z).

#[local] Arguments header : simpl never.
#[local] Arguments of_le_bytes : simpl never.
#[local] Arguments firstn : simpl never.
#[local] Arguments skipn : simpl never.

Lemma header_length a : length (header a) = 4.
Proof. apply le_bytes_length. Qed.

Lemma header_len a : (Z.of_nat (length a) < 2 ^ 32)%Z -> Z.to_nat (of_le_bytes (header a)) = length a.
Proof.
  intros Ha. unfold header, wrap32. rewrite of_le_bytes_le_bytes. rewrite Z.mod_mod by lia.
  rewrite Z.mod_small by lia. apply Nat2Z.id.
Qed.

(** The client after [i] of its four operations and the server after [j]. *)
Definition client_at (i : nat) : SProg :=
  match i with
  | 0 => client_exchange ca | 1 => SSend ca (recv_address SRet) | 2 => recv_address SRet
  | 3 => SRecv (length sa) SRet | _ => SRet sa
  end.
Definition server_at (j : nat) : SProg :=
  match j with
  | 0 => server_exchange sa | 1 => SRecv (length ca) (fun their => send_address sa (SRet their))
  | 2 => send_address sa (SRet ca) | 3 => SSend sa (SRet ca) | _ => SRet ca
  end.

(** The bytes under way from one that sent [s] of its two parts to one that received [r]. *)
Definition under_way (a : list Z) (s r : nat) : list Z :=
  match s, r with
  | 1, 0 => header a | S (S _), 0 => header a ++ a | S (S _), 1 => a | _, _ => []
  end.

Definition state_at (i j : nat) : Duplex :=
  mkDuplex (client_at i) (server_at j) (under_way ca i j) (under_way sa (j - 2) (i - 2)).

(** The states an exchange can be in: receives follow sends, and the client receives last. *)
Definition exchange_states : list (nat * nat) :=
  [(0, 0); (1, 0); (1, 1); (2, 0); (2, 1); (2, 2); (2, 3); (3, 3); (2, 4); (3, 4); (4, 4)].

Lemma recv_header a rest : take 4 (header a ++ rest) = header a /\ drop 4 (header a ++ rest) = rest.
Proof. rewrite <- (header_length a). by rewrite take_app_length, drop_app_length. Qed.

Lemma recv_header_last a : take 4 (header a) = header a /\ drop 4 (header a) = [].
Proof. assert (Hr := recv_header a []). by rewrite app_nil_r in Hr. Qed.

#[local] Ltac at_state :=
  repeat match goal with
  | H : (_, _) ∈ _ |- _ => apply elem_of_cons in H as [ [= -> ->]|H]
  | H : (_, _) ∈ [] |- _ => by apply elem_of_nil in H
  end.
#[local] Ltac received :=
  rewrite ?(proj1 (recv_header _ _)), ?(proj2 (recv_header _ _)), ?(proj1 (recv_header_last _)), ?(proj2 (recv_header_last _)),
    ?header_len, ?firstn_all, ?drop_all by done.

(** A receive that may not return early takes what it asks for. *)
Lemma recv_inv n k out inc p out' inc' : end_step false (SRecv n k) out inc p out' inc' ->
  n <= length inc /\ p = k (take n inc) /\ out' = out /\ inc' = drop n inc.
Proof. by inversion 1. Qed.
Lemma send_inv b bytes k out inc p out' inc' : end_step b (SSend bytes k) out inc p out' inc' ->
  p = k /\ out' = out ++ bytes /\ inc' = inc.
Proof. by inversion 1. Qed.
Lemma ret_inv b a out inc p out' inc' : ~ end_step b (SRet a) out inc p out' inc'.
Proof. by inversion 1. Qed.

Lemma client_moves i j p o n : 1 <= length sa -> (i, j) ∈ exchange_states ->
  end_step false (client_at i) (under_way ca i j) (under_way sa (j - 2) (i - 2)) p o n ->
  (S i, j) ∈ exchange_states /\ p = client_at (S i) /\ o = under_way ca (S i) j /\ n = under_way sa (j - 2) (S i - 2).
Proof.
  intros Hne Hin Hs. unfold exchange_states in Hin. at_state; cbn in Hs;
    first [apply recv_inv in Hs as (Hl & -> & -> & ->)|apply send_inv in Hs as (-> & -> & ->)|by apply ret_inv in Hs];
    cbn in *; try lia; (split; [by apply (bool_decide_unpack _); vm_compute|]); received; cbn; try done.
Qed.

Lemma server_moves i j p o n : 1 <= length ca -> (i, j) ∈ exchange_states ->
  end_step false (server_at j) (under_way sa (j - 2) (i - 2)) (under_way ca i j) p o n ->
  (i, S j) ∈ exchange_states /\ p = server_at (S j) /\ o = under_way sa (S j - 2) (i - 2) /\ n = under_way ca i (S j).
Proof.
  intros Hne Hin Hs. unfold exchange_states in Hin. at_state; cbn in Hs;
    first [apply recv_inv in Hs as (Hl & -> & -> & ->)|apply send_inv in Hs as (-> & -> & ->)|by apply ret_inv in Hs];
    cbn in *; try lia; (split; [by apply (bool_decide_unpack _); vm_compute|]); received; cbn; try done.
Qed.
Lemma exchange_step i j d : 1 <= length ca -> 1 <= length sa -> (i, j) ∈ exchange_states ->
  duplex_step false (state_at i j) d ->
  exists i' j', (i', j') ∈ exchange_states /\ d = state_at i' j' /\ i' + j' = S (i + j).
Proof.
  intros Hc Hs Hin Hd. inversion Hd as [c s ts tc c' ts' tc' Hend|c s ts tc s' ts' tc' Hend]; subst.
  - destruct (client_moves i j _ _ _ Hs Hin Hend) as (Hin' & -> & -> & ->). by exists (S i), j.
  - destruct (server_moves i j _ _ _ Hc Hin Hend) as (Hin' & -> & -> & ->). exists i, (S j). split_and!; [done..|lia].
Qed.

Lemma exchange_runs n i j d : 1 <= length ca -> 1 <= length sa -> (i, j) ∈ exchange_states ->
  duplex_run false n (state_at i j) d -> exists i' j', (i', j') ∈ exchange_states /\ d = state_at i' j' /\ i' + j' = n + (i + j).
Proof.
  intros Hc Hs Hin Hr. remember (state_at i j) as d0 eqn:He. revert i j He Hin.
  induction Hr as [d|n d d1 d' Hstep _ IH]; intros i j -> Hin; [by exists i, j|].
  destruct (exchange_step i j d1 Hc Hs Hin Hstep) as (i1 & j1 & Hin1 & -> & Hm).
  destruct (IH i1 j1 eq_refl Hin1) as (i' & j' & Hin' & -> & Hm'). exists i', j'. split_and!; [done..|lia].
Qed.

(** One end can always go on until both have returned. *)
Lemma exchange_goes_on i j : (i, j) ∈ exchange_states -> i + j < 8 -> exists d, duplex_step false (state_at i j) d.
Proof.
  unfold exchange_states. intros Hin Hlt. at_state; cbn in Hlt; try lia; unfold state_at; cbn;
    first [by eexists; apply ds_client, es_send|by eexists; apply ds_server, es_send
          |by eexists; apply ds_server, es_recv; rewrite ?length_app, ?header_length; lia
          |by eexists; apply ds_client, es_recv; rewrite ?length_app, ?header_length; lia].
Qed.

(** When a receive fills its buffer the exchange is right: whatever order the two take their
    turns in, a run has at most eight steps, and one that cannot go on has given each end
    the other's address, with nothing left in the streams. *)
Lemma exchange_completes n d : 1 <= length ca -> 1 <= length sa -> duplex_run false n (exchange_start ca sa) d ->
  n <= 8 /\ ((forall d', ~ duplex_step false d d') -> n = 8 /\ d = mkDuplex (SRet sa) (SRet ca) [] []).
Proof.
  intros Hc Hs Hr. assert (H0 : (0, 0) ∈ exchange_states) by by left.
  destruct (exchange_runs n 0 0 d Hc Hs H0 Hr) as (i & j & Hin & -> & Hn).
  assert (Hle : i + j <= 8) by (unfold exchange_states in Hin; at_state; lia). split; [lia|]. intros Hend.
  destruct (decide (i + j < 8)) as [Hlt|Hge]; [by destruct (exchange_goes_on i j Hin Hlt) as [d' Hd]; destruct (Hend d')|].
  split; [lia|]. unfold exchange_states in Hin. at_state; done || lia.
Qed.
End exchange.

(** When a receive may return early the number ignored matters: the server takes three of
    the four bytes of the length, what was in the fourth place makes it 16 MiB and more,
    and both wait for ever. *)
Example partial_receive_hangs : exists d, duplex_run true 3 (exchange_start [7; 8]%Z [9]%Z) d /\
  server d = SRecv (Z.to_nat (2 + 2 ^ 24)%Z) (fun their => send_address [9]%Z (SRet their)) /\ to_server d = [0; 7; 8]%Z.
Proof.
  eexists. split.
  - eapply dr_step; [apply ds_client, es_send|]. eapply dr_step; [apply ds_client, es_send|].
    eapply dr_step; [|apply dr_refl]. apply ds_server. apply (es_part true 4 _ 3 [1%Z]); [done|lia|cbn; lia|done].
  - split; [|done]. cbn [server]. f_equal.
Qed.

(** ** What [main] reports *)

(** [run_benchmark]: [body] is what [run_server] or [run_client] returned, as the task the
    runtime runs; [run_with_name] has no result, and the function ends with [Ok(())]. *)
Definition run_benchmark (set_up body : result unit string) : result unit string :=
  match set_up with
  | RErr e => RErr e
  | ROk _ => ROk tt
  end.

Inductive Report : Type := CompletedSuccessfully | BenchmarkFailed (e : string) | AllRanksFinished.
Definition report (mpi_rank : Z) (r : result unit string) : list Report :=
  match r with
  | ROk _ => if (mpi_rank =? 0)%Z then [CompletedSuccessfully; AllRanksFinished] else []
  | RErr e => BenchmarkFailed e :: (if (mpi_rank =? 0)%Z then [AllRanksFinished] else [])
  end.

(** A benchmark that failed is reported as one that succeeded. *)
Lemma failure_reported_as_success e : report 0 (run_benchmark (ROk tt) (RErr e)) = [CompletedSuccessfully; AllRanksFinished].
Proof. done. Qed.
