(* ===== verification/RemoteIo.v ===== *)
(** * RemoteIo: remote writes and bare messages ([examples/remoteio_example], [examples/ucx_example])

    Two more programs of the shape of [Window].  The client of the first sends blocks of
    data and the server spawns a task for each that writes it to a file, with a window of
    its own; the second only exchanges messages. *)

From S2P Require Import Prelude Window ReadBench.
Local Open Scope nat_scope.

(** ** Remote writes *)

Section remote.
Context {F : Type} `{Files F} (data_size num_transfers window : nat).
Context (stale : list Z * list Z -> list Z) (recv_data_single : list Z -> list Z -> option (list Z)).

Abbreviation Message := (list Z * list Z)%type.

Definition write_data : list Z := replicate data_size 106%Z.
Definition write_request (i : nat) : Message := (le_bytes 8 (Z.of_nat (i * data_size)), write_data).

(** [write_task]: a buffer of the pool, the data of the message, the file, the reply.  The
    error of the write is dropped by the loop that awaits the task.  [None] stands for a panic
    too, of [header[0..8]] and of the [unwrap] of the receive, which would end the server; the
    theorems below meet none. *)
Definition write_task (msg : Message) (f : F) : option (F * unit) :=
  match u64_at 0 msg.1 with
  | Ok offset =>
      buffer ← recv_data_single msg.2 (stale msg);
      f ← write_fixed f (Z.to_nat offset) (len_u32 buffer) buffer;
      Some (f, tt)
  | Panic _ => None
  end.
Definition write_reply (msg : Message) (o : unit) : Message := ([], []).

(** The client drops what it receives. *)
Definition drop_response (r : Message) (st : unit) : option unit := Some st.

Abbreviation WriteWorld := (WinWorld (Req := Message) (Resp := Message) (Out := unit) (F := F) (St := unit)).
Definition write_step : WriteWorld -> list Message -> WriteWorld -> Prop :=
  win_step num_transfers window num_transfers window true write_request drop_response write_task write_reply.
Definition write_run : WriteWorld -> nat -> list Message -> WriteWorld -> Prop :=
  win_run num_transfers window num_transfers window true write_request drop_response write_task write_reply.
Definition write_start : WriteWorld := win_start tt (created (num_transfers * data_size)).

Context (stale_length : forall m, length (stale m) = data_size).
Context (recv_exact : forall data buf, length data = length buf -> recv_data_single data buf = Some data).
Context (Htotal : (Z.of_nat (num_transfers * data_size) < 2 ^ 64)%Z) (Hds : (Z.of_nat data_size < 2 ^ 32)%Z).

(** The blocks of [D] are in the file. *)
Definition written (D : gset nat) (f : F) : Prop := fsize f = num_transfers * data_size /\
  forall i, i ∈ D -> i < num_transfers /\ pread f (i * data_size) data_size = Some write_data.

Lemma offset_read i : (Z.of_nat (i * data_size) < 2 ^ 64)%Z -> u64_at 0 (write_request i).1 = Ok (Z.of_nat (i * data_size)).
Proof.
  intros Hi. unfold u64_at, write_request. cbn [fst]. rewrite le_bytes_length. cbn [Nat.add Nat.leb]. f_equal.
  assert (Hs : slice 0 8 (le_bytes 8 (Z.of_nat (i * data_size))) = le_bytes 8 (Z.of_nat (i * data_size))) by done.
  rewrite Hs, of_le_bytes_le_bytes. apply Z.mod_small. split; [apply Nat2Z.is_nonneg|exact Hi].
Qed.

Lemma write_workload : Workload num_transfers write_request drop_response write_task write_reply
  (fun _ => ([], [])) written (fun _ _ => True).
Proof.
  split; [|by intros i n st _ _ _; exists st]. intros i D f Hi HiD [Hsz Hf]. unfold write_task.
  rewrite offset_read by nia. cbn [snd write_request]. assert (Hl : length write_data = data_size) by apply length_replicate.
  rewrite recv_exact by (by rewrite Hl, stale_length). cbn [mbind option_bind]. rewrite Nat2Z.id.
  destruct (pwrite_total f (i * data_size) write_data) as (f' & Hw & Hs & Hr & Ho); [rewrite Hl, Hsz; nia|].
  unfold write_fixed. rewrite len_u32_small, firstn_all by (by rewrite Hl). rewrite Hw. exists f', tt. split; [done|]. split; [|done]. split; [congruence|]. rewrite Hl in Hr, Ho.
  intros j [->%elem_of_singleton|Hj]%elem_of_union; [done|]. destruct (Hf j Hj) as [HjN Hb]. split; [done|].
  rewrite Ho; [done| |rewrite Hsz; nia]. assert (j <> i) by (by intros ->). nia.
Qed.

(** C33. Every remote write arrives.  With windows of at least one and any interleaving of
    client, server and write tasks and of the messages, each run takes at most six
    steps for each block, and when nothing can go on client and server have finished, every block of the
    file holds the data sent for it, and the client has one acknowledgement per block. *)
Theorem remote_writes_arrive : 1 <= window -> forall n got w, write_run write_start n got w ->
  n <= 6 * num_transfers /\
  ((forall o w', ~ write_step w o w') ->
    client_wants num_transfers window (wclient w) = ClientDone /\
    server_wants num_transfers window (wserver w) = ServerDone /\ requests w = [] /\ responses w = [] /\
    got = replicate num_transfers ([], []) /\
    forall i, i < num_transfers -> pread (wfiles w) (i * data_size) data_size = Some write_data).
Proof.
  intros Hw n got w Hr. assert (H0 : written ∅ (created (num_transfers * data_size))) by (split; [apply created_size|set_solver]).
  destruct (window_runs _ _ _ _ _ _ _ _ _ _ _ _ write_workload tt _ Hw Hw (le_n _) H0 I _ _ _ Hr) as [Hn Hend].
  split; [done|]. intros Hb. destruct (Hend Hb) as [[A1 _] [A2 A3] A4 [_ A5] _ A7]. rewrite Nat.ltb_irrefl in A7.
  do 4 (split; [done|]). split.
  - assert (Hlen : length got = num_transfers) by (rewrite A4; by rewrite length_map, length_seq).
    symmetry. apply replicate_as_Forall. split; [done|]. rewrite Forall_forall. intros r Hin. rewrite A4 in Hin.
    by apply list_elem_of_fmap in Hin as (i & -> & _).
  - intros i Hi. apply A5. apply elem_of_set_seq. lia.
Qed.
End remote.

(** A write that fails gets no reply, and the error is dropped: the server finishes and the
    client waits for ever. *)
Lemma failed_write_hangs {F} `{Files F} data_size stale recv_data_single (f : F) buffer :
  recv_data_single (write_data data_size) (stale (write_request data_size 0)) = Some buffer ->
  write_fixed f 0 (len_u32 buffer) buffer = None ->
  exists n got w, win_run 1 1 1 1 true (write_request data_size) drop_response (write_task stale recv_data_single) write_reply
      (win_start tt f) n got w /\
    server_wants 1 1 (wserver w) = ServerDone /\ client_wants 1 1 (wclient w) = WantResponse /\
    forall o w', ~ win_step 1 1 1 1 true (write_request data_size) drop_response (write_task stale recv_data_single) write_reply w o w'.
Proof.
  intros Hrecv Hfail. set (q := write_request data_size 0) in *.
  assert (Hs : write_task stale recv_data_single q f = None).
  { unfold write_task. unfold q at 1 2. rewrite offset_read by done. cbn [write_request snd]. rewrite Hrecv. cbn [mbind option_bind].
    change (Z.to_nat (Z.of_nat (0 * data_size))) with 0. by rewrite Hfail. } eexists _, _, (mkWin (mkClient 1 1 false) tt (mkServer 1 []) f [] []).
  split; [|split; [done|split; [done|]]].
  - eapply run_step; [eapply run_step; [eapply run_step; [eapply run_step; [apply run_start|]|]|]|].
    + by eapply client_sends.
    + by eapply (server_accepts _ _ _ _ _ _ _ _ _ _ _ _ _ [q] _ 0).
    + by eapply (job_fails _ _ _ _ _ _ _ _ _ _ _ (mkServer 1 [Arrived q]) _ _ _ 0).
    + by eapply (server_reaps _ _ _ _ _ _ _ _ _ _ _ (mkServer 1 [Lost]) _ _ _ 0).
  - intros o w' Hst. inversion Hst; subst; try done.
Qed.

(** ** Bare messages *)

Section messages.
Context (data_size : nat) (recv_data_single : list Z -> list Z -> option (list Z)).

(** [N] and [WINDOW] of the client; the server's loop is longer. *)
Definition ucx_N : nat := 2 ^ 15.
Definition ucx_WINDOW : nat := 2048.
Definition ucx_server_loop : nat := 2 ^ 20.

(** A header of 256 zeros with [DATA_SIZE] zeros; the server receives into one buffer and
    answers with a byte. *)
Definition ucx_message (i : nat) : list Z * list Z := (replicate 256 0%Z, replicate data_size 0%Z).
Definition ucx_serve (msg : list Z * list Z) (recv_buffer : list Z) : option (list Z * unit) :=
  recv_buffer ← recv_data_single msg.2 recv_buffer; Some (recv_buffer, tt).
Definition ucx_reply (msg : list Z * list Z) (o : unit) : list Z * list Z := ([0%Z], [0%Z]).

Abbreviation UcxWorld := (WinWorld (Req := list Z * list Z) (Resp := list Z * list Z) (Out := unit) (F := list Z) (St := unit)).
Definition ucx_step : UcxWorld -> list (list Z * list Z) -> UcxWorld -> Prop :=
  win_step ucx_N ucx_WINDOW ucx_server_loop 1 false ucx_message drop_response ucx_serve ucx_reply.
Definition ucx_run : UcxWorld -> nat -> list (list Z * list Z) -> UcxWorld -> Prop :=
  win_run ucx_N ucx_WINDOW ucx_server_loop 1 false ucx_message drop_response ucx_serve ucx_reply.
Definition ucx_start : UcxWorld := win_start tt (replicate data_size 0%Z).

Context (recv_exact : forall data buf, length data = length buf -> recv_data_single data buf = Some data).

Lemma ucx_workload : Workload ucx_N ucx_message drop_response ucx_serve ucx_reply
  (fun _ => ([0%Z], [0%Z])) (fun _ buf => length buf = data_size) (fun _ _ => True).
Proof.
  split; [|by intros i n st _ _ _; exists st]. intros i D buf _ _ Hb. unfold ucx_serve. cbn [snd ucx_message].
  rewrite recv_exact by (by rewrite length_replicate). cbn [mbind option_bind]. eexists _, tt. split; [done|].
  split; [apply length_replicate|done].
Qed.

(** The client finishes; the server, whose loop is thirty-two times as long, waits for
    the next message for ever. *)
Lemma ucx_server_waits n got w : ucx_run ucx_start n got w -> (forall o w', ~ ucx_step w o w') ->
  client_wants ucx_N ucx_WINDOW (wclient w) = ClientDone /\ got ≡ₚ map (fun _ => ([0%Z], [0%Z])) (seq 0 ucx_N) /\
  server_wants ucx_server_loop 1 (wserver w) = WantRequest /\ requests w = [].
Proof.
  intros Hr Hb. assert (Hlt : ucx_N < ucx_server_loop) by (apply Nat.pow_lt_mono_r; lia).
  assert (Hwi : 1 <= ucx_WINDOW) by (unfold ucx_WINDOW; lia).
  destruct (window_runs _ _ _ _ _ _ _ _ _ _ _ _ ucx_workload tt _ Hwi (le_n 1) (Nat.lt_le_incl _ _ Hlt)
    (length_replicate _ _) I _ _ _ Hr) as [_ Hend].
  destruct (Hend Hb) as [[A1 _] [A2 _] A4 _ _ A7]. rewrite (proj2 (Nat.ltb_lt _ _) Hlt) in A7. done.
Qed.
End messages.

(** ** Witness *)

(** Three blocks of two bytes with a window of two, and the file at the end. *)
Example remote_writes_run :
  let (got, w) := win_drive 3 2 3 2 true (write_request 2) drop_response (write_task (fun _ => [0; 0]%Z) copy_message)
    write_reply 18 (write_start (F := list Z) 2 3) in
  (length got, wfiles w, client_wants 3 2 (wclient w), server_wants 3 2 (wserver w)) =
  (3, replicate 6 106%Z, ClientDone, ServerDone).
Proof. vm_compute. reflexivity. Qed.

Lemma remote_writes_arrive_witness : exists n got (w : WinWorld),
  write_run (F := list Z) 2 3 2 (fun _ => [0; 0]%Z) copy_message (write_start 2 3) n got w /\ n <= 18 /\ wfiles w = replicate 6 106%Z.
Proof.
  destruct (win_drive_run 3 2 3 2 true (write_request 2) drop_response (write_task (fun _ => [0; 0]%Z) copy_message) write_reply
    18 _ _ _ _ (run_start _ _ _ _ _ _ _ _ _ (write_start (F := list Z) 2 3))) as [n Hr].
  eexists n, _, _. split; [exact Hr|]. split; [|by vm_compute].
  apply (remote_writes_arrive (F := list Z) 2 3 2 (fun _ => [0; 0]%Z) copy_message (fun _ => eq_refl)) in Hr.
  - apply Hr.
  - intros data buf Hl. unfold copy_message. by rewrite Hl, Nat.leb_refl.
  - done.
  - done.
  - lia.
Defined.
