(* ===== verification/BlockIo.v ===== *)
(** * BlockIo: a file written and read in blocks ([examples/uring_example])

    The benchmark keeps [IODEPTH] block operations in flight: it spawns a task for each and
    holds their handles in a [FuturesUnordered], which yields them as they finish.  A
    phase that writes is followed by one that reads; both are the same loop. *)

From S2P Require Import Prelude Window.
Local Open Scope nat_scope.

Definition BUFFER_SIZE : Z := 4 * 2 ^ 20.
Definition TOTAL_SIZE : Z := 16 * 2 ^ 30.
Definition IODEPTH : nat := 2.

(** [(next_block * BUFFER_SIZE) as u64], in [usize]. *)
Definition block_offset (next_block : nat) : Z := wrap64 (Z.of_nat next_block * BUFFER_SIZE).

Lemma block_offset_small total_blocks b : (Z.of_nat total_blocks * BUFFER_SIZE <= 2 ^ 64)%Z -> b < total_blocks ->
  block_offset b = (Z.of_nat b * BUFFER_SIZE)%Z.
Proof. intros Ht Hb. apply Z.mod_small. unfold BUFFER_SIZE in *. lia. Qed.

Section pump.
Context (total_blocks depth : nat).

(** A task that was spawned for a block: under way, or finished, with or without an error. *)
Inductive BlockTask : Type := InProgress (b : nat) | Finished (b : nat) (ok : bool).

(** The loop that fills the queue, the loop over results, and its body after a result. *)
Inductive Phase : Type := Filling | Draining | Refilling.

Record Pump : Type := mkPump { phase : Phase; next_block : nat; handles : list BlockTask }.

Inductive PumpWant : Type := WantSpawn (after : Phase) | WantResult | PumpDone.

Definition pump_wants (p : Pump) : PumpWant :=
  let drain := match handles p with [] => PumpDone | _ :: _ => WantResult end in
  match phase p with
  | Filling => if (next_block p <? total_blocks) && (length (handles p) <? depth) then WantSpawn Filling else drain
  | Draining => drain
  | Refilling => if next_block p <? total_blocks then WantSpawn Draining else drain
  end.

(** One step, with the blocks whose operation is carried out in it.  The operation of block
    [b] is the one at [block_offset b].  The body of the second loop ignores the result.  The
    buffer that [acquire_buffer] gives is left out: the pool has more than [IODEPTH] of them
    and an operation gives its own back, so the loop does not wait there. *)
Inductive pump_step : Pump -> list nat -> Pump -> Prop :=
| pump_spawns p after : pump_wants p = WantSpawn after ->
    pump_step p [] (mkPump after (S (next_block p)) (handles p ++ [InProgress (next_block p)]))
| task_finishes p k b ok : handles p !! k = Some (InProgress b) ->
    pump_step p [b] (mkPump (phase p) (next_block p) (<[k := Finished b ok]> (handles p)))
| pump_takes p k b ok : pump_wants p = WantResult -> handles p !! k = Some (Finished b ok) ->
    pump_step p [] (mkPump Refilling (next_block p) (delete k (handles p))).

Definition pump_start : Pump := mkPump Filling 0 [].

Inductive pump_run : nat -> list nat -> Pump -> Prop :=
| pump_run_start : pump_run 0 [] pump_start
| pump_run_step n did p o p' : pump_run n did p -> pump_step p o p' -> pump_run (S n) (did ++ o) p'.

(** ** The invariant *)

Definition under_way (t : BlockTask) : option nat := match t with InProgress b => Some b | Finished _ _ => None end.
Definition task_weight (t : BlockTask) : nat := match t with InProgress _ => 2 | Finished _ _ => 1 end.

(** Every block below [next_block] was carried out or is under way, once; the queue is
    never longer than [depth]; [3] steps belong to each block. *)
Record PumpInv (n : nat) (did : list nat) (p : Pump) : Prop := {
  pu_once : did ++ omap under_way (handles p) ≡ₚ seq 0 (next_block p);
  pu_next : next_block p <= total_blocks;
  pu_depth : length (handles p) <= depth;
  pu_room : phase p = Refilling -> length (handles p) < depth;
  pu_steps : n + 3 * (total_blocks - next_block p) + sum_list_with task_weight (handles p) = 3 * total_blocks;
  pu_drained : phase p <> Filling -> next_block p < total_blocks -> 0 < length (handles p) \/ phase p = Refilling
}.

Lemma pump_wants_spawn p after : pump_wants p = WantSpawn after ->
  next_block p < total_blocks /\ (length (handles p) < depth \/ phase p = Refilling) /\ after <> Refilling.
Proof.
  unfold pump_wants. destruct (phase p).
  - destruct (Nat.ltb_spec (next_block p) total_blocks), (Nat.ltb_spec (length (handles p)) depth); cbn; [|by destruct (handles p)..].
    intros [= <-]. auto.
  - by destruct (handles p).
  - destruct (Nat.ltb_spec (next_block p) total_blocks); [|by destruct (handles p)]. intros [= <-]. auto.
Qed.

Lemma pump_step_inv n did p o p' : PumpInv n did p -> pump_step p o p' -> PumpInv (S n) (did ++ o) p'.
Proof.
  intros [P1 P2 P3 P4 P5 P6] Hs. destruct Hs as [p after Hw|p k b ok Hk|p k b ok Hw Hk]; rewrite ?app_nil_r.
  - destruct (pump_wants_spawn p after Hw) as (Hn & Hd & Ha).
    assert (Hl : length (handles p) < depth) by (destruct Hd; auto).
    split; cbn [handles next_block phase]; rewrite ?length_app, ?sum_list_with_app; cbn [length sum_list_with task_weight];
      try lia; try done.
    rewrite omap_app, seq_S, <- P1. cbn. by rewrite app_assoc.
  - assert (Hp := omap_delete_perm under_way _ _ _ Hk). assert (Hp' := omap_insert_perm under_way _ _ _ (Finished b ok) Hk).
    assert (Hwt := weight_insert task_weight _ _ _ (Finished b ok) Hk). cbn in Hp, Hp', Hwt.
    split; cbn [handles next_block phase]; rewrite ?length_insert; try lia; try done.
    rewrite <- P1, Hp', Hp, <- app_assoc. done.
  - assert (Hp := omap_delete_perm under_way _ _ _ Hk). assert (Hwt := weight_delete task_weight _ _ _ Hk). cbn in Hp, Hwt.
    assert (Hl := length_delete (handles p) k ltac:(by rewrite Hk)). assert (Hlt := lookup_lt_Some _ _ _ Hk).
    split; cbn [handles next_block phase]; try lia; [by rewrite <- Hp|auto].
Qed.

Lemma pump_run_inv n did p : pump_run n did p -> PumpInv n did p.
Proof.
  induction 1 as [|n did p o p' _ IH Hs]; [|by eapply pump_step_inv].
  split; cbn; try lia; done.
Qed.

Lemma pump_offsets did : did ≡ₚ seq 0 total_blocks ->
  did ≡ₚ seq 0 total_blocks /\ ((Z.of_nat total_blocks * BUFFER_SIZE <= 2 ^ 64)%Z ->
    map block_offset did ≡ₚ map (fun b => Z.of_nat b * BUFFER_SIZE)%Z (seq 0 total_blocks)).
Proof.
  intros Hd. split; [done|]. intros Ht. rewrite Hd. apply reflexive_eq, map_ext_in. intros b Hb%in_seq.
  apply (block_offset_small total_blocks); [done|lia].
Qed.

(** C34. Every block is written, and read, once.  With at least one operation in flight,
    whatever order the tasks finish in: a run takes at most three steps for each block,
    there are never more than [depth] operations in flight, and when nothing can go on
    the loop has ended and each block was carried out exactly once, at its own multiple of
    the block size when the file has at most [2 ^ 64] bytes. *)
Theorem every_block_once : 1 <= depth -> forall n did p, pump_run n did p ->
  n <= 3 * total_blocks /\ length (handles p) <= depth /\ NoDup did /\
  ((forall o p', ~ pump_step p o p') -> pump_wants p = PumpDone /\ did ≡ₚ seq 0 total_blocks /\
    ((Z.of_nat total_blocks * BUFFER_SIZE <= 2 ^ 64)%Z ->
      map block_offset did ≡ₚ map (fun b => Z.of_nat b * BUFFER_SIZE)%Z (seq 0 total_blocks))).
Proof.
  intros Hd n did p Hr. apply pump_run_inv in Hr as [P1 P2 P3 P4 P5 P6].
  split; [lia|]. split; [done|]. split.
  { assert (Hnd : NoDup (did ++ omap under_way (handles p))) by (rewrite P1; apply NoDup_seq). by apply NoDup_app in Hnd as [? _]. }
  intros Hb.
  assert (Hall : omap under_way (handles p) = []).
  { destruct (omap under_way (handles p)) as [|b l] eqn:Ho; [done|exfalso].
    assert (Hin : b ∈ omap under_way (handles p)) by (rewrite Ho; by left). apply list_elem_of_omap in Hin as (t & Ht & Hb').
    apply list_elem_of_lookup in Ht as [k Hk]. destruct t as [b'|]; [|done]. eapply Hb. by apply (task_finishes p k b' true). }
  assert (Hnil : pump_wants p = WantResult -> False).
  { intros Hw. destruct (handles p) as [|t l] eqn:Hh.
    - unfold pump_wants in Hw. rewrite Hh in Hw. destruct (phase p); [by destruct (_ && _)|done|by destruct (_ <? _)].
    - destruct t as [b|b ok]; [done|]. eapply Hb. eapply (pump_takes p 0 b ok); [done|by rewrite Hh]. }
  destruct (pump_wants p) as [after| |] eqn:Hw; [|by destruct Hnil|].
  { exfalso. eapply Hb. by eapply pump_spawns. }
  split; [done|]. apply (pump_offsets did). rewrite Hall, app_nil_r in P1. rewrite P1. f_equiv.
  unfold pump_wants in Hw. destruct (handles p) as [|t l] eqn:Hh.
  - destruct (phase p) eqn:Hph.
    + destruct (Nat.ltb_spec (next_block p) total_blocks); [|lia]. cbn [andb length] in Hw.
      destruct (Nat.ltb_spec 0 depth); [done|lia].
    + destruct (decide (next_block p < total_blocks)) as [Hlt|]; [|lia].
      destruct (P6 ltac:(done) Hlt) as [?|?]; [cbn in *; lia|done].
    + destruct (Nat.ltb_spec (next_block p) total_blocks); [done|lia].
  - destruct (phase p); [by destruct (_ && _)|done|by destruct (_ <? _)].
Qed.
End pump.

(** The benchmark has 4096 blocks, two at a time. *)
Example total_blocks_eq : (TOTAL_SIZE / BUFFER_SIZE)%Z = 4096%Z.
Proof. reflexivity. Qed.
Example total_blocks_fit : (4096 * BUFFER_SIZE <= 2 ^ 64)%Z.
Proof. done. Qed.

Lemma every_block_once_witness : exists did p, pump_run 2 IODEPTH 6 did p /\ pump_wants 2 IODEPTH p = PumpDone /\ NoDup did.
Proof.
  pose proof (pump_run_start 2 IODEPTH) as R0.
  pose proof (pump_run_step _ _ _ _ _ _ _ R0 (pump_spawns 2 IODEPTH pump_start Filling eq_refl)) as R1. cbn in R1.
  pose proof (pump_run_step _ _ _ _ _ _ _ R1 (pump_spawns 2 IODEPTH (mkPump Filling 1 [InProgress 0]) Filling eq_refl)) as R2. cbn in R2.
  pose proof (pump_run_step _ _ _ _ _ _ _ R2 (task_finishes 2 IODEPTH (mkPump Filling 2 [InProgress 0; InProgress 1]) 1 1 true eq_refl)) as R3. cbn in R3.
  pose proof (pump_run_step _ _ _ _ _ _ _ R3 (pump_takes 2 IODEPTH (mkPump Filling 2 [InProgress 0; Finished 1 true]) 1 1 true eq_refl eq_refl)) as R4. cbn in R4.
  pose proof (pump_run_step _ _ _ _ _ _ _ R4 (task_finishes 2 IODEPTH (mkPump Refilling 2 [InProgress 0]) 0 0 false eq_refl)) as R5. cbn in R5.
  pose proof (pump_run_step _ _ _ _ _ _ _ R5 (pump_takes 2 IODEPTH (mkPump Refilling 2 [Finished 0 false]) 0 0 false eq_refl eq_refl)) as R6. cbn in R6.
  eexists _, _. split; [exact R6|]. split; [done|].
  apply (every_block_once 2 IODEPTH ltac:(unfold IODEPTH; lia) _ _ _ R6).
Defined.
