(* ===== verification/CollDemo.v ===== *)
(** * CollDemo: the demonstrations of the collectives
    ([pluvio_collective/examples/coll_ucx_example.rs], [coll_ucx_pipelined.rs], [coll_adaptive.rs])

    Each rank contributes a constant vector of its rank plus one and compares the result
    with [size * (size + 1) / 2].  The numbers are small integers, which the floats of
    the programs represent and add exactly; that is what is asked of the element type. *)

From S2P Require Import Prelude CollBase Spmd Ring RecDouble Bruck Bcast Pool PipeRing Adaptive.
Local Open Scope nat_scope.

Section demo.
Context {T : Type} `{Op T} (T_default : T).
(** [r as f32] for an integer up to [exact], and the sum of two of them. *)
Context (of_nat : nat -> T) (exact : nat).
Context (exact_add : forall a b, a + b <= exact -> op_apply (of_nat a) (of_nat b) = of_nat (a + b)).

(** [vec![rank as f32 + 1.0; len]], and what is expected of the allreduce. *)
Definition contribution (len rank : nat) : list T := replicate len (of_nat (rank + 1)).
Definition expected (size : nat) : nat := size * (size + 1) / 2.

(** ** Sums around the ring *)

Fixpoint sum_from (n c d : nat) : nat :=
  match d with O => c mod n + 1 | S d => (c + S d) mod n + 1 + sum_from n c d end.

Lemma sum_from_list n c d : sum_from n c d = sum_list_with (fun j => (c + j) mod n + 1) (seq 0 (S d)).
Proof.
  induction d as [|d IH]; cbn [sum_from]; [cbn; by rewrite Nat.add_0_r, !Nat.add_0_r|].
  rewrite seq_S, sum_list_with_app, <- IH. cbn. lia.
Qed.

Lemma rotation n c : c < n -> map (fun j => (c + j) mod n) (seq 0 n) ≡ₚ seq 0 n.
Proof.
  intros Hc. assert (Hs : seq 0 n = seq 0 (n - c) ++ seq (0 + (n - c)) c) by (rewrite <- seq_app; f_equal; lia).
  rewrite Hs at 1. rewrite map_app.
  assert (H1 : map (fun j => (c + j) mod n) (seq 0 (n - c)) = seq c (n - c)).
  { rewrite <- (Nat.add_0_r c) at 2. rewrite <- fmap_add_seq. apply map_ext_in. intros j Hj%in_seq. by rewrite Nat.mod_small by lia. }
  assert (H2 : map (fun j => (c + j) mod n) (seq (0 + (n - c)) c) = seq 0 c).
  { replace (0 + (n - c)) with ((n - c) + 0) by lia. rewrite <- fmap_add_seq. change (map ?f (?g <$> ?l)) with (f <$> (g <$> l)).
    rewrite <- list_fmap_compose. rewrite <- (list_fmap_id (seq 0 c)) at 2. apply list_fmap_ext. intros i j Hj%list_elem_of_lookup_2.
    apply elem_of_seq in Hj. cbn. rewrite mod_wrap by lia. unfold id. lia. }
  rewrite H1, H2.
  assert (Hs' : seq 0 n = seq 0 c ++ seq (0 + c) (n - c)) by (rewrite <- seq_app; f_equal; lia). by rewrite Hs', Permutation_app_comm.
Qed.

Lemma sum_one_to n : sum_list_with (fun j => j + 1) (seq 0 n) = expected n.
Proof.
  unfold expected. apply Nat.div_unique_exact; [done|]. induction n as [|n IH]; [done|].
  rewrite seq_S, sum_list_with_app. cbn. lia.
Qed.

Lemma sum_around n c : c < n -> sum_from n c (n - 1) = expected n.
Proof.
  intros Hc. rewrite sum_from_list. replace (S (n - 1)) with n by lia. rewrite <- sum_one_to.
  rewrite <- (sum_list_with_Permutation_proper (fun j => j + 1) _ _ (rotation n c Hc)). generalize (seq 0 n). intros l.
  induction l as [|j l IH]; [done|]. cbn [sum_list_with map]. by rewrite IH.
Qed.

Lemma sum_from_mono n c d d' : d <= d' -> sum_from n c d <= sum_from n c d'.
Proof. induction 1 as [|d' _ IH]; [done|]. cbn [sum_from]. lia. Qed.

Lemma slice_contribution off len total rank : off + len <= total -> slice off len (contribution total rank) = contribution len rank.
Proof. intros Hl. unfold slice, contribution. rewrite drop_replicate, take_replicate. f_equal. lia. Qed.

Lemma partial_contribution n chunk c d : c < n -> d <= n - 1 -> sum_from n c d <= exact ->
  partial n chunk (contribution (n * chunk)) c d = replicate chunk (of_nat (sum_from n c d)).
Proof.
  intros Hc. induction d as [|d IH]; intros Hd Hx; cbn [partial sum_from] in *.
  - rewrite slice_contribution by nia. unfold contribution. by rewrite Nat.mod_small.
  - rewrite IH by lia. rewrite slice_contribution by nia. unfold contribution. rewrite zip_with_replicate.
    by rewrite exact_add by lia.
Qed.

(** The ring's result on the contributions. *)
Lemma ring_contributions n chunk : 1 <= n -> expected n <= exact ->
  ring_result n chunk (contribution (n * chunk)) = replicate (n * chunk) (of_nat (expected n)).
Proof.
  intros Hn Hx. unfold ring_result, finished.
  assert (Hm : map (fun c => partial n chunk (contribution (n * chunk)) c (n - 1)) (seq 0 n) =
    map (fun _ => replicate chunk (of_nat (expected n))) (seq 0 n)).
  { apply map_ext_in. intros c Hc%in_seq. rewrite partial_contribution by (rewrite ?sum_around; lia). by rewrite sum_around by lia. }
  rewrite Hm. clear Hm Hx Hn. assert (Hg : forall m, concat (map (fun _ => replicate chunk (of_nat (expected n))) (seq 0 m)) =
    replicate (m * chunk) (of_nat (expected n))).
  { induction m as [|m IH]; [done|]. rewrite seq_S, map_app, concat_app, IH. cbn. rewrite app_nil_r, <- replicate_add. f_equal. lia. }
  apply Hg.
Qed.

(** ** The programs *)

(** [coll_ucx_example]: an allreduce of 256 elements per rank, and a scatter from rank 0 in
    which rank [r] gets [r + 0.5]. *)
Context (half : nat -> T).
Definition per_chunk : nat := 256.
Definition example_allreduce (c : UcxCommunicator) : Prog Z (list T) (RankResult T) :=
  ucx_allreduce T_default c (contribution (csize c * per_chunk) (crank c)).
Definition scatter_send (size : nat) : list T := concat (map (fun r => replicate per_chunk (half r)) (seq 0 size)).
Definition example_scatter (c : UcxCommunicator) : Prog RecvKey (list T) (RankResult T) :=
  ucx_scatter c (if decide (crank c = 0) then Some (scatter_send (csize c)) else None) (replicate per_chunk T_default) 0.

(** [coll_ucx_pipelined]: four micro-chunks of 1024 elements per rank. *)
Definition demo_pipeline {Proto} (eager : Proto) : PipelineConfig Proto := mkPipeline Proto 4 8 (Some eager).
Definition example_pipelined {Proto} (eager : Proto) (c : UcxCommunicator) :
    PoolRank (K := RecvKey) (T := T) (R := outcome (result unit CollectiveError)) :=
  allreduce_pipelined T_default c (contribution (csize c * 1024 * 4) (crank c)) (demo_pipeline eager).

(** [coll_adaptive]: four sizes, rounded up to a multiple of the number of ranks. *)
Definition sizes_elements : list nat := [64; 1024; 16 * 1024; 1024 * 1024].
Definition aligned (n size : nat) : nat := (n + size - 1) / size * size.
Definition example_adaptive {Proto} (c : UcxCommunicator) (n : nat) : AllreduceRun :=
  adaptive_allreduce T_default (mkAdaptive c (AdaptivePolicy_default (Proto := Proto))) 4 (contribution (aligned n (csize c)) (crank c)).

Context (n : nat) (comm : nat -> UcxCommunicator) (Hcomm : forall i, i < n -> CommOk n i (comm i)).

(** The demonstrations print no error.  For 2 to 65536 ranks whose sum is represented
    exactly, every interleaving of the ranks of [coll_ucx_example] and of
    [coll_ucx_pipelined] ends with [Ok] everywhere, with what the programs compare with in
    every element: [size * (size + 1) / 2] after the allreduces, and [r + 0.5] at rank [r]
    after the scatter. *)
Theorem demos_as_expected {Proto} (eager : Proto) : 2 <= n -> (Z.of_nat n <= 65536)%Z -> expected n <= exact ->
  Completes (ranks n (fun i => example_allreduce (comm i)))
    (map (fun _ => (replicate (n * per_chunk) (of_nat (expected n)), ROk tt)) (seq 0 n)) /\
  Completes (ranks n (fun i => example_scatter (comm i)))
    (map (fun i => (replicate per_chunk (half i), ROk tt)) (seq 0 n)) /\
  PoolCompletes (pranks n (fun i => example_pipelined eager (comm i)))
    (map (fun _ => (replicate (n * (4 * 1024)) (of_nat (expected n)), Ok (ROk tt))) (seq 0 n)).
Proof.
  intros Hn H16 Hx. assert (Hr : forall i, i < n -> crank (comm i) = i /\ csize (comm i) = n) by (intros i Hi; by destruct (Hcomm i Hi)).
  split; [|split].
  - rewrite (ranks_ext n _ (fun i => ring_allreduce T_default (comm i) (contribution (n * per_chunk) i) Ret)).
    + rewrite <- ring_contributions by lia. apply ring_completes; [done|done|done|]. intros i _. apply length_replicate.
    + intros i Hi. unfold example_allreduce, ucx_allreduce. by destruct (Hr i Hi) as [-> ->].
  - rewrite (ranks_ext n _ (fun i => scatter (comm i) (if decide (i = 0) then Some (scatter_send n) else None)
      (replicate per_chunk T_default) 0 Ret)); [|intros i Hi; unfold example_scatter, ucx_scatter; by destruct (Hr i Hi) as [-> ->]].
    assert (Hl : length (scatter_send n) = per_chunk * n).
    { unfold scatter_send. rewrite (concat_pieces_length n per_chunk (fun r => replicate per_chunk (half r))); [lia|]. intros. apply length_replicate. }
    assert (Hs := scatter_completes n 0 per_chunk comm (scatter_send n) (fun _ => replicate per_chunk T_default)
      Hn H16 ltac:(lia) Hcomm (fun _ _ => length_replicate _ _) Hl).
    unfold scatter_buf in Hs. replace (map (fun i => (replicate per_chunk (half i), ROk tt)) (seq 0 n))
      with (map (fun i => (chunk_of per_chunk (scatter_send n) i, ROk tt : result unit CollectiveError)) (seq 0 n)); [exact Hs|].
    apply map_ext_in. intros i Hi%in_seq. f_equal. unfold chunk_of, scatter_send.
    apply (slice_concat n per_chunk (fun r => replicate per_chunk (half r))); [intros; apply length_replicate|lia].
  - rewrite (pranks_ext n _ (fun i => pipe_rank T_default (comm i) (contribution (n * (4 * 1024)) i) (demo_pipeline eager))).
    + rewrite <- ring_contributions by lia. apply pipe_completes; try done; [cbn; lia|cbn; lia|]. intros i _. apply length_replicate.
    + intros i Hi. unfold example_pipelined, allreduce_pipelined. destruct (Hr i Hi) as [-> ->]. do 2 f_equal. lia.
Qed.

(** ** The adaptive demonstration *)

Lemma reduce_from len m : forall s a, a + sum_list_with (fun j => j + 1) (seq s m) <= exact ->
  foldl (zip_with op_apply) (replicate len (of_nat a)) (map (contribution len) (seq s m)) =
    replicate len (of_nat (a + sum_list_with (fun j => j + 1) (seq s m))).
Proof.
  induction m as [|m IH]; intros s a Hx; cbn [seq map foldl sum_list_with] in *; [by rewrite Nat.add_0_r|].
  change (contribution len s) with (replicate len (of_nat (s + 1))). rewrite zip_with_replicate, exact_add by lia. rewrite IH by lia. do 2 f_equal. lia.
Qed.

Lemma reduce_contributions len : 1 <= n -> expected n <= exact ->
  reduce_all n (contribution len) = replicate len (of_nat (expected n)).
Proof.
  intros Hn Hx. rewrite <- sum_one_to in *. destruct n as [|m]; [lia|]. cbn [seq sum_list_with] in *. unfold reduce_all.
  replace (S m - 1) with m by lia.
  change (contribution len 0) with (replicate len (of_nat (0 + 1))). by rewrite reduce_from by lia.
Qed.

Lemma aligned_multiple m k : 1 <= k -> exists q, aligned m k = q * k /\ (m mod k = 0 -> aligned m k = m) /\ aligned m k < m + k.
Proof.
  intros Hk. unfold aligned. eexists. split; [done|]. assert (Hd := Nat.div_mod_eq (m + k - 1) k).
  assert (Hlt := Nat.mod_upper_bound (m + k - 1) k ltac:(lia)). split; [|nia]. intros Hm.
  apply Nat.Div0.mod_divides in Hm as [q ->]. replace (k * q + k - 1) with (q * k + (k - 1)) by lia.
  rewrite Nat.div_add_l, (Nat.div_small (k - 1)) by lia. lia.
Qed.

(** The sizes are powers of two, and the two large ones at least 2^14. *)
Lemma sizes_powers m : m ∈ sizes_elements -> m <= 1024 \/ exists t, 14 <= t /\ m = 2 ^ t.
Proof.
  unfold sizes_elements. rewrite !elem_of_cons. intros [Hm|[Hm|[Hm|[Hm|Hm]]]].
  - left. by rewrite Hm; apply Nat.leb_le.
  - left. by rewrite Hm.
  - right. exists 14. split; [lia|]. by rewrite Hm.
  - right. exists (10 + 10). split; [lia|]. rewrite Nat.pow_add_r. exact Hm.
  - by apply elem_of_nil in Hm.
Qed.

Lemma aligned_power t k : k <= t -> aligned (2 ^ t) (2 ^ k) = 2 ^ t.
Proof.
  intros Hk. assert (Hp : 1 <= 2 ^ k) by (apply Nat.neq_0_le_1, Nat.pow_nonzero; lia).
  destruct (aligned_multiple (2 ^ t) (2 ^ k) Hp) as (q & _ & Hm & _). apply Hm.
  replace t with ((t - k) + k) by lia. rewrite Nat.pow_add_r. apply Nat.Div0.mod_mul.
Qed.
(** With a power of two up to 4096 no size fails. *)
Lemma aligned_shape {Proto} k size : k <= 12 -> size ∈ sizes_elements ->
  adaptive_error (AdaptivePolicy_default (Proto := Proto)) 4 (aligned size (2 ^ k)) (2 ^ k) = None.
Proof.
  intros Hk Hs. unfold adaptive_error. destruct (_ <=? 1); [done|]. assert (Hp : 1 <= 2 ^ k) by (apply Nat.neq_0_le_1, Nat.pow_nonzero; lia).
  destruct (aligned_multiple size (2 ^ k) Hp) as (q & Hq & _ & Hlt).
  assert (Hmod : aligned size (2 ^ k) mod 2 ^ k = 0) by (rewrite Hq; apply Nat.Div0.mod_mul).
  unfold choose_allreduce. destruct (_ && _ && _); [done|].
  destruct (Nat.leb_spec (large_threshold (AdaptivePolicy_default (Proto := Proto))) (aligned size (2 ^ k) * 4)) as [Hl|Hl];
    [|by rewrite Hmod].
  change (config_error (pipeline_config (AdaptivePolicy_default (Proto := Proto)))) with (@None CollectiveError). cbv iota.
  change (micro_chunks (pipeline_config (AdaptivePolicy_default (Proto := Proto)))) with 4. rewrite Hmod. cbn [Nat.eqb andb].
  change (large_threshold AdaptivePolicy_default) with (64 * 1024) in Hl.
  assert (Hpk : 2 ^ k <= 2 ^ 12) by (apply Nat.pow_le_mono_r; lia). change (2 ^ 12) with (4 * 1024) in Hpk.
  destruct (sizes_powers size Hs) as [Hsmall|(t & Ht & ->)]; [lia|]. clear Hl Hs Hlt Hpk Hq Hmod.
  rewrite aligned_power by lia. assert (He : 2 ^ t = 2 ^ (t - k - 2) * 4 * 2 ^ k).
  { replace t with ((t - k - 2) + 2 + k) at 1 by lia. by rewrite !Nat.pow_add_r. }
  by rewrite He, Nat.div_mul, Nat.Div0.mod_mul by lia.
Qed.

(** With three ranks the third size fails at every rank, untouched, and [expect] panics:
    16386 elements are above the threshold, and a chunk of 5462 is no multiple of the
    default four micro-chunks. *)
Lemma three_ranks_fail {Proto} (c : UcxCommunicator) : csize c = 3 ->
  example_adaptive (Proto := Proto) c (16 * 1024) =
    RunPool (returned (contribution (aligned (16 * 1024) 3) (crank c)) (Ok (RErr BadShape))).
Proof.
  intros Hc. unfold example_adaptive, adaptive_allreduce, allreduce_pipelined, pipe_rank, pipelined_ring. cbn [policy inner].
  rewrite Hc. unfold contribution. rewrite !length_replicate.
  assert (Ha : choose_allreduce (AdaptivePolicy_default (Proto := Proto)) (aligned (16 * 1024) 3 * 4) 3 =
    PipelinedRing PipelineConfig_default) by (by vm_compute).
  by rewrite Ha.
Qed.
End demo.

(** Three ranks whose numbers are 32-bit integers. *)
Lemma demos_as_expected_witness : exists T_default of_nat half,
  Completes (ranks 3 (fun i => example_allreduce (H := Sum_u32) T_default of_nat (full_comm 3 i)))
    (map (fun _ => (replicate (3 * per_chunk) (of_nat 6), ROk tt)) (seq 0 3)) /\
  Completes (ranks 3 (fun i => example_scatter T_default half (full_comm 3 i)))
    (map (fun i => (replicate per_chunk (half i), ROk tt)) (seq 0 3)) /\
  PoolCompletes (pranks 3 (fun i => example_pipelined (H := Sum_u32) T_default of_nat tt (full_comm 3 i)))
    (map (fun _ => (replicate (3 * (4 * 1024)) (of_nat 6), Ok (ROk tt))) (seq 0 3)).
Proof.
  exists 0%Z, Z.of_nat, (fun r => Z.of_nat (2 * r + 1)).
  apply (demos_as_expected (H := Sum_u32) 0%Z Z.of_nat 1000) with (n := 3).
  - intros a b Hab. cbn. unfold wrap32. rewrite Nat2Z.inj_add. apply Z.mod_small. lia.
  - intros i _. apply full_comm_ok.
  - lia.
  - lia.
  - by apply Nat.leb_le.
Defined.
