(* ===== verification/UnitTests.v ===== *)
(** * UnitTests: the unit tests of the repository, run on the model

    The [#[test]] functions of [src], as programs over the definitions of this library: an
    assertion that fails, an [unwrap] of an error and an expected panic are outcomes.  Where
    a test reads the clock or depends on what ran before it, the clock and the earlier state
    are parameters, and the theorem says for which of them the test passes.  The tests
    that need the kernel ([file.rs], [socket.rs]) are left out. *)

From Stdlib Require Import SpecFloat.
From S2P Require Import Prelude Spsc Future Track Slab Task Executor ExecutorDemo Timer CollBase AmRouter Pool PipeRing Adaptive Disjoint.
Local Open Scope Z_scope.

(** ** Assertions *)

Definition assert (b : bool) : outcome unit := if b then Ok tt else Panic "assertion failed".
Definition unwrap {A E} (r : result A E) : outcome A :=
  match r with ROk a => Ok a | RErr _ => Panic "called `Result::unwrap()` on an `Err` value" end.
Definition unwrap_err {A E} (r : result A E) : outcome E :=
  match r with RErr e => Ok e | ROk _ => Panic "called `Result::unwrap_err()` on an `Ok` value" end.
Definition passes (t : outcome unit) : Prop := t = Ok tt.
Definition ms (n : Z) : Z := n * 1000000.
Definition secs (n : Z) : Z := n * 1000000000.

(** ** [pluvio_runtime/src/executor/spsc.rs] *)

Section spsc.
Local Open Scope nat_scope.

Definition bounded_channel_preserves_fifo_and_capacity : outcome unit :=
  c ← bounded (A := nat) 2;
  _ ← assert (cap c =? 2);
  _ ← assert (ring_is_empty c);
  '(c, r) ← Sender_try_send c 10; _ ← unwrap r;
  '(c, r) ← Sender_try_send c 20; _ ← unwrap r;
  '(c, r) ← Sender_try_send c 30; err ← unwrap_err r;
  _ ← assert (match err with Full 30 => true | _ => false end);
  _ ← assert (ring_len c =? 2);
  '(c, r) ← Receiver_try_recv c; v ← unwrap r; _ ← assert (v =? 10);
  '(c, r) ← Sender_try_send c 30; _ ← unwrap r;
  '(c, r) ← Receiver_try_recv c; v ← unwrap r; _ ← assert (v =? 20);
  '(c, r) ← Receiver_try_recv c; v ← unwrap r; _ ← assert (v =? 30);
  '(_, r) ← Receiver_try_recv c;
  assert (match r with RErr RxEmpty => true | _ => false end).

Fixpoint send_range (c : Inner nat) (l : list nat) : outcome (Inner nat) :=
  match l with
  | [] => mret c
  | i :: l => '(c, r) ← Sender_try_send c i; _ ← unwrap r; send_range c l
  end.

Fixpoint recv_range (c : Inner nat) (l : list nat) : outcome (Inner nat) :=
  match l with
  | [] => mret c
  | i :: l => '(c, r) ← Receiver_try_recv c; v ← unwrap r; _ ← assert (v =? i); recv_range c l
  end.

Definition unbounded_channel_grows_buffer : outcome unit :=
  c ← unbounded_channel;
  let initial_capacity := cap c in
  _ ← assert (1 <=? initial_capacity);
  let total_messages := initial_capacity + 5 in
  c ← send_range c (seq 0 total_messages);
  _ ← assert (initial_capacity <? cap c);
  _ ← assert (ring_len c =? total_messages);
  c ← recv_range c (seq 0 total_messages);
  assert (ring_is_empty c).

Definition disconnect_propagates_errors : outcome unit :=
  c ← bounded (A := nat) 1;
  let c := Receiver_drop c in
  '(_, r) ← Sender_try_send c 42; err ← unwrap_err r;
  _ ← assert (match err with Disconnected 42 => true | _ => false end);
  c ← bounded (A := nat) 1;
  let c := Sender_drop c in
  '(_, r) ← Receiver_try_recv c;
  assert (match r with RErr RxDisconnected => true | _ => false end).
End spsc.

Lemma spsc_tests_pass : passes bounded_channel_preserves_fifo_and_capacity /\ passes unbounded_channel_grows_buffer /\
  passes disconnect_propagates_errors.
Proof. split; [|split]; vm_compute; reflexivity. Qed.

(** ** [pluvio_timer/src/lib.rs] *)

Section timer.
(** The waker of [futures::task::noop_waker], the readings of the clock, and the handles
    made before by other tests. *)
Context (noop_waker : Waker) (now : nat -> Z) (counter : Z).
Definition is_running (s : ReactorStatus) : bool := match s with Running => true | Stopped => false end.
Definition count_is (n : nat) (r : TimerState) : outcome unit := assert (Nat.eqb (timer_count r) n).

#[local] Program Instance test_timer : HasTimer (TimerState * nat) := {
  get_timer e := e.1;
  put_timer t e := (t, e.2);
  read_now e := ((e.1, S e.2), now e.2)
}.
Next Obligation. done. Qed.
Next Obligation. done. Qed.

(** [TimerReactor::current()]: a test runs on a thread of its own. *)
Definition TimerReactor_current : TimerState := TimerReactor_new counter.

Definition test_timer_reactor_basic : outcome unit :=
  let reactor := TimerReactor_current in
  _ ← count_is 0 reactor; _ ← assert (negb (is_running (timer_status reactor)));
  let deadline := now 0%nat + ms 100 in
  let (reactor, handle) := register_timer deadline noop_waker reactor in
  _ ← count_is 1 reactor; _ ← assert (is_running (timer_status reactor));
  let (reactor, cancelled) := cancel_timer handle reactor in
  _ ← assert cancelled; _ ← count_is 0 reactor; assert (negb (is_running (timer_status reactor))).

Definition test_timer_expiration : outcome unit :=
  let deadline := now 0%nat - ms 100 in
  let reactor := (register_timer deadline noop_waker TimerReactor_current).1 in
  _ ← count_is 1 reactor; _ ← assert (is_running (timer_status reactor));
  let reactor := (wake_expired_timers (now 1%nat) reactor).1.1 in
  _ ← count_is 0 reactor; assert (negb (is_running (timer_status reactor))).

Definition test_multiple_timers_ordered_expiration : outcome unit :=
  let now0 := now 0%nat in
  let reactor := (register_timer (now0 + ms 300) noop_waker TimerReactor_current).1 in
  let reactor := (register_timer (now0 + ms 100) noop_waker reactor).1 in
  let reactor := (register_timer (now0 + ms 200) noop_waker reactor).1 in
  _ ← count_is 3 reactor;
  (* 150ms later *)
  let reactor := (wake_expired_timers (now 1%nat) reactor).1.1 in
  count_is 2 reactor.

Definition test_timer_handle_ordering : outcome unit :=
  let now0 := now 0%nat in
  let (st, handle1) := TimerHandle_new (now0 + secs 1) TimerReactor_current in
  let (st, handle2) := TimerHandle_new (now0 + secs 2) st in
  let (_, handle3) := TimerHandle_new (now0 + secs 1) st in
  _ ← assert (handle_lt handle1 handle2);
  _ ← assert (negb ((deadline handle1 =? deadline handle3) && (hid handle1 =? hid handle3)));
  assert (handle_lt handle1 handle3 || handle_lt handle3 handle1).

Definition test_delay_methods : outcome unit :=
  let duration := secs 5 in
  let (s, delay) := Delay_new duration (TimerReactor_current, 0%nat) in
  let (s, now1) := read_now s in
  let expected_deadline := now1 + duration in
  let actual_deadline := Delay_deadline delay in
  _ ← assert (expected_deadline - ms 10 <=? actual_deadline);
  _ ← assert (actual_deadline <=? expected_deadline + ms 10);
  let (_, remaining) := Delay_remaining delay s in
  _ ← assert (remaining <=? duration);
  assert (duration - ms 10 <=? remaining).

Definition test_delay_new_at : outcome unit :=
  let deadline := now 0%nat + secs 10 in
  let delay := Delay_new_at deadline in
  assert (Delay_deadline delay =? deadline).

Definition test_cancel_nonexistent_timer : outcome unit :=
  let (reactor, fake_handle) := TimerHandle_new (now 0%nat) TimerReactor_current in
  assert (negb (cancel_timer fake_handle reactor).2).

Definition test_default_trait : outcome unit := count_is 0 TimerReactor_current.
End timer.

Lemma polled_count t st l : TimerInv st -> timers st ≡ₚ l ->
  let st' := (wake_expired_timers t st).1.1 in
  timer_count st' = length (filter (fun e => ~ expired_at t e) l) /\
  timer_count_atomic st' = Z.of_nat (length (filter (fun e => ~ expired_at t e) l)).
Proof. intros HI Hl. cbv zeta. rewrite wake_expired_eq by done. unfold timer_count. cbn. by rewrite Hl. Qed.

Lemma filter_expired t d i k (l : Timers) : filter (fun e => ~ expired_at t e) ((mkHandle d i, k) :: l) =
  if t <? d then (mkHandle d i, k) :: filter (fun e => ~ expired_at t e) l else filter (fun e => ~ expired_at t e) l.
Proof. rewrite filter_cons. unfold expired_at at 1. cbn. case_decide; destruct (Z.ltb_spec t d); done || lia. Qed.

(** The tests pass for every clock and whatever handles were made before, but two of them
    ask for a clock that keeps pace: the poll has to come between 100 and 200
    milliseconds after the start, and three readings within 10 milliseconds. *)
Lemma timer_tests_pass noop_waker now counter : (forall t, now t <= now (S t)) -> 0 <= counter -> counter + 3 <= u64_max ->
  passes (test_timer_reactor_basic noop_waker now counter) /\ passes (test_timer_expiration noop_waker now counter) /\
  (ms 100 <= now 1%nat - now 0%nat < ms 200 -> passes (test_multiple_timers_ordered_expiration noop_waker now counter)) /\
  passes (test_timer_handle_ordering now counter) /\
  (now 2%nat <= now 0%nat + ms 10 -> passes (test_delay_methods now counter)) /\
  passes (test_delay_new_at now) /\ passes (test_cancel_nonexistent_timer now counter) /\ passes (test_default_trait counter).
Proof.
  intros Hnow H0 H3. assert (H01 := Hnow 0%nat). assert (H12 := Hnow 1%nat).
  assert (HI : TimerInv (TimerReactor_current counter)) by (apply timer_inv_new; lia).
  split; [|split; [|split; [|split; [|split; [|split; [|split] ] ] ] ] ].
  - unfold passes, test_timer_reactor_basic, register_timer, cancel_timer. cbn. rewrite bool_decide_true by done.
    change (wrap64 (0 + 1)) with 1. by change (wrap64 (1 - 1)) with 0.
  - unfold passes, test_timer_expiration.
    destruct (register_inv (now 0%nat - ms 100) noop_waker _ HI) as (st & -> & HI1 & Hp & _); [cbn; lia|cbn; lia|].
    destruct (polled_count (now 1%nat) st _ HI1 Hp) as [Hc Ha]. unfold count_is, timer_status. cbn [fst].
    rewrite Hc, Ha. unfold timer_count. rewrite (ti_count _ HI1), !(Permutation_length Hp), filter_expired.
    unfold ms. destruct (Z.ltb_spec (now 1%nat) (now 0%nat - 100 * 1000000)); [lia|]. done.
  - intros Ht. unfold passes, test_multiple_timers_ordered_expiration. cbv zeta.
    destruct (register_inv (now 0%nat + ms 300) noop_waker _ HI) as (st1 & -> & HI1 & Hp1 & Hc1); [cbn; lia|cbn; lia|].
    cbn [fst]. assert (Hl1 := Permutation_length Hp1). cbn in Hl1, Hc1.
    destruct (register_inv (now 0%nat + ms 100) noop_waker st1 HI1) as (st2 & -> & HI2 & Hp2 & Hc2); [lia|lia|].
    cbn [fst]. assert (Hl2 := Permutation_length Hp2). cbn in Hl2.
    destruct (register_inv (now 0%nat + ms 200) noop_waker st2 HI2) as (st3 & -> & HI3 & Hp3 & _); [lia|lia|].
    cbn [fst]. rewrite Hp2, Hp1 in Hp3. destruct (polled_count (now 1%nat) st3 _ HI3 Hp3) as [Hc _].
    unfold count_is. rewrite Hc. unfold timer_count at 1. rewrite Hp3, !filter_expired. unfold ms in *.
    destruct (Z.ltb_spec (now 1%nat) (now 0%nat + 200 * 1000000)); [|lia].
    destruct (Z.ltb_spec (now 1%nat) (now 0%nat + 100 * 1000000)); [lia|].
    destruct (Z.ltb_spec (now 1%nat) (now 0%nat + 300 * 1000000)); [|lia]. done.
  - unfold passes, test_timer_handle_ordering, handle_lt. cbn. unfold secs.
    rewrite !wrap64_small by (unfold in_u64, u64_max in *; rewrite ?wrap64_small; unfold in_u64; lia).
    destruct (Z.ltb_spec (now 0%nat + 1 * 1000000000) (now 0%nat + 2 * 1000000000)); [|lia].
    rewrite Z.ltb_irrefl, Z.eqb_refl. destruct (Z.eqb_spec counter (counter + 1 + 1)); [lia|].
    destruct (Z.ltb_spec counter (counter + 1 + 1)); [done|lia].
  - intros Ht. unfold passes, test_delay_methods, Delay_new, Delay_remaining, Delay_deadline, assert, secs, ms in *. cbn.
    repeat match goal with |- context [Z.leb ?a ?b] => destruct (Z.leb_spec a b); [|lia]; cbn end. done.
  - unfold passes, test_delay_new_at, Delay_deadline. cbn. by rewrite Z.eqb_refl.
  - done.
  - done.
Qed.

(** ** [pluvio_runtime/src/executor/mod.rs] *)

(** Run on the programs of [ExecutorDemo]; [async {}] returns at its first poll. *)
Definition async_nothing : Demo := Yield 0 0.

Definition run_stops_after_simple_spawned_task : outcome unit :=
  w ← demo_world;
  '(w, _) ← spawn_with_runtime async_nothing w;
  let (w, start) := read_clock w in
  '(w, _) ← run_with_name_and_runtime 100 "run_stops_after_simple_spawned_task" async_nothing w;
  let (w, stop) := read_clock w in
  assert (stop - start <? ms 500).

Definition tls_spawn_and_run : outcome DemoWorld :=
  w ← demo_world;
  let w := set_runtime w in
  '(w, _) ← spawn async_nothing w;
  let (w, start) := read_clock w in
  '(w, _) ← run_with_name 100 "tls_spawn_and_run" async_nothing w;
  let (w, stop) := read_clock w in
  _ ← assert (stop - start <? ms 500);
  mret (clear_runtime w).

Definition tls_spawn_without_runtime_panics (w : DemoWorld) : outcome unit :=
  _ ← spawn async_nothing w; mret tt.

Lemma executor_tests_pass : passes run_stops_after_simple_spawned_task /\ is_Ok tls_spawn_and_run /\
  forall w, get_runtime w = None -> tls_spawn_without_runtime_panics w = Panic no_runtime.
Proof.
  split; [vm_compute; reflexivity|split; [eexists; vm_compute; reflexivity|] ]. intros w Hw.
  unfold tls_spawn_without_runtime_panics, spawn. by rewrite Hw.
Qed.

(** ** [pluvio_runtime/src/executor/stat.rs], [task/stat.rs] and [select.rs] *)

(** [retain]: what the process-wide cell holds when the test starts. *)
Definition add_task_stat_records_finished_tasks (retain : option bool) : outcome unit :=
  let getenv name := if bool_decide (name = "PLUVIO_RETAIN_TASK_STATS"%string) then Some "1"%string else None in
  let stats := RuntimeStat_new in
  w ← demo_world;
  let '(_, slot, _) := create_task_and_handle (BodySpawned 1%nat (Untracked (Yield 0 5))) 1 TaskQueue (Some "unit"%string) w in
  '(_, stats, _) ← add_task_stat getenv (Some slot) retain stats;
  let recorded := finished_task_stats stats in
  _ ← assert (Nat.eqb (length recorded) 1);
  st ← expect "index out of bounds" (recorded !! 0%nat);
  _ ← assert (bool_decide (task_name st = Some "unit"%string));
  assert (negb (running st)).

Definition add_pool_and_completion_time_accumulates : outcome unit :=
  let stats := add_pool_and_completion_time 5 (add_pool_and_completion_time 10 RuntimeStat_new) in
  assert (pool_and_completion_time stats =? 15).

Definition add_task_stat_ignores_missing_entry (getenv : string -> option string) (retain : option bool) : outcome unit :=
  '(_, stats, _) ← add_task_stat (TF := unit) getenv None retain RuntimeStat_new;
  assert (Nat.eqb (length (finished_task_stats stats)) 0).

Definition execute_time_accumulates : outcome unit :=
  let stat := add_execute_time 5 (add_execute_time 10 (TaskStat_new (Some "unit"%string))) in
  assert (get_execute_time stat =? 15).

Definition elapsed_real_time_returns_duration (start : Z) : outcome unit :=
  let stop := start + ms 5 in
  let stat := stat_end stop (stat_start start (TaskStat_new None)) in
  assert (bool_decide (get_elapsed_real_time stat = Some (stop - start))).

Definition test_either_variants : outcome unit :=
  let left : Either Z string := Left 42 in
  let right : Either Z string := Right "hello"%string in
  _ ← assert (match left with Left 42 => true | _ => false end);
  assert (match right with Right "hello"%string => true | _ => false end).

(** The first passes unless something read the environment variable before it: when another
    test has retired a task, the cell is filled and what the test sets is not looked at. *)
Lemma stat_tests_pass getenv retain start :
  (passes (add_task_stat_records_finished_tasks retain) <-> retain <> Some false) /\
  passes add_pool_and_completion_time_accumulates /\ passes (add_task_stat_ignores_missing_entry getenv retain) /\
  passes execute_time_accumulates /\ passes (elapsed_real_time_returns_duration start) /\ passes test_either_variants.
Proof.
  split; [|split; [done|split; [by destruct retain|split; [done|split; [|done] ] ] ] ].
  - unfold passes. destruct retain as [[|]|]; vm_compute; split; try done; by intros [].
  - unfold passes, elapsed_real_time_returns_duration, get_elapsed_real_time. cbn. rewrite bool_decide_true; [done|].
    unfold ms. f_equal. lia.
Qed.

(** ** [pluvio_collective/src/ucx_backend/am_router.rs] *)

Definition header_roundtrip : outcome unit :=
  let h := mkHeader 7 3 1 9 in
  let bytes := header_encode h in
  decoded ← unwrap (header_decode bytes);
  assert (bool_decide (key_of h = key_of decoded)).

Definition header_too_short : outcome unit :=
  err ← unwrap_err (header_decode (replicate 4 0));
  match err with
  | BadHeader got expected => _ ← assert (Nat.eqb got 4); assert (Nat.eqb expected BYTES)
  | _ => Panic "unexpected error"
  end.

Definition micro_chunk_disambiguates_keys : outcome unit :=
  let a := mkHeader 1 2 0 0 in
  let b := mkHeader 1 2 0 1 in
  assert (negb (bool_decide (key_of a = key_of b))).

Definition early_arrival_then_recv : outcome unit :=
  let router := AmRouter_new in
  let key := key_of (mkHeader 1 0 0 0) in
  let router := (deliver key [1; 2; 3; 4] router).1 in
  let (router, o) := take_early key router in
  bytes ← expect "called `Option::unwrap()` on a `None` value" o;
  _ ← assert (bool_decide (bytes = [1; 2; 3; 4]));
  assert (bool_decide ((take_early key router).2 = None)).

(** [debug]: with debug assertions. *)
Definition pending_then_deliver_copies_to_target (debug : bool) : outcome unit :=
  let key := key_of (mkHeader 0 5 1 0) in
  let target := replicate 4 0 in
  let router := set_cell 0 (mkCell false target) AmRouter_new in
  router ← register_pending debug key (mkPending 0 (length target) None) router;
  _ ← assert (Nat.eqb (pending_count router) 1);
  let router := (deliver key [10; 20; 30; 40] router).1 in
  _ ← assert (cdone (cell_at 0 router));
  _ ← assert (bool_decide (ctarget (cell_at 0 router) = [10; 20; 30; 40]));
  assert (Nat.eqb (pending_count router) 0).

Lemma router_tests_pass debug : passes header_roundtrip /\ passes header_too_short /\ passes micro_chunk_disambiguates_keys /\
  passes early_arrival_then_recv /\ passes (pending_then_deliver_copies_to_target debug).
Proof. repeat (split; [vm_compute; reflexivity|]). destruct debug; vm_compute; reflexivity. Qed.

(** ** [pluvio_collective/src/ucx_backend/adaptive.rs] and [op.rs] *)

Section adaptive.
Local Open Scope nat_scope.
Definition pick (policy : AdaptivePolicy unit) (bytes n : nat) : AllreduceAlgo unit := choose_allreduce policy bytes n.

Definition policy_small_pow2_chooses_rd : outcome unit :=
  let p := AdaptivePolicy_default in
  assert (match pick p 256 4 with RecursiveDoubling => true | _ => false end).
Definition policy_small_non_pow2_falls_back_to_ring : outcome unit :=
  let p := AdaptivePolicy_default in
  assert (match pick p 256 3 with PlainRing => true | _ => false end).
Definition policy_medium_uses_plain_ring : outcome unit :=
  let p := AdaptivePolicy_default in
  assert (match pick p (8 * 1024) 4 with PlainRing => true | _ => false end).
Definition policy_large_uses_pipelined : outcome unit :=
  let p := AdaptivePolicy_default in
  assert (match pick p (2 ^ 20) 4 with PipelinedRing _ => true | _ => false end).

Lemma policy_tests_pass : passes policy_small_pow2_chooses_rd /\ passes policy_small_non_pow2_falls_back_to_ring /\
  passes policy_medium_uses_plain_ring /\ passes policy_large_uses_pipelined.
Proof. repeat split; vm_compute; reflexivity. Qed.
End adaptive.

(** [m * 2 ^ e] as an [f32], and as an [f64]. *)
Definition f32 (m : positive) (e : Z) : spec_float := binary_normalize 24 128 (Zpos m) e false.
Definition f64 (m : positive) (e : Z) : spec_float := binary_normalize 53 1024 (Zpos m) e false.

Definition sum_identity_f32 : outcome unit :=
  let O := Sum_float 24 128 in
  let id := op_identity (Op := O) in
  _ ← assert (SFeqb (op_apply (Op := O) id (f32 7 (-1))) (f32 7 (-1)));
  assert (SFeqb (op_apply (Op := O) (f32 7 (-1)) id) (f32 7 (-1))).

Definition max_min_identity_f64 : outcome unit :=
  let id_max := op_identity (Op := Max_float 53 1024) in
  let id_min := op_identity (Op := Min_float 53 1024) in
  _ ← assert (SFeqb (op_apply (Op := Max_float 53 1024) id_max (f64 1 0)) (f64 1 0));
  assert (SFeqb (op_apply (Op := Min_float 53 1024) id_min (f64 1 0)) (f64 1 0)).

Definition prod_identity_f32 : outcome unit :=
  let O := Prod_float 24 128 in
  let id := op_identity (Op := O) in
  assert (SFeqb (op_apply (Op := O) id (f32 5 (-1))) (f32 5 (-1))).

Definition xor_identity_u32 : outcome unit :=
  let O := BitXor_u32 in
  let id := op_identity (Op := O) in
  _ ← assert (op_apply (Op := O) id 0xdeadbeef =? 0xdeadbeef);
  assert (op_apply (Op := O) 0xdeadbeef 0xdeadbeef =? 0).

Lemma op_tests_pass : passes sum_identity_f32 /\ passes max_min_identity_f64 /\ passes prod_identity_f32 /\ passes xor_identity_u32.
Proof. repeat (split; [vm_compute; reflexivity|]). vm_compute. reflexivity. Qed.

(** ** [pluvio_collective/src/ucx_backend/util.rs] *)

(** [for (i, p) in parts.into_iter().enumerate()]: every element of [p] becomes [i]. *)
Fixpoint fill_parts (i : Z) (parts : list View) (buf : list Z) : list Z :=
  match parts with
  | [] => buf
  | p :: parts => fill_parts (i + 1) parts (view_set p (replicate (vlen p) i) buf)
  end.

Definition split_disjoint_basic (debug : bool) : outcome unit :=
  let buf := replicate 16 0 in
  parts ← split_disjoint_mut debug buf [(0, 4); (4, 8); (12, 4)]%nat;
  let buf := fill_parts 0 parts buf in
  _ ← assert (bool_decide (slice 0 4 buf = [0; 0; 0; 0]));
  _ ← assert (bool_decide (slice 4 8 buf = [1; 1; 1; 1; 1; 1; 1; 1]));
  assert (bool_decide (slice 12 4 buf = [2; 2; 2; 2])).

Lemma split_test_passes debug : passes (split_disjoint_basic debug).
Proof. destruct debug; vm_compute; reflexivity. Qed.
